(** * Backend orchestration layer of claude-code-flow: lifecycle state machine,
      dependency resolver, service manager, component initializer, orchestrator.

    Sources embedded here:
    - src/core/backend-service-manager.ts  (BaseBackendService, BackendServiceManager)
    - src/core/backend-initializer.ts      (BackendInitializer, BackendComponentFactory)
    - src/core/backend-orchestrator.ts     (BackendOrchestrator)
    - src/services/coordination-service.ts (CoordinationService.beforeStart)
    - src/services/orchestrator-service.ts (OrchestratorService)
    - src/backend-init.ts                  (initializeBackend, checkBackendHealth)

    Asynchronous methods are embedded as they execute on the single event-loop
    thread when no two of them overlap: every [await] runs to completion.
    A method is a function from the object's state to the new state, the
    list of externally visible effects it produced, and a value or a thrown
    exception.  Mutations made before a [throw] persist, as in JavaScript. *)

From Stdlib Require Import List String Bool Arith Lia ZArith Relations.
From Stdlib Require QArith.
Import ListNotations.
Local Open Scope string_scope.
Local Open Scope list_scope.

(** Template-literal concatenation. *)
Infix "+++" := String.append (at level 60, right associativity).

(* ===================================================================== *)
(** ** Errors, effects and the method monad *)
(* ===================================================================== *)

(** Modelled from the spec: utils/errors.js is not part of the sources; the
    classes below are those imported by the three core files, the built-in
    [Error], and [CyclicDependencyError] from the error taxonomy of the
    specification (section 7).  No code path constructs the latter. *)
Inductive ErrorKind : Type :=
| ServiceError
| ServiceStartupError
| ServiceShutdownError
| InitializationError
| SystemError
| CyclicDependencyError
| PlainError.

Record Exn : Type := mkExn { exnKind : ErrorKind; exnMessage : string }.

Definition ErrorKind_eqb (a b : ErrorKind) : bool :=
  match a, b with
  | ServiceError, ServiceError
  | ServiceStartupError, ServiceStartupError
  | ServiceShutdownError, ServiceShutdownError
  | InitializationError, InitializationError
  | SystemError, SystemError
  | CyclicDependencyError, CyclicDependencyError
  | PlainError, PlainError => true
  | _, _ => false
  end.

Inductive ServiceState : Type :=
| STOPPED | STARTING | RUNNING | STOPPING | ERROR | MAINTENANCE.

Definition ServiceState_eqb (a b : ServiceState) : bool :=
  match a, b with
  | STOPPED, STOPPED | STARTING, STARTING | RUNNING, RUNNING
  | STOPPING, STOPPING | ERROR, ERROR | MAINTENANCE, MAINTENANCE => true
  | _, _ => false
  end.

Inductive LogLevel : Type := LDebug | LInfo | LWarn | LError.

(** The code a subclass (or a component object) supplies. *)
Inductive Hook : Type :=
| HBeforeStart | HDoStart | HAfterStart
| HBeforeStop | HDoStop | HAfterStop
| HDoHealthCheck
| HInitialize | HShutdown | HGetHealthStatus.

(** What a method does to the outside world, in program order. [ESetState]
    records an assignment to [this.state]; [ECall] the invocation of
    subclass-supplied code. *)
Inductive Effect : Type :=
| ELog (lvl : LogLevel) (msg : string) (subject : string)
| EEmit (topic : string) (subject : string)
| ESetState (service : string) (s : ServiceState)
| ECall (subject : string) (h : Hook)
| EDelay (ms : Z).

Inductive res (A : Type) : Type :=
| Val (a : A)
| Exc (e : Exn).
Arguments Val {A} a.
Arguments Exc {A} e.

Definition M (S A : Type) : Type := S -> S * list Effect * res A.

Definition ret {S A} (a : A) : M S A := fun s => (s, [], Val a).

Definition bind {S A B} (m : M S A) (k : A -> M S B) : M S B :=
  fun s =>
    match m s with
    | (s1, t1, Val a) =>
        match k a s1 with
        | (s2, t2, r) => (s2, t1 ++ t2, r)
        end
    | (s1, t1, Exc e) => (s1, t1, Exc e)
    end.

Definition throw {S A} (e : Exn) : M S A := fun s => (s, [], Exc e).

(** [try { m } catch (e) { h e }] *)
Definition tryCatch {S A} (m : M S A) (h : Exn -> M S A) : M S A :=
  fun s =>
    match m s with
    | (s1, t1, Val a) => (s1, t1, Val a)
    | (s1, t1, Exc e) =>
        match h e s1 with
        | (s2, t2, r) => (s2, t1 ++ t2, r)
        end
    end.

Definition tell {S} (e : Effect) : M S unit := fun s => (s, [e], Val tt).
Definition get {S} : M S S := fun s => (s, [], Val s).
Definition modify {S} (f : S -> S) : M S unit := fun s => (f s, [], Val tt).

Declare Scope method_scope.
Delimit Scope method_scope with method.
Notation "x <- m ;; k" := (bind m (fun x => k))
  (at level 61, m at next level, right associativity) : method_scope.
Notation "m ;; k" := (bind m (fun _ => k))
  (at level 61, right associativity) : method_scope.
Local Open Scope method_scope.

(** Projections of a method's outcome. *)
Definition stateOf {S A} (o : S * list Effect * res A) : S := fst (fst o).
Definition traceOf {S A} (o : S * list Effect * res A) : list Effect := snd (fst o).
Definition resultOf {S A} (o : S * list Effect * res A) : res A := snd o.

Definition raised {A} (r : res A) : bool :=
  match r with Val _ => false | Exc _ => true end.

(* ===================================================================== *)
(** ** JavaScript containers: Set<string> and Map<string, V> *)
(* ===================================================================== *)

(** A [Set<string>] iterates in insertion order and holds no duplicates. *)
Module StrSet.
Definition t : Type := list string.
Definition empty : t := [].
Definition has (x : string) (s : t) : bool := existsb (String.eqb x) s.
Definition add (x : string) (s : t) : t := if has x s then s else s ++ [x].
Definition delete (x : string) (s : t) : t :=
  filter (fun y => negb (String.eqb x y)) s.
Definition ofArray (l : list string) : t := fold_left (fun s x => add x s) l empty.
End StrSet.

(** A [Map<string, V>] iterates in insertion order of its keys; [set] on a
    present key replaces the value in place. *)
Module StrMap.
Section WithValue.
Context {V : Type}.
Definition t : Type := list (string * V).
Definition empty : t := [].
Fixpoint get (k : string) (m : t) : option V :=
  match m with
  | [] => None
  | (k', v) :: r => if String.eqb k k' then Some v else get k r
  end.
Definition has (k : string) (m : t) : bool :=
  match get k m with Some _ => true | None => false end.
Fixpoint set (k : string) (v : V) (m : t) : t :=
  match m with
  | [] => [(k, v)]
  | (k', v') :: r => if String.eqb k k' then (k', v) :: r else (k', v') :: set k v r
  end.
Definition delete (k : string) (m : t) : t :=
  filter (fun kv => negb (String.eqb k (fst kv))) m.
Definition keys (m : t) : list string := map fst m.
Definition values (m : t) : list V := map snd m.
End WithValue.
Arguments t V : clear implicits.
End StrMap.

(* ===================================================================== *)
(** ** Lifecycle state machine: BaseBackendService *)
(* ===================================================================== *)

Record ServiceMetrics : Type := mkMetrics {
  restartCount : Z;
  errorCount : Z;
  lastError : option string
}.

Record ServiceConfig : Type := mkServiceConfig {
  startupTimeout : Z;
  shutdownTimeout : Z;
  healthCheckInterval : Z;
  maxRestartAttempts : Z;
  restartDelay : Z;
  enableAutoRestart : bool
}.

Definition DEFAULT_SERVICE_CONFIG : ServiceConfig :=
  {| startupTimeout := 30000; shutdownTimeout := 15000;
     healthCheckInterval := 10000; maxRestartAttempts := 3;
     restartDelay := 2000; enableAutoRestart := true |}.

(** How a promise raced against a timeout ends: it resolves, it rejects with
    a message, or it is still pending when the timeout fires. *)
Inductive Settle : Type :=
| Resolves
| Rejects (msg : string)
| StillPending.

Section Lifecycle.

(** Private state of the concrete subclass. *)
Variable Impl : Type.

(** The abstract methods [doStart], [doStop], [doHealthCheck] and the
    optional hooks.  An optional hook is [None] when the subclass does not
    define it; a hook returns [Some msg] when it throws.  A hook acts on the
    private state only: the log lines a concrete subclass writes in a hook
    and the events it emits there (the "orchestrator:ready" of
    [OrchestratorService.afterStart], say) are not part of a trace, which
    records the call of the hook and the lines and events of the base
    class. *)
Record Hooks : Type := mkHooks {
  beforeStart : option (Impl -> Impl * option string);
  doStart : Impl -> Impl * Settle;
  afterStart : option (Impl -> Impl * option string);
  beforeStop : option (Impl -> Impl * option string);
  doStop : Impl -> Impl * Settle;
  afterStop : option (Impl -> Impl * option string);
  doHealthCheck : Impl -> Impl * (bool + string)
}.

(** Fields of a service object.  [healthCheckHandle] tells whether
    [this.healthCheckInterval] holds a timer; [liveTimers] counts the
    [setInterval] timers created and not yet cleared.  Clock-valued fields
    ([startTime], [lastHealthCheck], [lastRestart], [uptime]) are left out. *)
Record Service : Type := mkService {
  name : string;
  version : string;
  description : string;
  dependencies : list string;
  isRequired : bool;
  config : ServiceConfig;
  hooks : Hooks;
  state : ServiceState;
  metrics : ServiceMetrics;
  healthCheckHandle : bool;
  liveTimers : nat;
  impl : Impl
}.

Definition withState (s : ServiceState) (v : Service) : Service :=
  mkService (name v) (version v) (description v) (dependencies v) (isRequired v)
    (config v) (hooks v) s (metrics v) (healthCheckHandle v) (liveTimers v) (impl v).

Definition withMetrics (m : ServiceMetrics) (v : Service) : Service :=
  mkService (name v) (version v) (description v) (dependencies v) (isRequired v)
    (config v) (hooks v) (state v) m (healthCheckHandle v) (liveTimers v) (impl v).

Definition withTimer (h : bool) (n : nat) (v : Service) : Service :=
  mkService (name v) (version v) (description v) (dependencies v) (isRequired v)
    (config v) (hooks v) (state v) (metrics v) h n (impl v).

Definition withImpl (i : Impl) (v : Service) : Service :=
  mkService (name v) (version v) (description v) (dependencies v) (isRequired v)
    (config v) (hooks v) (state v) (metrics v) (healthCheckHandle v) (liveTimers v) i.

(** The constructor: state [STOPPED], zeroed metrics, no timer. *)
Definition newService (n ver descr : string) (deps : list string) (req : bool)
  (cfg : ServiceConfig) (h : Hooks) (i : Impl) : Service :=
  mkService n ver descr deps req cfg h STOPPED (mkMetrics 0 0 None) false 0 i.

(** [this.state = s] *)
Definition setState (s : ServiceState) : M Service unit :=
  v <- get ;; tell (ESetState (name v) s) ;; modify (withState s).

Definition logSvc (lvl : LogLevel) (msg : string) : M Service unit :=
  v <- get ;; tell (ELog lvl msg (name v)).

Definition emitSvc (topic : string) : M Service unit :=
  v <- get ;; tell (EEmit topic (name v)).

(** [if (this.hook) { await this.hook(); }] *)
Definition runHook (h : Hook) (f : option (Impl -> Impl * option string))
  : M Service unit :=
  match f with
  | None => ret tt
  | Some g =>
      v <- get ;;
      tell (ECall (name v) h) ;;
      match g (impl v) with
      | (i, None) => modify (withImpl i)
      | (i, Some msg) => modify (withImpl i) ;; throw (mkExn PlainError msg)
      end
  end.

(** [await Promise.race([this.doX(), delay(t).then(() => { throw timeoutErr })])] *)
Definition raceTimeout (h : Hook) (f : Impl -> Impl * Settle) (t : Z)
  (timeoutErr : Exn) : M Service unit :=
  v <- get ;;
  tell (ECall (name v) h) ;;
  match f (impl v) with
  | (i, Resolves) => modify (withImpl i)
  | (i, Rejects msg) => modify (withImpl i) ;; throw (mkExn PlainError msg)
  | (i, StillPending) => modify (withImpl i) ;; tell (EDelay t) ;; throw timeoutErr
  end.

(** The [catch] blocks of [start] and [stop]:
    [this.metrics.errorCount++; this.metrics.lastError = message]. *)
Definition recordError (e : Exn) : M Service unit :=
  modify (fun v =>
    withMetrics (mkMetrics (restartCount (metrics v))
                           (errorCount (metrics v) + 1)
                           (Some (exnMessage e))) v).

Definition startHealthChecks : M Service unit :=
  v <- get ;;
  if (healthCheckInterval (config v) <=? 0)%Z then ret tt
  else modify (fun v => withTimer true (S (liveTimers v)) v).

Definition stopHealthChecks : M Service unit :=
  v <- get ;;
  if healthCheckHandle v
  then modify (fun v => withTimer false (pred (liveTimers v)) v)
  else ret tt.

(** [start], after its two entry checks. *)
Definition startBody (v : Service) : M Service unit :=
  logSvc LInfo "Starting service" ;;
  setState STARTING ;;
  tryCatch
    (runHook HBeforeStart (beforeStart (hooks v)) ;;
     raceTimeout HDoStart (doStart (hooks v)) (startupTimeout (config v))
       (mkExn ServiceStartupError
          ("Service " +++ name v +++ " startup timeout")) ;;
     runHook HAfterStart (afterStart (hooks v)) ;;
     setState RUNNING ;;
     startHealthChecks ;;
     emitSvc "service:started" ;;
     logSvc LInfo "Service started successfully")
    (fun e =>
       setState ERROR ;;
       recordError e ;;
       logSvc LError "Service startup failed" ;;
       emitSvc "service:error" ;;
       throw (mkExn ServiceStartupError
                ("Failed to start service " +++ name v))).

Definition start : M Service unit :=
  v <- get ;;
  match state v with
  | RUNNING => logSvc LWarn "Service already running"
  | STARTING =>
      throw (mkExn ServiceStartupError
               ("Service " +++ name v +++ " is already starting"))
  | _ => startBody v
  end.

(** [stop], after its two entry checks. *)
Definition stopBody (v : Service) : M Service unit :=
  logSvc LInfo "Stopping service" ;;
  setState STOPPING ;;
  tryCatch
    (stopHealthChecks ;;
     runHook HBeforeStop (beforeStop (hooks v)) ;;
     raceTimeout HDoStop (doStop (hooks v)) (shutdownTimeout (config v))
       (mkExn ServiceShutdownError
          ("Service " +++ name v +++ " shutdown timeout")) ;;
     runHook HAfterStop (afterStop (hooks v)) ;;
     setState STOPPED ;;
     emitSvc "service:stopped" ;;
     logSvc LInfo "Service stopped successfully")
    (fun e =>
       setState ERROR ;;
       recordError e ;;
       logSvc LError "Service shutdown failed" ;;
       throw (mkExn ServiceShutdownError
                ("Failed to stop service " +++ name v))).

Definition stop : M Service unit :=
  v <- get ;;
  match state v with
  | STOPPED => logSvc LWarn "Service already stopped"
  | STOPPING =>
      throw (mkExn ServiceShutdownError
               ("Service " +++ name v +++ " is already stopping"))
  | _ => stopBody v
  end.

Definition restart : M Service unit :=
  v <- get ;;
  logSvc LInfo "Restarting service" ;;
  tryCatch
    (stop ;;
     tell (EDelay (restartDelay (config v))) ;;
     start ;;
     modify (fun v =>
       withMetrics (mkMetrics (restartCount (metrics v) + 1)
                              (errorCount (metrics v))
                              (lastError (metrics v))) v) ;;
     emitSvc "service:restarted")
    (fun _ =>
       throw (mkExn ServiceError ("Failed to restart service " +++ name v))).

Definition getState (v : Service) : ServiceState := state v.

Definition healthCheck : M Service bool :=
  v <- get ;;
  match state v with
  | RUNNING =>
      tryCatch
        (tell (ECall (name v) HDoHealthCheck) ;;
         match doHealthCheck (hooks v) (impl v) with
         | (i, inl healthy) => modify (withImpl i) ;; ret healthy
         | (i, inr msg) => modify (withImpl i) ;; throw (mkExn PlainError msg)
         end)
        (fun _ => logSvc LError "Health check failed" ;; ret false)
  | _ => ret false
  end.

(** One firing of the callback that [startHealthChecks] hands to
    [setInterval]. *)
Definition healthTick : M Service unit :=
  tryCatch
    (healthy <- healthCheck ;;
     v <- get ;;
     if negb healthy && enableAutoRestart (config v)
     then
       logSvc LWarn "Service unhealthy, attempting restart" ;;
       if (restartCount (metrics v) <? maxRestartAttempts (config v))%Z
       then restart
       else
         logSvc LError "Service restart limit exceeded" ;;
         setState ERROR ;;
         emitSvc "service:failed"
     else ret tt)
    (fun _ => logSvc LError "Health check error").

End Lifecycle.

Arguments mkHooks {Impl}.
Arguments mkService {Impl}.
Arguments name {Impl}.
Arguments version {Impl}.
Arguments description {Impl}.
Arguments dependencies {Impl}.
Arguments isRequired {Impl}.
Arguments config {Impl}.
Arguments hooks {Impl}.
Arguments state {Impl}.
Arguments metrics {Impl}.
Arguments healthCheckHandle {Impl}.
Arguments liveTimers {Impl}.
Arguments impl {Impl}.
Arguments beforeStart {Impl}.
Arguments doStart {Impl}.
Arguments afterStart {Impl}.
Arguments beforeStop {Impl}.
Arguments doStop {Impl}.
Arguments afterStop {Impl}.
Arguments doHealthCheck {Impl}.
Arguments withState {Impl}.
Arguments withMetrics {Impl}.
Arguments withTimer {Impl}.
Arguments withImpl {Impl}.
Arguments newService {Impl}.
Arguments setState {Impl}.
Arguments logSvc {Impl}.
Arguments emitSvc {Impl}.
Arguments runHook {Impl}.
Arguments raceTimeout {Impl}.
Arguments recordError {Impl}.
Arguments startHealthChecks {Impl}.
Arguments stopHealthChecks {Impl}.
Arguments startBody {Impl}.
Arguments stopBody {Impl}.
Arguments start {Impl}.
Arguments stop {Impl}.
Arguments restart {Impl}.
Arguments getState {Impl}.
Arguments healthCheck {Impl}.
Arguments healthTick {Impl}.

(* ===================================================================== *)
(** ** Dependency graph resolver *)
(* ===================================================================== *)

(** The three local variables of [calculateOrder] and of
    [calculateInitializationOrder], and the warnings logged on the way. *)
Record Dfs : Type := mkDfs {
  visited : StrSet.t;
  visiting : StrSet.t;
  order : list string;
  warnings : list Effect
}.

Definition emptyDfs : Dfs := mkDfs StrSet.empty StrSet.empty [] [].

(** Result of the recursive closure [visit]: it returns, it throws, or the
    recursion bound of the embedding is exhausted. *)
Inductive Outcome (A : Type) : Type :=
| Done (a : A)
| Thrown (e : Exn)
| OutOfFuel.
Arguments Done {A} a.
Arguments Thrown {A} e.
Arguments OutOfFuel {A}.

Section Resolver.

(** [this.services.has(dep)] / [this.components.get(depName)] is defined *)
Variable isRegistered : string -> bool.
(** the dependencies of a node, in iteration order *)
Variable depsOf : string -> list string.
(** the exception thrown when a node is met again while in progress *)
Variable cycleError : string -> Exn.
(** what is logged for a dependency that is not registered *)
Variable onMissing : string -> string -> list Effect.

(** [for (const dep of dependencies) { if (registered dep) visit(dep); else warn }] *)
Fixpoint visitDeps (rec : string -> Dfs -> Outcome Dfs) (owner : string)
  (deps : list string) (st : Dfs) : Outcome Dfs :=
  match deps with
  | [] => Done st
  | d :: ds =>
      if isRegistered d then
        match rec d st with
        | Done st' => visitDeps rec owner ds st'
        | other => other
        end
      else
        visitDeps rec owner ds
          (mkDfs (visited st) (visiting st) (order st)
                 (warnings st ++ onMissing owner d))
  end.

Fixpoint visit (fuel : nat) (n : string) (st : Dfs) : Outcome Dfs :=
  match fuel with
  | O => OutOfFuel
  | S fuel' =>
      if StrSet.has n (visiting st) then Thrown (cycleError n)
      else if StrSet.has n (visited st) then Done st
      else
        match visitDeps (visit fuel') n (depsOf n)
                (mkDfs (visited st) (StrSet.add n (visiting st)) (order st)
                       (warnings st)) with
        | Done st' =>
            Done (mkDfs (StrSet.add n (visited st'))
                        (StrSet.delete n (visiting st'))
                        (order st' ++ [n])
                        (warnings st'))
        | other => other
        end
  end.

(** [for (const k of keys) { if (!visited.has(k)) visit(k); }] *)
Fixpoint visitAll (fuel : nat) (keys : list string) (st : Dfs) : Outcome Dfs :=
  match keys with
  | [] => Done st
  | k :: ks =>
      if StrSet.has k (visited st) then visitAll fuel ks st
      else
        match visit fuel k st with
        | Done st' => visitAll fuel ks st'
        | other => other
        end
  end.

(** The whole computation over the registered keys.  The recursion of
    [visit] never nests deeper than the number of keys plus one. *)
Definition topoOrder (keys : list string) : Outcome Dfs :=
  visitAll (S (List.length keys)) keys emptyDfs.

End Resolver.

(** Position of the first occurrence, [Array.prototype.indexOf]. *)
Fixpoint indexOf (x : string) (l : list string) : option nat :=
  match l with
  | [] => None
  | y :: r =>
      if String.eqb x y then Some 0
      else match indexOf x r with Some i => Some (S i) | None => None end
  end.

(** [d] occurs strictly before [x] in [l]. *)
Definition precedes (d x : string) (l : list string) : Prop :=
  exists l1 l2 l3, l = l1 ++ d :: l2 ++ x :: l3.

Definition precedesb (d x : string) (l : list string) : bool :=
  match indexOf d l, indexOf x l with
  | Some i, Some j => Nat.ltb i j
  | _, _ => false
  end.

(** The dependency relation restricted to registered names, and what it
    means for a name to take part in a cycle. *)
Section Graph.
Variable isRegistered : string -> bool.
Variable depsOf : string -> list string.

Definition dependsOn (x d : string) : Prop :=
  isRegistered x = true /\ In d (depsOf x) /\ isRegistered d = true.

Definition reaches : string -> string -> Prop := clos_trans string dependsOn.
Definition reachesRefl : string -> string -> Prop := clos_refl_trans string dependsOn.

Definition onCycle (x : string) : Prop := reaches x x.
Definition acyclic : Prop := forall x, ~ onCycle x.
Definition cyclic : Prop := exists x, onCycle x.
End Graph.

(* ===================================================================== *)
(** ** Service manager: BackendServiceManager *)
(* ===================================================================== *)

Section ServiceManager.
Variable Impl : Type.

Record Manager : Type := mkManager {
  services : StrMap.t (Service Impl);
  dependencyGraph : StrMap.t StrSet.t;
  startOrder : list string;
  stopOrder : list string
}.

(** The constructor.  Its [setupEventHandlers] subscribes two listeners,
    to "service:error" and "service:failed", that write one log line each;
    the listeners and their lines are left out. *)
Definition newManager : Manager := mkManager StrMap.empty StrMap.empty [] [].

Definition withServices (s : StrMap.t (Service Impl)) (m : Manager) : Manager :=
  mkManager s (dependencyGraph m) (startOrder m) (stopOrder m).

Definition mgrRegistered (m : Manager) (n : string) : bool :=
  StrMap.has n (services m).

(** [this.dependencyGraph.get(serviceName) || new Set()] *)
Definition mgrDepsOf (m : Manager) (n : string) : list string :=
  match StrMap.get n (dependencyGraph m) with
  | Some s => s
  | None => StrSet.empty
  end.

Definition mgrCycleError (n : string) : Exn :=
  mkExn ServiceError ("Circular dependency detected involving " +++ n).

(** The topological sort of [calculateOrder], before the two fields are
    assigned. *)
Definition computeOrder (m : Manager) : Outcome (list string) :=
  match topoOrder (mgrRegistered m) (mgrDepsOf m) mgrCycleError
          (fun _ _ => []) (StrMap.keys (services m)) with
  | Done st => Done (order st)
  | Thrown e => Thrown e
  | OutOfFuel => OutOfFuel
  end.

(** [calculateOrder]: on success both orders are assigned; a cycle throws
    before either assignment.  The last branch is never taken
    (lemma [computeOrder_total]). *)
Definition calculateOrder : M Manager unit :=
  m <- get ;;
  match computeOrder m with
  | Done o =>
      modify (fun m => mkManager (services m) (dependencyGraph m) o (rev o))
  | Thrown e => throw e
  | OutOfFuel => ret tt
  end.

Definition updateDependencyGraph (svc : Service Impl) : M Manager unit :=
  modify (fun m =>
    mkManager (services m)
      (StrMap.set (name svc) (StrSet.ofArray (dependencies svc)) (dependencyGraph m))
      (startOrder m) (stopOrder m)).

Definition registerService (svc : Service Impl) : M Manager unit :=
  modify (fun m => withServices (StrMap.set (name svc) svc (services m)) m) ;;
  updateDependencyGraph svc ;;
  calculateOrder ;;
  tell (ELog LInfo "Service registered" (name svc)).

Definition unregisterService (serviceName : string) : M Manager unit :=
  m <- get ;;
  match StrMap.get serviceName (services m) with
  | None => throw (mkExn ServiceError ("Service not found: " +++ serviceName))
  | Some svc =>
      if ServiceState_eqb (getState svc) RUNNING
      then throw (mkExn ServiceError
                    ("Cannot unregister running service: " +++ serviceName))
      else
        modify (fun m =>
          mkManager (StrMap.delete serviceName (services m))
                    (StrMap.delete serviceName (dependencyGraph m))
                    (startOrder m) (stopOrder m)) ;;
        calculateOrder ;;
        tell (ELog LInfo "Service unregistered" serviceName)
  end.

(** A method call on the service object held under key [n]; the object is
    mutated in place. *)
Definition onService {A} (n : string) (svc : Service Impl)
  (meth : M (Service Impl) A) : M Manager A :=
  fun m =>
    match meth svc with
    | (svc', t, r) => (withServices (StrMap.set n svc' (services m)) m, t, r)
    end.

(** The loop body shared by [stopStartedServices] and [stopAll] differs
    only in the message logged. *)
Fixpoint stopEach (msg : string) (names : list string) : M Manager unit :=
  match names with
  | [] => ret tt
  | n :: rest =>
      m <- get ;;
      match StrMap.get n (services m) with
      | Some svc =>
          (if ServiceState_eqb (getState svc) RUNNING
           then tryCatch (onService n svc stop)
                  (fun _ => tell (ELog LError msg n))
           else ret tt) ;;
          stopEach msg rest
      | None => stopEach msg rest
      end
  end.

Definition stopStartedServices (failedService : string) : M Manager unit :=
  m <- get ;;
  match indexOf failedService (startOrder m) with
  | None => ret tt
  | Some failedIndex =>
      stopEach "Failed to stop service during cleanup"
        (rev (firstn failedIndex (startOrder m)))
  end.

Fixpoint startEach (names : list string) : M Manager unit :=
  match names with
  | [] => ret tt
  | n :: rest =>
      m <- get ;;
      match StrMap.get n (services m) with
      | None => startEach rest
      | Some svc =>
          tryCatch (onService n svc start)
            (fun _ =>
               tell (ELog LError "Failed to start service" n) ;;
               if isRequired svc
               then
                 stopStartedServices n ;;
                 throw (mkExn ServiceError
                          ("Required service " +++ n +++ " failed to start"))
               else ret tt) ;;
          startEach rest
      end
  end.

Definition startAll : M Manager unit :=
  tell (ELog LInfo "Starting all services in dependency order..." "") ;;
  m <- get ;;
  startEach (startOrder m) ;;
  tell (ELog LInfo "All services started successfully" "").

Definition stopAll : M Manager unit :=
  tell (ELog LInfo "Stopping all services in reverse dependency order..." "") ;;
  m <- get ;;
  stopEach "Failed to stop service" (stopOrder m) ;;
  tell (ELog LInfo "All services stopped" "").

Definition restartService (serviceName : string) : M Manager unit :=
  m <- get ;;
  match StrMap.get serviceName (services m) with
  | None => throw (mkExn ServiceError ("Service not found: " +++ serviceName))
  | Some svc => onService serviceName svc restart
  end.

Definition getServiceStates (m : Manager) : StrMap.t ServiceState :=
  map (fun kv => (fst kv, getState (snd kv))) (services m).

(** [getServiceHealth]: every check is attempted; one that throws counts
    as unhealthy.  The source starts all checks at once and fills the
    record as they complete; here they run one after the other in
    registration order, so only the lookup of a name in the answer is
    meaningful, not the order of its entries. *)
Fixpoint healthEach (names : list string) (acc : StrMap.t bool)
  : M Manager (StrMap.t bool) :=
  match names with
  | [] => ret acc
  | n :: rest =>
      m <- get ;;
      match StrMap.get n (services m) with
      | None => healthEach rest acc
      | Some svc =>
          h <- tryCatch (onService n svc healthCheck) (fun _ => ret false) ;;
          healthEach rest (StrMap.set n h acc)
      end
  end.

Definition getServiceHealth : M Manager (StrMap.t bool) :=
  m <- get ;;
  healthEach (StrMap.keys (services m)) StrMap.empty.

End ServiceManager.

Arguments mkManager {Impl}.
Arguments services {Impl}.
Arguments dependencyGraph {Impl}.
Arguments startOrder {Impl}.
Arguments stopOrder {Impl}.
Arguments newManager {Impl}.
Arguments withServices {Impl}.
Arguments mgrRegistered {Impl}.
Arguments mgrDepsOf {Impl}.
Arguments computeOrder {Impl}.
Arguments calculateOrder {Impl}.
Arguments updateDependencyGraph {Impl}.
Arguments registerService {Impl}.
Arguments unregisterService {Impl}.
Arguments onService {Impl A}.
Arguments stopEach {Impl}.
Arguments stopStartedServices {Impl}.
Arguments startEach {Impl}.
Arguments startAll {Impl}.
Arguments stopAll {Impl}.
Arguments restartService {Impl}.
Arguments getServiceStates {Impl}.
Arguments healthEach {Impl}.
Arguments getServiceHealth {Impl}.

(* ===================================================================== *)
(** ** Coordination service: configuration check of [beforeStart] *)
(* ===================================================================== *)

(** A JavaScript number: NaN, the two infinities, or a finite value (every
    finite double is a rational). *)
Inductive JsNumber : Type :=
| NaN
| PosInfinity
| NegInfinity
| Finite (q : QArith_base.Q).

(** A JavaScript value as far as [typeof] tells them apart. *)
Inductive JsValue : Type :=
| VUndefined
| VNull
| VBoolean (b : bool)
| VNumber (x : JsNumber)
| VString (s : string)
| VObject.

(** [x < k] and [x <= k] for a finite integer [k]; both are false on NaN. *)
Definition jsLt (x : JsNumber) (k : Z) : bool :=
  match x with
  | NaN | PosInfinity => false
  | NegInfinity => true
  | Finite q => negb (QArith_base.Qle_bool (QArith_base.inject_Z k) q)
  end.

Definition jsLe (x : JsNumber) (k : Z) : bool :=
  match x with
  | NaN | PosInfinity => false
  | NegInfinity => true
  | Finite q => QArith_base.Qle_bool q (QArith_base.inject_Z k)
  end.

Definition jsGt (x : JsNumber) (k : Z) : bool :=
  match x with
  | NaN | NegInfinity => false
  | PosInfinity => true
  | Finite q => negb (QArith_base.Qle_bool q (QArith_base.inject_Z k))
  end.

Definition typeofIsBoolean (v : JsValue) : bool :=
  match v with VBoolean _ => true | _ => false end.

(** [CoordinationConfig]: the numeric options as numbers, the flag as the
    value the check inspects with [typeof]. *)
Record CoordinationConfig : Type := mkCoordinationConfig {
  maxRetries : JsNumber;
  retryDelay : JsNumber;
  deadlockDetection : JsValue;
  resourceTimeout : JsNumber;
  messageTimeout : JsNumber
}.

(** [CoordinationService.beforeStart]: [inl msg] is the message of the
    thrown [Error]; [inr w] is normal completion, [w] telling whether the
    high-retries warning was logged. *)
Definition coordinationBeforeStart (c : CoordinationConfig) : string + bool :=
  if jsLt (maxRetries c) 0 then inl "Max retries cannot be negative"
  else
    let warned := jsGt (maxRetries c) 100 in
    if jsLe (retryDelay c) 0 then inl "Retry delay must be greater than 0"
    else if jsLe (resourceTimeout c) 0
    then inl "Resource timeout must be greater than 0"
    else if jsLe (messageTimeout c) 0
    then inl "Message timeout must be greater than 0"
    else if negb (typeofIsBoolean (deadlockDetection c))
    then inl "Deadlock detection must be a boolean value"
    else inr warned.

Section CoordinationService.
Variable Impl : Type.
(** The other members of the class delegate to a CoordinationManager whose
    code is not part of the sources; they are left abstract. *)
Variable coordDoStart coordDoStop : Impl -> Impl * Settle.
Variable coordAfterStart coordBeforeStop coordAfterStop : Impl -> Impl * option string.
Variable coordDoHealthCheck : Impl -> Impl * (bool + string).

Definition coordinationHooks (c : CoordinationConfig) : Hooks Impl :=
  mkHooks
    (Some (fun i => (i, match coordinationBeforeStart c with
                        | inl msg => Some msg
                        | inr _ => None
                        end)))
    coordDoStart
    (Some coordAfterStart)
    (Some coordBeforeStop)
    coordDoStop
    (Some coordAfterStop)
    coordDoHealthCheck.

(** [new CoordinationService(coordinationConfig, config, logger, eventBus)] *)
Definition CoordinationService (c : CoordinationConfig) (cfg : ServiceConfig)
  (i : Impl) : Service Impl :=
  newService "coordinationManager" "1.0.0"
    "Task scheduling and resource coordination system for multi-agent workflows"
    ["logger"; "eventBus"] true cfg (coordinationHooks c) i.
End CoordinationService.

(** What the claim calls a configuration within bounds. *)
Definition withinBounds (c : CoordinationConfig) : Prop :=
  jsLt (maxRetries c) 0 = false /\
  jsLe (retryDelay c) 0 = false /\
  jsLe (resourceTimeout c) 0 = false /\
  jsLe (messageTimeout c) 0 = false /\
  typeofIsBoolean (deadlockDetection c) = true.

Definition outOfBounds (c : CoordinationConfig) : Prop :=
  jsLt (maxRetries c) 0 = true \/
  jsLe (retryDelay c) 0 = true \/
  jsLe (resourceTimeout c) 0 = true \/
  jsLe (messageTimeout c) 0 = true \/
  typeofIsBoolean (deadlockDetection c) = false.

(* ===================================================================== *)
(** ** Component initializer: BackendInitializer *)
(* ===================================================================== *)

Record HealthStatus : Type := mkHealth {
  healthy : bool;
  healthError : option string
}.

Record FailedComponent : Type := mkFailed {
  failedName : string;
  failedError : string;
  fatal : bool
}.

Record BackendInitializationResult : Type := mkInitResult {
  success : bool;
  resultInitialized : list string;
  failedComponents : list FailedComponent;
  healthStatus : StrMap.t HealthStatus
}.

Section Initializer.
Variable Impl : Type.

(** utils/helpers.js ([retry], [circuitBreaker]) is not part of the
    sources.  [Breaker] is the state of one circuit breaker, [newBreaker]
    what [circuitBreaker(name, options)] returns, and [guarded b n f] what
    [b.execute(() => retry(f, { maxAttempts: n, ... }))] does: it returns
    the breaker's new state, the state [f] left behind, and [Some msg] when
    the awaited promise rejects. *)
Variable Breaker : Type.
Variable newBreaker : string -> Breaker.
Variable guarded : Breaker -> nat -> (Impl -> Impl * option string) -> Impl ->
                   Breaker * Impl * option string.
(** Whether the event bus delivers the test event of
    [testEventBusConnectivity] to its own listener within five seconds. *)
Variable eventBusDelivers : bool.

Record Component : Type := mkComponent {
  cName : string;
  cIsRequired : bool;
  cDependencies : option (list string);
  cInitialize : Impl -> Impl * option string;
  cShutdown : Impl -> Impl * Settle;
  cGetHealthStatus : Impl -> Impl * (HealthStatus + string);
  cImpl : Impl
}.

Definition withCImpl (i : Impl) (c : Component) : Component :=
  mkComponent (cName c) (cIsRequired c) (cDependencies c) (cInitialize c)
    (cShutdown c) (cGetHealthStatus c) i.

Record Initializer : Type := mkInitializer {
  components : StrMap.t Component;
  initializedComponents : StrSet.t;
  initializationOrder : list string;
  circuitBreakers : StrMap.t Breaker;
  initialized : bool;
  shutdownInProgress : bool
}.

Definition componentTypes : list string :=
  ["logger"; "config"; "eventBus"; "orchestrator"; "terminalManager";
   "memoryManager"; "coordinationManager"; "mcpServer"; "database"; "cache";
   "messageQueue"].

(** The constructor, with [setupCircuitBreakers]. *)
Definition newInitializer : Initializer :=
  mkInitializer StrMap.empty StrSet.empty []
    (fold_left (fun m t => StrMap.set t (newBreaker ("BackendInit:" +++ t)) m)
       componentTypes StrMap.empty)
    false false.

Definition withComponents (cs : StrMap.t Component) (s : Initializer) :=
  mkInitializer cs (initializedComponents s) (initializationOrder s)
    (circuitBreakers s) (initialized s) (shutdownInProgress s).

Definition withInitializedSet (i : StrSet.t) (s : Initializer) :=
  mkInitializer (components s) i (initializationOrder s)
    (circuitBreakers s) (initialized s) (shutdownInProgress s).

Definition withOrder (o : list string) (s : Initializer) :=
  mkInitializer (components s) (initializedComponents s) o
    (circuitBreakers s) (initialized s) (shutdownInProgress s).

Definition withBreakers (b : StrMap.t Breaker) (s : Initializer) :=
  mkInitializer (components s) (initializedComponents s) (initializationOrder s)
    b (initialized s) (shutdownInProgress s).

Definition withInitialized (b : bool) (s : Initializer) :=
  mkInitializer (components s) (initializedComponents s) (initializationOrder s)
    (circuitBreakers s) b (shutdownInProgress s).

Definition withShutdownInProgress (b : bool) (s : Initializer) :=
  mkInitializer (components s) (initializedComponents s) (initializationOrder s)
    (circuitBreakers s) (initialized s) b.

Definition registerComponent (c : Component) : M Initializer unit :=
  modify (fun s => withComponents (StrMap.set (cName c) c (components s)) s) ;;
  tell (ELog LInfo "Backend component registered" (cName c)).

Definition initRegistered (s : Initializer) (n : string) : bool :=
  StrMap.has n (components s).

(** [component.dependencies || []] *)
Definition initDepsOf (s : Initializer) (n : string) : list string :=
  match StrMap.get n (components s) with
  | Some c => match cDependencies c with Some d => d | None => [] end
  | None => []
  end.

Definition initCycleError (n : string) : Exn :=
  mkExn InitializationError ("Circular dependency detected involving " +++ n).

Definition calculateInitializationOrder (s : Initializer) : Outcome Dfs :=
  topoOrder (initRegistered s) (initDepsOf s) initCycleError
    (fun owner _ => [ELog LWarn "Dependency not found" owner])
    (StrMap.keys (components s)).

(** [initializeComponent]; the component object is mutated in place.
    [ECall _ HInitialize] records that the component was handed to
    [circuitBreaker.execute].  What happens inside it is summed up by
    [guarded]: whether the breaker lets the callback run, how many times
    [retry] then calls [component.initialize] (up to the given number of
    attempts), the private state left behind and the failure that comes
    out.  The debug line "Initializing component" the callback writes when
    it runs is inside the breaker too and is not recorded. *)
Definition initializeComponent (c : Component) : M Initializer unit :=
  s <- get ;;
  match StrMap.get (cName c) (circuitBreakers s) with
  | None =>
      throw (mkExn SystemError ("Circuit breaker not found for " +++ cName c))
  | Some b =>
      tell (ECall (cName c) HInitialize) ;;
      match guarded b (if cIsRequired c then 3 else 1) (cInitialize c) (cImpl c) with
      | (b', i, r) =>
          modify (fun s =>
            withBreakers (StrMap.set (cName c) b' (circuitBreakers s))
              (withComponents
                 (StrMap.set (cName c) (withCImpl i c) (components s)) s)) ;;
          match r with
          | None => ret tt
          | Some msg => throw (mkExn PlainError msg)
          end
      end
  end.

(** [shutdownComponent]: the component's [shutdown] raced against 30 s. *)
Definition shutdownComponent (c : Component) : M Initializer unit :=
  tell (ELog LDebug "Shutting down component" (cName c)) ;;
  tell (ECall (cName c) HShutdown) ;;
  match cShutdown c (cImpl c) with
  | (i, r) =>
      modify (fun s =>
        withComponents (StrMap.set (cName c) (withCImpl i c) (components s)) s) ;;
      match r with
      | Resolves => ret tt
      | Rejects msg => throw (mkExn PlainError msg)
      | StillPending =>
          tell (EDelay 30000) ;;
          throw (mkExn PlainError ("Shutdown timeout for " +++ cName c))
      end
  end.

(** The loop of [initialize] over the computed order. *)
Fixpoint initializeEach (names : list string) (result : BackendInitializationResult)
  : M Initializer BackendInitializationResult :=
  match names with
  | [] => ret result
  | n :: rest =>
      s <- get ;;
      match StrMap.get n (components s) with
      | None => initializeEach rest result
      | Some c =>
          result' <-
            tryCatch
              (initializeComponent c ;;
               modify (fun s =>
                 withInitializedSet (StrSet.add n (initializedComponents s)) s) ;;
               tell (ELog LInfo "Component initialized successfully" n) ;;
               ret (mkInitResult (success result)
                      (resultInitialized result ++ [n])
                      (failedComponents result) (healthStatus result)))
              (fun e =>
                 tell (ELog LError "Component initialization failed" n) ;;
                 if cIsRequired c
                 then throw (mkExn InitializationError
                               ("Required component " +++ n +++
                                " failed to initialize: " +++ exnMessage e))
                 else ret (mkInitResult (success result)
                             (resultInitialized result)
                             (failedComponents result ++
                                [mkFailed n (exnMessage e) (cIsRequired c)])
                             (healthStatus result))) ;;
          initializeEach rest result'
      end
  end.

(** First part of the [try] block of [initialize]: the order is computed
    and stored, then every component is initialized in that order.  The
    last branch is never taken (lemma [initOrder_total]).  When the order
    computation throws on a cycle, the "Dependency not found" warnings it
    logged before the throw are not recorded. *)
Definition initializeComponents : M Initializer BackendInitializationResult :=
  s <- get ;;
  match calculateInitializationOrder s with
  | Thrown e => fun s => (s, [], Exc e)
  | OutOfFuel => ret (mkInitResult false [] [] StrMap.empty)
  | Done d =>
      (fun s => (s, warnings d, Val tt)) ;;
      modify (withOrder (order d)) ;;
      tell (ELog LInfo "Initialization order calculated" "") ;;
      initializeEach (order d) (mkInitResult false [] [] StrMap.empty)
  end.

Definition criticalComponents : list string := ["logger"; "config"; "eventBus"].

Definition missingCritical (s : Initializer) : list string :=
  filter (fun n => negb (StrSet.has n (initializedComponents s))) criticalComponents.

(** [testEventBusConnectivity]: the test event is emitted; if it does not
    come back within five seconds the promise rejects. *)
Definition testEventBusConnectivity : M Initializer unit :=
  tell (EEmit "backend:integration_test" "") ;;
  if eventBusDelivers then ret tt
  else
    tell (EDelay 5000) ;;
    throw (mkExn PlainError "Event bus test timeout").

Definition verifySystemIntegration : M Initializer unit :=
  tell (ELog LDebug "Verifying system integration..." "") ;;
  s <- get ;;
  if Nat.ltb 0 (List.length (missingCritical s))
  then throw (mkExn InitializationError
                ("Critical components not initialized: " +++
                 String.concat ", " (missingCritical s)))
  else
    tryCatch testEventBusConnectivity
      (fun _ => tell (ELog LWarn "Event bus connectivity test failed" "")) ;;
    tell (ELog LInfo "System integration verification completed" "").

(** The health checks of [performPostInitializationChecks], in the order
    of [Array.from(this.initializedComponents)]. *)
Fixpoint checkHealthEach (names : list string) (hs : StrMap.t HealthStatus)
  : M Initializer (StrMap.t HealthStatus) :=
  match names with
  | [] => ret hs
  | n :: rest =>
      s <- get ;;
      match StrMap.get n (components s) with
      | None => checkHealthEach rest hs
      | Some c =>
          tell (ECall n HGetHealthStatus) ;;
          match cGetHealthStatus c (cImpl c) with
          | (i, r) =>
              modify (fun s =>
                withComponents
                  (StrMap.set n (withCImpl i c) (components s)) s) ;;
              match r with
              | inl h =>
                  (if healthy h then ret tt
                   else tell (ELog LWarn "Component unhealthy after initialization" n)) ;;
                  checkHealthEach rest (StrMap.set n h hs)
              | inr msg =>
                  tell (ELog LError "Health check failed for component" n) ;;
                  checkHealthEach rest (StrMap.set n (mkHealth false (Some msg)) hs)
              end
          end
      end
  end.

Definition performPostInitializationChecks (result : BackendInitializationResult)
  : M Initializer BackendInitializationResult :=
  tell (ELog LInfo "Performing post-initialization health checks..." "") ;;
  s <- get ;;
  hs <- checkHealthEach (initializedComponents s) (healthStatus result) ;;
  verifySystemIntegration ;;
  ret (mkInitResult (success result) (resultInitialized result)
         (failedComponents result) hs).

(** [cleanupPartialInitialization]: every initialized component is shut
    down without a timeout; a rejection is logged.  The [await] here has
    no timeout: a shutdown that [shutdownComponent] would find still pending
    after its 30 s is waited for, and as every [await] is assumed to
    complete, the branch below takes it to resolve in the end. *)
Fixpoint cleanupEach (names : list string) : M Initializer unit :=
  match names with
  | [] => ret tt
  | n :: rest =>
      s <- get ;;
      match StrMap.get n (components s) with
      | None => cleanupEach rest
      | Some c =>
          tell (ECall n HShutdown) ;;
          match cShutdown c (cImpl c) with
          | (i, r) =>
              modify (fun s =>
                withComponents
                  (StrMap.set n (withCImpl i c) (components s)) s) ;;
              match r with
              | Rejects _ => tell (ELog LError "Cleanup failed for component" n)
              | _ => tell (ELog LDebug "Cleaned up component" n)
              end ;;
              cleanupEach rest
          end
      end
  end.

Definition cleanupPartialInitialization : M Initializer unit :=
  tell (ELog LInfo "Cleaning up partially initialized components..." "") ;;
  s <- get ;;
  cleanupEach (initializedComponents s) ;;
  modify (withInitializedSet StrSet.empty).

(** The guarded region of [initialize]: the components, the checks
    after them, and the verdict on the collected failures. *)
Definition initializeBody : M Initializer BackendInitializationResult :=
  result <- initializeComponents ;;
  result <- performPostInitializationChecks result ;;
  if Nat.eqb (List.length (filter fatal (failedComponents result))) 0
  then
    modify (withInitialized true) ;;
    tell (EEmit "backend:initialized" "") ;;
    tell (ELog LInfo "Backend initialization completed successfully" "") ;;
    ret (mkInitResult true (resultInitialized result)
           (failedComponents result) (healthStatus result))
  else
    tell (EEmit "backend:initialization_failed" "") ;;
    throw (mkExn InitializationError "Backend initialization failed").

Definition initialize : M Initializer BackendInitializationResult :=
  s <- get ;;
  if initialized s
  then throw (mkExn InitializationError "Backend already initialized")
  else
    tell (ELog LInfo "Starting backend initialization..." "") ;;
    tryCatch initializeBody
      (fun e =>
         tell (ELog LError "Backend initialization failed" "") ;;
         cleanupPartialInitialization ;;
         throw e).

(** The loop of [shutdown] over the reversed initialization order. *)
Fixpoint shutdownEach (names : list string) : M Initializer unit :=
  match names with
  | [] => ret tt
  | n :: rest =>
      s <- get ;;
      if negb (StrSet.has n (initializedComponents s)) then shutdownEach rest
      else
        match StrMap.get n (components s) with
        | None => shutdownEach rest
        | Some c =>
            tryCatch
              (shutdownComponent c ;;
               modify (fun s =>
                 withInitializedSet (StrSet.delete n (initializedComponents s)) s) ;;
               tell (ELog LInfo "Component shutdown completed" n))
              (fun _ => tell (ELog LError "Component shutdown failed" n)) ;;
            shutdownEach rest
        end
  end.

(** The order [shutdown] iterates over. *)
Definition shutdownOrder (s : Initializer) : list string :=
  rev (initializationOrder s).

Definition shutdown : M Initializer unit :=
  s <- get ;;
  if negb (initialized s) || shutdownInProgress s then ret tt
  else
    modify (withShutdownInProgress true) ;;
    tell (ELog LInfo "Starting backend shutdown..." "") ;;
    shutdownEach (shutdownOrder s) ;;
    modify (withInitialized false) ;;
    tell (EEmit "backend:shutdown" "") ;;
    tell (ELog LInfo "Backend shutdown completed" "") ;;
    modify (withShutdownInProgress false).

End Initializer.

Arguments mkComponent {Impl}.
Arguments cName {Impl}.
Arguments cIsRequired {Impl}.
Arguments cDependencies {Impl}.
Arguments cInitialize {Impl}.
Arguments cShutdown {Impl}.
Arguments cGetHealthStatus {Impl}.
Arguments cImpl {Impl}.
Arguments mkInitializer {Impl Breaker}.
Arguments components {Impl Breaker}.
Arguments initializedComponents {Impl Breaker}.
Arguments initializationOrder {Impl Breaker}.
Arguments circuitBreakers {Impl Breaker}.
Arguments initialized {Impl Breaker}.
Arguments shutdownInProgress {Impl Breaker}.
Arguments newInitializer {Impl Breaker}.
Arguments registerComponent {Impl Breaker}.
Arguments initRegistered {Impl Breaker}.
Arguments initDepsOf {Impl Breaker}.
Arguments calculateInitializationOrder {Impl Breaker}.
Arguments initializeComponent {Impl Breaker}.
Arguments shutdownComponent {Impl Breaker}.
Arguments initializeEach {Impl Breaker}.
Arguments initializeComponents {Impl Breaker}.
Arguments missingCritical {Impl Breaker}.
Arguments verifySystemIntegration {Impl Breaker}.
Arguments checkHealthEach {Impl Breaker}.
Arguments performPostInitializationChecks {Impl Breaker}.
Arguments cleanupEach {Impl Breaker}.
Arguments cleanupPartialInitialization {Impl Breaker}.
Arguments initializeBody {Impl Breaker}.
Arguments initialize {Impl Breaker}.
Arguments shutdownEach {Impl Breaker}.
Arguments shutdownOrder {Impl Breaker}.
Arguments shutdown {Impl Breaker}.
Arguments withComponents {Impl Breaker}.
Arguments withInitializedSet {Impl Breaker}.
Arguments withOrder {Impl Breaker}.
Arguments withBreakers {Impl Breaker}.
Arguments withInitialized {Impl Breaker}.
Arguments withShutdownInProgress {Impl Breaker}.
Arguments withCImpl {Impl}.

(* ===================================================================== *)
(** ** Orchestrator: BackendOrchestrator *)
(* ===================================================================== *)

Record BackendOrchestrationResult : Type := mkOrchResult {
  orchSuccess : bool;
  servicesStarted : list string;
  servicesFailed : list string;
  orchErrors : list string
}.

Module BackendOrchestrator.
Section Orchestrator.
Variable Impl : Type.
Variable Breaker : Type.
Variable newBreaker : string -> Breaker.
Variable guarded : Breaker -> nat -> (Impl -> Impl * option string) -> Impl ->
                   Breaker * Impl * option string.
Variable eventBusDelivers : bool.

(** The logger and the event bus are collaborators outside the sources:
    [loggerConfigure] is [this.logger.configure(...)], [loggerClose] the
    optional [close] of the logger, [freshImpl] the private state a newly
    built object starts with. *)
Variable loggerConfigure : Impl -> Impl * option string.
Variable loggerClose : Impl -> Impl * Settle.
Variable freshImpl : Impl.

(** The concrete services built by [createBackendServices]; the terminal,
    memory and MCP managers they wrap are outside the sources. *)
Variable terminalHooks memoryHooks mcpHooks : Hooks Impl.
Variable coordinationConfig : CoordinationConfig.
Variable coordDoStart coordDoStop : Impl -> Impl * Settle.
Variable coordAfterStart coordBeforeStop coordAfterStop : Impl -> Impl * option string.
Variable coordDoHealthCheck : Impl -> Impl * (bool + string).

(** BackendComponentFactory *)
Definition createLoggerComponent : Component Impl :=
  mkComponent "logger" true (Some []) loggerConfigure loggerClose
    (fun i => (i, inl (mkHealth true None))) freshImpl.

Definition createEventBusComponent : Component Impl :=
  mkComponent "eventBus" true (Some ["logger"])
    (fun i => (i, None)) (fun i => (i, Resolves))
    (fun i => (i, inl (mkHealth true None))) freshImpl.

Definition createDatabaseComponent : Component Impl :=
  mkComponent "database" false (Some ["logger"])
    (fun i => (i, None)) (fun i => (i, Resolves))
    (fun i => (i, inl (mkHealth true None))) freshImpl.

Definition createCacheComponent : Component Impl :=
  mkComponent "cache" false (Some ["logger"])
    (fun i => (i, None)) (fun i => (i, Resolves))
    (fun i => (i, inl (mkHealth true None))) freshImpl.

Record Orchestrator : Type := mkOrchestrator {
  initializer : @Initializer Impl Breaker;
  serviceManager : @Manager Impl;
  orchInitialized : bool
}.

(** The constructor. *)
Definition newOrchestrator : Orchestrator :=
  mkOrchestrator (newInitializer newBreaker) newManager false.

Definition onInitializer {A} (m : M (@Initializer Impl Breaker) A)
  : M Orchestrator A :=
  fun o =>
    match m (initializer o) with
    | (i, t, r) => (mkOrchestrator i (serviceManager o) (orchInitialized o), t, r)
    end.

Definition onManager {A} (m : M (@Manager Impl) A) : M Orchestrator A :=
  fun o =>
    match m (serviceManager o) with
    | (g, t, r) => (mkOrchestrator (initializer o) g (orchInitialized o), t, r)
    end.

Definition initializeCoreComponents : M Orchestrator unit :=
  tell (ELog LInfo "Initializing core components..." "") ;;
  onInitializer (registerComponent createLoggerComponent) ;;
  onInitializer (registerComponent createEventBusComponent) ;;
  initResult <- onInitializer (initialize guarded eventBusDelivers) ;;
  if negb (success initResult)
  then throw (mkExn InitializationError "Core component initialization failed")
  else tell (ELog LInfo "Core components initialized successfully" "").

Definition createBackendServices : M Orchestrator unit :=
  tell (ELog LInfo "Creating backend services..." "") ;;
  onManager (registerService
    (newService "terminalManager" "1.0.0"
       "Terminal management system for agent process execution"
       ["logger"; "eventBus"] true DEFAULT_SERVICE_CONFIG terminalHooks freshImpl)) ;;
  onManager (registerService
    (CoordinationService Impl coordDoStart coordDoStop coordAfterStart
       coordBeforeStop coordAfterStop coordDoHealthCheck
       coordinationConfig DEFAULT_SERVICE_CONFIG freshImpl)) ;;
  onManager (registerService
    (newService "memoryManager" "1.0.0"
       "Persistent memory and knowledge management system for agents"
       ["logger"; "eventBus"] true DEFAULT_SERVICE_CONFIG memoryHooks freshImpl)) ;;
  onManager (registerService
    (newService "mcpServer" "1.0.0"
       "Model Context Protocol server for tool execution and agent communication"
       ["logger"; "eventBus"] true DEFAULT_SERVICE_CONFIG mcpHooks freshImpl)) ;;
  tell (ELog LInfo "Backend services created successfully" "").

Definition criticalServices : list string :=
  ["terminalManager"; "coordinationManager"; "memoryManager"; "mcpServer"].

Definition verifySystemHealth : M Orchestrator BackendOrchestrationResult :=
  tell (ELog LInfo "Verifying system health..." "") ;;
  serviceHealth <- onManager getServiceHealth ;;
  o <- get ;;
  let serviceStates := getServiceStates (serviceManager o) in
  let started := map fst (filter (fun kv => snd kv) serviceHealth) in
  let failed := map fst (filter (fun kv => negb (snd kv)) serviceHealth) in
  let criticalFailures :=
    filter (fun n =>
      negb (match StrMap.get n serviceHealth with Some h => h | None => false end)
      || negb (match StrMap.get n serviceStates with
               | Some st => ServiceState_eqb st RUNNING
               | None => false
               end))
      criticalServices in
  if Nat.ltb 0 (List.length criticalFailures)
  then throw (mkExn SystemError
                ("Critical services failed: " +++ String.concat ", " criticalFailures))
  else
    tell (ELog LInfo "System health verification completed" "") ;;
    ret (mkOrchResult false started failed
           (map (fun n => "Service " +++ n +++ " is unhealthy") failed)).

Definition cleanup : M Orchestrator unit :=
  tell (ELog LInfo "Cleaning up after orchestration failure..." "") ;;
  tryCatch (onManager stopAll) (fun _ => tell (ELog LError "Error during cleanup" "")).

(** [BackendOrchestrator.initialize].  The listeners installed by
    [setupEventHandlers] only run while phase 3 starts services. *)
Definition initialize : M Orchestrator BackendOrchestrationResult :=
  o <- get ;;
  if orchInitialized o
  then throw (mkExn InitializationError "Backend orchestrator already initialized")
  else
    tell (ELog LInfo "Starting backend orchestration..." "") ;;
    tryCatch
      (initializeCoreComponents ;;
       createBackendServices ;;
       onManager startAll ;;
       result <- verifySystemHealth ;;
       modify (fun o => mkOrchestrator (initializer o) (serviceManager o) true) ;;
       tell (EEmit "backend:orchestration_complete" "") ;;
       tell (ELog LInfo "Backend orchestration completed successfully" "") ;;
       ret (mkOrchResult true (servicesStarted result) (servicesFailed result)
              (orchErrors result)))
      (fun _ =>
         tell (ELog LError "Backend orchestration failed" "") ;;
         cleanup ;;
         throw (mkExn InitializationError "Backend orchestration failed")).

Definition shutdown : M Orchestrator unit :=
  o <- get ;;
  if negb (orchInitialized o) then ret tt
  else
    tell (ELog LInfo "Shutting down backend orchestration..." "") ;;
    onManager stopAll ;;
    onInitializer (shutdown (Breaker := Breaker)) ;;
    modify (fun o => mkOrchestrator (initializer o) (serviceManager o) false) ;;
    tell (ELog LInfo "Backend orchestration shutdown complete" "").

Definition restart : M Orchestrator BackendOrchestrationResult :=
  tell (ELog LInfo "Restarting backend orchestration..." "") ;;
  shutdown ;;
  initialize.

(** A caller of the orchestrator's public methods. *)
Inductive Request : Type := ReqInitialize | ReqShutdown | ReqRestart.

Definition serve (r : Request) : M Orchestrator bool :=
  match r with
  | ReqInitialize => tryCatch (initialize ;; ret true) (fun _ => ret false)
  | ReqShutdown => tryCatch (shutdown ;; ret true) (fun _ => ret false)
  | ReqRestart => tryCatch (restart ;; ret true) (fun _ => ret false)
  end.

Fixpoint serveAll (rs : list Request) : M Orchestrator unit :=
  match rs with
  | [] => ret tt
  | r :: rest => serve r ;; serveAll rest
  end.

End Orchestrator.
End BackendOrchestrator.

(* ===================================================================== *)
(** ** Vocabulary of the properties *)
(* ===================================================================== *)

(** *** Reading a trace *)

(** The values assigned to [this.state], in order. *)
Definition statesAssigned (t : list Effect) : list ServiceState :=
  flat_map (fun e => match e with ESetState _ s => [s] | _ => [] end) t.

(** The services that were moved to state [target], in order. *)
Definition movedTo (target : ServiceState) (t : list Effect) : list string :=
  flat_map (fun e =>
    match e with
    | ESetState n s => if ServiceState_eqb s target then [n] else []
    | _ => []
    end) t.

(** The objects whose code [h] was invoked, in order. *)
Definition Hook_eqb (a b : Hook) : bool :=
  match a, b with
  | HBeforeStart, HBeforeStart | HDoStart, HDoStart | HAfterStart, HAfterStart
  | HBeforeStop, HBeforeStop | HDoStop, HDoStop | HAfterStop, HAfterStop
  | HDoHealthCheck, HDoHealthCheck | HInitialize, HInitialize
  | HShutdown, HShutdown | HGetHealthStatus, HGetHealthStatus => true
  | _, _ => false
  end.

Definition callsOf (h : Hook) (t : list Effect) : list string :=
  flat_map (fun e =>
    match e with
    | ECall n h' => if Hook_eqb h h' then [n] else []
    | _ => []
    end) t.

(** [restart()] was entered: its first statement logs this line. *)
Definition isRestartEntry (e : Effect) : bool :=
  match e with
  | ELog LInfo msg _ => String.eqb msg "Restarting service"
  | _ => false
  end.

Definition restartsInvoked (t : list Effect) : nat :=
  List.length (filter isRestartEntry t).

Definition isFailedEvent (e : Effect) : bool :=
  match e with
  | EEmit topic _ => String.eqb topic "service:failed"
  | _ => false
  end.

(** *** Transition paths *)

(** The paths of the state diagram as the specification draws it. *)
Definition specStep (a b : ServiceState) : bool :=
  match a, b with
  | STOPPED, STARTING
  | STARTING, RUNNING
  | RUNNING, STOPPING
  | STOPPING, STOPPED
  | STARTING, ERROR
  | STOPPING, ERROR
  | RUNNING, ERROR
  | RUNNING, MAINTENANCE => true
  | _, _ => false
  end.

(** The same with the two ways out of [ERROR] that [start] and [stop] take. *)
Definition codeStep (a b : ServiceState) : bool :=
  specStep a b ||
  match a, b with
  | ERROR, STARTING | ERROR, STOPPING => true
  | _, _ => false
  end.

(** Every assignment in [l], read from state [from], either leaves the
    state as it is or moves along [R]. *)
Fixpoint follows (R : ServiceState -> ServiceState -> bool)
  (from : ServiceState) (l : list ServiceState) : bool :=
  match l with
  | [] => true
  | s :: r => (ServiceState_eqb from s || R from s) && follows R s r
  end.

(** *** Runs of one service *)

Inductive Op : Type := OpStart | OpStop | OpRestart | OpTick.

Section Runs.
Variable Impl : Type.

(** A health timer fires only if one is live. *)
Definition fire : M (Service Impl) unit :=
  v <- get ;;
  if Nat.ltb 0 (liveTimers v) then healthTick else ret tt.

(** One call from outside; the caller keeps going after an exception. *)
Definition perform (op : Op) : M (Service Impl) unit :=
  match op with
  | OpStart => tryCatch start (fun _ => ret tt)
  | OpStop => tryCatch stop (fun _ => ret tt)
  | OpRestart => tryCatch restart (fun _ => ret tt)
  | OpTick => fire
  end.

Fixpoint runOps (ops : list Op) : M (Service Impl) unit :=
  match ops with
  | [] => ret tt
  | op :: rest => perform op ;; runOps rest
  end.

(** No call leaves two timers alive: [startHealthChecks] overwrites the
    handle without clearing it, so the timer of a service that is started
    again while it still holds one is never cleared. *)
Fixpoint noLeakedTimer (ops : list Op) (v : Service Impl) : bool :=
  Nat.leb (liveTimers v) 1 &&
  match ops with
  | [] => true
  | op :: rest => noLeakedTimer rest (stateOf (perform op v))
  end.

(** *** Runs of the manager *)

Inductive MgrOp : Type :=
| MRegister (svc : Service Impl)
| MUnregister (n : string)
| MStartAll
| MStopAll
| MRestart (n : string).

Definition mgrPerform (op : MgrOp) : M (@Manager Impl) unit :=
  match op with
  | MRegister svc => tryCatch (registerService svc) (fun _ => ret tt)
  | MUnregister n => tryCatch (unregisterService n) (fun _ => ret tt)
  | MStartAll => tryCatch startAll (fun _ => ret tt)
  | MStopAll => stopAll
  | MRestart n => tryCatch (restartService n) (fun _ => ret tt)
  end.

Fixpoint mgrRun (ops : list MgrOp) : M (@Manager Impl) unit :=
  match ops with
  | [] => ret tt
  | op :: rest => mgrPerform op ;; mgrRun rest
  end.

(** *** What [startAll] does with one service *)

Definition startRaises (v : Service Impl) : bool := raised (resultOf (start v)).

(** The service under [n] is required and its [start] raises. *)
Definition failsRequired (m : @Manager Impl) (n : string) : bool :=
  match StrMap.get n (services m) with
  | Some v => startRaises v && isRequired v
  | None => false
  end.

(** Split the order at the first required service whose start raises. *)
Fixpoint firstRequiredFailure (m : @Manager Impl) (names : list string)
  : list string * option string :=
  match names with
  | [] => ([], None)
  | n :: rest =>
      if failsRequired m n then ([], Some n)
      else match firstRequiredFailure m rest with
           | (pre, f) => (n :: pre, f)
           end
  end.

(** Effects of the loop iteration for [n]: the service's own start, then
    the manager's error line if it raised. *)
Definition startPart (m : @Manager Impl) (n : string) : list Effect :=
  match StrMap.get n (services m) with
  | None => []
  | Some v =>
      traceOf (start v) ++
      (if startRaises v then [ELog LError "Failed to start service" n] else [])
  end.

(** Effects of the rollback on [n], a service that [startAll] went past:
    nothing unless it is running by then; otherwise its stop, then the
    manager's error line if the stop raised. *)
Definition rollbackPart (m : @Manager Impl) (n : string) : list Effect :=
  match StrMap.get n (services m) with
  | None => []
  | Some v =>
      let v' := stateOf (start v) in
      if ServiceState_eqb (getState v') RUNNING
      then traceOf (stop v') ++
           (if raised (resultOf (stop v'))
            then [ELog LError "Failed to stop service during cleanup" n]
            else [])
      else []
  end.

End Runs.

Arguments fire {Impl}.
Arguments perform {Impl}.
Arguments runOps {Impl}.
Arguments noLeakedTimer {Impl}.
Arguments MRegister {Impl}.
Arguments MUnregister {Impl}.
Arguments MStartAll {Impl}.
Arguments MStopAll {Impl}.
Arguments MRestart {Impl}.
Arguments mgrPerform {Impl}.
Arguments mgrRun {Impl}.
Arguments startRaises {Impl}.
Arguments failsRequired {Impl}.
Arguments firstRequiredFailure {Impl}.
Arguments startPart {Impl}.
Arguments rollbackPart {Impl}.

(** *** Concrete services used in examples *)

(** A subclass whose private state counts the calls of [doStart]; the
    call numbered [k] resolves iff [ok k]. *)
Definition scriptedHooks (ok : nat -> bool) (healthyNow : bool) : Hooks nat :=
  mkHooks None
    (fun k => (S k, if ok k then Resolves else Rejects "start failed"))
    None None
    (fun k => (k, Resolves))
    None
    (fun k => (k, inl healthyNow)).

Definition scripted (n : string) (deps : list string) (req : bool)
  (cfg : ServiceConfig) (ok : nat -> bool) (healthyNow : bool) : Service nat :=
  newService n "1.0.0" "" deps req cfg (scriptedHooks ok healthyNow) 0.


(* ===================================================================== *)
(** ** Vocabulary of the proofs *)
(* ===================================================================== *)

(** The state after the assignments [l], starting from [a]. *)
Definition endsAt (a : ServiceState) (l : list ServiceState) : ServiceState :=
  fold_left (fun _ s => s) l a.

(** Health ticks of a run after which the restart counter went up. *)
Fixpoint tickRestarts {Impl} (ops : list Op) (v : Service Impl) : nat :=
  match ops with
  | [] => 0
  | op :: rest =>
      (match op with
       | OpTick =>
           if (restartCount (metrics v) <?
               restartCount (metrics (stateOf (perform op v))))%Z
           then 1 else 0
       | _ => 0
       end) + tickRestarts rest (stateOf (perform op v))
  end.

Section LifecycleVocabulary.
Context {Impl : Type}.
Implicit Types v : Service Impl.

(** The fields no method assigns. *)
Definition sameIdentity v v' : Prop :=
  name v' = name v /\ config v' = config v /\ hooks v' = hooks v /\
  isRequired v' = isRequired v /\ dependencies v' = dependencies v.

(** What [start] does once past its entry checks: it ends RUNNING through
    STARTING, or ends in ERROR through STARTING and raises. *)
Definition startedOk v (o : Service Impl * list Effect * res unit) : Prop :=
  resultOf o = Val tt /\
  state (stateOf o) = RUNNING /\
  statesAssigned (traceOf o) = [STARTING; RUNNING] /\
  (if (healthCheckInterval (config v) <=? 0)%Z
   then healthCheckHandle (stateOf o) = healthCheckHandle v /\
        liveTimers (stateOf o) = liveTimers v
   else healthCheckHandle (stateOf o) = true /\
        liveTimers (stateOf o) = S (liveTimers v)).

Definition startedBad v (o : Service Impl * list Effect * res unit) : Prop :=
  resultOf o =
    Exc (mkExn ServiceStartupError ("Failed to start service " +++ name v)) /\
  state (stateOf o) = ERROR /\
  statesAssigned (traceOf o) = [STARTING; ERROR] /\
  healthCheckHandle (stateOf o) = healthCheckHandle v /\
  liveTimers (stateOf o) = liveTimers v.

(** Facts shared by every call of a lifecycle method that is not a health
    tick. *)
Definition quiet v (o : Service Impl * list Effect * res unit) : Prop :=
  sameIdentity v (stateOf o) /\
  filter isFailedEvent (traceOf o) = [].

(** What [stop] does once past its entry checks. *)
Definition stoppedOk (o : Service Impl * list Effect * res unit) : Prop :=
  resultOf o = Val tt /\
  state (stateOf o) = STOPPED /\
  statesAssigned (traceOf o) = [STOPPING; STOPPED].

Definition stoppedBad v (o : Service Impl * list Effect * res unit) : Prop :=
  resultOf o =
    Exc (mkExn ServiceShutdownError ("Failed to stop service " +++ name v)) /\
  state (stateOf o) = ERROR /\
  statesAssigned (traceOf o) = [STOPPING; ERROR].

(** Between two calls a service is STOPPED, RUNNING or in ERROR; it holds a
    timer only if it was started, and that timer is the only live one. *)
Definition settled v : Prop :=
  (state v = STOPPED \/ state v = RUNNING \/ state v = ERROR) /\
  (healthCheckHandle v = true -> state v <> STOPPED) /\
  liveTimers v = (if healthCheckHandle v then 1 else 0).

(** The path a call walks, and where it ends. *)
Definition walks v (o : Service Impl * list Effect * res unit) : Prop :=
  follows codeStep (state v) (statesAssigned (traceOf o)) = true /\
  endsAt (state v) (statesAssigned (traceOf o)) = state (stateOf o).

Definition keepsCount v (o : Service Impl * list Effect * res unit) : Prop :=
  quiet v o /\
  restartCount (metrics (stateOf o)) = restartCount (metrics v) /\
  restartsInvoked (traceOf o) = 0.

End LifecycleVocabulary.

(** Position of the first occurrence, or the length. *)
Fixpoint pos (x : string) (l : list string) : nat :=
  match l with
  | [] => 0
  | y :: r => if String.eqb x y then 0 else S (pos x r)
  end.

(** The marking of the depth-first visit and the contract of its parts. *)
Module Marking.
Section Vocabulary.
Variable isRegistered : string -> bool.
Variable depsOf : string -> list string.
Variable cycleError : string -> Exn.
Variable keys : list string.

Local Abbreviation edge := (dependsOn isRegistered depsOf).
Local Abbreviation pathRefl := (reachesRefl isRegistered depsOf).

(** The invariant of the three-colour marking: [visited] and [order] hold
    the same names, each once; the names in progress are distinct, are
    registered and are not yet in the order; every name in the order comes
    after all its registered dependencies. *)
Record WF (st : Dfs) : Prop := mkWF {
  wf_visited : forall x, In x (visited st) <-> In x (order st);
  wf_nodup : NoDup (order st);
  wf_gray_nodup : NoDup (visiting st);
  wf_gray_reg : forall x, In x (visiting st) -> In x keys;
  wf_order_reg : forall x, In x (order st) -> In x keys;
  wf_disjoint : forall x, In x (visiting st) -> ~ In x (order st);
  wf_sorted : forall x d, In x (order st) -> edge x d -> precedes d x (order st)
}.

(** What a call of [visit] must establish when it returns. *)
Definition visitPost (from : list string) (st st' : Dfs) : Prop :=
  WF st' /\
  visiting st' = visiting st /\
  (exists new, order st' = order st ++ new /\
     forall y, In y new -> exists r, In r from /\ isRegistered r = true /\ pathRefl r y) /\
  (forall r, In r from -> isRegistered r = true -> In r (order st')).

Definition throwsCycle (e : Exn) : Prop :=
  exists x, e = cycleError x /\ onCycle isRegistered depsOf x.

Definition visitOk (from : list string) (st : Dfs) (o : Outcome Dfs) : Prop :=
  match o with
  | Done st' => visitPost from st st'
  | Thrown e => throwsCycle e
  | OutOfFuel => False
  end.

(** The whole computation: when it returns, the order lists every key
    once, dependencies first, and an earlier key comes first unless some key
    up to it reaches the later one; in that case the graph has no cycle.
    When it throws, the name in the exception lies on a cycle. *)
Definition orderOk (o : list string) : Prop :=
  NoDup o /\
  (forall x, In x o <-> In x keys) /\
  (forall x d, edge x d -> precedes d x o) /\
  (forall l1 a l2 b,
     keys = l1 ++ a :: l2 -> In b l2 ->
     (forall r, In r (l1 ++ [a]) -> ~ pathRefl r b) ->
     precedes a b o).

End Vocabulary.
End Marking.

(** A computed order, without the marking. *)
Definition orderOutcome (o : Outcome Dfs) : Outcome (list string) :=
  match o with
  | Done st => Done (order st)
  | Thrown e => Thrown e
  | OutOfFuel => OutOfFuel
  end.

(** What the resolver owes its caller: on a graph without a cycle, an
    order that is [orderOk]; on a graph with one, an exception naming a
    participant. *)
Definition resolves (isRegistered : string -> bool) (depsOf : string -> list string)
  (keys : list string) (cycleError : string -> Exn)
  (result : Outcome (list string)) : Prop :=
  (acyclic isRegistered depsOf ->
     exists o, result = Done o /\ Marking.orderOk isRegistered depsOf keys o) /\
  (cyclic isRegistered depsOf ->
     exists x, result = Thrown (cycleError x) /\ onCycle isRegistered depsOf x).

Section ManagerVocabulary.
Context {Impl : Type}.
Implicit Types m : @Manager Impl.

(** What the loop of [stopAll] and of the rollback does with one name. *)
Definition stopPart (msg : string) m (n : string) : list Effect :=
  match StrMap.get n (services m) with
  | None => []
  | Some v =>
      if ServiceState_eqb (getState v) RUNNING
      then traceOf (stop v) ++
           (if raised (resultOf (stop v)) then [ELog LError msg n] else [])
      else []
  end.

Definition requiredFailure (n : string) : Exn :=
  mkExn ServiceError ("Required service " +++ n +++ " failed to start").

(** What holds of the two orders in every state of the manager. *)
Definition ordersAgree m : Prop :=
  stopOrder m = rev (startOrder m) /\ NoDup (startOrder m).

End ManagerVocabulary.

Section InitializerVocabulary.
Context {Impl Breaker : Type}.
Implicit Types s : @Initializer Impl Breaker.

Local Abbreviation keysOf s := (StrMap.keys (components s)).

(** Every component is stored under its own name. *)
Definition wellKeyed s : Prop :=
  forall n c, StrMap.get n (components s) = Some c -> cName c = n.

(** Initialized and still registered: what [shutdown] acts on. *)
Definition live s (n : string) : bool :=
  StrSet.has n (initializedComponents s) && StrMap.has n (components s).

(** What no method of the initializer disturbs: components stay under
    their names, none is added or removed, and the [initialized] flag is
    only set by a successful [initialize] and cleared by [shutdown]. *)
Definition steady s s' : Prop :=
  (wellKeyed s -> wellKeyed s') /\ keysOf s' = keysOf s /\
  initialized s' = initialized s.

(** The object under [n] after a call that left private state [i]. *)
Definition touched s (n : string) (f : Component Impl -> Impl)
  : @Initializer Impl Breaker :=
  match StrMap.get n (components s) with
  | None => s
  | Some c => withComponents (StrMap.set n (withCImpl (f c) c) (components s)) s
  end.

Definition criticalMissing (missing : list string) : Exn :=
  mkExn InitializationError
    ("Critical components not initialized: " +++ String.concat ", " missing).

End InitializerVocabulary.

Section OrchestratorVocabulary.
Context {Impl Breaker : Type}.
Variable loggerConfigure : Impl -> Impl * option string.
Variable loggerClose : Impl -> Impl * Settle.
Variable freshImpl : Impl.

Local Abbreviation Orch := (BackendOrchestrator.Orchestrator Impl Breaker).
Local Abbreviation initializerOf := (BackendOrchestrator.initializer Impl Breaker).
Local Abbreviation loggerComponent :=
  (BackendOrchestrator.createLoggerComponent Impl loggerConfigure loggerClose freshImpl).
Local Abbreviation eventBusComponent :=
  (BackendOrchestrator.createEventBusComponent Impl freshImpl).

(** The initializer of an orchestrator never holds a component named
    config, and neither it nor the orchestrator is ever marked initialized. *)
Definition neverReady (o : Orch) : Prop :=
  BackendOrchestrator.orchInitialized Impl Breaker o = false /\
  initialized (initializerOf o) = false /\
  wellKeyed (initializerOf o) /\
  ~ In "config" (StrMap.keys (components (initializerOf o))) /\
  ~ In "config" (initializedComponents (initializerOf o)).

(** The initializer as [initializeCoreComponents] leaves it before it
    calls [initialize]. *)
Definition afterCoreRegistration (s : @Initializer Impl Breaker) : @Initializer Impl Breaker :=
  stateOf (registerComponent eventBusComponent
             (stateOf (registerComponent loggerComponent s))).

End OrchestratorVocabulary.

(** *** Concrete inputs used in examples *)

Definition sampleCoordinationConfig (delay : Z) : CoordinationConfig :=
  mkCoordinationConfig (Finite (QArith_base.inject_Z 3))
    (Finite (QArith_base.inject_Z delay)) (VBoolean true)
    (Finite (QArith_base.inject_Z 30000)) (Finite (QArith_base.inject_Z 5000)).

(** Scenario A and scenario B of the specification. *)
Definition plainService (n : string) (deps : list string) : Service nat :=
  scripted n deps true DEFAULT_SERVICE_CONFIG (fun _ => true) true.

Definition managerABC : @Manager nat :=
  stateOf (mgrRun [MRegister (plainService "A" []);
                   MRegister (plainService "B" ["A"]);
                   MRegister (plainService "C" ["B"])] newManager).

Definition managerXY : @Manager nat :=
  stateOf (mgrRun [MRegister (plainService "X" ["Y"]);
                   MRegister (plainService "Y" ["X"])] newManager).

(** Scenario A of the specification: A, B depending on A, C depending on
    B, all required, B failing to start. *)
Definition managerScenarioA : @Manager nat :=
  stateOf (mgrRun [MRegister (plainService "A" []);
                   MRegister (scripted "B" ["A"] true DEFAULT_SERVICE_CONFIG
                                (fun _ => false) true);
                   MRegister (plainService "C" ["B"])] newManager).

(** An initializer with three components, after a successful
    [initialize()].  The breaker runs the function once. *)
Definition sampleComponent (n : string) (deps : list string) : Component nat :=
  mkComponent n true (Some deps) (fun i => (S i, None)) (fun i => (i, Resolves))
    (fun i => (i, inl (mkHealth true None))) 0.

Definition onceGuarded (b : unit) (attempts : nat) (f : nat -> nat * option string)
  (i : nat) : unit * nat * option string :=
  (b, fst (f i), snd (f i)).

Definition sampleInitializer (names : list (string * list string))
  : @Initializer nat unit :=
  fold_left (fun s nd => stateOf (registerComponent (sampleComponent (fst nd) (snd nd)) s))
    names (newInitializer (fun _ => tt)).

Definition initializedSample : @Initializer nat unit :=
  stateOf (initialize onceGuarded true
             (sampleInitializer [("eventBus", ["logger"]); ("config", ["logger"]);
                                 ("logger", [])])).

(* ===================================================================== *)
(** ** Vocabulary of the further properties *)
(* ===================================================================== *)

(** The events emitted, as (topic, subject) pairs in order. *)
Definition eventsOf (t : list Effect) : list (string * string) :=
  flat_map (fun e => match e with EEmit topic n => [(topic, n)] | _ => [] end) t.

(** The subclass code invoked, in order. *)
Definition hooksCalled (t : list Effect) : list Hook :=
  flat_map (fun e => match e with ECall _ h => [h] | _ => [] end) t.

(** [l] is an initial segment of [l']. *)
Definition prefixOf {A} (l l' : list A) : Prop := exists rest, l' = l ++ rest.

Section HookVocabulary.
Context {Impl : Type}.

Definition whenDefined {F : Type} (f : option F) (h : Hook) : list Hook :=
  match f with Some _ => [h] | None => [] end.

(** The hooks a subclass gives [start] and [stop] to run, in program order. *)
Definition startHooks (h : Hooks Impl) : list Hook :=
  whenDefined (beforeStart h) HBeforeStart ++ [HDoStart] ++
  whenDefined (afterStart h) HAfterStart.

Definition stopHooks (h : Hooks Impl) : list Hook :=
  whenDefined (beforeStop h) HBeforeStop ++ [HDoStop] ++
  whenDefined (afterStop h) HAfterStop.

End HookVocabulary.

(** Health monitoring is switched off ([healthCheckInterval <= 0]) and the
    service holds no timer. *)
Definition unmonitored {Impl} (v : Service Impl) : Prop :=
  (healthCheckInterval (config v) <=? 0)%Z = true /\
  healthCheckHandle v = false /\
  liveTimers v = 0.

(** *** Further concrete inputs used in examples *)

(** A subclass whose [doStart] and [doStop] never settle; its beforeStart
    and beforeStop hooks are defined and return. *)
Definition stalledHooks : Hooks nat :=
  mkHooks (Some (fun k => (k, None)))
    (fun k => (k, StillPending))
    None
    (Some (fun k => (k, None)))
    (fun k => (k, StillPending))
    None
    (fun k => (k, inl true)).

Definition stalled (st : ServiceState) : Service nat :=
  withState st (newService "svc" "1.0.0" "" [] false DEFAULT_SERVICE_CONFIG stalledHooks 0).

(** A service whose first health tick finds it unhealthy with no restart
    left: it is forced to ERROR and keeps its timer. *)
Definition failedByMonitoring : Service nat :=
  stateOf (healthTick
    (stateOf (start (scripted "svc" [] false
                       (mkServiceConfig 30000 15000 10000 0 2000 true)
                       (fun _ => true) false)))).

(** Every registered dependency of a key stands before it in [keys]. *)
Definition dependenciesFirst (isRegistered : string -> bool)
  (depsOf : string -> list string) (keys : list string) : bool :=
  forallb (fun a =>
    forallb (fun d => negb (isRegistered d) || precedesb d a keys) (depsOf a)) keys.

(** The registry [createBackendServices] builds, for sample subclasses. *)
Definition backendServices : @Manager nat :=
  BackendOrchestrator.serviceManager nat unit
    (stateOf (BackendOrchestrator.createBackendServices nat unit 0
                (scriptedHooks (fun _ => true) true)
                (scriptedHooks (fun _ => true) true)
                (scriptedHooks (fun _ => true) true)
                (sampleCoordinationConfig 1000)
                (fun k => (k, Resolves)) (fun k => (k, Resolves))
                (fun k => (k, None)) (fun k => (k, None)) (fun k => (k, None))
                (fun k => (k, inl true))
                (BackendOrchestrator.newOrchestrator nat unit (fun _ => tt)))).

(* ===================================================================== *)
(** ** Component initializer: restart of one component *)
(* ===================================================================== *)

Section InitializerQueries.
Variable Impl : Type.
Variable Breaker : Type.
Variable guarded : Breaker -> nat -> (Impl -> Impl * option string) -> Impl ->
                   Breaker * Impl * option string.

(** [restartComponent].  The component is one object: [initializeComponent]
    runs on it as [shutdownComponent] left it. *)
Definition restartComponent (n : string) : M (@Initializer Impl Breaker) unit :=
  s <- get ;;
  match StrMap.get n (components s) with
  | None => throw (mkExn SystemError ("Component not found: " +++ n))
  | Some c =>
      tell (ELog LInfo "Restarting component" n) ;;
      tryCatch
        ((if StrSet.has n (initializedComponents s)
          then
            shutdownComponent c ;;
            modify (fun s =>
              withInitializedSet (StrSet.delete n (initializedComponents s)) s)
          else ret tt) ;;
         initializeComponent guarded
           (if StrSet.has n (initializedComponents s)
            then withCImpl (fst (cShutdown c (cImpl c))) c
            else c) ;;
         modify (fun s =>
           withInitializedSet (StrSet.add n (initializedComponents s)) s) ;;
         tell (ELog LInfo "Component restarted successfully" n) ;;
         tell (EEmit "backend:component_restarted" n))
        (fun _ =>
           tell (ELog LError "Component restart failed" n) ;;
           throw (mkExn SystemError ("Failed to restart component " +++ n)))
  end.

End InitializerQueries.

Arguments restartComponent {Impl Breaker}.

(** A component [initialize()] can attempt: registered, and of a type the
    constructor made a circuit breaker for. *)
Definition attemptable {Impl Breaker} (s : @Initializer Impl Breaker) (n : string) : bool :=
  StrMap.has n (components s) && StrMap.has n (circuitBreakers s).

(** Every effect of the trace is a log line. *)
Definition onlyLogs (t : list Effect) : Prop :=
  forall e, In e t -> exists lvl msg subject, e = ELog lvl msg subject.

(** The trace holds no call of a component's [initialize] and no event. *)
Definition inert (t : list Effect) : Prop :=
  callsOf HInitialize t = [] /\ eventsOf t = [].

(** The three errors [initialize()] can end with, by message. *)
Definition requiredComponentFailed (n msg : string) : Exn :=
  mkExn InitializationError
    ("Required component " +++ n +++ " failed to initialize: " +++ msg).

(* ===================================================================== *)
(** ** Orchestrator: the queries, and the callers in backend-init.ts *)
(* ===================================================================== *)

(** [getMetrics] and [getServiceMetrics], without the clock-valued [uptime]
    and the [customMetrics] of the subclass. *)
Definition getMetrics {Impl} (v : Service Impl) : ServiceMetrics := metrics v.

Definition getServiceMetrics {Impl} (m : @Manager Impl) : StrMap.t ServiceMetrics :=
  map (fun kv => (fst kv, getMetrics (snd kv))) (services m).

(** What [getStatus] answers, without its timestamp. *)
Record OrchestratorStatus : Type := mkOrchestratorStatus {
  statusInitialized : bool;
  statusStates : StrMap.t ServiceState;
  statusMetrics : StrMap.t ServiceMetrics;
  statusHealth : StrMap.t bool
}.

(** What [checkBackendHealth] answers. *)
Record BackendHealth : Type := mkBackendHealth {
  bhHealthy : bool;
  bhServices : StrMap.t bool;
  bhIssues : list string
}.

Module OrchestratorApi.
Section Api.
Variable Impl : Type.
Variable Breaker : Type.
Variable guarded : Breaker -> nat -> (Impl -> Impl * option string) -> Impl ->
                   Breaker * Impl * option string.
Variable eventBusDelivers : bool.
Variable loggerConfigure : Impl -> Impl * option string.
Variable loggerClose : Impl -> Impl * Settle.
Variable freshImpl : Impl.
Variable terminalHooks memoryHooks mcpHooks : Hooks Impl.
Variable coordinationConfig : CoordinationConfig.
Variable coordDoStart coordDoStop : Impl -> Impl * Settle.
Variable coordAfterStart coordBeforeStop coordAfterStop : Impl -> Impl * option string.
Variable coordDoHealthCheck : Impl -> Impl * (bool + string).

Local Abbreviation Orch := (BackendOrchestrator.Orchestrator Impl Breaker).
Local Abbreviation managerOf := (BackendOrchestrator.serviceManager Impl Breaker).
Local Abbreviation onManager := (BackendOrchestrator.onManager Impl Breaker).

(** [getStatus]: states and metrics are read before the health checks run,
    [this.initialized] when the answer is built. *)
Definition getStatus : M Orch OrchestratorStatus :=
  o <- get ;;
  let serviceStates := getServiceStates (managerOf o) in
  let serviceMetrics := getServiceMetrics (managerOf o) in
  serviceHealth <- onManager getServiceHealth ;;
  o' <- get ;;
  ret (mkOrchestratorStatus (BackendOrchestrator.orchInitialized Impl Breaker o')
         serviceStates serviceMetrics serviceHealth).

Definition restartService (serviceName : string) : M Orch unit :=
  onManager (restartService serviceName).

Definition getServiceHealth : M Orch (StrMap.t bool) :=
  onManager getServiceHealth.

(** A caller of the six methods of [IBackendOrchestrator], who goes on
    after an exception. *)
Inductive Call : Type :=
| CallInitialize
| CallShutdown
| CallRestart
| CallGetStatus
| CallRestartService (serviceName : string)
| CallGetServiceHealth.

Definition call (c : Call) : M Orch unit :=
  tryCatch
    match c with
    | CallInitialize =>
        BackendOrchestrator.initialize Impl Breaker guarded eventBusDelivers
          loggerConfigure loggerClose freshImpl terminalHooks memoryHooks mcpHooks
          coordinationConfig coordDoStart coordDoStop coordAfterStart coordBeforeStop
          coordAfterStop coordDoHealthCheck ;; ret tt
    | CallShutdown => BackendOrchestrator.shutdown Impl Breaker
    | CallRestart =>
        BackendOrchestrator.restart Impl Breaker guarded eventBusDelivers
          loggerConfigure loggerClose freshImpl terminalHooks memoryHooks mcpHooks
          coordinationConfig coordDoStart coordDoStop coordAfterStart coordBeforeStop
          coordAfterStop coordDoHealthCheck ;; ret tt
    | CallGetStatus => getStatus ;; ret tt
    | CallRestartService n => restartService n
    | CallGetServiceHealth => getServiceHealth ;; ret tt
    end
    (fun _ => ret tt).

Fixpoint callAll (cs : list Call) : M Orch unit :=
  match cs with
  | [] => ret tt
  | c :: rest => call c ;; callAll rest
  end.

(** [checkBackendHealth] of backend-init.ts. *)
Definition checkBackendHealth : M Orch BackendHealth :=
  tryCatch
    (serviceHealth <- getServiceHealth ;;
     status <- getStatus ;;
     let unhealthyServices :=
       map fst (filter (fun kv => negb (snd kv)) serviceHealth) in
     ret (mkBackendHealth
            (Nat.eqb (List.length unhealthyServices) 0 && statusInitialized status)
            serviceHealth
            (map (fun service => "Service " +++ service +++ " is unhealthy")
               unhealthyServices)))
    (fun error =>
       ret (mkBackendHealth false StrMap.empty
              ["Health check failed: " +++ exnMessage error])).

End Api.
End OrchestratorApi.

(** A health answer lists service [n] as healthy. *)
Definition answersHealthy (h : StrMap.t bool) (n : string) : bool :=
  match StrMap.get n h with Some b => b | None => false end.

(* ===================================================================== *)
(** ** backend-init.ts: the entry point *)
(* ===================================================================== *)

Inductive BackendEnvironment : Type := Development | Production | TestRun.

(** [BackendInitOptions]; an absent [skipHealthChecks] counts as false. *)
Record BackendInitOptions : Type := mkBackendInitOptions {
  configPath : option string;
  logLevel : option LogLevel;
  skipHealthChecks : bool;
  environment : option BackendEnvironment
}.

(** The [healthChecks] entry that [performHealthChecks] adds to
    [servicesStatus]. *)
Record HealthChecks : Type := mkHealthChecks {
  hcHealthy : list string;
  hcUnhealthy : list string
}.

(** [BackendInitResult], without the configuration and the clock-valued
    [initializationTime]. *)
Record BackendInitResult (Orch : Type) : Type := mkBackendInitResult {
  birSuccess : bool;
  birOrchestrator : option Orch;
  birHealthChecks : option HealthChecks;
  birErrors : list string
}.
Arguments mkBackendInitResult {Orch}.
Arguments birSuccess {Orch}.
Arguments birOrchestrator {Orch}.
Arguments birHealthChecks {Orch}.
Arguments birErrors {Orch}.

Definition levelName (l : LogLevel) : string :=
  match l with
  | LDebug => "debug"
  | LInfo => "info"
  | LWarn => "warn"
  | LError => "error"
  end.

Module BackendInit.
Section Init.
Variable Impl : Type.
Variable Breaker : Type.
Variable newBreaker : string -> Breaker.
Variable guarded : Breaker -> nat -> (Impl -> Impl * option string) -> Impl ->
                   Breaker * Impl * option string.
Variable eventBusDelivers : bool.
Variable loggerConfigure : Impl -> Impl * option string.
Variable loggerClose : Impl -> Impl * Settle.
Variable freshImpl : Impl.
Variable terminalHooks memoryHooks mcpHooks : Hooks Impl.
Variable coordinationConfig : CoordinationConfig.
Variable coordDoStart coordDoStop : Impl -> Impl * Settle.
Variable coordAfterStart coordBeforeStop coordAfterStop : Impl -> Impl * option string.
Variable coordDoHealthCheck : Impl -> Impl * (bool + string).

(** The configuration manager, the [Logger] class and the [EventBus] class
    are outside the sources.  [Env] is the state they share; each call may
    change it and may throw. *)
Variable Env : Type.
Variable configInit : Env -> Env * option Exn.
Variable configLoad : string -> Env -> Env * option Exn.
Variable configLoadDefault : Env -> Env * option Exn.
Variable configSet : string -> JsValue -> Env -> Env * option Exn.
Variable configGet : Env -> Env * option Exn.
Variable loggerGetInstance : Env -> Env * option Exn.
Variable configureLogger : Env -> Env * option Exn.
Variable newEventBus : Env -> Env * option Exn.

Local Abbreviation Orch := (BackendOrchestrator.Orchestrator Impl Breaker).

(** One run of [initializeBackend]: the collaborators and
    [result.orchestrator], which is null until step 4.  Console output is
    not part of the trace. *)
Definition Run : Type := (Env * option Orch)%type.

Definition external (f : Env -> Env * option Exn) : M Run unit :=
  fun s =>
    match f (fst s) with
    | (env, None) => ((env, snd s), [], Val tt)
    | (env, Some e) => ((env, snd s), [], Exc e)
    end.

(** A method of the orchestrator of this run.  The local [orchestrator] and
    [result.orchestrator] are one object; a method call on null is the
    TypeError of JavaScript. *)
Definition onOrchestrator {A} (m : M Orch A) : M Run A :=
  fun s =>
    match snd s with
    | Some o => match m o with (o', t, r) => ((fst s, Some o'), t, r) end
    | None => (s, [], Exc (mkExn PlainError "Cannot read properties of null"))
    end.

Definition loadConfiguration (options : BackendInitOptions) : M Run unit :=
  tryCatch
    (external configInit ;;
     match configPath options with
     | Some (String c p) => external (configLoad (String c p))
     | _ =>
         tryCatch (external (configLoad "./claude-flow.config.json"))
           (fun _ => external configLoadDefault)
     end ;;
     match logLevel options with
     | Some l => external (configSet "logging.level" (VString (levelName l)))
     | None => ret tt
     end ;;
     match environment options with
     | Some Development =>
         external (configSet "logging.level" (VString "debug")) ;;
         external (configSet "orchestrator.healthCheckInterval"
                     (VNumber (Finite (QArith_base.inject_Z 10000))))
     | Some Production =>
         external (configSet "logging.level" (VString "info")) ;;
         external (configSet "security.encryptionEnabled" (VBoolean true))
     | Some TestRun =>
         external (configSet "logging.level" (VString "warn")) ;;
         external (configSet "orchestrator.healthCheckInterval"
                     (VNumber (Finite (QArith_base.inject_Z 5000))))
     | None => ret tt
     end)
    (fun _ => throw (mkExn InitializationError "Configuration loading failed")).

Definition initializeLogging : M Run unit :=
  tryCatch
    (external loggerGetInstance ;; external configureLogger)
    (fun _ => throw (mkExn InitializationError "Logging initialization failed")).

Definition initializeEventBus : M Run unit :=
  tryCatch
    (external newEventBus)
    (fun _ => throw (mkExn InitializationError "Event bus initialization failed")).

(** [performHealthChecks]: what it stores under [healthChecks] and what it
    pushes on [result.errors]. *)
Definition performHealthChecks : M Run (option HealthChecks * list string) :=
  tryCatch
    (serviceHealth <- onOrchestrator (OrchestratorApi.getServiceHealth Impl Breaker) ;;
     let healthyServices := map fst (filter (fun kv => snd kv) serviceHealth) in
     let unhealthyServices :=
       map fst (filter (fun kv => negb (snd kv)) serviceHealth) in
     ret (Some (mkHealthChecks healthyServices unhealthyServices),
          if Nat.ltb 0 (List.length unhealthyServices)
          then ["Unhealthy services: " +++ String.concat ", " unhealthyServices]
          else []))
    (fun error => ret (None, ["Health check failed: " +++ exnMessage error])).

Definition initializeBackend (options : BackendInitOptions)
  : M Env (BackendInitResult Orch) :=
  fun env =>
    match
      tryCatch
        (loadConfiguration options ;;
         external configGet ;;
         initializeLogging ;;
         initializeEventBus ;;
         modify (fun s : Run =>
           (fst s, Some (BackendOrchestrator.newOrchestrator Impl Breaker newBreaker))) ;;
         orchestrationResult <-
           onOrchestrator
             (BackendOrchestrator.initialize Impl Breaker guarded eventBusDelivers
                loggerConfigure loggerClose freshImpl terminalHooks memoryHooks
                mcpHooks coordinationConfig coordDoStart coordDoStop coordAfterStart
                coordBeforeStop coordAfterStop coordDoHealthCheck) ;;
         if negb (orchSuccess orchestrationResult)
         then throw (mkExn InitializationError "Backend orchestration failed")
         else
           checks <- (if negb (skipHealthChecks options)
                      then performHealthChecks
                      else ret (None, [])) ;;
           s <- get ;;
           ret (mkBackendInitResult true (snd s) (fst checks) (snd checks)))
        (fun error =>
           s <- get ;;
           match snd s with
           | Some _ =>
               tryCatch (onOrchestrator (BackendOrchestrator.shutdown Impl Breaker))
                 (fun _ => ret tt)
           | None => ret tt
           end ;;
           throw error)
        (env, None)
    with
    | (s, t, r) => (fst s, t, r)
    end.

(** [quickInit]; its parameter is declared as development or test. *)
Definition quickInit (env : BackendEnvironment) : M Env (BackendInitResult Orch) :=
  initializeBackend
    (mkBackendInitOptions None
       (Some (match env with Development => LDebug | _ => LWarn end))
       (match env with TestRun => true | _ => false end)
       (Some env)).

Definition productionInit (path : option string) : M Env (BackendInitResult Orch) :=
  initializeBackend (mkBackendInitOptions path (Some LInfo) false (Some Production)).

End Init.
End BackendInit.

(** The errors [initializeBackend] makes itself, and the one it passes on
    from its orchestrator. *)
Definition backendInitErrors : list Exn :=
  [mkExn InitializationError "Configuration loading failed";
   mkExn InitializationError "Logging initialization failed";
   mkExn InitializationError "Event bus initialization failed";
   mkExn InitializationError "Backend orchestration failed"].

(* ===================================================================== *)
(** ** services/orchestrator-service.ts: the dependency check *)
(* ===================================================================== *)

(** What [beforeStart] finds behind one of the four constructor arguments:
    nothing, an object without a [getHealthStatus] function, or what the
    call of [getHealthStatus] does. *)
Inductive DependencyProbe : Type :=
| Missing
| NoHealthMethod
| Answers (health : HealthStatus)
| Throws (msg : string).

(** The loop over [dependencies]: the log lines written and the message of
    the [Error] that leaves the loop, if one does. *)
Fixpoint verifyDependencies (dependencies : list (string * DependencyProbe))
  : list Effect * option string :=
  match dependencies with
  | [] => ([], None)
  | (n, instance) :: rest =>
      let warning :=
        ELog LWarn ("Could not check health of dependency " +++ n) "" in
      match instance with
      | Missing => ([], Some ("Dependency not available: " +++ n))
      | NoHealthMethod => verifyDependencies rest
      | Answers health =>
          if negb (healthy health)
          then (warning :: fst (verifyDependencies rest), snd (verifyDependencies rest))
          else verifyDependencies rest
      | Throws _ =>
          (warning :: fst (verifyDependencies rest), snd (verifyDependencies rest))
      end
  end.

(** [OrchestratorService.beforeStart] *)
Definition orchestratorBeforeStart
  (terminalManager memoryManager coordinationManager mcpServer : DependencyProbe)
  : list Effect * option string :=
  let checked :=
    verifyDependencies
      [("terminalManager", terminalManager); ("memoryManager", memoryManager);
       ("coordinationManager", coordinationManager); ("mcpServer", mcpServer)] in
  (ELog LInfo "Verifying orchestrator dependencies..." "" :: fst checked ++
   match snd checked with
   | None => [ELog LInfo "All orchestrator dependencies verified" ""]
   | Some _ => []
   end,
   snd checked).

Section OrchestratorService.
Variable Impl : Type.
(** The other members of the class delegate to an Orchestrator whose code
    is not part of the sources; they are left abstract. *)
Variable orchDoStart orchDoStop : Impl -> Impl * Settle.
Variable orchAfterStart orchBeforeStop orchAfterStop : Impl -> Impl * option string.
Variable orchDoHealthCheck : Impl -> Impl * (bool + string).

(** The hooks of the class.  [beforeStart] is [orchestratorBeforeStart]
    without its log lines, which a hook cannot add to the trace. *)
Definition orchestratorHooks
  (terminalManager memoryManager coordinationManager mcpServer : DependencyProbe)
  : Hooks Impl :=
  mkHooks
    (Some (fun i =>
       (i, snd (orchestratorBeforeStart terminalManager memoryManager
                  coordinationManager mcpServer))))
    orchDoStart
    (Some orchAfterStart)
    (Some orchBeforeStop)
    orchDoStop
    (Some orchAfterStop)
    orchDoHealthCheck.

(** [new OrchestratorService(appConfig, terminalManager, memoryManager,
    coordinationManager, mcpServer, config, logger, eventBus)] *)
Definition OrchestratorService
  (terminalManager memoryManager coordinationManager mcpServer : DependencyProbe)
  (cfg : ServiceConfig) (i : Impl) : Service Impl :=
  newService "orchestrator" "1.0.0"
    "Main Claude Flow orchestrator for agent management and coordination"
    ["logger"; "eventBus"; "terminalManager"; "memoryManager";
     "coordinationManager"; "mcpServer"]
    true cfg
    (orchestratorHooks terminalManager memoryManager coordinationManager mcpServer) i.
End OrchestratorService.

Definition isMissing (p : DependencyProbe) : bool :=
  match p with Missing => true | _ => false end.

(** The dependency reports a problem: it answers unhealthy, or its check
    throws. *)
Definition reportsTrouble (p : DependencyProbe) : bool :=
  match p with
  | Answers health => negb (healthy health)
  | Throws _ => true
  | _ => false
  end.

(* ===================================================================== *)
(** ** Vocabulary of the further properties: the steps of a start or stop *)
(* ===================================================================== *)

(** The events of the base class and of the manager: those whose topic
    begins with "service:". *)
Definition serviceEvents (t : list Effect) : list (string * string) :=
  filter (fun e => String.prefix "service:" (fst e)) (eventsOf t).

Section StageVocabulary.
Context {Impl : Type}.

(** One step of subclass code in a [start] or a [stop]: the hook, and what
    it does to the private state together with the message of its failure,
    if it fails. *)
Definition Stage : Type := (Hook * (Impl -> Impl * option string))%type.

Definition optionalStage (h : Hook) (f : option (Impl -> Impl * option string))
  : list Stage :=
  match f with Some g => [(h, g)] | None => [] end.

(** A [doStart] or [doStop]: rejecting fails with its own message, being
    still pending at the timeout with the message of the timeout. *)
Definition racedStage (h : Hook) (f : Impl -> Impl * Settle) (timeoutMessage : string)
  : Stage :=
  (h, fun i =>
        (fst (f i),
         match snd (f i) with
         | Resolves => None
         | Rejects msg => Some msg
         | StillPending => Some timeoutMessage
         end)).

Definition startStages (v : Service Impl) : list Stage :=
  optionalStage HBeforeStart (beforeStart (hooks v)) ++
  [racedStage HDoStart (doStart (hooks v))
     ("Service " +++ name v +++ " startup timeout")] ++
  optionalStage HAfterStart (afterStart (hooks v)).

Definition stopStages (v : Service Impl) : list Stage :=
  optionalStage HBeforeStop (beforeStop (hooks v)) ++
  [racedStage HDoStop (doStop (hooks v))
     ("Service " +++ name v +++ " shutdown timeout")] ++
  optionalStage HAfterStop (afterStop (hooks v)).

(** The steps run in order from private state [i], up to and including the
    first that fails: the hooks that ran, the private state they left, and
    the message of the failure if there was one. *)
Fixpoint runStages (stages : list Stage) (i : Impl)
  : list Hook * Impl * option string :=
  match stages with
  | [] => ([], i, None)
  | (h, f) :: rest =>
      match snd (f i) with
      | Some msg => ([h], fst (f i), Some msg)
      | None =>
          (h :: fst (fst (runStages rest (fst (f i)))),
           snd (fst (runStages rest (fst (f i)))),
           snd (runStages rest (fst (f i))))
      end
  end.

Definition stagesRun (stages : list Stage) (i : Impl) : list Hook :=
  fst (fst (runStages stages i)).

Definition stagesLeave (stages : list Stage) (i : Impl) : Impl :=
  snd (fst (runStages stages i)).

Definition stagesFailure (stages : list Stage) (i : Impl) : option string :=
  snd (runStages stages i).

End StageVocabulary.

(** A subclass with all four optional hooks; its beforeStart throws unless
    [ready], and each hook that runs adds one to the private state. *)
Definition gatedHooks (ready : bool) : Hooks nat :=
  mkHooks (Some (fun k => (S k, if ready then None else Some "not ready")))
    (fun k => (S k, Resolves))
    (Some (fun k => (S k, None)))
    (Some (fun k => (S k, None)))
    (fun k => (S k, Rejects "still busy"))
    (Some (fun k => (S k, None)))
    (fun k => (k, inl true)).

Definition gated (ready : bool) (st : ServiceState) : Service nat :=
  withState st
    (newService "svc" "1.0.0" "" [] false DEFAULT_SERVICE_CONFIG (gatedHooks ready) 0).

(** Where [startAll] leaves a service it went past before it raised: as
    its [start] left it, and stopped again if it was running by then. *)
Definition rolledBack {Impl} (v : Service Impl) : Service Impl :=
  let v' := stateOf (start v) in
  if ServiceState_eqb (getState v') RUNNING then stateOf (stop v') else v'.

(** [l] up to and including its first element that satisfies [p]. *)
Fixpoint throughFirst {A} (p : A -> bool) (l : list A) : list A :=
  match l with
  | [] => []
  | a :: rest => if p a then [a] else a :: throughFirst p rest
  end.

Section InitializationRun.
Context {Impl Breaker : Type}.
Variable guarded : Breaker -> nat -> (Impl -> Impl * option string) -> Impl ->
                   Breaker * Impl * option string.

(** [initializeComponent] raises for the component under [n]: there is no
    circuit breaker of its name, or the guarded [initialize] rejects. *)
Definition initializationFails (s : @Initializer Impl Breaker) (n : string) : bool :=
  match StrMap.get n (components s) with
  | None => false
  | Some c =>
      match StrMap.get (cName c) (circuitBreakers s) with
      | None => true
      | Some b =>
          match snd (guarded b (if cIsRequired c then 3 else 1) (cInitialize c)
                       (cImpl c)) with
          | Some _ => true
          | None => false
          end
      end
  end.

(** ... and the component is required, which ends the loop. *)
Definition abortsInitialization (s : @Initializer Impl Breaker) (n : string) : bool :=
  initializationFails s n &&
  match StrMap.get n (components s) with
  | Some c => cIsRequired c
  | None => false
  end.

End InitializationRun.

Section ShutdownVocabulary.
Context {Impl Breaker : Type}.

(** The component registered under [n] has a [shutdown] that resolves in
    time from its present private state. *)
Definition shutsDown (s : @Initializer Impl Breaker) (n : string) : bool :=
  match StrMap.get n (components s) with
  | Some c =>
      match snd (cShutdown c (cImpl c)) with
      | Resolves => true
      | _ => false
      end
  | None => false
  end.

End ShutdownVocabulary.

(** Like [sampleComponent], but its shutdown rejects. *)
Definition stubbornComponent (n : string) (deps : list string) : Component nat :=
  mkComponent n true (Some deps) (fun i => (S i, None))
    (fun i => (i, Rejects "still flushing"))
    (fun i => (i, inl (mkHealth true None))) 0.

(** Three components after a successful [initialize()]; the shutdown of
    "eventBus" rejects. *)
Definition stubbornSample : @Initializer nat unit :=
  stateOf (initialize onceGuarded true
             (fold_left (fun s c => stateOf (registerComponent c s))
                [stubbornComponent "eventBus" ["logger"];
                 sampleComponent "config" ["logger"];
                 sampleComponent "logger" []]
                (newInitializer (fun _ => tt)))).

(* ===================================================================== *)
(** * Properties *)
(* ===================================================================== *)


(** Unfolds the method monad. *)
Ltac run_method :=
  cbv [bind ret throw tryCatch tell get modify stateOf traceOf resultOf
       setState logSvc emitSvc recordError] in *.

(** Case analysis on an innermost scrutinee of the goal. *)
Ltac break_inner :=
  match goal with
  | |- context [match ?X with _ => _ end] =>
      lazymatch X with
      | context [match _ with _ => _ end] => fail
      | _ => destruct X eqn:?
      end
  end.

Ltac run_service :=
  cbv [startBody stopBody runHook raceTimeout startHealthChecks stopHealthChecks];
  run_method.

(** ** Lifecycle state machine *)

Section LifecycleFacts.
Context {Impl : Type}.
Implicit Types v : Service Impl.

Lemma sameIdentity_refl : forall v, sameIdentity v v.
Proof. intros v. repeat split. Qed.

Lemma sameIdentity_trans : forall v1 v2 v3,
  sameIdentity v1 v2 -> sameIdentity v2 v3 -> sameIdentity v1 v3.
Proof.
  unfold sameIdentity.
  intros v1 v2 v3 (A1 & A2 & A3 & A4 & A5) (B1 & B2 & B3 & B4 & B5).
  repeat split; congruence.
Qed.

Lemma startBody_summary : forall v0 v,
  name v0 = name v -> config v0 = config v -> hooks v0 = hooks v ->
  quiet v (startBody v0 v) /\
  restartCount (metrics (stateOf (startBody v0 v))) = restartCount (metrics v) /\
  filter isRestartEntry (traceOf (startBody v0 v)) = [] /\
  (startedOk v (startBody v0 v) \/ startedBad v (startBody v0 v)).
Proof.
  intros v0 v Hn Hc Hh.
  unfold quiet, startedOk, startedBad, sameIdentity. run_service.
  rewrite Hn, Hc, Hh.
  repeat (break_inner; simpl); simpl; repeat split; auto 10.
Qed.

Lemma stopBody_summary : forall v0 v,
  name v0 = name v -> config v0 = config v -> hooks v0 = hooks v ->
  quiet v (stopBody v0 v) /\
  restartCount (metrics (stateOf (stopBody v0 v))) = restartCount (metrics v) /\
  filter isRestartEntry (traceOf (stopBody v0 v)) = [] /\
  healthCheckHandle (stateOf (stopBody v0 v)) = false /\
  liveTimers (stateOf (stopBody v0 v)) =
    (if healthCheckHandle v then pred (liveTimers v) else liveTimers v) /\
  (stoppedOk (stopBody v0 v) \/ stoppedBad v (stopBody v0 v)).
Proof.
  intros v0 v Hn Hc Hh.
  unfold quiet, stoppedOk, stoppedBad, sameIdentity. run_service.
  rewrite Hn, Hc, Hh. simpl.
  repeat (break_inner; simpl); simpl; repeat split; auto 10.
Qed.

(** [start] and [stop] with their entry checks. *)
Lemma start_running : forall v,
  state v = RUNNING ->
  start v = (v, [ELog LWarn "Service already running" (name v)], Val tt).
Proof. intros v H. unfold start. run_method. rewrite H. reflexivity. Qed.

Lemma start_starting : forall v,
  state v = STARTING ->
  start v = (v, [], Exc (mkExn ServiceStartupError
                           ("Service " +++ name v +++ " is already starting"))).
Proof. intros v H. unfold start. run_method. rewrite H. reflexivity. Qed.

Lemma start_proceeds : forall v,
  state v <> RUNNING -> state v <> STARTING -> start v = startBody v v.
Proof.
  intros v H1 H2. unfold start. run_method.
  destruct (state v); try congruence;
    destruct (startBody v v) as [[? ?] ?]; reflexivity.
Qed.

Lemma stop_stopped : forall v,
  state v = STOPPED ->
  stop v = (v, [ELog LWarn "Service already stopped" (name v)], Val tt).
Proof. intros v H. unfold stop. run_method. rewrite H. reflexivity. Qed.

Lemma stop_stopping : forall v,
  state v = STOPPING ->
  stop v = (v, [], Exc (mkExn ServiceShutdownError
                          ("Service " +++ name v +++ " is already stopping"))).
Proof. intros v H. unfold stop. run_method. rewrite H. reflexivity. Qed.

Lemma stop_proceeds : forall v,
  state v <> STOPPED -> state v <> STOPPING -> stop v = stopBody v v.
Proof.
  intros v H1 H2. unfold stop. run_method.
  destruct (state v); try congruence;
    destruct (stopBody v v) as [[? ?] ?]; reflexivity.
Qed.

(** C6 (as the code has it).  [start()] is a no-op with a warning when the
    service is RUNNING, raises a ServiceStartupError when it is STARTING, and
    in every other state -- STOPPING included -- logs and moves to STARTING
    first. *)
Theorem start_entry_guard : forall v,
  match state v with
  | RUNNING =>
      start v = (v, [ELog LWarn "Service already running" (name v)], Val tt)
  | STARTING =>
      start v = (v, [], Exc (mkExn ServiceStartupError
                               ("Service " +++ name v +++ " is already starting")))
  | _ =>
      exists rest,
        traceOf (start v) =
          ELog LInfo "Starting service" (name v)
            :: ESetState (name v) STARTING :: rest
  end.
Proof.
  intros v.
  destruct (state v) eqn:E;
    try (apply start_running; assumption);
    try (apply start_starting; assumption);
    (rewrite start_proceeds by congruence;
     unfold startBody; run_method;
     repeat (break_inner; simpl); eexists; reflexivity).
Qed.

(** C10.  [healthCheck()] answers false in every state other than RUNNING
    without calling the subclass predicate (no effect, no change of the
    object); in state RUNNING a predicate that throws is answered by false,
    the exception being logged. *)
Theorem healthCheck_guard : forall v,
  match state v with
  | RUNNING =>
      match doHealthCheck (hooks v) (impl v) with
      | (i, inl h) =>
          healthCheck v = (withImpl i v, [ECall (name v) HDoHealthCheck], Val h)
      | (i, inr _) =>
          healthCheck v =
            (withImpl i v,
             [ECall (name v) HDoHealthCheck;
              ELog LError "Health check failed" (name v)],
             Val false)
      end
  | _ => healthCheck v = (v, [], Val false)
  end.
Proof.
  intros v. unfold healthCheck. run_method.
  destruct (state v); try reflexivity.
  destruct (doHealthCheck (hooks v) (impl v)) as [i [h|msg]]; reflexivity.
Qed.

End LifecycleFacts.

(** C6 as stated fails: a service in state STOPPING is started, not
    rejected. *)
Lemma start_while_stopping_proceeds :
  let v := withState STOPPING
             (scripted "svc" [] false DEFAULT_SERVICE_CONFIG (fun _ => true) true) in
  resultOf (start v) = Val tt /\
  statesAssigned (traceOf (start v)) = [STARTING; RUNNING].
Proof. split; reflexivity. Qed.

(** ** Coordination service *)

Section CoordinationFacts.
Context {Impl : Type}.
Variable coordDoStart coordDoStop : Impl -> Impl * Settle.
Variable coordAfterStart coordBeforeStop coordAfterStop : Impl -> Impl * option string.
Variable coordDoHealthCheck : Impl -> Impl * (bool + string).

Lemma outOfBounds_rejected : forall c,
  outOfBounds c -> exists msg, coordinationBeforeStart c = inl msg.
Proof.
  unfold outOfBounds, coordinationBeforeStart. intros c H.
  destruct (jsLt (maxRetries c) 0); [eauto|].
  destruct (jsLe (retryDelay c) 0); [eauto|].
  destruct (jsLe (resourceTimeout c) 0); [eauto|].
  destruct (jsLe (messageTimeout c) 0); [eauto|].
  destruct (typeofIsBoolean (deadlockDetection c)); simpl; [|eauto].
  intuition discriminate.
Qed.

Lemma withinBounds_accepted : forall c,
  withinBounds c -> coordinationBeforeStart c = inr (jsGt (maxRetries c) 100).
Proof.
  unfold withinBounds, coordinationBeforeStart.
  intros c (H1 & H2 & H3 & H4 & H5).
  rewrite H1, H2, H3, H4, H5. reflexivity.
Qed.


End CoordinationFacts.


(** ** Restart and health ticks *)

Section RestartFacts.
Context {Impl : Type}.
Implicit Types v : Service Impl.

Ltac trace_eq :=
  simpl; repeat rewrite app_nil_r; repeat rewrite <- app_assoc; simpl;
  try reflexivity.

Lemma outcome_eta : forall {S A} (o : S * list Effect * res A),
  o = (stateOf o, traceOf o, resultOf o).
Proof. intros S A [[s t] r]. reflexivity. Qed.

(** [restart] in terms of the outcomes of [stop] and [start]. *)
Lemma restart_eq : forall v,
  restart v =
  let entry := ELog LInfo "Restarting service" (name v) in
  let failure := mkExn ServiceError ("Failed to restart service " +++ name v) in
  match stop v with
  | (v1, t1, Exc _) => (v1, entry :: t1, Exc failure)
  | (v1, t1, Val _) =>
      match start v1 with
      | (v2, t2, Exc _) =>
          (v2, entry :: t1 ++ EDelay (restartDelay (config v)) :: t2, Exc failure)
      | (v2, t2, Val _) =>
          (withMetrics (mkMetrics (restartCount (metrics v2) + 1)
                          (errorCount (metrics v2)) (lastError (metrics v2))) v2,
           entry :: t1 ++ EDelay (restartDelay (config v)) :: t2 ++
             [EEmit "service:restarted" (name v2)],
           Val tt)
      end
  end.
Proof.
  intros v. unfold restart. run_method.
  destruct (stop v) as [[v1 t1] [[]|e]]; [|trace_eq].
  simpl. destruct (start v1) as [[v2 t2] [[]|e]]; trace_eq.
Qed.

(** [healthCheck] never raises and assigns neither the state nor the
    metrics. *)
Lemma healthCheck_summary : forall v,
  exists h,
    resultOf (healthCheck v) = Val h /\
    (state v <> RUNNING -> h = false) /\
    sameIdentity v (stateOf (healthCheck v)) /\
    state (stateOf (healthCheck v)) = state v /\
    metrics (stateOf (healthCheck v)) = metrics v /\
    healthCheckHandle (stateOf (healthCheck v)) = healthCheckHandle v /\
    liveTimers (stateOf (healthCheck v)) = liveTimers v /\
    statesAssigned (traceOf (healthCheck v)) = [] /\
    filter isRestartEntry (traceOf (healthCheck v)) = [] /\
    filter isFailedEvent (traceOf (healthCheck v)) = [].
Proof.
  intros v. pose proof (healthCheck_guard v) as G.
  destruct (state v) eqn:E;
    try (rewrite G; exists false; simpl; repeat split; auto; fail).
  destruct (doHealthCheck (hooks v) (impl v)) as [i [h|msg]]; rewrite G.
  - exists h. simpl. repeat split; auto; congruence.
  - exists false. simpl. repeat split; auto.
Qed.

(** One health tick in terms of the outcomes of [healthCheck] and
    [restart]. *)
Lemma healthTick_eq : forall v,
  healthTick v =
  match healthCheck v with
  | (v1, t1, Exc _) => (v1, t1 ++ [ELog LError "Health check error" (name v1)], Val tt)
  | (v1, t1, Val healthy) =>
      if negb healthy && enableAutoRestart (config v1)
      then
        let warn := ELog LWarn "Service unhealthy, attempting restart" (name v1) in
        if (restartCount (metrics v1) <? maxRestartAttempts (config v1))%Z
        then
          match restart v1 with
          | (v2, t2, Val _) => (v2, t1 ++ warn :: t2, Val tt)
          | (v2, t2, Exc _) =>
              (v2, t1 ++ warn :: t2 ++ [ELog LError "Health check error" (name v2)],
               Val tt)
          end
        else
          (withState ERROR v1,
           t1 ++ [warn;
                  ELog LError "Service restart limit exceeded" (name v1);
                  ESetState (name v1) ERROR;
                  EEmit "service:failed" (name v1)],
           Val tt)
      else (v1, t1, Val tt)
  end.
Proof.
  intros v. unfold healthTick. run_method.
  destruct (healthCheck v) as [[v1 t1] [h|e]]; [|trace_eq].
  simpl. destruct (negb h && enableAutoRestart (config v1)); [|trace_eq].
  simpl.
  destruct (restartCount (metrics v1) <? maxRestartAttempts (config v1))%Z; [|trace_eq].
  simpl. destruct (restart v1) as [[v2 t2] [[]|e]]; trace_eq.
Qed.

(** *** Reading traces of composed calls *)

Lemma statesAssigned_app : forall t1 t2,
  statesAssigned (t1 ++ t2) = statesAssigned t1 ++ statesAssigned t2.
Proof. intros. unfold statesAssigned. apply flat_map_app. Qed.

Lemma restartsInvoked_app : forall t1 t2,
  restartsInvoked (t1 ++ t2) = restartsInvoked t1 + restartsInvoked t2.
Proof. intros. unfold restartsInvoked. rewrite filter_app, length_app. reflexivity. Qed.

Lemma follows_app : forall R l1 l2 a,
  follows R a (l1 ++ l2) = follows R a l1 && follows R (endsAt a l1) l2.
Proof.
  intros R l1. induction l1 as [|s l1 IH]; intros l2 a; simpl.
  - reflexivity.
  - rewrite IH, andb_assoc. reflexivity.
Qed.

Lemma endsAt_app : forall l1 l2 a, endsAt a (l1 ++ l2) = endsAt (endsAt a l1) l2.
Proof. intros. unfold endsAt. apply fold_left_app. Qed.

(** *** Settled services *)

Lemma settled_cases : forall v,
  settled v -> state v = STOPPED \/ state v = RUNNING \/ state v = ERROR.
Proof. intros v H. apply H. Qed.

Ltac by_state Hst :=
  destruct Hst as [E|[E|E]]; rewrite E in *; simpl in *;
  try reflexivity; try congruence; try tauto.

Lemma start_from_settled : forall v,
  settled v ->
  quiet v (start v) /\
  walks v (start v) /\
  restartCount (metrics (stateOf (start v))) = restartCount (metrics v) /\
  restartsInvoked (traceOf (start v)) = 0 /\
  (liveTimers (stateOf (start v)) <= 1 -> settled (stateOf (start v))) /\
  (resultOf (start v) = Val tt /\ state (stateOf (start v)) = RUNNING \/
   raised (resultOf (start v)) = true /\ state (stateOf (start v)) = ERROR).
Proof.
  intros v (Hst & Hh & Ht).
  destruct (ServiceState_eqb (state v) RUNNING) eqn:ER.
  - assert (state v = RUNNING) as E by (destruct (state v); simpl in ER; congruence).
    rewrite (start_running v E). unfold quiet, walks, settled. simpl.
    rewrite E. repeat split; auto using sameIdentity_refl; try tauto; congruence.
  - assert (state v <> RUNNING) as N1 by (intros E; rewrite E in ER; discriminate).
    assert (state v <> STARTING) as N2 by (destruct Hst as [E|[E|E]]; congruence).
    rewrite (start_proceeds v N1 N2).
    destruct (startBody_summary v v eq_refl eq_refl eq_refl)
      as (Q & C & RI & [(R & S & P & T)|(R & S & P & T1 & T2)]);
      unfold walks, settled, restartsInvoked; rewrite P, C, RI, S, R.
    + split; [exact Q|]. split; [split; by_state Hst|].
      split; [reflexivity|]. split; [reflexivity|].
      split; [|left; split; reflexivity].
      intros Hle. split; [tauto|]. split; [congruence|].
      destruct (healthCheckInterval (config v) <=? 0)%Z;
        destruct T as [T1 T2]; rewrite T1, T2 in *.
      * exact Ht.
      * destruct (healthCheckHandle v); simpl in *; lia.
    + split; [exact Q|]. split; [split; by_state Hst|].
      split; [reflexivity|]. split; [reflexivity|].
      split; [|right; split; reflexivity].
      intros Hle. split; [tauto|]. split; [congruence|].
      rewrite T1, T2. exact Ht.
Qed.

Lemma stop_from_settled : forall v,
  settled v ->
  quiet v (stop v) /\
  walks v (stop v) /\
  restartCount (metrics (stateOf (stop v))) = restartCount (metrics v) /\
  restartsInvoked (traceOf (stop v)) = 0 /\
  settled (stateOf (stop v)) /\
  healthCheckHandle (stateOf (stop v)) = false /\
  (resultOf (stop v) = Val tt /\ state (stateOf (stop v)) = STOPPED \/
   raised (resultOf (stop v)) = true /\ state (stateOf (stop v)) = ERROR).
Proof.
  intros v (Hst & Hh & Ht).
  destruct (ServiceState_eqb (state v) STOPPED) eqn:ER.
  - assert (state v = STOPPED) as E by (destruct (state v); simpl in ER; congruence).
    rewrite (stop_stopped v E). unfold quiet, walks, settled. simpl.
    assert (healthCheckHandle v = false) as Hf
      by (destruct (healthCheckHandle v); auto; exfalso; apply Hh; auto).
    rewrite E. repeat split; auto using sameIdentity_refl; try tauto; try congruence.
  - assert (state v <> STOPPED) as N1 by (intros E; rewrite E in ER; discriminate).
    assert (state v <> STOPPING) as N2 by (destruct Hst as [E|[E|E]]; congruence).
    rewrite (stop_proceeds v N1 N2).
    destruct (stopBody_summary v v eq_refl eq_refl eq_refl)
      as (Q & C & RI & H1 & H2 & [(R & S & P)|(R & S & P)]);
      unfold walks, settled, restartsInvoked; rewrite P, C, RI, S, R, H1, H2.
    + split; [exact Q|]. split; [split; by_state Hst|].
      split; [reflexivity|]. split; [reflexivity|].
      split; [|split; [reflexivity|left; split; reflexivity]].
      split; [tauto|]. split; [discriminate|].
      rewrite Ht. destruct (healthCheckHandle v); reflexivity.
    + split; [exact Q|]. split; [split; by_state Hst|].
      split; [reflexivity|]. split; [reflexivity|].
      split; [|split; [reflexivity|right; split; reflexivity]].
      split; [tauto|]. split; [discriminate|].
      rewrite Ht. destruct (healthCheckHandle v); reflexivity.
Qed.

Lemma start_timers : forall v,
  liveTimers (stateOf (start v)) <= S (liveTimers v).
Proof.
  intros v. destruct (ServiceState_eqb (state v) RUNNING) eqn:ER.
  - assert (state v = RUNNING) as E by (destruct (state v); simpl in ER; congruence).
    rewrite (start_running v E). unfold stateOf. simpl. lia.
  - destruct (ServiceState_eqb (state v) STARTING) eqn:ES.
    + assert (state v = STARTING) as E by (destruct (state v); simpl in ES; congruence).
      rewrite (start_starting v E). unfold stateOf. simpl. lia.
    + rewrite start_proceeds
        by (intros E; rewrite E in *; discriminate).
      destruct (startBody_summary v v eq_refl eq_refl eq_refl)
        as (_ & _ & _ & [(_ & _ & _ & T)|(_ & _ & _ & _ & T)]).
      * destruct (healthCheckInterval (config v) <=? 0)%Z; destruct T as [_ T];
          rewrite T; lia.
      * rewrite T. lia.
Qed.

Lemma walks_seq : forall v v1 v2 v3 t1 t2 t (r1 r2 r : res unit),
  walks v (v1, t1, r1) ->
  walks v1 (v2, t2, r2) ->
  statesAssigned t = statesAssigned t1 ++ statesAssigned t2 ->
  state v3 = state v2 ->
  walks v (v3, t, r).
Proof.
  unfold walks. cbn [traceOf stateOf fst snd].
  intros v v1 v2 v3 t1 t2 t r1 r2 r [F1 E1] [F2 E2] Ht Hs.
  rewrite Ht, follows_app, endsAt_app, E1, F1, F2, E2. auto.
Qed.

Ltac projections := cbn [stateOf traceOf resultOf fst snd] in *.

Lemma statesAssigned_cons_log : forall l m n t,
  statesAssigned (ELog l m n :: t) = statesAssigned t.
Proof. reflexivity. Qed.

Lemma statesAssigned_cons_delay : forall d t,
  statesAssigned (EDelay d :: t) = statesAssigned t.
Proof. reflexivity. Qed.

Lemma statesAssigned_cons_emit : forall a b t,
  statesAssigned (EEmit a b :: t) = statesAssigned t.
Proof. reflexivity. Qed.

Lemma restartsInvoked_cons_delay : forall d t,
  restartsInvoked (EDelay d :: t) = restartsInvoked t.
Proof. reflexivity. Qed.

Lemma restartsInvoked_cons_emit : forall a b t,
  restartsInvoked (EEmit a b :: t) = restartsInvoked t.
Proof. reflexivity. Qed.

Lemma restartsInvoked_cons_entry : forall n t,
  restartsInvoked (ELog LInfo "Restarting service" n :: t) = S (restartsInvoked t).
Proof. reflexivity. Qed.

(** What [restart] does to a settled service. *)
Lemma restart_from_settled : forall v,
  settled v ->
  quiet v (restart v) /\
  walks v (restart v) /\
  restartsInvoked (traceOf (restart v)) = 1 /\
  settled (stateOf (restart v)) /\
  (resultOf (restart v) = Val tt /\
     restartCount (metrics (stateOf (restart v))) = (restartCount (metrics v) + 1)%Z
   \/
   raised (resultOf (restart v)) = true /\
     restartCount (metrics (stateOf (restart v))) = restartCount (metrics v)).
Proof.
  intros v Hv. rewrite restart_eq.
  destruct (stop_from_settled v Hv) as ([Q1 F1] & W1 & C1 & R1 & S1 & H1 & O1).
  destruct (stop v) as [[v1 t1] r1]. projections.
  destruct r1 as [[]|e1].
  - destruct (start_from_settled v1 S1) as ([Q2 F2] & W2 & C2 & R2 & S2 & O2).
    pose proof (start_timers v1) as T2.
    destruct (start v1) as [[v2 t2] r2]. projections.
    assert (settled v2) as S2'.
    { apply S2. destruct S1 as (_ & _ & L1). rewrite H1 in L1. lia. }
    unfold quiet.
    destruct r2 as [[]|e2]; projections.
    + split; [split|].
      * destruct (sameIdentity_trans _ _ _ Q1 Q2) as (A & B & C & D & E).
        repeat split; assumption.
      * cbn [filter isFailedEvent]. rewrite filter_app. cbn [filter isFailedEvent].
        rewrite filter_app, F1, F2. reflexivity.
      * split.
        { eapply walks_seq; [exact W1|exact W2| |reflexivity].
          rewrite statesAssigned_cons_log, statesAssigned_app,
            statesAssigned_cons_delay, statesAssigned_app.
          cbn [statesAssigned flat_map]. rewrite app_nil_r. reflexivity. }
        split.
        { rewrite restartsInvoked_cons_entry, restartsInvoked_app,
            restartsInvoked_cons_delay, restartsInvoked_app, R1, R2.
          reflexivity. }
        split; [exact S2'|].
        left. split; [reflexivity|]. cbn. congruence.
    + split; [split|].
      * exact (sameIdentity_trans _ _ _ Q1 Q2).
      * cbn [filter isFailedEvent]. rewrite filter_app. cbn [filter isFailedEvent].
        rewrite F1, F2. reflexivity.
      * split.
        { eapply walks_seq; [exact W1|exact W2| |reflexivity].
          rewrite statesAssigned_cons_log, statesAssigned_app,
            statesAssigned_cons_delay. reflexivity. }
        split.
        { rewrite restartsInvoked_cons_entry, restartsInvoked_app,
            restartsInvoked_cons_delay, R1, R2. reflexivity. }
        split; [exact S2'|].
        right. split; [reflexivity|]. congruence.
  - unfold quiet. projections. split; [split|].
    + exact Q1.
    + cbn [filter isFailedEvent]. exact F1.
    + split.
      { unfold walks in *. projections. rewrite statesAssigned_cons_log. exact W1. }
      split.
      { rewrite restartsInvoked_cons_entry, R1. reflexivity. }
      split; [exact S1|]. right. split; [reflexivity|exact C1].
Qed.

(** *** Facts that hold in every state *)

Lemma state_dec_running : forall v, state v = RUNNING \/ state v <> RUNNING.
Proof. intros v. destruct (state v); auto; right; discriminate. Qed.

Lemma start_any : forall v, keepsCount v (start v).
Proof.
  intros v. unfold keepsCount, quiet.
  destruct (state v) eqn:E;
    try (rewrite start_running by assumption; projections;
         repeat split; auto using sameIdentity_refl; fail);
    try (rewrite start_starting by assumption; projections;
         repeat split; auto using sameIdentity_refl; fail);
    (rewrite start_proceeds by congruence;
     destruct (startBody_summary v v eq_refl eq_refl eq_refl) as ([Q F] & C & RI & _);
     unfold restartsInvoked; rewrite RI; repeat split; auto; apply Q).
Qed.

Lemma stop_any : forall v, keepsCount v (stop v).
Proof.
  intros v. unfold keepsCount, quiet.
  destruct (state v) eqn:E;
    try (rewrite stop_stopped by assumption; projections;
         repeat split; auto using sameIdentity_refl; fail);
    try (rewrite stop_stopping by assumption; projections;
         repeat split; auto using sameIdentity_refl; fail);
    (rewrite stop_proceeds by congruence;
     destruct (stopBody_summary v v eq_refl eq_refl eq_refl) as ([Q F] & C & RI & _);
     unfold restartsInvoked; rewrite RI; repeat split; auto; apply Q).
Qed.

(** [restart] is entered once; the counter goes up by one exactly when it
    returns normally. *)
Lemma restart_any : forall v,
  quiet v (restart v) /\
  restartsInvoked (traceOf (restart v)) = 1 /\
  (resultOf (restart v) = Val tt /\
     restartCount (metrics (stateOf (restart v))) = (restartCount (metrics v) + 1)%Z
   \/
   raised (resultOf (restart v)) = true /\
     restartCount (metrics (stateOf (restart v))) = restartCount (metrics v)).
Proof.
  intros v. rewrite restart_eq.
  destruct (stop_any v) as ([Q1 F1] & C1 & R1).
  destruct (stop v) as [[v1 t1] r1]. projections.
  destruct r1 as [[]|e1].
  - destruct (start_any v1) as ([Q2 F2] & C2 & R2).
    destruct (start v1) as [[v2 t2] r2]. projections. unfold quiet.
    destruct r2 as [[]|e2]; projections.
    + split; [split|].
      * destruct (sameIdentity_trans _ _ _ Q1 Q2) as (A & B & C & D & E).
        repeat split; assumption.
      * cbn [filter isFailedEvent]. rewrite filter_app. cbn [filter isFailedEvent].
        rewrite filter_app, F1, F2. reflexivity.
      * split.
        { rewrite restartsInvoked_cons_entry, restartsInvoked_app,
            restartsInvoked_cons_delay, restartsInvoked_app, R1, R2.
          reflexivity. }
        left. split; [reflexivity|]. cbn. congruence.
    + split; [split|].
      * exact (sameIdentity_trans _ _ _ Q1 Q2).
      * cbn [filter isFailedEvent]. rewrite filter_app. cbn [filter isFailedEvent].
        rewrite F1, F2. reflexivity.
      * split.
        { rewrite restartsInvoked_cons_entry, restartsInvoked_app,
            restartsInvoked_cons_delay, R1, R2. reflexivity. }
        right. split; [reflexivity|]. congruence.
  - unfold quiet. projections. split; [split|].
    + exact Q1.
    + cbn [filter isFailedEvent]. exact F1.
    + split.
      { rewrite restartsInvoked_cons_entry, R1. reflexivity. }
      right. split; [reflexivity|exact C1].
Qed.

(** One health tick, by the three ways it can go. *)
Lemma healthTick_facts : forall v,
  sameIdentity v (stateOf (healthTick v)) /\
  resultOf (healthTick v) = Val tt /\
  exists h,
    resultOf (healthCheck v) = Val h /\
    if negb h && enableAutoRestart (config v)
    then
      if (restartCount (metrics v) <? maxRestartAttempts (config v))%Z
      then
        restartsInvoked (traceOf (healthTick v)) = 1 /\
        filter isFailedEvent (traceOf (healthTick v)) = [] /\
        (restartCount (metrics (stateOf (healthTick v))) = (restartCount (metrics v) + 1)%Z
         \/ restartCount (metrics (stateOf (healthTick v))) = restartCount (metrics v))
      else
        restartsInvoked (traceOf (healthTick v)) = 0 /\
        filter isFailedEvent (traceOf (healthTick v)) = [EEmit "service:failed" (name v)] /\
        state (stateOf (healthTick v)) = ERROR /\
        restartCount (metrics (stateOf (healthTick v))) = restartCount (metrics v)
    else
      restartsInvoked (traceOf (healthTick v)) = 0 /\
      filter isFailedEvent (traceOf (healthTick v)) = [] /\
      state (stateOf (healthTick v)) = state v /\
      restartCount (metrics (stateOf (healthTick v))) = restartCount (metrics v).
Proof.
  intros v. rewrite healthTick_eq.
  destruct (healthCheck_summary v)
    as (h & Hr & Hn & Q & St & Me & Hh & Lt & SA & RI & FE).
  destruct (healthCheck v) as [[v1 t1] r1]. projections. subst r1.
  assert (config v1 = config v) as Hc by apply Q.
  assert (name v1 = name v) as Hnm by apply Q.
  rewrite Hc, Me.
  destruct (negb h && enableAutoRestart (config v)) eqn:Hb.
  - destruct (restartCount (metrics v) <? maxRestartAttempts (config v))%Z eqn:Hlt.
    + destruct (restart_any v1) as ([Q2 F2] & R2 & O2).
      destruct (restart v1) as [[v2 t2] r2]. projections.
      assert (sameIdentity v v2) as Q12 by exact (sameIdentity_trans _ _ _ Q Q2).
      destruct r2 as [[]|e2]; projections.
      * split; [exact Q12|]. split; [reflexivity|]. exists h. split; [reflexivity|].
        rewrite Hb. rewrite restartsInvoked_app. unfold restartsInvoked at 1.
        rewrite RI. rewrite filter_app, FE.
        cbn [filter isFailedEvent isRestartEntry List.length app Nat.add].
        change (restartsInvoked (ELog LWarn "Service unhealthy, attempting restart" (name v1)
                                   :: t2)) with (restartsInvoked t2).
        rewrite R2, F2. repeat split.
        destruct O2 as [[_ O2]|[_ O2]]; rewrite O2, Me; auto.
      * split; [exact Q12|]. split; [reflexivity|]. exists h. split; [reflexivity|].
        rewrite Hb. rewrite restartsInvoked_app. unfold restartsInvoked at 1.
        rewrite RI. rewrite filter_app, FE.
        cbn [filter isFailedEvent isRestartEntry List.length app Nat.add].
        change (restartsInvoked (ELog LWarn "Service unhealthy, attempting restart" (name v1)
                                   :: t2 ++ [ELog LError "Health check error" (name v2)]))
          with (restartsInvoked (t2 ++ [ELog LError "Health check error" (name v2)])).
        rewrite restartsInvoked_app, filter_app, R2, F2. repeat split.
        destruct O2 as [[_ O2]|[_ O2]]; rewrite O2, Me; auto.
    + projections. split; [exact Q|]. split; [reflexivity|].
      exists h. split; [reflexivity|]. rewrite Hb.
      rewrite restartsInvoked_app. unfold restartsInvoked at 1. rewrite RI.
      rewrite filter_app, FE, Hnm. cbn. rewrite Me. repeat split.
  - projections. split; [exact Q|]. split; [reflexivity|].
    exists h. split; [reflexivity|]. rewrite Hb.
    unfold restartsInvoked. rewrite RI, FE, St, Me. repeat split.
Qed.

(** *** Calls from outside *)

Lemma tryCatch_swallow : forall (m : M (Service Impl) unit) v,
  tryCatch m (fun _ => ret tt) v = (stateOf (m v), traceOf (m v), Val tt).
Proof.
  intros m v. unfold tryCatch, ret.
  destruct (m v) as [[v1 t1] [[]|e]]; projections; [reflexivity|].
  rewrite app_nil_r. reflexivity.
Qed.

Lemma fire_eq : forall v,
  fire v = if Nat.ltb 0 (liveTimers v) then healthTick v else (v, [], Val tt).
Proof.
  intros v. unfold fire. run_method.
  destruct (Nat.ltb 0 (liveTimers v)); [|reflexivity].
  destruct (healthTick v) as [[? ?] ?]. reflexivity.
Qed.

(** No call changes the configuration or lowers the restart counter; a
    health tick raises it only from below the cap, and by one. *)
Lemma perform_count : forall op v,
  config (stateOf (perform op v)) = config v /\
  (restartCount (metrics v) <= restartCount (metrics (stateOf (perform op v))))%Z /\
  (op = OpTick ->
   (restartCount (metrics v) < restartCount (metrics (stateOf (perform op v))))%Z ->
   (restartCount (metrics v) < maxRestartAttempts (config v))%Z /\
   restartCount (metrics (stateOf (perform op v))) = (restartCount (metrics v) + 1)%Z).
Proof.
  intros op v. destruct op; cbn [perform]; try rewrite tryCatch_swallow; projections.
  - destruct (start_any v) as ([Q _] & C & _).
    split; [apply Q|]. split; [lia|discriminate].
  - destruct (stop_any v) as ([Q _] & C & _).
    split; [apply Q|]. split; [lia|discriminate].
  - destruct (restart_any v) as ([Q _] & _ & [[_ C]|[_ C]]);
      (split; [apply Q|]); (split; [lia|discriminate]).
  - rewrite fire_eq. destruct (Nat.ltb 0 (liveTimers v)).
    + destruct (healthTick_facts v) as (Q & _ & h & _ & F).
      split; [apply Q|].
      destruct (negb h && enableAutoRestart (config v)).
      * destruct (restartCount (metrics v) <? maxRestartAttempts (config v))%Z eqn:L.
        -- apply Z.ltb_lt in L. destruct F as (_ & _ & [C|C]); rewrite C; split; lia.
        -- destruct F as (_ & _ & _ & C). rewrite C. split; lia.
      * destruct F as (_ & _ & _ & C). rewrite C. split; lia.
    + projections. split; [reflexivity|]. split; lia.
Qed.

Lemma tickRestarts_bound : forall ops v,
  (Z.of_nat (tickRestarts ops v) <=
   Z.max 0 (maxRestartAttempts (config v) - restartCount (metrics v)))%Z.
Proof.
  induction ops as [|op ops IH]; intros v.
  - cbn [tickRestarts]. lia.
  - cbn [tickRestarts].
    destruct (perform_count op v) as (Hc & Hm & Ht).
    specialize (IH (stateOf (perform op v))). rewrite Hc in IH.
    destruct op; try lia.
    destruct (restartCount (metrics v) <?
              restartCount (metrics (stateOf (perform OpTick v))))%Z eqn:L.
    + apply Z.ltb_lt in L. destruct (Ht eq_refl L) as [H1 H2]. lia.
    + lia.
Qed.

(** *** Paths walked by a run *)

Lemma healthTick_from_settled : forall v,
  settled v -> 0 < liveTimers v ->
  walks v (healthTick v) /\ settled (stateOf (healthTick v)).
Proof.
  intros v Hv Hl. rewrite healthTick_eq.
  destruct (healthCheck_summary v)
    as (h & Hr & Hn & Q & St & Me & Hh & Lt & SA & RI & FE).
  destruct (healthCheck v) as [[v1 t1] r1]. projections. subst r1.
  assert (settled v1) as Hv1.
  { unfold settled in *. rewrite St, Hh, Lt. exact Hv. }
  assert (state v <> STOPPED) as Hns.
  { destruct Hv as (_ & H2 & H3). apply H2.
    destruct (healthCheckHandle v); [reflexivity|lia]. }
  destruct (negb h && enableAutoRestart (config v1)).
  - destruct (restartCount (metrics v1) <? maxRestartAttempts (config v1))%Z.
    + destruct (restart_from_settled v1 Hv1) as (_ & W & _ & S2 & _).
      destruct (restart v1) as [[v2 t2] r2]. projections.
      assert (walks v (v2, t1 ++ ELog LWarn "Service unhealthy, attempting restart"
                               (name v1) :: t2, Val tt)) as W'.
      { unfold walks in *. projections.
        rewrite statesAssigned_app, SA, statesAssigned_cons_log, St in *. exact W. }
      destruct r2 as [[]|e2]; projections; split; auto.
      unfold walks in *. projections.
      rewrite statesAssigned_app, SA, statesAssigned_cons_log, statesAssigned_app in *.
      cbn [statesAssigned flat_map app] in *. rewrite app_nil_r. exact W'.
    + projections. split.
      * unfold walks. projections. rewrite statesAssigned_app, SA.
        cbn. destruct Hv as ([E|[E|E]] & _); rewrite E in *;
          try congruence; split; reflexivity.
      * unfold settled in *. cbn. rewrite Hh, Lt.
        destruct Hv as (_ & H2 & H3). repeat split; auto. discriminate.
  - projections. split; [|exact Hv1].
    unfold walks. projections. rewrite SA. cbn. auto.
Qed.

Lemma perform_returns : forall op v, resultOf (perform op v) = Val tt.
Proof.
  intros op v. destruct op; cbn [perform]; try (rewrite tryCatch_swallow; reflexivity).
  rewrite fire_eq. destruct (Nat.ltb 0 (liveTimers v)); [|reflexivity].
  apply healthTick_facts.
Qed.

Lemma perform_from_settled : forall op v,
  settled v ->
  walks v (perform op v) /\
  (liveTimers (stateOf (perform op v)) <= 1 -> settled (stateOf (perform op v))).
Proof.
  intros op v Hv. destruct op; cbn [perform]; try rewrite tryCatch_swallow.
  - destruct (start_from_settled v Hv) as (_ & W & _ & _ & S & _). split; assumption.
  - destruct (stop_from_settled v Hv) as (_ & W & _ & _ & S & _). split; auto.
  - destruct (restart_from_settled v Hv) as (_ & W & _ & S & _). split; auto.
  - rewrite fire_eq. destruct (Nat.ltb 0 (liveTimers v)) eqn:L.
    + apply Nat.ltb_lt in L.
      destruct (healthTick_from_settled v Hv L) as [W S]. split; auto.
    + split; [|intros _; exact Hv]. unfold walks. projections. cbn. auto.
Qed.

Lemma runOps_cons : forall op ops v,
  runOps (op :: ops) v =
  (stateOf (runOps ops (stateOf (perform op v))),
   traceOf (perform op v) ++ traceOf (runOps ops (stateOf (perform op v))),
   resultOf (runOps ops (stateOf (perform op v)))).
Proof.
  intros op ops v. cbn [runOps]. unfold bind.
  pose proof (perform_returns op v) as R.
  destruct (perform op v) as [[v1 t1] r1]. projections. subst r1.
  destruct (runOps ops v1) as [[v2 t2] r2]. reflexivity.
Qed.

(** A failing check with the counter at the limit: the tick forces ERROR,
    emits the failed event and touches nothing else. *)
Lemma limit_tick : forall v,
  resultOf (healthCheck v) = Val false ->
  enableAutoRestart (config v) = true ->
  (maxRestartAttempts (config v) <= restartCount (metrics v))%Z ->
  restartsInvoked (traceOf (healthTick v)) = 0 /\
  filter isFailedEvent (traceOf (healthTick v)) = [EEmit "service:failed" (name v)] /\
  state (stateOf (healthTick v)) = ERROR /\
  sameIdentity v (stateOf (healthTick v)) /\
  metrics (stateOf (healthTick v)) = metrics v /\
  healthCheckHandle (stateOf (healthTick v)) = healthCheckHandle v /\
  liveTimers (stateOf (healthTick v)) = liveTimers v /\
  resultOf (healthCheck (stateOf (healthTick v))) = Val false.
Proof.
  intros v Hf Ha Hcap.
  destruct (healthTick_facts v) as (Q & _ & h & Hh & F).
  rewrite Hf in Hh. injection Hh as <-.
  rewrite Ha in F. cbn [negb andb] in F.
  assert (L : (restartCount (metrics v) <? maxRestartAttempts (config v))%Z = false)
    by (apply Z.ltb_ge; exact Hcap).
  rewrite L in F. destruct F as (F1 & F2 & F3 & _).
  split; [exact F1|]. split; [exact F2|]. split; [exact F3|]. split; [exact Q|].
  assert (E : metrics (stateOf (healthTick v)) = metrics v /\
              healthCheckHandle (stateOf (healthTick v)) = healthCheckHandle v /\
              liveTimers (stateOf (healthTick v)) = liveTimers v).
  { rewrite healthTick_eq.
    destruct (healthCheck_summary v) as (h & Hr & _ & Q1 & _ & Me & Hh & Lt & _).
    destruct (healthCheck v) as [[v1 t1] r1]. projections.
    rewrite Hf in Hr. injection Hr as <-. subst r1.
    assert (config v1 = config v) as Hc by apply Q1.
    rewrite Hc, Ha, Me, L. cbn [negb andb]. projections.
    cbn [withState metrics healthCheckHandle liveTimers]. auto. }
  destruct E as (E1 & E2 & E3). repeat split; try assumption.
  destruct (healthCheck_summary (stateOf (healthTick v))) as (h & Hr & Hn & _).
  rewrite Hr, Hn; [reflexivity|]. rewrite F3. discriminate.
Qed.

(** From then on every tick of the timer does the same. *)
Lemma limit_ticks : forall n v,
  0 < liveTimers v ->
  resultOf (healthCheck v) = Val false ->
  enableAutoRestart (config v) = true ->
  (maxRestartAttempts (config v) <= restartCount (metrics v))%Z ->
  restartsInvoked (traceOf (runOps (repeat OpTick n) v)) = 0 /\
  filter isFailedEvent (traceOf (runOps (repeat OpTick n) v)) =
    repeat (EEmit "service:failed" (name v)) n /\
  enableAutoRestart (config (stateOf (runOps (repeat OpTick n) v))) = true /\
  liveTimers (stateOf (runOps (repeat OpTick n) v)) = liveTimers v /\
  healthCheckHandle (stateOf (runOps (repeat OpTick n) v)) = healthCheckHandle v /\
  (0 < n -> state (stateOf (runOps (repeat OpTick n) v)) = ERROR).
Proof.
  induction n as [|n IH]; intros v Lv Hf Ha Hcap.
  - cbn. repeat split; auto. intros H. inversion H.
  - cbn [repeat]. rewrite runOps_cons. projections. cbn [perform].
    rewrite fire_eq. apply Nat.ltb_lt in Lv. rewrite Lv. apply Nat.ltb_lt in Lv.
    destruct (limit_tick v Hf Ha Hcap) as (T1 & T2 & T3 & Q & T4 & T5 & T6 & T7).
    destruct Q as (Qn & Qc & _).
    assert (Lv' : 0 < liveTimers (stateOf (healthTick v))) by (rewrite T6; exact Lv).
    assert (Ha' : enableAutoRestart (config (stateOf (healthTick v))) = true)
      by (rewrite Qc; exact Ha).
    assert (Hcap' : (maxRestartAttempts (config (stateOf (healthTick v))) <=
                     restartCount (metrics (stateOf (healthTick v))))%Z)
      by (rewrite Qc, T4; exact Hcap).
    destruct (IH _ Lv' T7 Ha' Hcap') as (I1 & I2 & I3 & I4 & I5 & I6).
    rewrite restartsInvoked_app, filter_app, T1, T2, I1, I2, Qn.
    split; [reflexivity|]. split; [reflexivity|]. split; [exact I3|].
    split; [rewrite I4; exact T6|]. split; [rewrite I5; exact T5|].
    intros _. destruct n as [|n]; [exact T3|]. apply I6. apply Nat.lt_0_succ.
Qed.

(** C3 (as the code has it, for calls that do not overlap).  A health
    tick enters [restart()] at most once, and only when the check failed,
    auto-restart is enabled and the restart counter is below
    maxRestartAttempts.  In every run of calls, the health ticks that raise
    the counter are at most maxRestartAttempts minus its starting value;
    and a [restart()] raises the counter, by one, exactly when it succeeds:
    one that fails leaves the counter as it was.  With the counter at the
    limit, a failing check enters no restart, forces ERROR and emits one
    "service:failed" event; it leaves the configuration
    -- enableAutoRestart included --, the counter and the timer as they
    were, so that every later tick of the timer does the same again. *)
Theorem health_restart_cap : forall v,
  (restartsInvoked (traceOf (healthTick v)) <= 1) /\
  (restartsInvoked (traceOf (healthTick v)) = 1 ->
     (restartCount (metrics v) < maxRestartAttempts (config v))%Z /\
     enableAutoRestart (config v) = true /\
     resultOf (healthCheck v) = Val false) /\
  (forall ops,
     (restartCount (metrics v) <= maxRestartAttempts (config v))%Z ->
     (Z.of_nat (tickRestarts ops v) <=
      maxRestartAttempts (config v) - restartCount (metrics v))%Z) /\
  (restartCount (metrics (stateOf (restart v))) =
     if raised (resultOf (restart v))
     then restartCount (metrics v)
     else (restartCount (metrics v) + 1)%Z) /\
  (resultOf (healthCheck v) = Val false ->
   enableAutoRestart (config v) = true ->
   (maxRestartAttempts (config v) <= restartCount (metrics v))%Z ->
     (restartsInvoked (traceOf (healthTick v)) = 0 /\
      state (stateOf (healthTick v)) = ERROR /\
      filter isFailedEvent (traceOf (healthTick v)) =
        [EEmit "service:failed" (name v)] /\
      config (stateOf (healthTick v)) = config v /\
      restartCount (metrics (stateOf (healthTick v))) = restartCount (metrics v) /\
      healthCheckHandle (stateOf (healthTick v)) = healthCheckHandle v /\
      liveTimers (stateOf (healthTick v)) = liveTimers v) /\
     (0 < liveTimers v ->
      forall n,
        restartsInvoked (traceOf (runOps (repeat OpTick n) v)) = 0 /\
        filter isFailedEvent (traceOf (runOps (repeat OpTick n) v)) =
          repeat (EEmit "service:failed" (name v)) n /\
        enableAutoRestart (config (stateOf (runOps (repeat OpTick n) v))) = true /\
        liveTimers (stateOf (runOps (repeat OpTick n) v)) = liveTimers v /\
        (0 < n -> state (stateOf (runOps (repeat OpTick n) v)) = ERROR))).
Proof.
  intros v. destruct (healthTick_facts v) as (Q & _ & h & Hh & F).
  split; [|split; [|split; [|split]]].
  - destruct (negb h && enableAutoRestart (config v));
      [destruct (restartCount (metrics v) <? maxRestartAttempts (config v))%Z|];
      destruct F as (F & _); rewrite F; lia.
  - intros H1.
    destruct (negb h && enableAutoRestart (config v)) eqn:Hb;
      [destruct (restartCount (metrics v) <? maxRestartAttempts (config v))%Z eqn:L|];
      destruct F as (F & _); try (rewrite F in H1; discriminate).
    apply Z.ltb_lt in L. apply andb_prop in Hb. destruct Hb as [Hb1 Hb2].
    destruct h; [discriminate|]. auto.
  - intros ops Hle. pose proof (tickRestarts_bound ops v). lia.
  - destruct (restart_any v) as (_ & _ & [[R C]|[R C]]).
    + rewrite R. exact C.
    + rewrite R. exact C.
  - intros Hf Ha Hcap.
    destruct (limit_tick v Hf Ha Hcap) as (T1 & T2 & T3 & Qi & T4 & T5 & T6 & _).
    split.
    + repeat split; try assumption; [apply Qi|rewrite T4; reflexivity].
    + intros Lv n.
      destruct (limit_ticks n v Lv Hf Ha Hcap) as (I1 & I2 & I3 & I4 & _ & I6).
      repeat split; assumption.
Qed.

(** C4 (as the code has it).  Take a service that is STOPPED, RUNNING or
    in ERROR between calls, and any run of [start], [stop], [restart] and
    health ticks in which no health timer is leaked.  Every assignment to
    the state then moves along Stopped->Starting->Running->Stopping->Stopped,
    into Error from Starting, Stopping or Running, or out of Error into
    Starting or Stopping. *)
Theorem transitions_follow_paths : forall ops v,
  settled v ->
  noLeakedTimer ops v = true ->
  follows codeStep (state v) (statesAssigned (traceOf (runOps ops v))) = true.
Proof.
  induction ops as [|op ops IH]; intros v Hv Hleak.
  - reflexivity.
  - rewrite runOps_cons. projections.
    cbn [noLeakedTimer] in Hleak. apply andb_prop in Hleak. destruct Hleak as [_ Hleak].
    destruct (perform_from_settled op v Hv) as [[F E] S].
    assert (settled (stateOf (perform op v))) as Hv'.
    { apply S. destruct ops; cbn [noLeakedTimer] in Hleak;
        apply andb_prop in Hleak; destruct Hleak as [Hleak _];
        apply Nat.leb_le in Hleak; exact Hleak. }
    rewrite statesAssigned_app, follows_app, F, E. cbn [andb].
    apply IH; assumption.
Qed.

End RestartFacts.

(** C3 as stated fails twice.  Auto-restart is never disabled: after the
    tick that hits the limit it is still enabled, and the next tick emits
    "service:failed" again.  And [restart()] is entered more often than
    maxRestartAttempts: a restart that fails is not counted, so a service
    with a limit of one whose restarts fail, and which is started again
    after each failure, is restarted by each of three health ticks while
    its counter stays at zero. *)
Lemma restart_cap_fails_as_stated :
  (let cfg := mkServiceConfig 30000 15000 10000 0 2000 true in
   let v := stateOf (start (scripted "svc" [] false cfg (fun _ => true) false)) in
   let v1 := stateOf (healthTick v) in
   state v1 = ERROR /\
   enableAutoRestart (config v1) = true /\
   filter isFailedEvent (traceOf (healthTick v1)) = [EEmit "service:failed" "svc"]) /\
  (let cfg := mkServiceConfig 30000 15000 10000 1 2000 true in
   let v := scripted "svc" [] false cfg Nat.even false in
   let run := runOps [OpStart; OpTick; OpStart; OpTick; OpStart; OpTick] v in
   maxRestartAttempts (config v) = 1%Z /\
   restartsInvoked (traceOf run) = 3 /\
   restartCount (metrics (stateOf run)) = 0%Z /\
   filter isFailedEvent (traceOf run) = []).
Proof. split; repeat split. Qed.

Lemma health_restart_cap_witness :
  let cfg := mkServiceConfig 30000 15000 10000 1 2000 true in
  let v := stateOf (start (scripted "svc" [] false cfg (fun _ => true) false)) in
  let v1 := stateOf (healthTick v) in
  ((restartCount (metrics v) < maxRestartAttempts (config v))%Z /\
   enableAutoRestart (config v) = true /\
   resultOf (healthCheck v) = Val false) /\
  (Z.of_nat (tickRestarts [OpTick; OpTick; OpTick] v) <=
   maxRestartAttempts (config v) - restartCount (metrics v))%Z /\
  (restartsInvoked (traceOf (healthTick v1)) = 0 /\
   state (stateOf (healthTick v1)) = ERROR /\
   filter isFailedEvent (traceOf (healthTick v1)) = [EEmit "service:failed" (name v1)] /\
   config (stateOf (healthTick v1)) = config v1 /\
   restartCount (metrics (stateOf (healthTick v1))) = restartCount (metrics v1) /\
   healthCheckHandle (stateOf (healthTick v1)) = healthCheckHandle v1 /\
   liveTimers (stateOf (healthTick v1)) = liveTimers v1) /\
  (restartsInvoked (traceOf (runOps (repeat OpTick 3) v1)) = 0 /\
   filter isFailedEvent (traceOf (runOps (repeat OpTick 3) v1)) =
     repeat (EEmit "service:failed" (name v1)) 3 /\
   enableAutoRestart (config (stateOf (runOps (repeat OpTick 3) v1))) = true /\
   liveTimers (stateOf (runOps (repeat OpTick 3) v1)) = liveTimers v1 /\
   (0 < 3 -> state (stateOf (runOps (repeat OpTick 3) v1)) = ERROR)).
Proof.
  intros cfg v v1.
  assert (Hf : resultOf (healthCheck v1) = Val false) by reflexivity.
  assert (Ha : enableAutoRestart (config v1) = true) by reflexivity.
  assert (Hcap : (maxRestartAttempts (config v1) <= restartCount (metrics v1))%Z)
    by (vm_compute; discriminate).
  split; [|split; [|split]].
  - apply (proj1 (proj2 (health_restart_cap v))). reflexivity.
  - apply (proj1 (proj2 (proj2 (health_restart_cap v)))).
    vm_compute. discriminate.
  - apply (proj1 (proj2 (proj2 (proj2 (proj2 (health_restart_cap v1)))) Hf Ha Hcap)).
  - apply (proj2 (proj2 (proj2 (proj2 (proj2 (health_restart_cap v1)))) Hf Ha Hcap)).
    vm_compute. apply le_n.
Defined.

(** C4 as stated fails: a service that failed to start and is started
    again goes from ERROR to STARTING. *)
Lemma error_to_starting_observed :
  let v := scripted "svc" [] false DEFAULT_SERVICE_CONFIG (fun k => Nat.ltb 0 k) true in
  statesAssigned (traceOf (runOps [OpStart; OpStart] v)) =
    [STARTING; ERROR; STARTING; RUNNING] /\
  follows specStep (state v) (statesAssigned (traceOf (runOps [OpStart; OpStart] v))) = false.
Proof. split; reflexivity. Qed.

Lemma transitions_follow_paths_witness :
  let v := scripted "svc" [] false DEFAULT_SERVICE_CONFIG (fun k => Nat.ltb 0 k) false in
  let ops := [OpStart; OpStart; OpTick; OpStop; OpRestart; OpTick] in
  follows codeStep (state v) (statesAssigned (traceOf (runOps ops v))) = true.
Proof.
  intros v ops. apply transitions_follow_paths.
  - unfold settled. cbn. repeat split; auto. discriminate.
  - vm_compute. reflexivity.
Defined.

(** Why the run must not leak a timer: a service forced to ERROR at the
    limit keeps its timer; starting it again creates a second one, which
    survives the next [stop] and then moves the stopped service to ERROR. *)
Lemma leaked_timer_skips_states :
  let cfg := mkServiceConfig 30000 15000 10000 0 2000 true in
  let v := scripted "svc" [] false cfg (fun _ => true) false in
  let ops := [OpStart; OpTick; OpStart; OpStop; OpTick] in
  noLeakedTimer ops v = false /\
  statesAssigned (traceOf (runOps ops v)) =
    [STARTING; RUNNING; ERROR; STARTING; RUNNING; STOPPING; STOPPED; ERROR].
Proof. split; reflexivity. Qed.

(** ** Containers *)

Lemma StrSet_has_In : forall x s, StrSet.has x s = true <-> In x s.
Proof.
  intros x s. unfold StrSet.has. rewrite existsb_exists. split.
  - intros (y & Hy & E). apply String.eqb_eq in E. subst. exact Hy.
  - intros H. exists x. split; [exact H|apply String.eqb_refl].
Qed.

Lemma StrSet_has_not_In : forall x s, StrSet.has x s = false <-> ~ In x s.
Proof.
  intros x s. rewrite <- StrSet_has_In. destruct (StrSet.has x s); split; congruence.
Qed.

Lemma StrSet_add_In : forall x y s, In y (StrSet.add x s) <-> y = x \/ In y s.
Proof.
  intros x y s. unfold StrSet.add. destruct (StrSet.has x s) eqn:H.
  - apply StrSet_has_In in H. split; [auto|]. intros [->|H']; assumption.
  - rewrite in_app_iff. simpl. split; [intros [?|[?|[]]]|intros [?|?]]; auto.
Qed.

Lemma StrSet_add_fresh : forall x s, ~ In x s -> StrSet.add x s = s ++ [x].
Proof.
  intros x s H. unfold StrSet.add. apply StrSet_has_not_In in H. rewrite H. reflexivity.
Qed.

Lemma StrSet_delete_fresh : forall x s, ~ In x s -> StrSet.delete x s = s.
Proof.
  intros x s. unfold StrSet.delete. induction s as [|y s IH]; intros H; simpl.
  - reflexivity.
  - destruct (String.eqb x y) eqn:E.
    + apply String.eqb_eq in E. subst. exfalso. apply H. left. reflexivity.
    + simpl. rewrite IH; [reflexivity|]. intros H'. apply H. right. exact H'.
Qed.

Lemma StrSet_delete_snoc : forall x s, ~ In x s -> StrSet.delete x (s ++ [x]) = s.
Proof.
  intros x s H. unfold StrSet.delete. rewrite filter_app. simpl.
  rewrite String.eqb_refl. simpl. rewrite app_nil_r.
  apply (StrSet_delete_fresh x s H).
Qed.

Lemma StrSet_delete_In : forall x y s, In y (StrSet.delete x s) <-> In y s /\ y <> x.
Proof.
  intros x y s. unfold StrSet.delete. rewrite filter_In. split.
  - intros [H E]. split; [exact H|]. intros ->. rewrite String.eqb_refl in E. discriminate.
  - intros [H N]. split; [exact H|]. destruct (String.eqb x y) eqn:E; [|reflexivity].
    apply String.eqb_eq in E. congruence.
Qed.

Lemma StrMap_get_In : forall {V} k (m : StrMap.t V),
  StrMap.has k m = true <-> In k (StrMap.keys m).
Proof.
  intros V k m. unfold StrMap.has, StrMap.keys.
  induction m as [|[k' v] m IH]; simpl.
  - split; [discriminate|tauto].
  - destruct (String.eqb k k') eqn:E.
    + apply String.eqb_eq in E. subst. split; auto.
    + rewrite IH. split; [auto|]. intros [H|H]; [|exact H].
      subst. rewrite String.eqb_refl in E. discriminate.
Qed.

Lemma StrMap_get_some_In : forall {V} k (v : V) (m : StrMap.t V),
  StrMap.get k m = Some v -> In k (StrMap.keys m).
Proof.
  intros V k v m H. apply StrMap_get_In. unfold StrMap.has. rewrite H. reflexivity.
Qed.

Lemma StrMap_get_set_same : forall {V} k (v : V) (m : StrMap.t V),
  StrMap.get k (StrMap.set k v m) = Some v.
Proof.
  intros V k v m. induction m as [|[k' v'] m IH]; simpl.
  - rewrite String.eqb_refl. reflexivity.
  - destruct (String.eqb k k') eqn:E; simpl; rewrite E; [reflexivity|exact IH].
Qed.

Lemma StrMap_get_set_other : forall {V} k k' (v : V) (m : StrMap.t V),
  k <> k' -> StrMap.get k' (StrMap.set k v m) = StrMap.get k' m.
Proof.
  intros V k k' v m N. induction m as [|[k0 v0] m IH]; simpl.
  - destruct (String.eqb k' k) eqn:E; [|reflexivity].
    apply String.eqb_eq in E. congruence.
  - destruct (String.eqb k k0) eqn:E; simpl.
    + apply String.eqb_eq in E. subst k0.
      destruct (String.eqb k' k) eqn:E'; [|reflexivity].
      apply String.eqb_eq in E'. congruence.
    + rewrite IH. reflexivity.
Qed.

Lemma StrMap_keys_set_present : forall {V} k (v : V) (m : StrMap.t V),
  In k (StrMap.keys m) -> StrMap.keys (StrMap.set k v m) = StrMap.keys m.
Proof.
  intros V k v m. unfold StrMap.keys. induction m as [|[k0 v0] m IH]; simpl.
  - tauto.
  - intros H. destruct (String.eqb k k0) eqn:E; simpl; [reflexivity|].
    f_equal. apply IH. destruct H as [H|H]; [|exact H].
    subst. rewrite String.eqb_refl in E. discriminate.
Qed.

(** ** Order of a list *)

Lemma precedes_snoc : forall d x l, In d l -> precedes d x (l ++ [x]).
Proof.
  intros d x l H. apply in_split in H. destruct H as (l1 & l2 & ->).
  exists l1, l2, []. rewrite <- app_assoc. reflexivity.
Qed.

Lemma precedes_app_r : forall d x l l', precedes d x l -> precedes d x (l ++ l').
Proof.
  intros d x l l' (l1 & l2 & l3 & ->). exists l1, l2, (l3 ++ l').
  rewrite <- !app_assoc. simpl. rewrite <- !app_assoc. reflexivity.
Qed.

Lemma precedes_across : forall a b l l', In a l -> In b l' -> precedes a b (l ++ l').
Proof.
  intros a b l l' Ha Hb.
  apply in_split in Ha. destruct Ha as (l1 & l2 & ->).
  apply in_split in Hb. destruct Hb as (m1 & m2 & ->).
  exists l1, (l2 ++ m1), m2. rewrite <- !app_assoc. reflexivity.
Qed.

Lemma precedes_pos : forall d x l, NoDup l -> precedes d x l -> pos d l < pos x l.
Proof.
  intros d x l ND (l1 & l2 & l3 & ->). induction l1 as [|y l1 IH]; simpl in *.
  - rewrite String.eqb_refl. inversion ND as [|? ? Hn _]; subst.
    destruct (String.eqb x d) eqn:E; [|lia].
    apply String.eqb_eq in E. subst. exfalso. apply Hn.
    apply in_or_app. right. left. reflexivity.
  - inversion ND as [|? ? Hn ND']; subst.
    destruct (String.eqb d y) eqn:E1.
    { apply String.eqb_eq in E1. subst. exfalso. apply Hn.
      apply in_or_app. right. left. reflexivity. }
    destruct (String.eqb x y) eqn:E2.
    { apply String.eqb_eq in E2. subst. exfalso. apply Hn.
      apply in_or_app. right. right. apply in_or_app. right. left. reflexivity. }
    specialize (IH ND'). lia.
Qed.

Lemma precedesb_sound : forall d x l, precedesb d x l = true -> precedes d x l.
Proof.
  unfold precedesb. intros d x l. revert d x.
  induction l as [|y l IH]; intros d x; simpl; [discriminate|].
  destruct (String.eqb d y) eqn:Ed.
  - apply String.eqb_eq in Ed. subst y.
    destruct (String.eqb x d) eqn:Ex; [discriminate|].
    destruct (indexOf x l) as [j|] eqn:Hj; [|discriminate]. intros _.
    assert (In x l) as Hin.
    { clear -Hj. revert j Hj. induction l as [|z l IH]; simpl; [discriminate|].
      intros j. destruct (String.eqb x z) eqn:E.
      - apply String.eqb_eq in E. auto.
      - destruct (indexOf x l); [|discriminate]. intros _. right. eapply IH. reflexivity. }
    apply in_split in Hin. destruct Hin as (l2 & l3 & ->). exists [], l2, l3. reflexivity.
  - destruct (indexOf d l) as [i|] eqn:Hi; [|discriminate].
    destruct (String.eqb x y) eqn:Ex; [discriminate|].
    destruct (indexOf x l) as [j|] eqn:Hj; [|discriminate].
    intros H. specialize (IH d x). rewrite Hi, Hj in IH.
    destruct IH as (l1 & l2 & l3 & ->).
    { apply Nat.ltb_lt in H. apply Nat.ltb_lt. lia. }
    exists (y :: l1), l2, l3. reflexivity.
Qed.

(** ** Dependency graph resolver *)

Section ResolverFacts.
Variable isRegistered : string -> bool.
Variable depsOf : string -> list string.
Variable cycleError : string -> Exn.
Variable onMissing : string -> string -> list Effect.
Variable keys : list string.
Hypothesis reg_keys : forall n, isRegistered n = true <-> In n keys.

Local Abbreviation edge := (dependsOn isRegistered depsOf).
Local Abbreviation path := (reaches isRegistered depsOf).
Local Abbreviation pathRefl := (reachesRefl isRegistered depsOf).
Local Abbreviation visitDeps' := (visitDeps isRegistered onMissing).
Local Abbreviation visit' := (visit isRegistered depsOf cycleError onMissing).
Local Abbreviation visitAll' := (visitAll isRegistered depsOf cycleError onMissing).
Local Abbreviation WF := (Marking.WF isRegistered depsOf keys).
Local Abbreviation visitPost := (Marking.visitPost isRegistered depsOf keys).
Local Abbreviation throwsCycle := (Marking.throwsCycle isRegistered depsOf cycleError).
Local Abbreviation visitOk := (Marking.visitOk isRegistered depsOf cycleError keys).
Local Abbreviation orderOk := (Marking.orderOk isRegistered depsOf keys).
Local Abbreviation wf_visited := (Marking.wf_visited isRegistered depsOf keys).
Local Abbreviation wf_nodup := (Marking.wf_nodup isRegistered depsOf keys).
Local Abbreviation wf_gray_nodup := (Marking.wf_gray_nodup isRegistered depsOf keys).
Local Abbreviation wf_gray_reg := (Marking.wf_gray_reg isRegistered depsOf keys).
Local Abbreviation wf_order_reg := (Marking.wf_order_reg isRegistered depsOf keys).
Local Abbreviation wf_disjoint := (Marking.wf_disjoint isRegistered depsOf keys).
Local Abbreviation wf_sorted := (Marking.wf_sorted isRegistered depsOf keys).

Lemma WF_empty : WF emptyDfs.
Proof.
  constructor; simpl; try tauto; try constructor.
Qed.

Lemma WF_warn : forall st w,
  WF st -> WF (mkDfs (visited st) (visiting st) (order st) w).
Proof. intros st w []. constructor; assumption. Qed.

Lemma visitPost_refl : forall st, WF st -> visitPost [] st st.
Proof.
  intros st H. unfold Marking.visitPost.
  split; [exact H|]. split; [reflexivity|]. split.
  - exists []. rewrite app_nil_r. split; [reflexivity|]. intros y [].
  - intros r [].
Qed.

(** The loop over the dependencies, given that the recursive call meets
    its contract. *)
Lemma visitDeps_spec : forall rec owner G,
  (forall d st,
     WF st -> visiting st = G -> isRegistered d = true ->
     (forall g, In g G -> path g d) ->
     visitOk [d] st (rec d st)) ->
  forall deps st,
    WF st -> visiting st = G ->
    (forall d, In d deps -> isRegistered d = true -> forall g, In g G -> path g d) ->
    visitOk deps st (visitDeps' rec owner deps st).
Proof.
  intros rec owner G Hrec deps.
  induction deps as [|d deps IH]; intros st Hwf Hg Hpath; simpl.
  - apply visitPost_refl. exact Hwf.
  - destruct (isRegistered d) eqn:Hd.
    + specialize (Hrec d st Hwf Hg Hd (Hpath d (or_introl eq_refl) Hd)).
      destruct (rec d st) as [st1|e|]; simpl in Hrec; [|exact Hrec|exact Hrec].
      destruct Hrec as (Hwf1 & Hg1 & (new1 & Ho1 & Hn1) & Hin1).
      assert (visitOk deps st1 (visitDeps' rec owner deps st1)) as Hrest.
      { apply IH; [exact Hwf1|congruence|].
        intros d' Hd' Hr'. apply Hpath; [right; exact Hd'|exact Hr']. }
      destruct (visitDeps' rec owner deps st1) as [st2|e|]; simpl in *;
        [|exact Hrest|exact Hrest].
      destruct Hrest as (Hwf2 & Hg2 & (new2 & Ho2 & Hn2) & Hin2).
      split; [exact Hwf2|]. split; [congruence|]. split.
      * exists (new1 ++ new2). split; [rewrite Ho2, Ho1, app_assoc; reflexivity|].
        intros y Hy. apply in_app_or in Hy. destruct Hy as [Hy|Hy].
        -- destruct (Hn1 y Hy) as (r & [<-|[]] & Hr & Hp). exists d.
           split; [left; reflexivity|split; assumption].
        -- destruct (Hn2 y Hy) as (r & Hr1 & Hr2 & Hp). exists r.
           split; [right; exact Hr1|split; assumption].
      * intros r [<-|Hr] Hreg.
        -- rewrite Ho2. apply in_or_app. left. apply Hin1; [left; reflexivity|exact Hreg].
        -- apply Hin2; assumption.
    + assert (visitOk deps
                (mkDfs (visited st) (visiting st) (order st)
                       (warnings st ++ onMissing owner d))
                (visitDeps' rec owner deps
                   (mkDfs (visited st) (visiting st) (order st)
                          (warnings st ++ onMissing owner d)))) as Hrest.
      { apply IH; [apply WF_warn; exact Hwf|exact Hg|].
        intros d' Hd' Hr'. apply Hpath; [right; exact Hd'|exact Hr']. }
      destruct (visitDeps' rec owner deps _) as [st2|e|]; simpl in *;
        [|exact Hrest|exact Hrest].
      destruct Hrest as (Hwf2 & Hg2 & (new2 & Ho2 & Hn2) & Hin2).
      split; [exact Hwf2|]. split; [exact Hg2|]. split.
      * exists new2. split; [exact Ho2|].
        intros y Hy. destruct (Hn2 y Hy) as (r & Hr1 & Hr2 & Hp). exists r.
        split; [right; exact Hr1|split; assumption].
      * intros r [<-|Hr] Hreg; [congruence|]. apply Hin2; assumption.
Qed.

Lemma gray_bound : forall st, WF st -> List.length (visiting st) <= List.length keys.
Proof.
  intros st H. apply NoDup_incl_length; [apply (wf_gray_nodup st H)|].
  intros x Hx. apply (wf_gray_reg st H x Hx).
Qed.

(** The contract of [visit]: with fuel beyond the number of names not in
    progress it returns a well-formed state in which [n] is placed, or
    throws for a name that lies on a cycle. *)
Lemma visit_spec : forall fuel n st,
  WF st -> isRegistered n = true ->
  (forall g, In g (visiting st) -> path g n) ->
  List.length keys < fuel + List.length (visiting st) ->
  visitOk [n] st (visit' fuel n st).
Proof.
  induction fuel as [|fuel IH]; intros n st Hwf Hn Hpath Hfuel.
  - pose proof (gray_bound st Hwf). simpl in Hfuel. lia.
  - simpl. destruct (StrSet.has n (visiting st)) eqn:Hgray.
    { apply StrSet_has_In in Hgray. exists n. split; [reflexivity|].
      apply Hpath. exact Hgray. }
    apply StrSet_has_not_In in Hgray.
    destruct (StrSet.has n (visited st)) eqn:Hblack.
    { apply StrSet_has_In in Hblack. simpl. split; [exact Hwf|]. split; [reflexivity|].
      split.
      - exists []. rewrite app_nil_r. split; [reflexivity|]. intros y [].
      - intros r [<-|[]] _. apply (wf_visited st Hwf). exact Hblack. }
    apply StrSet_has_not_In in Hblack.
    assert (~ In n (order st)) as Hwhite
      by (intros H; apply Hblack; apply (wf_visited st Hwf); exact H).
    rewrite (StrSet_add_fresh n (visiting st) Hgray).
    set (st1 := mkDfs (visited st) (visiting st ++ [n]) (order st) (warnings st)).
    assert (WF st1) as Hwf1.
    { destruct Hwf. constructor; simpl; auto.
      - apply NoDup_app; [assumption|constructor; [intros []|constructor]|].
        intros x Hx [<-|[]]. exact (Hgray Hx).
      - intros x Hx. apply in_app_or in Hx. destruct Hx as [Hx|[<-|[]]]; auto.
        apply reg_keys. exact Hn.
      - intros x Hx. apply in_app_or in Hx. destruct Hx as [Hx|[<-|[]]]; auto. }
    assert (visitOk (depsOf n) st1
              (visitDeps' (visit' fuel) n (depsOf n) st1)) as Hloop.
    { apply (visitDeps_spec (visit' fuel) n (visiting st ++ [n])).
      - intros d st' Hwf' Hg' Hd Hp'. apply IH; auto.
        + intros g Hg. apply Hp'. rewrite <- Hg'. exact Hg.
        + rewrite Hg', length_app. simpl. lia.
      - exact Hwf1.
      - reflexivity.
      - intros d Hd Hreg g Hg.
        assert (edge n d) as He by (repeat split; assumption).
        apply in_app_or in Hg. destruct Hg as [Hg|[<-|[]]].
        + apply t_trans with n; [apply Hpath; exact Hg|apply t_step; exact He].
        + apply t_step. exact He. }
    destruct (visitDeps' (visit' fuel) n (depsOf n) st1) as [st2|e|];
      simpl in Hloop; [|exact Hloop|exact Hloop].
    destruct Hloop as (Hwf2 & Hg2 & (new & Ho2 & Hnew) & Hin2).
    simpl in Hg2, Ho2.
    assert (~ In n (order st2)) as Hfresh.
    { apply (wf_disjoint st2 Hwf2). rewrite Hg2. apply in_or_app. right. left. reflexivity. }
    simpl. rewrite Hg2, (StrSet_delete_snoc n (visiting st) Hgray).
    split; [|split; [reflexivity|split]].
    + destruct Hwf2 as [V2 N2 GN2 GR2 OR2 D2 S2]. destruct Hwf as [V N GN GR OR D S].
      constructor; simpl.
      * intros x. rewrite StrSet_add_In, in_app_iff, V2. simpl. intuition.
      * apply NoDup_app; [assumption|constructor; [intros []|constructor]|].
        intros x Hx [<-|[]]. exact (Hfresh Hx).
      * exact GN.
      * exact GR.
      * intros x Hx. apply in_app_or in Hx. destruct Hx as [Hx|[<-|[]]]; auto.
        apply reg_keys. exact Hn.
      * intros x Hx Hin. apply in_app_or in Hin. destruct Hin as [Hin|[<-|[]]].
        -- apply (D2 x); [rewrite Hg2; apply in_or_app; left; exact Hx|exact Hin].
        -- exact (Hgray Hx).
      * intros x d Hx He. apply in_app_or in Hx. destruct Hx as [Hx|[<-|[]]].
        -- apply precedes_app_r. apply S2; assumption.
        -- apply precedes_snoc. destruct He as (_ & Hd1 & Hd2). apply Hin2; assumption.
    + exists (new ++ [n]). split; [rewrite Ho2, app_assoc; reflexivity|].
      intros y Hy. exists n. split; [left; reflexivity|]. split; [exact Hn|].
      apply in_app_or in Hy. destruct Hy as [Hy|[<-|[]]]; [|apply rt_refl].
      destruct (Hnew y Hy) as (d & Hd1 & Hd2 & Hp).
      apply rt_trans with d; [apply rt_step; repeat split; assumption|exact Hp].
    + intros r [<-|[]] _. apply in_or_app. right. left. reflexivity.
Qed.

Lemma visitAll_spec : forall fuel ks st,
  List.length keys < fuel ->
  WF st -> visiting st = [] ->
  (forall k, In k ks -> In k keys) ->
  visitOk ks st (visitAll' fuel ks st).
Proof.
  intros fuel ks. induction ks as [|k ks IH]; intros st Hfuel Hwf Hg Hks; simpl.
  - apply visitPost_refl. exact Hwf.
  - assert (forall k', In k' ks -> In k' keys) as Hks' by (intros; apply Hks; right; assumption).
    destruct (StrSet.has k (visited st)) eqn:Hblack.
    + apply StrSet_has_In in Hblack.
      specialize (IH st Hfuel Hwf Hg Hks').
      destruct (visitAll' fuel ks st) as [st'|e|]; simpl in *; [|exact IH|exact IH].
      destruct IH as (Hwf' & Hg' & (new & Ho & Hnew) & Hin).
      split; [exact Hwf'|]. split; [exact Hg'|]. split.
      * exists new. split; [exact Ho|]. intros y Hy.
        destruct (Hnew y Hy) as (r & H1 & H2 & H3). exists r.
        split; [right; exact H1|split; assumption].
      * intros r [<-|Hr] Hreg; [|apply Hin; assumption].
        rewrite Ho. apply in_or_app. left. apply (wf_visited st Hwf). exact Hblack.
    + assert (isRegistered k = true) as Hk by (apply reg_keys, Hks; left; reflexivity).
      assert (visitOk [k] st (visit' fuel k st)) as Hv.
      { apply visit_spec; auto.
        - rewrite Hg. intros g [].
        - rewrite Hg. simpl. lia. }
      destruct (visit' fuel k st) as [st1|e|]; simpl in Hv; [|exact Hv|exact Hv].
      destruct Hv as (Hwf1 & Hg1 & (new1 & Ho1 & Hn1) & Hin1).
      assert (visiting st1 = []) as Hg1' by congruence.
      specialize (IH st1 Hfuel Hwf1 Hg1' Hks').
      destruct (visitAll' fuel ks st1) as [st2|e|]; simpl in *; [|exact IH|exact IH].
      destruct IH as (Hwf2 & Hg2 & (new2 & Ho2 & Hn2) & Hin2).
      split; [exact Hwf2|]. split; [congruence|]. split.
      * exists (new1 ++ new2). split; [rewrite Ho2, Ho1, app_assoc; reflexivity|].
        intros y Hy. apply in_app_or in Hy. destruct Hy as [Hy|Hy].
        -- destruct (Hn1 y Hy) as (r & [<-|[]] & H2 & H3). exists k.
           split; [left; reflexivity|split; assumption].
        -- destruct (Hn2 y Hy) as (r & H1 & H2 & H3). exists r.
           split; [right; exact H1|split; assumption].
      * intros r [<-|Hr] Hreg; [|apply Hin2; assumption].
        rewrite Ho2. apply in_or_app. left. apply Hin1; [left; reflexivity|exact Hreg].
Qed.

Lemma visitAll_app : forall fuel l1 l2 st,
  visitAll' fuel (l1 ++ l2) st =
  match visitAll' fuel l1 st with
  | Done st' => visitAll' fuel l2 st'
  | other => other
  end.
Proof.
  intros fuel l1 l2. induction l1 as [|k l1 IH]; intros st; simpl.
  - reflexivity.
  - destruct (StrSet.has k (visited st)); [apply IH|].
    destruct (visit' fuel k st); [apply IH|reflexivity|reflexivity].
Qed.

(** A cycle cannot coexist with an order that puts every dependency
    before its dependent. *)
Lemma sorted_acyclic : forall o,
  NoDup o ->
  (forall x, In x keys -> In x o) ->
  (forall x d, In x o -> edge x d -> precedes d x o) ->
  acyclic isRegistered depsOf.
Proof.
  intros o ND Hall Hs.
  assert (forall x y, path x y -> pos y o < pos x o) as Hrank.
  { intros x y H. induction H as [x y He|x y z _ IH1 _ IH2].
    - apply precedes_pos; [exact ND|]. apply Hs; [|exact He].
      apply Hall, reg_keys. apply He.
    - lia. }
  intros x Hx. specialize (Hrank x x Hx). lia.
Qed.

Lemma topoOrder_spec :
  match topoOrder isRegistered depsOf cycleError onMissing keys with
  | Done st => orderOk (order st) /\ acyclic isRegistered depsOf
  | Thrown e => throwsCycle e
  | OutOfFuel => False
  end.
Proof.
  unfold topoOrder.
  assert (List.length keys < S (List.length keys)) as Hfuel by lia.
  pose proof (visitAll_spec (S (List.length keys)) keys emptyDfs Hfuel WF_empty
                eq_refl (fun k H => H)) as Hall.
  destruct (visitAll' (S (List.length keys)) keys emptyDfs) as [st|e|] eqn:Hrun;
    simpl in Hall; [|exact Hall|exact Hall].
  destruct Hall as (Hwf & Hg & (new & Ho & Hnew) & Hin).
  assert (forall x, In x keys -> In x (order st)) as Hcover.
  { intros x Hx. apply Hin; [exact Hx|apply reg_keys; exact Hx]. }
  assert (forall x d, edge x d -> precedes d x (order st)) as Hsorted.
  { intros x d He. apply (wf_sorted st Hwf); [|exact He].
    apply Hcover, reg_keys, He. }
  split.
  - split; [apply (wf_nodup st Hwf)|]. split; [|split; [exact Hsorted|]].
    + intros x. split; [apply (wf_order_reg st Hwf)|apply Hcover].
    + intros l1 a l2 b Hk Hb Hfree.
      assert (keys = (l1 ++ [a]) ++ l2) as Hk' by (rewrite <- app_assoc; exact Hk).
      assert (forall k, In k (l1 ++ [a]) -> In k keys) as Hsub1
        by (intros k Hk1; rewrite Hk'; apply in_or_app; left; exact Hk1).
      assert (forall k, In k l2 -> In k keys) as Hsub2
        by (intros k Hk2; rewrite Hk'; apply in_or_app; right; exact Hk2).
      rewrite Hk' in Hrun at 2. rewrite visitAll_app in Hrun.
      pose proof (visitAll_spec (S (List.length keys)) (l1 ++ [a]) emptyDfs Hfuel
                    WF_empty eq_refl Hsub1) as H1.
      destruct (visitAll' (S (List.length keys)) (l1 ++ [a]) emptyDfs) as [mid|e|];
        simpl in H1; [|discriminate|discriminate].
      destruct H1 as (Hwf1 & Hg1 & (new1 & Ho1 & Hn1) & Hin1).
      pose proof (visitAll_spec (S (List.length keys)) l2 mid Hfuel Hwf1 Hg1 Hsub2) as H2.
      rewrite Hrun in H2. simpl in H2.
      destruct H2 as (_ & _ & (new2 & Ho2 & _) & Hin2).
      rewrite Ho2. apply precedes_across.
      * apply Hin1; [apply in_or_app; right; left; reflexivity|].
        apply reg_keys, Hsub1. apply in_or_app. right. left. reflexivity.
      * assert (In b (order st)) as Hbo by (apply Hcover, Hsub2, Hb).
        rewrite Ho2 in Hbo. apply in_app_or in Hbo. destruct Hbo as [Hbo|Hbo]; [|exact Hbo].
        exfalso. rewrite Ho1 in Hbo. simpl in Hbo.
        destruct (Hn1 b Hbo) as (r & Hr1 & _ & Hr3). exact (Hfree r Hr1 Hr3).
  - apply (sorted_acyclic (order st)); [apply (wf_nodup st Hwf)|exact Hcover|].
    intros x d _ He. apply Hsorted. exact He.
Qed.

End ResolverFacts.

Lemma topoOrder_resolves : forall isRegistered depsOf cycleError onMissing keys,
  (forall n, isRegistered n = true <-> In n keys) ->
  resolves isRegistered depsOf keys cycleError
    (orderOutcome (topoOrder isRegistered depsOf cycleError onMissing keys)).
Proof.
  intros isRegistered depsOf cycleError onMissing keys Hreg.
  pose proof (topoOrder_spec isRegistered depsOf cycleError onMissing keys Hreg) as H.
  destruct (topoOrder isRegistered depsOf cycleError onMissing keys) as [st|e|];
    simpl; [| |contradiction].
  - destruct H as [Hok Hac]. split.
    + intros _. exists (order st). split; [reflexivity|exact Hok].
    + intros [x Hx]. exfalso. exact (Hac x Hx).
  - destruct H as (x & -> & Hx). split.
    + intros Hac. exfalso. exact (Hac x Hx).
    + intros _. exists x. split; [reflexivity|exact Hx].
Qed.

Lemma computeOrder_eq : forall {Impl} (m : @Manager Impl),
  computeOrder m =
  orderOutcome (topoOrder (mgrRegistered m) (mgrDepsOf m) mgrCycleError
                  (fun _ _ => []) (StrMap.keys (services m))).
Proof. intros. unfold computeOrder, orderOutcome. destruct (topoOrder _ _ _ _ _); reflexivity. Qed.

(** The recursion bound of the embedding is never reached. *)
Lemma computeOrder_total : forall {Impl} (m : @Manager Impl),
  computeOrder m <> OutOfFuel.
Proof.
  intros Impl m. rewrite computeOrder_eq.
  pose proof (topoOrder_spec (mgrRegistered m) (mgrDepsOf m) mgrCycleError
                (fun _ _ => []) (StrMap.keys (services m))
                (fun n => StrMap_get_In n (services m))) as H.
  destruct (topoOrder _ _ _ _ _); simpl; [discriminate|discriminate|contradiction].
Qed.

Lemma initOrder_total : forall {Impl Breaker} (s : @Initializer Impl Breaker),
  calculateInitializationOrder s <> OutOfFuel.
Proof.
  intros Impl Breaker s. unfold calculateInitializationOrder.
  pose proof (topoOrder_spec (initRegistered s) (initDepsOf s) initCycleError
                (fun owner _ => [ELog LWarn "Dependency not found" owner])
                (StrMap.keys (components s))
                (fun n => StrMap_get_In n (components s))) as H.
  destruct (topoOrder _ _ _ _ _); [discriminate|discriminate|contradiction].
Qed.

(** C1 (as the code has it).  For the service manager and for the
    component initializer alike: when the dependency graph restricted to
    registered names has no cycle, the computed order lists every registered
    name once, each dependency strictly before the node that declares it, and
    of two nodes the one registered first comes first unless it or a node
    registered before it depends, directly or not, on the other; when the
    graph has a cycle, the computation throws a ServiceError (manager) or an
    InitializationError (initializer) whose message names a node on a
    cycle. *)
Theorem order_places_dependencies_first :
  (forall Impl (m : @Manager Impl),
     resolves (mgrRegistered m) (mgrDepsOf m) (StrMap.keys (services m))
       mgrCycleError (computeOrder m)) /\
  (forall Impl Breaker (s : @Initializer Impl Breaker),
     resolves (initRegistered s) (initDepsOf s) (StrMap.keys (components s))
       initCycleError (orderOutcome (calculateInitializationOrder s))).
Proof.
  split.
  - intros Impl m. rewrite computeOrder_eq. apply topoOrder_resolves.
    intros n. apply StrMap_get_In.
  - intros Impl Breaker s. unfold calculateInitializationOrder.
    apply topoOrder_resolves. intros n. apply StrMap_get_In.
Qed.

(** C1 as stated fails on the class of the error: the cycle of scenario B
    is reported by a ServiceError, and by an InitializationError in the
    initializer; no CyclicDependencyError is thrown. *)
Lemma cycle_error_is_not_cyclic_dependency_error :
  computeOrder managerXY =
    Thrown (mkExn ServiceError "Circular dependency detected involving X") /\
  ErrorKind_eqb (exnKind (mgrCycleError "X")) CyclicDependencyError = false /\
  ErrorKind_eqb (exnKind (initCycleError "X")) CyclicDependencyError = false.
Proof. repeat split. Qed.

Lemma order_places_dependencies_first_witness :
  (exists o, computeOrder managerABC = Done o /\
     Marking.orderOk (mgrRegistered managerABC) (mgrDepsOf managerABC)
       (StrMap.keys (services managerABC)) o) /\
  (exists x, computeOrder managerXY = Thrown (mgrCycleError x) /\
     onCycle (mgrRegistered managerXY) (mgrDepsOf managerXY) x).
Proof.
  split.
  - apply (proj1 (proj1 order_places_dependencies_first nat managerABC)).
    apply (sorted_acyclic (mgrRegistered managerABC) (mgrDepsOf managerABC)
             (StrMap.keys (services managerABC))
             (fun n => StrMap_get_In n (services managerABC)) ["A"; "B"; "C"]).
    + repeat constructor; simpl; intuition discriminate.
    + intros x Hx. exact Hx.
    + intros x d Hx (_ & Hd & _).
      destruct Hx as [<-|[<-|[<-|[]]]]; vm_compute in Hd;
        repeat (destruct Hd as [<-|Hd]; [apply precedesb_sound; reflexivity|]);
        contradiction.
  - apply (proj2 (proj1 order_places_dependencies_first nat managerXY)).
    exists "X". apply t_trans with "Y"; apply t_step; repeat split;
      vm_compute; auto.
Defined.

(** ** Service manager *)

(** Reduces the outcome of an outcome that is a literal triple. *)
Ltac outcome := cbn [stateOf traceOf resultOf fst snd] in *.

Section ManagerFacts.
Context {Impl : Type}.
Implicit Types m : @Manager Impl.
Implicit Types v : Service Impl.

Lemma onService_eq : forall {A} n v (meth : M (Service Impl) A) m,
  onService n v meth m =
  (withServices (StrMap.set n (stateOf (meth v)) (services m)) m,
   traceOf (meth v), resultOf (meth v)).
Proof.
  intros A n v meth m. unfold onService.
  destruct (meth v) as [[v' t] r]. reflexivity.
Qed.

Lemma stopPart_ext : forall msg m m' n,
  StrMap.get n (services m') = StrMap.get n (services m) ->
  stopPart msg m' n = stopPart msg m n.
Proof. intros msg m m' n H. unfold stopPart. rewrite H. reflexivity. Qed.

Lemma flat_map_ext_in : forall {A B} (f g : A -> list B) l,
  (forall x, In x l -> f x = g x) -> flat_map f l = flat_map g l.
Proof.
  intros A B f g l. induction l as [|x l IH]; intros H; simpl.
  - reflexivity.
  - rewrite (H x (or_introl eq_refl)), IH; [reflexivity|].
    intros y Hy. apply H. right. exact Hy.
Qed.

Lemma stopEach_cons : forall msg n names m,
  stopEach msg (n :: names) m =
  match StrMap.get n (services m) with
  | Some v =>
      if ServiceState_eqb (getState v) RUNNING
      then
        let m1 := withServices (StrMap.set n (stateOf (stop v)) (services m)) m in
        (stateOf (stopEach msg names m1),
         (traceOf (stop v) ++
          (if raised (resultOf (stop v)) then [ELog LError msg n] else [])) ++
         traceOf (stopEach msg names m1),
         resultOf (stopEach msg names m1))
      else stopEach msg names m
  | None => stopEach msg names m
  end.
Proof.
  intros msg n names m. cbn [stopEach]. unfold bind at 1, get at 1.
  destruct (StrMap.get n (services m)) as [v|].
  - destruct (ServiceState_eqb (getState v) RUNNING).
    + unfold bind at 1, tryCatch. rewrite onService_eq.
      destruct (resultOf (stop v)) as [[]|e]; cbn [raised tell].
      * destruct (stopEach msg names _) as [[m2 t2] r2]. outcome.
        rewrite app_nil_r. reflexivity.
      * destruct (stopEach msg names _) as [[m2 t2] r2]. outcome. reflexivity.
    + unfold bind at 1, ret at 1.
      destruct (stopEach msg names m) as [[m2 t2] r2]. reflexivity.
  - destruct (stopEach msg names m) as [[m2 t2] r2]. reflexivity.
Qed.

(** The stop loop never raises, leaves both orders alone, touches only the
    services it names, and its effects are those of each name in turn. *)
Lemma stopEach_spec : forall msg names m,
  NoDup names ->
  resultOf (stopEach msg names m) = Val tt /\
  traceOf (stopEach msg names m) = flat_map (stopPart msg m) names /\
  startOrder (stateOf (stopEach msg names m)) = startOrder m /\
  stopOrder (stateOf (stopEach msg names m)) = stopOrder m /\
  (forall k, ~ In k names ->
     StrMap.get k (services (stateOf (stopEach msg names m))) =
     StrMap.get k (services m)).
Proof.
  intros msg names. induction names as [|n names IH]; intros m ND.
  - repeat split.
  - inversion ND as [|? ? Hn ND']; subst.
    rewrite stopEach_cons. cbn [flat_map]. unfold stopPart at 1.
    assert (forall k, ~ In k (n :: names) -> ~ In k names) as Htail
      by (intros k Hk H; apply Hk; right; exact H).
    destruct (StrMap.get n (services m)) as [v|] eqn:Hget.
    + destruct (ServiceState_eqb (getState v) RUNNING) eqn:Hrun.
      * set (m1 := withServices (StrMap.set n (stateOf (stop v)) (services m)) m).
        destruct (IH m1 ND') as (R & T & S1 & S2 & F).
        cbv zeta. fold m1. outcome.
        split; [exact R|]. split.
        { rewrite T. f_equal. apply flat_map_ext_in. intros x Hx. apply stopPart_ext.
          apply StrMap_get_set_other. intros ->. exact (Hn Hx). }
        split; [exact S1|]. split; [exact S2|].
        intros k Hk. rewrite F by (apply Htail; exact Hk).
        apply StrMap_get_set_other. intros ->. apply Hk. left. reflexivity.
      * destruct (IH m ND') as (R & T & S1 & S2 & F). cbn [app].
        repeat split; auto.
    + destruct (IH m ND') as (R & T & S1 & S2 & F). cbn [app].
      repeat split; auto.
Qed.

Lemma indexOf_middle : forall n done rest,
  ~ In n done -> indexOf n (done ++ n :: rest) = Some (List.length done).
Proof.
  intros n done rest. induction done as [|y done IH]; intros H; simpl.
  - rewrite String.eqb_refl. reflexivity.
  - destruct (String.eqb n y) eqn:E.
    + apply String.eqb_eq in E. subst. exfalso. apply H. left. reflexivity.
    + rewrite IH; [reflexivity|]. intros H'. apply H. right. exact H'.
Qed.

Lemma firstn_length_app : forall (done rest : list string),
  firstn (List.length done) (done ++ rest) = done.
Proof.
  intros done rest. induction done as [|y done IH]; simpl.
  - reflexivity.
  - rewrite IH. reflexivity.
Qed.

Lemma stopStartedServices_eq : forall n done rest m,
  startOrder m = done ++ n :: rest -> ~ In n done ->
  stopStartedServices n m =
  stopEach "Failed to stop service during cleanup" (rev done) m.
Proof.
  intros n done rest m Ho Hn. unfold stopStartedServices, bind, get.
  rewrite Ho, (indexOf_middle n done rest Hn), firstn_length_app.
  destruct (stopEach _ (rev done) m) as [[m2 t2] r2]. reflexivity.
Qed.

Lemma startEach_cons : forall n rest m,
  startEach (n :: rest) m =
  match StrMap.get n (services m) with
  | None => startEach rest m
  | Some v =>
      let m1 := withServices (StrMap.set n (stateOf (start v)) (services m)) m in
      if startRaises v then
        if isRequired v then
          (stateOf (stopStartedServices n m1),
           (traceOf (start v) ++ [ELog LError "Failed to start service" n]) ++
             traceOf (stopStartedServices n m1),
           match resultOf (stopStartedServices n m1) with
           | Val _ => Exc (requiredFailure n)
           | Exc e => Exc e
           end)
        else
          (stateOf (startEach rest m1),
           (traceOf (start v) ++ [ELog LError "Failed to start service" n]) ++
             traceOf (startEach rest m1),
           resultOf (startEach rest m1))
      else
        (stateOf (startEach rest m1),
         (traceOf (start v) ++ []) ++ traceOf (startEach rest m1),
         resultOf (startEach rest m1))
  end.
Proof.
  intros n rest m. cbn [startEach]. unfold bind at 1, get at 1.
  destruct (StrMap.get n (services m)) as [v|].
  - unfold bind at 1, tryCatch. rewrite onService_eq. unfold startRaises.
    destruct (resultOf (start v)) as [[]|e]; cbn [raised].
    + destruct (startEach rest _) as [[m2 t2] r2]. outcome.
      rewrite app_nil_r. reflexivity.
    + unfold bind at 1, tell at 1. destruct (isRequired v).
      * unfold bind at 1, throw.
        destruct (stopStartedServices n _) as [[m2 t2] [[]|e2]]; outcome.
        -- rewrite app_nil_r, <- app_assoc. reflexivity.
        -- rewrite <- app_assoc. reflexivity.
      * unfold ret at 1. cbn [app].
        destruct (startEach rest _) as [[m2 t2] r2]. outcome.
        rewrite <- app_assoc. reflexivity.
  - destruct (startEach rest m) as [[m2 t2] r2]. reflexivity.
Qed.

Lemma startPart_some : forall m n v,
  StrMap.get n (services m) = Some v ->
  startPart m n =
  traceOf (start v) ++
  (if startRaises v then [ELog LError "Failed to start service" n] else []).
Proof. intros m n v H. unfold startPart. rewrite H. reflexivity. Qed.

Lemma startPart_none : forall m n,
  StrMap.get n (services m) = None -> startPart m n = [].
Proof. intros m n H. unfold startPart. rewrite H. reflexivity. Qed.

(** The start loop, from any point of the order: [done] was gone
    through, [rest] is ahead, and [m0] is the manager [startAll] began
    with. *)
Lemma startEach_spec : forall m0 rest done m,
  NoDup (done ++ rest) ->
  startOrder m = done ++ rest ->
  (forall r, In r rest -> StrMap.get r (services m) = StrMap.get r (services m0)) ->
  (forall p, In p done ->
     StrMap.get p (services m) =
     option_map (fun v => stateOf (start v)) (StrMap.get p (services m0))) ->
  match firstRequiredFailure m0 rest with
  | (pre, Some f) =>
      resultOf (startEach rest m) = Exc (requiredFailure f) /\
      traceOf (startEach rest m) =
        flat_map (startPart m0) pre ++ startPart m0 f ++
        flat_map (rollbackPart m0) (rev (done ++ pre))
  | (pre, None) =>
      resultOf (startEach rest m) = Val tt /\
      traceOf (startEach rest m) = flat_map (startPart m0) pre
  end.
Proof.
  intros m0 rest. induction rest as [|n rest IH]; intros done m ND Ho Hrest Hdone.
  - cbn. split; reflexivity.
  - assert (~ In n done) as Hnd.
    { intros H. apply NoDup_remove_2 in ND. apply ND. apply in_or_app. left. exact H. }
    assert (~ In n rest) as Hnr.
    { intros H. apply NoDup_remove_2 in ND. apply ND. apply in_or_app. right. exact H. }
    assert (NoDup ((done ++ [n]) ++ rest)) as ND' by (rewrite <- app_assoc; exact ND).
    rewrite startEach_cons. cbn [firstRequiredFailure]. unfold failsRequired.
    rewrite (Hrest n (or_introl eq_refl)).
    destruct (StrMap.get n (services m0)) as [v|] eqn:Hget.
    + set (m1 := withServices (StrMap.set n (stateOf (start v)) (services m)) m).
      assert (startOrder m1 = (done ++ [n]) ++ rest) as Ho1
        by (rewrite <- app_assoc; exact Ho).
      assert (forall r, In r rest ->
                StrMap.get r (services m1) = StrMap.get r (services m0)) as Hrest1.
      { intros r Hr. unfold m1. cbn [services withServices].
        rewrite StrMap_get_set_other; [apply Hrest; right; exact Hr|].
        intros ->. exact (Hnr Hr). }
      assert (forall p, In p (done ++ [n]) ->
                StrMap.get p (services m1) =
                option_map (fun v => stateOf (start v)) (StrMap.get p (services m0)))
        as Hdone1.
      { intros p Hp. unfold m1. cbn [services withServices].
        apply in_app_or in Hp. destruct Hp as [Hp|[<-|[]]].
        - rewrite StrMap_get_set_other; [apply Hdone; exact Hp|].
          intros ->. exact (Hnd Hp).
        - rewrite StrMap_get_set_same, Hget. reflexivity. }
      specialize (IH (done ++ [n]) m1 ND' Ho1 Hrest1 Hdone1).
      cbv zeta. fold m1.
      destruct (startRaises v) eqn:Hraise; cbn [andb].
      * destruct (isRequired v) eqn:Hreq.
        -- rewrite (stopStartedServices_eq n done rest m1 Ho Hnd).
           destruct (stopEach_spec "Failed to stop service during cleanup" (rev done) m1)
             as (R & T & _); [apply NoDup_rev; exact (NoDup_app_remove_r _ _ ND)|].
           outcome. rewrite R, T. split; [reflexivity|].
           cbn [flat_map app]. rewrite app_nil_r.
           rewrite (startPart_some m0 n v Hget), Hraise. f_equal.
           apply flat_map_ext_in. intros p Hp. apply in_rev in Hp.
           unfold stopPart, rollbackPart.
           rewrite (Hdone1 p (in_or_app _ _ _ (or_introl Hp))).
           destruct (StrMap.get p (services m0)); reflexivity.
        -- destruct (firstRequiredFailure m0 rest) as [pre [f|]];
             destruct IH as [R T]; outcome; rewrite R, T; cbn [flat_map];
             rewrite (startPart_some m0 n v Hget), Hraise;
             (split; [reflexivity|]).
           ++ rewrite <- !app_assoc. cbn [app]. reflexivity.
           ++ reflexivity.
      * destruct (firstRequiredFailure m0 rest) as [pre [f|]];
          destruct IH as [R T]; outcome; rewrite R, T; cbn [flat_map];
          rewrite (startPart_some m0 n v Hget), Hraise;
          (split; [reflexivity|]).
        -- rewrite <- !app_assoc. cbn [app]. reflexivity.
        -- reflexivity.
    + assert (forall p, In p (done ++ [n]) ->
                StrMap.get p (services m) =
                option_map (fun v => stateOf (start v)) (StrMap.get p (services m0)))
        as Hdone1.
      { intros p Hp. apply in_app_or in Hp. destruct Hp as [Hp|[<-|[]]].
        - apply Hdone. exact Hp.
        - rewrite (Hrest n (or_introl eq_refl)), Hget. reflexivity. }
      assert (startOrder m = (done ++ [n]) ++ rest) as Ho1
        by (rewrite <- app_assoc; exact Ho).
      specialize (IH (done ++ [n]) m ND' Ho1
                    (fun r Hr => Hrest r (or_intror Hr)) Hdone1).
      destruct (firstRequiredFailure m0 rest) as [pre [f|]];
        destruct IH as [R T]; rewrite R, T; cbn [flat_map];
        rewrite (startPart_none m0 n Hget); (split; [reflexivity|]).
      * rewrite <- !app_assoc. cbn [app]. reflexivity.
      * reflexivity.
Qed.

Lemma firstRequiredFailure_split : forall m names pre f,
  firstRequiredFailure m names = (pre, Some f) ->
  exists post, names = pre ++ f :: post.
Proof.
  intros m names. induction names as [|n names IH]; intros pre f; cbn.
  - discriminate.
  - destruct (failsRequired m n).
    + intros H. injection H as <- <-. exists names. reflexivity.
    + destruct (firstRequiredFailure m names) as [pre' f'].
      intros H. injection H as <- ->.
      destruct (IH pre' f eq_refl) as [post ->]. exists post. reflexivity.
Qed.

Lemma firstRequiredFailure_none : forall m names pre,
  firstRequiredFailure m names = (pre, None) -> pre = names.
Proof.
  intros m names. induction names as [|n names IH]; intros pre; cbn.
  - intros H. injection H as <-. reflexivity.
  - destruct (failsRequired m n); [discriminate|].
    destruct (firstRequiredFailure m names) as [pre' f'].
    intros H. injection H as <- ->. rewrite (IH pre' eq_refl). reflexivity.
Qed.

Lemma startAll_eq : forall m,
  startAll m =
  match startEach (startOrder m) m with
  | (m1, t1, Val _) =>
      (m1, ELog LInfo "Starting all services in dependency order..." "" :: t1 ++
           [ELog LInfo "All services started successfully" ""], Val tt)
  | (m1, t1, Exc e) =>
      (m1, ELog LInfo "Starting all services in dependency order..." "" :: t1, Exc e)
  end.
Proof.
  intros m. unfold startAll. run_method.
  destruct (startEach (startOrder m) m) as [[m1 t1] [[]|e]]; reflexivity.
Qed.

(** C2.  [startAll()] goes through the start order up to the first
    required service whose [start()] raises.  If there is one, every service
    before it is stopped, last started first, provided it is RUNNING by then;
    a stop that raises is logged; then [startAll()] raises a ServiceError; no
    later service is started.  A service whose start raises and that is not
    required is logged and the loop goes on. *)
Theorem startAll_rolls_back : forall m,
  NoDup (startOrder m) ->
  match firstRequiredFailure m (startOrder m) with
  | (pre, Some f) =>
      (exists post, startOrder m = pre ++ f :: post) /\
      resultOf (startAll m) =
        Exc (mkExn ServiceError ("Required service " +++ f +++ " failed to start")) /\
      traceOf (startAll m) =
        ELog LInfo "Starting all services in dependency order..." "" ::
        flat_map (startPart m) pre ++ startPart m f ++
        flat_map (rollbackPart m) (rev pre)
  | (pre, None) =>
      pre = startOrder m /\
      resultOf (startAll m) = Val tt /\
      traceOf (startAll m) =
        ELog LInfo "Starting all services in dependency order..." "" ::
        flat_map (startPart m) pre ++
        [ELog LInfo "All services started successfully" ""]
  end.
Proof.
  intros m ND.
  pose proof (startEach_spec m (startOrder m) [] m ND eq_refl
                (fun r _ => eq_refl) (fun p (H : In p []) => match H with end)) as H.
  rewrite startAll_eq.
  destruct (firstRequiredFailure m (startOrder m)) as [pre [f|]] eqn:Hsplit.
  - destruct H as [R T]. split; [exact (firstRequiredFailure_split _ _ _ _ Hsplit)|].
    destruct (startEach (startOrder m) m) as [[m1 t1] r1]. outcome. subst.
    split; reflexivity.
  - destruct H as [R T]. split; [exact (firstRequiredFailure_none _ _ _ Hsplit)|].
    destruct (startEach (startOrder m) m) as [[m1 t1] r1]. outcome. subst.
    split; reflexivity.
Qed.

End ManagerFacts.

Lemma startAll_rolls_back_witness :
  (exists post, startOrder managerScenarioA = ["A"] ++ "B" :: post) /\
  resultOf (startAll managerScenarioA) =
    Exc (mkExn ServiceError "Required service B failed to start") /\
  traceOf (startAll managerScenarioA) =
    ELog LInfo "Starting all services in dependency order..." "" ::
    flat_map (startPart managerScenarioA) ["A"] ++ startPart managerScenarioA "B" ++
    flat_map (rollbackPart managerScenarioA) (rev ["A"]).
Proof.
  apply (startAll_rolls_back managerScenarioA).
  vm_compute. repeat constructor; simpl; intuition discriminate.
Defined.

(** Scenario A read off the trace: A and B are started, C never is; A is
    stopped by the rollback; [startAll] raises. *)
Lemma scenario_A :
  movedTo STARTING (traceOf (startAll managerScenarioA)) = ["A"; "B"] /\
  movedTo STOPPING (traceOf (startAll managerScenarioA)) = ["A"] /\
  raised (resultOf (startAll managerScenarioA)) = true /\
  getServiceStates (stateOf (startAll managerScenarioA)) =
    [("A", STOPPED); ("B", ERROR); ("C", STOPPED)].
Proof. repeat split. Qed.

(** ** Start order and stop order *)

Section OrderFacts.
Context {Impl : Type}.
Implicit Types m : @Manager Impl.

Lemma stopEach_orders : forall msg names m,
  startOrder (stateOf (stopEach msg names m)) = startOrder m /\
  stopOrder (stateOf (stopEach msg names m)) = stopOrder m.
Proof.
  intros msg names. induction names as [|n names IH]; intros m.
  - split; reflexivity.
  - rewrite stopEach_cons. destruct (StrMap.get n (services m)) as [v|]; [|apply IH].
    destruct (ServiceState_eqb (getState v) RUNNING); [|apply IH].
    cbv zeta. outcome.
    exact (IH (withServices (StrMap.set n (stateOf (stop v)) (services m)) m)).
Qed.

Lemma stopStartedServices_orders : forall n m,
  startOrder (stateOf (stopStartedServices n m)) = startOrder m /\
  stopOrder (stateOf (stopStartedServices n m)) = stopOrder m.
Proof.
  intros n m. unfold stopStartedServices, bind, get.
  destruct (indexOf n (startOrder m)) as [i|]; [|split; reflexivity].
  pose proof (stopEach_orders "Failed to stop service during cleanup"
                (rev (firstn i (startOrder m))) m) as H.
  destruct (stopEach _ _ m) as [[m2 t2] r2]. exact H.
Qed.

Lemma startEach_orders : forall names m,
  startOrder (stateOf (startEach names m)) = startOrder m /\
  stopOrder (stateOf (startEach names m)) = stopOrder m.
Proof.
  intros names. induction names as [|n names IH]; intros m.
  - split; reflexivity.
  - rewrite startEach_cons. destruct (StrMap.get n (services m)) as [v|]; [|apply IH].
    cbv zeta. destruct (startRaises v); [destruct (isRequired v)|]; outcome.
    + apply (stopStartedServices_orders n
               (withServices (StrMap.set n (stateOf (start v)) (services m)) m)).
    + exact (IH (withServices (StrMap.set n (stateOf (start v)) (services m)) m)).
    + exact (IH (withServices (StrMap.set n (stateOf (start v)) (services m)) m)).
Qed.

Lemma calculateOrder_eq : forall m,
  calculateOrder m =
  match computeOrder m with
  | Done o => (mkManager (services m) (dependencyGraph m) o (rev o), [], Val tt)
  | Thrown e => (m, [], Exc e)
  | OutOfFuel => (m, [], Val tt)
  end.
Proof.
  intros m. unfold calculateOrder. run_method.
  destruct (computeOrder m); reflexivity.
Qed.

Lemma computeOrder_nodup : forall m o, computeOrder m = Done o -> NoDup o.
Proof.
  intros m o H. rewrite computeOrder_eq in H.
  pose proof (topoOrder_spec (mgrRegistered m) (mgrDepsOf m) mgrCycleError
                (fun _ _ => []) (StrMap.keys (services m))
                (fun n => StrMap_get_In n (services m))) as S.
  destruct (topoOrder _ _ _ _ _) as [st| |]; simpl in H; try discriminate.
  injection H as <-. apply S.
Qed.

Lemma calculateOrder_agree : forall m,
  ordersAgree m -> ordersAgree (stateOf (calculateOrder m)).
Proof.
  intros m H. rewrite calculateOrder_eq.
  destruct (computeOrder m) as [o|e|] eqn:E; outcome; [|exact H|exact H].
  split; [reflexivity|]. exact (computeOrder_nodup m o E).
Qed.

Lemma mgrPerform_agree : forall op m,
  ordersAgree m -> ordersAgree (stateOf (mgrPerform op m)).
Proof.
  intros op m H. destruct op as [svc|n| | |n]; cbn [mgrPerform].
  - unfold registerService, updateDependencyGraph. run_method.
    match goal with |- context [calculateOrder ?M] =>
      pose proof (calculateOrder_agree M H) as C;
      destruct (calculateOrder M) as [[m1 t1] [[]|e]] end; exact C.
  - unfold unregisterService. run_method.
    destruct (StrMap.get n (services m)) as [svc|]; [|exact H].
    destruct (ServiceState_eqb (getState svc) RUNNING); [exact H|].
    match goal with |- context [calculateOrder ?M] =>
      pose proof (calculateOrder_agree M H) as C;
      destruct (calculateOrder M) as [[m1 t1] [[]|e]] end; exact C.
  - unfold tryCatch. rewrite startAll_eq.
    destruct (startEach_orders (startOrder m) m) as [A B].
    destruct (startEach (startOrder m) m) as [[m1 t1] [[]|e]]; outcome;
      unfold ordersAgree; cbn; rewrite A, B; exact H.
  - unfold stopAll. run_method.
    destruct (stopEach_orders "Failed to stop service" (stopOrder m) m) as [A B].
    destruct (stopEach _ _ m) as [[m1 t1] [[]|e]]; outcome;
      unfold ordersAgree; rewrite A, B; exact H.
  - unfold tryCatch, restartService, bind, get.
    destruct (StrMap.get n (services m)) as [svc|]; [|exact H].
    rewrite onService_eq. destruct (resultOf (restart svc)); exact H.
Qed.

Lemma mgrRun_agree : forall ops m,
  ordersAgree m -> ordersAgree (stateOf (mgrRun ops m)).
Proof.
  induction ops as [|op ops IH]; intros m H.
  - exact H.
  - cbn [mgrRun]. unfold bind.
    pose proof (mgrPerform_agree op m H) as H1.
    destruct (mgrPerform op m) as [[m1 t1] [[]|e]]; outcome; [|exact H1].
    specialize (IH m1 H1). destruct (mgrRun ops m1) as [[m2 t2] r2]. exact IH.
Qed.

Lemma stopAll_eq : forall m,
  NoDup (stopOrder m) ->
  resultOf (stopAll m) = Val tt /\
  traceOf (stopAll m) =
    ELog LInfo "Stopping all services in reverse dependency order..." "" ::
    flat_map (stopPart "Failed to stop service" m) (stopOrder m) ++
    [ELog LInfo "All services stopped" ""].
Proof.
  intros m ND. unfold stopAll. run_method.
  destruct (stopEach_spec "Failed to stop service" (stopOrder m) m ND) as (R & T & _).
  destruct (stopEach _ _ m) as [[m1 t1] r1]. outcome. subst. split; reflexivity.
Qed.

End OrderFacts.

Section ShutdownFacts.
Context {Impl Breaker : Type}.
Implicit Types s : @Initializer Impl Breaker.

Lemma callsOf_app : forall h t1 t2, callsOf h (t1 ++ t2) = callsOf h t1 ++ callsOf h t2.
Proof. intros. unfold callsOf. apply flat_map_app. Qed.

Lemma shutdownComponent_eq : forall c s,
  shutdownComponent c s =
  (withComponents
     (StrMap.set (cName c) (withCImpl (fst (cShutdown c (cImpl c))) c) (components s)) s,
   [ELog LDebug "Shutting down component" (cName c); ECall (cName c) HShutdown] ++
   match snd (cShutdown c (cImpl c)) with
   | StillPending => [EDelay 30000]
   | _ => []
   end,
   match snd (cShutdown c (cImpl c)) with
   | Resolves => Val tt
   | Rejects msg => Exc (mkExn PlainError msg)
   | StillPending => Exc (mkExn PlainError ("Shutdown timeout for " +++ cName c))
   end).
Proof.
  intros c s. unfold shutdownComponent. run_method.
  destruct (cShutdown c (cImpl c)) as [i [|msg|]]; reflexivity.
Qed.

Lemma shutdownEach_cons : forall n names s,
  shutdownEach (n :: names) s =
  if negb (StrSet.has n (initializedComponents s)) then shutdownEach names s
  else
    match StrMap.get n (components s) with
    | None => shutdownEach names s
    | Some c =>
        let s1 := stateOf (shutdownComponent c s) in
        let s2 :=
          match resultOf (shutdownComponent c s) with
          | Val _ => withInitializedSet (StrSet.delete n (initializedComponents s1)) s1
          | Exc _ => s1
          end in
        (stateOf (shutdownEach names s2),
         (traceOf (shutdownComponent c s) ++
          [match resultOf (shutdownComponent c s) with
           | Val _ => ELog LInfo "Component shutdown completed" n
           | Exc _ => ELog LError "Component shutdown failed" n
           end]) ++ traceOf (shutdownEach names s2),
         resultOf (shutdownEach names s2))
    end.
Proof.
  intros n names s. cbn [shutdownEach]. unfold bind at 1, get at 1.
  destruct (negb (StrSet.has n (initializedComponents s))).
  { destruct (shutdownEach names s) as [[? ?] ?]. reflexivity. }
  destruct (StrMap.get n (components s)) as [c|].
  2:{ destruct (shutdownEach names s) as [[? ?] ?]. reflexivity. }
  unfold bind at 1, tryCatch. unfold bind at 1.
  destruct (shutdownComponent c s) as [[s1 t1] [[]|e]]; outcome.
  - unfold bind at 1, modify, tell. cbv zeta.
    destruct (shutdownEach names _) as [[s3 t3] r3]. outcome.
    cbn [app]. reflexivity.
  - unfold tell. cbv zeta.
    destruct (shutdownEach names s1) as [[s3 t3] r3]. outcome. reflexivity.
Qed.

(** [shutdown]'s loop calls the [shutdown] of exactly the live components
    among the names it is given, in the order given. *)
Lemma shutdownEach_spec : forall names s,
  NoDup names -> wellKeyed s ->
  resultOf (shutdownEach names s) = Val tt /\
  callsOf HShutdown (traceOf (shutdownEach names s)) = filter (live s) names.
Proof.
  intros names. induction names as [|n names IH]; intros s ND WK.
  - split; reflexivity.
  - inversion ND as [|? ? Hn ND']; subst.
    rewrite shutdownEach_cons. cbn [filter]. unfold live at 1.
    destruct (StrSet.has n (initializedComponents s)) eqn:Hinit; cbn [negb andb];
      [|apply IH; assumption].
    unfold StrMap.has. destruct (StrMap.get n (components s)) as [c|] eqn:Hget;
      [|apply IH; assumption].
    pose proof (WK n c Hget) as Hname.
    rewrite shutdownComponent_eq. outcome. cbv zeta.
    set (s1 := withComponents
                 (StrMap.set (cName c) (withCImpl (fst (cShutdown c (cImpl c))) c)
                    (components s)) s).
    assert (wellKeyed s1) as WK1.
    { intros k c' Hk. unfold s1 in Hk. cbn in Hk.
      destruct (String.eqb (cName c) k) eqn:E.
      - apply String.eqb_eq in E. subst k. rewrite StrMap_get_set_same in Hk.
        injection Hk as <-. reflexivity.
      - rewrite StrMap_get_set_other in Hk; [apply WK; exact Hk|].
        intros Heq. rewrite Heq, String.eqb_refl in E. discriminate. }
    assert (forall k, k <> n -> StrMap.has k (components s1) = StrMap.has k (components s))
      as Hother.
    { intros k Hk. unfold StrMap.has, s1. cbn.
      rewrite StrMap_get_set_other; [reflexivity|congruence]. }
    match goal with |- context [shutdownEach names ?S2] => set (s2 := S2) end.
    assert (wellKeyed s2) as WK2.
    { unfold s2. destruct (snd (cShutdown c (cImpl c))); exact WK1. }
    assert (forall k, In k names -> live s2 k = live s k) as Hlive.
    { intros k Hk. assert (k <> n) as Hkn by (intros ->; exact (Hn Hk)).
      unfold live. f_equal.
      - unfold s2. destruct (snd (cShutdown c (cImpl c))); cbn; try reflexivity.
        destruct (StrSet.has k (initializedComponents s)) eqn:Hk1.
        + apply StrSet_has_In. apply StrSet_delete_In. split; [|exact Hkn].
          apply StrSet_has_In. exact Hk1.
        + apply StrSet_has_not_In. intros H. apply StrSet_delete_In in H.
          apply StrSet_has_not_In in Hk1. apply Hk1. apply H.
      - unfold s2. destruct (snd (cShutdown c (cImpl c))); apply Hother; exact Hkn. }
    destruct (IH s2 ND' WK2) as [R C]. split; [exact R|].
    rewrite !callsOf_app, C, Hname.
    assert (filter (live s2) names = filter (live s) names) as ->.
    { apply filter_ext_in. exact Hlive. }
    destruct (snd (cShutdown c (cImpl c))); cbn; rewrite String.eqb_refl || idtac;
      reflexivity.
Qed.

Lemma shutdown_calls : forall s,
  initialized s = true -> shutdownInProgress s = false ->
  NoDup (initializationOrder s) -> wellKeyed s ->
  callsOf HShutdown (traceOf (shutdown s)) =
  filter (live s) (rev (initializationOrder s)).
Proof.
  intros s Hi Hp ND WK. unfold shutdown. run_method. rewrite Hi, Hp. cbn [negb orb].
  destruct (shutdownEach_spec (shutdownOrder s) (withShutdownInProgress true s))
    as [R C]; [apply NoDup_rev; exact ND|exact WK|].
  destruct (shutdownEach _ _) as [[s1 t1] r1]. outcome. subst r1.
  cbn [app fst snd]. change (callsOf HShutdown (ELog LInfo "Starting backend shutdown..." ""
                        :: t1 ++ [EEmit "backend:shutdown" "";
                                  ELog LInfo "Backend shutdown completed" ""]))
    with (callsOf HShutdown (t1 ++ [EEmit "backend:shutdown" "";
                                    ELog LInfo "Backend shutdown completed" ""])).
  rewrite callsOf_app, C. cbn. rewrite app_nil_r. reflexivity.
Qed.

End ShutdownFacts.

(** C5.  In every state the manager reaches from its constructor,
    whatever was registered, unregistered, started or stopped on the way and
    whether or not a call failed, the stop order is the reverse of the start
    order, and [stopAll()] goes through the services in that reversed order,
    stopping those that are running.  [shutdown()] of the initializer goes
    through the reversed initialization order and shuts down the components
    that are initialized. *)
Theorem stop_order_reverses_start_order :
  (forall Impl (ops : list (@MgrOp Impl)),
     let m := stateOf (mgrRun ops newManager) in
     stopOrder m = rev (startOrder m) /\
     traceOf (stopAll m) =
       ELog LInfo "Stopping all services in reverse dependency order..." "" ::
       flat_map (stopPart "Failed to stop service" m) (rev (startOrder m)) ++
       [ELog LInfo "All services stopped" ""]) /\
  (forall Impl Breaker (s : @Initializer Impl Breaker),
     shutdownOrder s = rev (initializationOrder s) /\
     (initialized s = true -> shutdownInProgress s = false ->
      NoDup (initializationOrder s) -> wellKeyed s ->
      callsOf HShutdown (traceOf (shutdown s)) =
      filter (live s) (rev (initializationOrder s)))).
Proof.
  split.
  - intros Impl ops m.
    assert (ordersAgree m) as [A ND].
    { apply mgrRun_agree. split; [reflexivity|constructor]. }
    split; [exact A|].
    rewrite <- A. apply stopAll_eq. rewrite A. apply NoDup_rev. exact ND.
  - intros Impl Breaker s. split; [reflexivity|]. apply shutdown_calls.
Qed.

Lemma stop_order_reverses_start_order_witness :
  (stopOrder managerABC = rev (startOrder managerABC) /\
   movedTo STOPPING (traceOf (stopAll (stateOf (startAll managerABC)))) = ["C"; "B"; "A"]) /\
  callsOf HShutdown (traceOf (shutdown initializedSample)) =
    filter (live initializedSample) (rev (initializationOrder initializedSample)) /\
  initializationOrder initializedSample = ["logger"; "eventBus"; "config"] /\
  callsOf HShutdown (traceOf (shutdown initializedSample)) = ["config"; "eventBus"; "logger"].
Proof.
  split; [split|split; [|split]].
  - apply (proj1 stop_order_reverses_start_order nat
             [MRegister (plainService "A" []);
              MRegister (plainService "B" ["A"]);
              MRegister (plainService "C" ["B"])]).
  - reflexivity.
  - apply (proj2 (proj2 stop_order_reverses_start_order nat unit initializedSample)).
    + reflexivity.
    + reflexivity.
    + vm_compute. repeat constructor; simpl; intuition discriminate.
    + intros n c H.
      assert (components initializedSample =
              [("eventBus", withCImpl 1 (sampleComponent "eventBus" ["logger"]));
               ("config", withCImpl 1 (sampleComponent "config" ["logger"]));
               ("logger", withCImpl 1 (sampleComponent "logger" []))]) as E
        by (vm_compute; reflexivity).
      rewrite E in H. cbn [StrMap.get] in H.
      repeat match type of H with
             | (if String.eqb n ?k then _ else _) = _ =>
                 destruct (String.eqb n k) eqn:?;
                 [injection H as <-; symmetry; apply String.eqb_eq; assumption|]
             end.
      discriminate.
  - reflexivity.
  - reflexivity.
Defined.

(** ** Component initializer *)

(** Brings two traces to the same bracketing. *)
Ltac same_trace :=
  cbn [app]; rewrite ?app_nil_r, <- ?app_assoc; cbn [app]; reflexivity.

Section InitializerFacts.
Context {Impl Breaker : Type}.
Variable guarded : Breaker -> nat -> (Impl -> Impl * option string) -> Impl ->
                   Breaker * Impl * option string.
Variable eventBusDelivers : bool.
Implicit Types s : @Initializer Impl Breaker.

Local Abbreviation keysOf s := (StrMap.keys (components s)).

Lemma steady_refl : forall s, steady s s.
Proof. intros s. repeat split. auto. Qed.

Lemma steady_trans : forall s1 s2 s3, steady s1 s2 -> steady s2 s3 -> steady s1 s3.
Proof.
  intros s1 s2 s3 (A1 & A2 & A3) (B1 & B2 & B3).
  repeat split; [auto|congruence|congruence].
Qed.

(** Replacing a component by itself with a new private state. *)
Lemma touch_steady : forall s n c i,
  StrMap.get n (components s) = Some c ->
  steady s (withComponents (StrMap.set n (withCImpl i c) (components s)) s).
Proof.
  intros s n c i Hget. split; [|split].
  - intros WK k c' Hk. cbn in Hk. destruct (String.eqb n k) eqn:E.
    + apply String.eqb_eq in E. subst k. rewrite StrMap_get_set_same in Hk.
      injection Hk as <-. cbn. exact (WK n c Hget).
    + rewrite StrMap_get_set_other in Hk; [exact (WK k c' Hk)|].
      intros Heq. rewrite Heq, String.eqb_refl in E. discriminate.
  - cbn. apply StrMap_keys_set_present. exact (StrMap_get_some_In n c _ Hget).
  - reflexivity.
Qed.

Lemma initializeComponent_frame : forall s n c,
  wellKeyed s -> StrMap.get n (components s) = Some c ->
  steady s (stateOf (initializeComponent guarded c s)) /\
  initializedComponents (stateOf (initializeComponent guarded c s)) =
    initializedComponents s.
Proof.
  intros s n c WK Hget. pose proof (WK n c Hget) as Hname.
  unfold initializeComponent. run_method.
  destruct (StrMap.get (cName c) (circuitBreakers s)) as [b|].
  - destruct (guarded b (if cIsRequired c then 3 else 1) (cInitialize c) (cImpl c))
      as [[b' i] [msg|]]; cbn [fst snd]; rewrite Hname;
      (split; [|reflexivity]);
      destruct (touch_steady s n c i Hget) as (A & B & C);
      (split; [|split]); [exact A|exact B|exact C|exact A|exact B|exact C].
  - cbn [fst snd]. split; [apply steady_refl|reflexivity].
Qed.

Lemma initializeEach_cons : forall n names result s,
  initializeEach guarded (n :: names) result s =
  match StrMap.get n (components s) with
  | None => initializeEach guarded names result s
  | Some c =>
      match initializeComponent guarded c s with
      | (s1, t1, Val _) =>
          let s2 := withInitializedSet (StrSet.add n (initializedComponents s1)) s1 in
          let o := initializeEach guarded names
                     (mkInitResult (success result) (resultInitialized result ++ [n])
                        (failedComponents result) (healthStatus result)) s2 in
          (stateOf o,
           (t1 ++ [ELog LInfo "Component initialized successfully" n]) ++ traceOf o,
           resultOf o)
      | (s1, t1, Exc e) =>
          if cIsRequired c
          then (s1, t1 ++ [ELog LError "Component initialization failed" n],
                Exc (mkExn InitializationError
                       ("Required component " +++ n +++
                        " failed to initialize: " +++ exnMessage e)))
          else
            let o := initializeEach guarded names
                       (mkInitResult (success result) (resultInitialized result)
                          (failedComponents result ++
                             [mkFailed n (exnMessage e) (cIsRequired c)])
                          (healthStatus result)) s1 in
            (stateOf o,
             (t1 ++ [ELog LError "Component initialization failed" n]) ++ traceOf o,
             resultOf o)
      end
  end.
Proof.
  intros n names result s. cbn [initializeEach]. unfold bind at 1, get at 1.
  destruct (StrMap.get n (components s)) as [c|].
  2:{ destruct (initializeEach guarded names result s) as [[? ?] ?]. reflexivity. }
  unfold bind at 1, tryCatch. unfold bind at 1.
  destruct (initializeComponent guarded c s) as [[s1 t1] [[]|e]].
  - unfold bind at 1, modify at 1. unfold bind at 1, tell at 1, ret at 1. cbv zeta.
    destruct (initializeEach guarded names _ _) as [[s3 t3] r3]. outcome.
    same_trace.
  - unfold bind at 1, tell at 1. destruct (cIsRequired c).
    + unfold throw. same_trace.
    + unfold ret at 1. cbv zeta.
      destruct (initializeEach guarded names _ _) as [[s3 t3] r3]. outcome.
      same_trace.
Qed.

(** The loop of [initialize]: it is steady, adds to the initialized set
    only names it is given that are registered, and when it returns normally
    no component it reports as failed is a required one. *)
Lemma initializeEach_frame : forall names result s,
  wellKeyed s ->
  steady s (stateOf (initializeEach guarded names result s)) /\
  (forall x, In x (initializedComponents (stateOf (initializeEach guarded names result s))) ->
     In x (initializedComponents s) \/ In x (keysOf s)).
Proof.
  intros names. induction names as [|n names IH]; intros result s WK.
  - split; [apply steady_refl|]. intros x Hx. left. exact Hx.
  - rewrite initializeEach_cons.
    destruct (StrMap.get n (components s)) as [c|] eqn:Hget; [|apply IH; exact WK].
    destruct (initializeComponent_frame s n c WK Hget) as [St Hi].
    destruct (initializeComponent guarded c s) as [[s1 t1] [[]|e]]; outcome.
    + cbv zeta. outcome.
      set (s2 := withInitializedSet (StrSet.add n (initializedComponents s1)) s1).
      assert (wellKeyed s2) as WK2 by (apply St; exact WK).
      destruct (IH (mkInitResult (success result) (resultInitialized result ++ [n])
                      (failedComponents result) (healthStatus result)) s2 WK2)
        as [St2 Hi2].
      split.
      * apply steady_trans with s2; [|exact St2].
        destruct St as (A & B & C). repeat split; assumption.
      * intros x Hx. destruct (Hi2 x Hx) as [H|H].
        -- cbn in H. apply StrSet_add_In in H. destruct H as [->|H].
           ++ right. exact (StrMap_get_some_In n c _ Hget).
           ++ left. rewrite <- Hi. exact H.
        -- right. destruct St as (_ & B & _). cbn in H. rewrite <- B. exact H.
    + destruct (cIsRequired c).
      * outcome. split; [exact St|]. intros x Hx. left. rewrite <- Hi. exact Hx.
      * cbv zeta. outcome.
        assert (wellKeyed s1) as WK1 by (apply St; exact WK).
        destruct (IH (mkInitResult (success result) (resultInitialized result)
                        (failedComponents result ++ [mkFailed n (exnMessage e) false])
                        (healthStatus result)) s1 WK1) as [St2 Hi2].
        split; [exact (steady_trans _ _ _ St St2)|].
        intros x Hx. destruct (Hi2 x Hx) as [H|H].
        -- left. rewrite <- Hi. exact H.
        -- right. destruct St as (_ & B & _). rewrite <- B. exact H.
Qed.

Lemma touched_steady : forall s n f,
  steady s (touched s n f) /\
  initializedComponents (touched s n f) = initializedComponents s.
Proof.
  intros s n f. unfold touched.
  destruct (StrMap.get n (components s)) as [c|] eqn:Hget.
  - split; [apply touch_steady; assumption|reflexivity].
  - split; [apply steady_refl|reflexivity].
Qed.

Lemma checkHealthEach_cons : forall n names hs s,
  exists hs' t,
    checkHealthEach (n :: names) hs s =
    let o := checkHealthEach names hs'
               (touched s n (fun c => fst (cGetHealthStatus c (cImpl c)))) in
    (stateOf o, t ++ traceOf o, resultOf o).
Proof.
  intros n names hs s. cbn [checkHealthEach]. unfold touched, bind at 1, get at 1.
  destruct (StrMap.get n (components s)) as [c|].
  2:{ exists hs, []. destruct (checkHealthEach names hs s) as [[? ?] ?]. reflexivity. }
  unfold bind at 1, tell at 1.
  destruct (cGetHealthStatus c (cImpl c)) as [i [h|msg]]; cbn [fst].
  - exists (StrMap.set n h hs).
    exists (ECall n HGetHealthStatus ::
            (if healthy h then []
             else [ELog LWarn "Component unhealthy after initialization" n])).
    unfold bind at 1, modify at 1. unfold bind at 1.
    destruct (healthy h); unfold ret, tell; cbv zeta;
      destruct (checkHealthEach names _ _) as [[? ?] ?]; outcome;
      rewrite ?app_nil_r; cbn [app]; reflexivity.
  - exists (StrMap.set n (mkHealth false (Some msg)) hs).
    exists [ECall n HGetHealthStatus; ELog LError "Health check failed for component" n].
    unfold bind at 1, modify at 1. unfold bind at 1, tell at 1. cbv zeta.
    destruct (checkHealthEach names _ _) as [[? ?] ?]; outcome.
    rewrite ?app_nil_r; cbn [app]; reflexivity.
Qed.

(** The health checks after the loop never raise and leave the
    initialized set alone. *)
Lemma checkHealthEach_frame : forall names hs s,
  steady s (stateOf (checkHealthEach names hs s)) /\
  initializedComponents (stateOf (checkHealthEach names hs s)) = initializedComponents s /\
  raised (resultOf (checkHealthEach names hs s)) = false.
Proof.
  intros names. induction names as [|n names IH]; intros hs s.
  - split; [apply steady_refl|]. split; reflexivity.
  - destruct (checkHealthEach_cons n names hs s) as (hs' & t & ->). cbv zeta. outcome.
    destruct (touched_steady s n (fun c => fst (cGetHealthStatus c (cImpl c))))
      as [St Hi].
    destruct (IH hs' (touched s n (fun c => fst (cGetHealthStatus c (cImpl c)))))
      as (St2 & Hi2 & R).
    split; [exact (steady_trans _ _ _ St St2)|]. split; [congruence|exact R].
Qed.

Lemma cleanupEach_cons : forall n names s,
  exists t,
    cleanupEach (n :: names) s =
    let o := cleanupEach names (touched s n (fun c => fst (cShutdown c (cImpl c)))) in
    (stateOf o, t ++ traceOf o, resultOf o).
Proof.
  intros n names s. cbn [cleanupEach]. unfold touched, bind at 1, get at 1.
  destruct (StrMap.get n (components s)) as [c|].
  2:{ exists []. destruct (cleanupEach names s) as [[? ?] ?]. reflexivity. }
  unfold bind at 1, tell at 1.
  destruct (cShutdown c (cImpl c)) as [i r]; cbn [fst].
  unfold bind at 1, modify at 1. unfold bind at 1.
  exists [ECall n HShutdown;
          match r with
          | Rejects _ => ELog LError "Cleanup failed for component" n
          | _ => ELog LDebug "Cleaned up component" n
          end].
  destruct r; unfold tell at 1; cbv zeta;
    destruct (cleanupEach names _) as [[? ?] ?]; outcome;
    rewrite ?app_nil_r; cbn [app]; reflexivity.
Qed.

Lemma cleanupEach_frame : forall names s,
  steady s (stateOf (cleanupEach names s)) /\
  raised (resultOf (cleanupEach names s)) = false.
Proof.
  intros names. induction names as [|n names IH]; intros s.
  - split; [apply steady_refl|reflexivity].
  - destruct (cleanupEach_cons n names s) as (t & ->). cbv zeta. outcome.
    destruct (touched_steady s n (fun c => fst (cShutdown c (cImpl c)))) as [St _].
    destruct (IH (touched s n (fun c => fst (cShutdown c (cImpl c))))) as (St2 & R).
    split; [exact (steady_trans _ _ _ St St2)|exact R].
Qed.

(** The cleanup after a failed [initialize] never raises and empties the
    initialized set. *)
Lemma cleanup_frame : forall s,
  steady s (stateOf (cleanupPartialInitialization s)) /\
  initializedComponents (stateOf (cleanupPartialInitialization s)) = [] /\
  resultOf (cleanupPartialInitialization s) = Val tt.
Proof.
  intros s. unfold cleanupPartialInitialization. run_method.
  destruct (cleanupEach_frame (initializedComponents s) s) as [St R].
  destruct (cleanupEach (initializedComponents s) s) as [[s1 t1] [[]|e]]; outcome;
    [|discriminate].
  cbn [fst snd]. split; [|split; reflexivity].
  destruct St as (A & B & C). repeat split; assumption.
Qed.

Lemma verifySystemIntegration_eq : forall s,
  verifySystemIntegration eventBusDelivers s =
  match missingCritical s with
  | [] =>
      (s, ELog LDebug "Verifying system integration..." "" ::
          EEmit "backend:integration_test" "" ::
          (if eventBusDelivers then []
           else [EDelay 5000; ELog LWarn "Event bus connectivity test failed" ""]) ++
          [ELog LInfo "System integration verification completed" ""], Val tt)
  | _ :: _ =>
      (s, [ELog LDebug "Verifying system integration..." ""],
       Exc (criticalMissing (missingCritical s)))
  end.
Proof.
  intros s. unfold verifySystemIntegration, testEventBusConnectivity. run_method.
  destruct (missingCritical s) as [|x l]; cbn [List.length Nat.ltb Nat.leb].
  - destruct eventBusDelivers; reflexivity.
  - reflexivity.
Qed.

Lemma missingCritical_ext : forall s s',
  initializedComponents s' = initializedComponents s ->
  missingCritical s' = missingCritical s.
Proof. intros s s' H. unfold missingCritical. rewrite H. reflexivity. Qed.

(** The post-initialization pass raises exactly when a critical component
    is missing from the initialized set. *)
Lemma performPost_spec : forall result s,
  steady s (stateOf (performPostInitializationChecks eventBusDelivers result s)) /\
  initializedComponents
    (stateOf (performPostInitializationChecks eventBusDelivers result s)) =
    initializedComponents s /\
  match missingCritical s with
  | [] => raised (resultOf (performPostInitializationChecks eventBusDelivers result s))
          = false
  | _ :: _ =>
      resultOf (performPostInitializationChecks eventBusDelivers result s) =
      Exc (criticalMissing (missingCritical s))
  end.
Proof.
  intros result s. unfold performPostInitializationChecks. run_method.
  destruct (checkHealthEach_frame (initializedComponents s) (healthStatus result) s)
    as (St & Hi & R).
  destruct (checkHealthEach _ _ s) as [[s1 t1] [hs|e]]; outcome; [|discriminate].
  rewrite verifySystemIntegration_eq, (missingCritical_ext s s1 Hi).
  destruct (missingCritical s); cbn [fst snd]; repeat split; try apply St; auto.
Qed.

Lemma initialize_eq : forall s,
  initialized s = false ->
  initialize guarded eventBusDelivers s =
  match (initializeBody guarded eventBusDelivers) s with
  | (s1, t1, Val r) => (s1, ELog LInfo "Starting backend initialization..." "" :: t1, Val r)
  | (s1, t1, Exc e) =>
      (stateOf (cleanupPartialInitialization s1),
       ELog LInfo "Starting backend initialization..." "" :: t1 ++
         ELog LError "Backend initialization failed" "" ::
         traceOf (cleanupPartialInitialization s1),
       Exc e)
  end.
Proof.
  intros s Hi. unfold initialize. unfold bind at 1, get at 1. rewrite Hi.
  unfold bind at 1, tell at 1. unfold tryCatch. 
  destruct ((initializeBody guarded eventBusDelivers) s) as [[s1 t1] [r|e]]; [reflexivity|].
  unfold bind at 1, tell at 1. unfold bind at 1.
  destruct (cleanup_frame s1) as (_ & _ & R).
  destruct (cleanupPartialInitialization s1) as [[s2 t2] r2]. outcome. subst r2.
  unfold throw. cbn [app]. rewrite app_nil_r. reflexivity.
Qed.

Lemma initializeBody_eq : forall s,
  (initializeBody guarded eventBusDelivers) s =
  match initializeComponents guarded s with
  | (s1, t1, Exc e) => (s1, t1, Exc e)
  | (s1, t1, Val result) =>
      match performPostInitializationChecks eventBusDelivers result s1 with
      | (s2, t2, Exc e) => (s2, t1 ++ t2, Exc e)
      | (s2, t2, Val result2) =>
          if Nat.eqb (List.length (filter fatal (failedComponents result2))) 0
          then (withInitialized true s2,
                t1 ++ t2 ++ [EEmit "backend:initialized" "";
                             ELog LInfo "Backend initialization completed successfully" ""],
                Val (mkInitResult true (resultInitialized result2)
                       (failedComponents result2) (healthStatus result2)))
          else (s2, t1 ++ t2 ++ [EEmit "backend:initialization_failed" ""],
                Exc (mkExn InitializationError "Backend initialization failed"))
      end
  end.
Proof.
  intros s. unfold initializeBody. unfold bind at 1.
  destruct (initializeComponents guarded s) as [[s1 t1] [result|e]]; [|reflexivity].
  unfold bind at 1.
  destruct (performPostInitializationChecks eventBusDelivers result s1)
    as [[s2 t2] [result2|e]]; [|reflexivity].
  destruct (Nat.eqb _ 0); run_method; cbn [fst snd app]; rewrite ?app_nil_r; reflexivity.
Qed.

(** C8.  Suppose the per-component loop of [initialize()] came to its end
    without throwing.  If logger, config or eventBus is then absent from the
    initialized set, [initialize()] raises an InitializationError naming the
    missing ones -- whatever the loop reported, and also when it reported no
    failed component at all. *)
Theorem missing_critical_component_is_fatal : forall s result,
  initialized s = false ->
  resultOf (initializeComponents guarded s) = Val result ->
  missingCritical (stateOf (initializeComponents guarded s)) <> [] ->
  resultOf (initialize guarded eventBusDelivers s) =
    Exc (mkExn InitializationError
           ("Critical components not initialized: " +++
            String.concat ", "
              (missingCritical (stateOf (initializeComponents guarded s))))).
Proof.
  intros s result Hi Hloop Hmiss.
  rewrite (initialize_eq s Hi), initializeBody_eq.
  destruct (initializeComponents guarded s) as [[s1 t1] r1]. outcome. subst r1.
  destruct (performPost_spec result s1) as (_ & _ & Hpost).
  destruct (performPostInitializationChecks eventBusDelivers result s1)
    as [[s2 t2] r2]. outcome.
  destruct (missingCritical s1) as [|x l] eqn:Hm; [congruence|].
  subst r2. reflexivity.
Qed.

Lemma initializeComponents_eq : forall s,
  initializeComponents guarded s =
  match calculateInitializationOrder s with
  | Done d =>
      let o := initializeEach guarded (order d) (mkInitResult false [] [] StrMap.empty)
                 (withOrder (order d) s) in
      (stateOf o,
       warnings d ++ ELog LInfo "Initialization order calculated" "" :: traceOf o,
       resultOf o)
  | Thrown e => (s, [], Exc e)
  | OutOfFuel => (s, [], Val (mkInitResult false [] [] StrMap.empty))
  end.
Proof.
  intros s. unfold initializeComponents. unfold bind at 1, get at 1.
  destruct (calculateInitializationOrder s) as [d|e|]; [|reflexivity|reflexivity].
  unfold bind at 1. unfold bind at 1, modify at 1. unfold bind at 1, tell at 1.
  cbv zeta. destruct (initializeEach guarded (order d) _ _) as [[s1 t1] r1]. outcome.
  cbn [app]. reflexivity.
Qed.

Lemma initializeComponents_frame : forall s,
  wellKeyed s ->
  steady s (stateOf (initializeComponents guarded s)) /\
  (forall x, In x (initializedComponents (stateOf (initializeComponents guarded s))) ->
     In x (initializedComponents s) \/ In x (keysOf s)).
Proof.
  intros s WK. rewrite initializeComponents_eq.
  destruct (calculateInitializationOrder s) as [d|e|].
  - cbv zeta. outcome.
    exact (initializeEach_frame (order d) (mkInitResult false [] [] StrMap.empty)
             (withOrder (order d) s) WK).
  - outcome. split; [apply steady_refl|auto].
  - outcome. split; [apply steady_refl|auto].
Qed.

Lemma missingCritical_config : forall s,
  ~ In "config" (initializedComponents s) -> In "config" (missingCritical s).
Proof.
  intros s H. unfold missingCritical, criticalComponents. apply filter_In.
  split; [right; left; reflexivity|].
  apply StrSet_has_not_In in H. rewrite H. reflexivity.
Qed.

(** With no component named config, [initialize] cannot succeed. *)
Lemma initialize_without_config : forall s,
  wellKeyed s -> initialized s = false ->
  ~ In "config" (keysOf s) -> ~ In "config" (initializedComponents s) ->
  raised (resultOf (initialize guarded eventBusDelivers s)) = true /\
  steady s (stateOf (initialize guarded eventBusDelivers s)) /\
  initializedComponents (stateOf (initialize guarded eventBusDelivers s)) = [] /\
  In "config" (missingCritical (stateOf (initializeComponents guarded s))).
Proof.
  intros s WK Hi Hk Hc.
  rewrite (initialize_eq s Hi), initializeBody_eq.
  destruct (initializeComponents_frame s WK) as [St1 Hin1].
  destruct (initializeComponents guarded s) as [[s1 t1] r1]. outcome.
  assert (~ In "config" (initializedComponents s1)) as Hc1.
  { intros H. destruct (Hin1 _ H); contradiction. }
  pose proof (missingCritical_config s1 Hc1) as Hm.
  destruct r1 as [result|e].
  - destruct (performPost_spec result s1) as (St2 & _ & Hpost).
    destruct (performPostInitializationChecks eventBusDelivers result s1)
      as [[s2 t2] r2]. outcome.
    destruct (missingCritical s1) as [|x l]; [contradiction|].
    subst r2. destruct (cleanup_frame s2) as (St3 & I3 & _). outcome.
    split; [reflexivity|]. split; [|split; [exact I3|exact Hm]].
    exact (steady_trans _ _ _ St1 (steady_trans _ _ _ St2 St3)).
  - destruct (cleanup_frame s1) as (St3 & I3 & _). outcome.
    split; [reflexivity|]. split; [|split; [exact I3|exact Hm]].
    exact (steady_trans _ _ _ St1 St3).
Qed.

Lemma registerComponent_frame : forall c s,
  wellKeyed s ->
  wellKeyed (stateOf (registerComponent c s)) /\
  initialized (stateOf (registerComponent c s)) = initialized s /\
  initializedComponents (stateOf (registerComponent c s)) = initializedComponents s /\
  resultOf (registerComponent c s) = Val tt /\
  (forall k, In k (keysOf (stateOf (registerComponent c s))) ->
     k = cName c \/ In k (keysOf s)).
Proof.
  intros c s WK. unfold registerComponent. run_method. cbn [fst snd].
  split; [|repeat split].
  - intros k c' Hk. cbn in Hk. destruct (String.eqb (cName c) k) eqn:E.
    + apply String.eqb_eq in E. subst k. rewrite StrMap_get_set_same in Hk.
      injection Hk as <-. reflexivity.
    + rewrite StrMap_get_set_other in Hk; [exact (WK k c' Hk)|].
      intros Heq. rewrite Heq, String.eqb_refl in E. discriminate.
  - intros k Hk. cbn in Hk. apply StrMap_get_In in Hk. unfold StrMap.has in Hk.
    destruct (String.eqb (cName c) k) eqn:E.
    + left. symmetry. apply String.eqb_eq. exact E.
    + right. rewrite StrMap_get_set_other in Hk.
      * apply StrMap_get_In. exact Hk.
      * intros Heq. rewrite Heq, String.eqb_refl in E. discriminate.
Qed.

End InitializerFacts.

Lemma missing_critical_component_is_fatal_witness :
  let s := sampleInitializer [("logger", []); ("eventBus", ["logger"])] in
  failedComponents
    (match resultOf (initializeComponents onceGuarded s) with
     | Val r => r
     | Exc _ => mkInitResult false [] [mkFailed "" "" true] []
     end) = [] /\
  resultOf (initialize onceGuarded true s) =
    Exc (mkExn InitializationError "Critical components not initialized: config").
Proof.
  intros s. split; [reflexivity|].
  apply (missing_critical_component_is_fatal onceGuarded true s
           (mkInitResult false ["logger"; "eventBus"] [] [])).
  - reflexivity.
  - reflexivity.
  - vm_compute. discriminate.
Defined.

(** ** Orchestrator *)

Section OrchestratorFacts.
Context {Impl Breaker : Type}.
Variable newBreaker : string -> Breaker.
Variable guarded : Breaker -> nat -> (Impl -> Impl * option string) -> Impl ->
                   Breaker * Impl * option string.
Variable eventBusDelivers : bool.
Variable loggerConfigure : Impl -> Impl * option string.
Variable loggerClose : Impl -> Impl * Settle.
Variable freshImpl : Impl.
Variable terminalHooks memoryHooks mcpHooks : Hooks Impl.
Variable coordinationConfig : CoordinationConfig.
Variable coordDoStart coordDoStop : Impl -> Impl * Settle.
Variable coordAfterStart coordBeforeStop coordAfterStop : Impl -> Impl * option string.
Variable coordDoHealthCheck : Impl -> Impl * (bool + string).

Local Abbreviation Orch := (BackendOrchestrator.Orchestrator Impl Breaker).
Local Abbreviation initializerOf := (BackendOrchestrator.initializer Impl Breaker).
Local Abbreviation corePhase :=
  (BackendOrchestrator.initializeCoreComponents Impl Breaker guarded eventBusDelivers
     loggerConfigure loggerClose freshImpl).
Local Abbreviation servicesPhase :=
  (BackendOrchestrator.createBackendServices Impl Breaker freshImpl terminalHooks
     memoryHooks mcpHooks coordinationConfig coordDoStart coordDoStop coordAfterStart
     coordBeforeStop coordAfterStop coordDoHealthCheck).
Local Abbreviation orchInitialize :=
  (BackendOrchestrator.initialize Impl Breaker guarded eventBusDelivers
     loggerConfigure loggerClose freshImpl terminalHooks memoryHooks mcpHooks
     coordinationConfig coordDoStart coordDoStop coordAfterStart coordBeforeStop
     coordAfterStop coordDoHealthCheck).
Local Abbreviation orchServeAll :=
  (BackendOrchestrator.serveAll Impl Breaker guarded eventBusDelivers
     loggerConfigure loggerClose freshImpl terminalHooks memoryHooks mcpHooks
     coordinationConfig coordDoStart coordDoStop coordAfterStart coordBeforeStop
     coordAfterStop coordDoHealthCheck).
Local Abbreviation orchServe :=
  (BackendOrchestrator.serve Impl Breaker guarded eventBusDelivers
     loggerConfigure loggerClose freshImpl terminalHooks memoryHooks mcpHooks
     coordinationConfig coordDoStart coordDoStop coordAfterStart coordBeforeStop
     coordAfterStop coordDoHealthCheck).
Local Abbreviation loggerComponent :=
  (BackendOrchestrator.createLoggerComponent Impl loggerConfigure loggerClose freshImpl).
Local Abbreviation eventBusComponent :=
  (BackendOrchestrator.createEventBusComponent Impl freshImpl).
Local Abbreviation withCore :=
  (afterCoreRegistration loggerConfigure loggerClose freshImpl).

Lemma newOrchestrator_neverReady :
  neverReady (BackendOrchestrator.newOrchestrator Impl Breaker newBreaker).
Proof.
  unfold neverReady. cbn. repeat split; auto. intros n c H. discriminate.
Qed.

Lemma withCore_frame : forall s : @Initializer Impl Breaker,
  wellKeyed s -> initialized s = false ->
  ~ In "config" (StrMap.keys (components s)) ->
  ~ In "config" (initializedComponents s) ->
  wellKeyed (withCore s) /\ initialized (withCore s) = false /\
  ~ In "config" (StrMap.keys (components (withCore s))) /\
  ~ In "config" (initializedComponents (withCore s)).
Proof.
  intros s WK Hi Hk Hc. unfold afterCoreRegistration.
  destruct (registerComponent_frame loggerComponent s WK) as (W1 & I1 & C1 & _ & K1).
  destruct (registerComponent_frame eventBusComponent _ W1) as (W2 & I2 & C2 & _ & K2).
  split; [exact W2|]. split; [congruence|]. split; [|congruence].
  intros H. destruct (K2 _ H) as [E|H1]; [discriminate|].
  destruct (K1 _ H1) as [E|H2]; [discriminate|contradiction].
Qed.

Lemma corePhase_eq : forall o,
  exists t,
    corePhase o =
    let r := initialize guarded eventBusDelivers (withCore (initializerOf o)) in
    (BackendOrchestrator.mkOrchestrator Impl Breaker (stateOf r)
       (BackendOrchestrator.serviceManager Impl Breaker o)
       (BackendOrchestrator.orchInitialized Impl Breaker o),
     t,
     match resultOf r with
     | Val res =>
         if negb (success res)
         then Exc (mkExn InitializationError "Core component initialization failed")
         else Val tt
     | Exc e => Exc e
     end).
Proof.
  intros o. unfold BackendOrchestrator.initializeCoreComponents, afterCoreRegistration.
  unfold BackendOrchestrator.onInitializer, registerComponent. run_method.
  cbn [fst snd components withComponents BackendOrchestrator.initializer].
  match goal with |- context [initialize guarded eventBusDelivers ?S] =>
    destruct (initialize guarded eventBusDelivers S) as [[s1 t1] [res|e]] end;
    cbn [fst snd].
  - destruct (negb (success res)); eexists; reflexivity.
  - eexists; reflexivity.
Qed.

(** [initialize] of the orchestrator fails in its first phase. *)
Lemma orchInitialize_fails : forall o,
  neverReady o ->
  resultOf (orchInitialize o) =
    Exc (mkExn InitializationError "Backend orchestration failed") /\
  neverReady (stateOf (orchInitialize o)) /\
  In "config"
    (missingCritical
       (stateOf (initializeComponents guarded (withCore (initializerOf o))))).
Proof.
  intros o (Ho & Hi & WK & Hk & Hc).
  destruct (withCore_frame _ WK Hi Hk Hc) as (W1 & I1 & K1 & C1).
  destruct (initialize_without_config guarded eventBusDelivers _ W1 I1 K1 C1)
    as (R & (W2 & K2 & I2) & C2 & M).
  split; [|split; [|exact M]].
  - unfold BackendOrchestrator.initialize. unfold bind at 1, get at 1. rewrite Ho.
    unfold bind at 1, tell at 1. unfold tryCatch. unfold bind at 1.
    destruct (corePhase_eq o) as [t ->]. cbv zeta.
    destruct (resultOf (initialize guarded eventBusDelivers (withCore (initializerOf o))))
      as [res|e]; [discriminate|].
    unfold bind at 1, tell at 1. unfold bind at 1.
    unfold BackendOrchestrator.cleanup. run_method.
    match goal with |- context [BackendOrchestrator.onManager ?I ?B ?m ?st] =>
      destruct (BackendOrchestrator.onManager I B m st) as [[o2 t2] [[]|e2]] end;
      reflexivity.
  - unfold BackendOrchestrator.initialize. unfold bind at 1, get at 1. rewrite Ho.
    unfold bind at 1, tell at 1. unfold tryCatch. unfold bind at 1.
    destruct (corePhase_eq o) as [t ->]. cbv zeta.
    destruct (resultOf (initialize guarded eventBusDelivers (withCore (initializerOf o))))
      as [res|e]; [discriminate|].
    unfold bind at 1, tell at 1. unfold bind at 1.
    unfold BackendOrchestrator.cleanup, BackendOrchestrator.onManager. run_method.
    match goal with |- context [stopAll ?m] =>
      destruct (stopAll m) as [[g2 t2] [[]|e2]] end;
      cbn [fst snd]; unfold neverReady, stateOf in *;
      cbn [BackendOrchestrator.orchInitialized BackendOrchestrator.initializer fst snd];
      (split; [exact Ho|]); (split; [congruence|]); (split; [apply W2; exact W1|]);
      (split; [rewrite K2; exact K1|rewrite C2; auto]).
Qed.

Lemma orchShutdown_noop : forall o,
  neverReady o ->
  BackendOrchestrator.shutdown Impl Breaker o = (o, [], Val tt).
Proof.
  intros o (Ho & _). unfold BackendOrchestrator.shutdown. run_method.
  rewrite Ho. reflexivity.
Qed.

Lemma orchServe_neverReady : forall r o,
  neverReady o ->
  exists o' t b, orchServe r o = (o', t, Val b) /\ neverReady o'.
Proof.
  intros r o H. destruct (orchInitialize_fails o H) as (R & N & _).
  destruct r; cbn [BackendOrchestrator.serve].
  - unfold tryCatch, bind, ret.
    destruct (orchInitialize o) as [[o1 t1] r1]. outcome. subst r1.
    eexists _, _, _. split; [reflexivity|exact N].
  - unfold tryCatch, bind, ret. rewrite (orchShutdown_noop o H).
    eexists _, _, _. split; [reflexivity|exact H].
  - unfold tryCatch, BackendOrchestrator.restart, ret.
    unfold bind at 1. unfold bind at 1, tell at 1. unfold bind at 1.
    rewrite (orchShutdown_noop o H).
    destruct (orchInitialize o) as [[o1 t1] r1]. outcome. subst r1.
    eexists _, _, _. split; [reflexivity|exact N].
Qed.

Lemma orchServeAll_neverReady : forall rs o,
  neverReady o -> neverReady (stateOf (orchServeAll rs o)).
Proof.
  induction rs as [|r rs IH]; intros o H.
  - exact H.
  - cbn [BackendOrchestrator.serveAll]. unfold bind.
    destruct (orchServe_neverReady r o H) as (o1 & t1 & b & -> & N).
    specialize (IH o1 N).
    destruct (orchServeAll rs o1) as [[o2 t2] r2]. exact IH.
Qed.

(** C9.  Whatever calls of [initialize], [shutdown] and [restart] an
    orchestrator has served since it was constructed, and whatever the
    logger, the circuit breakers and the services do, [initialize()] raises
    an InitializationError and the orchestrator stays uninitialized: the core
    phase registers logger and eventBus only, so config is missing from the
    initialized set when the integration check is reached. *)
Theorem orchestration_never_succeeds : forall rs,
  let fresh := BackendOrchestrator.newOrchestrator Impl Breaker newBreaker in
  let o := stateOf (orchServeAll rs fresh) in
  resultOf (orchInitialize o) =
    Exc (mkExn InitializationError "Backend orchestration failed") /\
  BackendOrchestrator.orchInitialized Impl Breaker (stateOf (orchInitialize o)) = false /\
  StrMap.keys (components (withCore (initializerOf fresh))) = ["logger"; "eventBus"] /\
  In "config"
    (missingCritical
       (stateOf (initializeComponents guarded (withCore (initializerOf o))))).
Proof.
  intros rs fresh o.
  assert (neverReady o) as H
    by (apply orchServeAll_neverReady, newOrchestrator_neverReady).
  destruct (orchInitialize_fails o H) as (R & N & M).
  split; [exact R|]. split; [apply N|]. split; [reflexivity|exact M].
Qed.

End OrchestratorFacts.

(** ** Lifecycle: entry checks, failures and hooks *)

Section LifecycleMore.
Context {Impl : Type}.
Implicit Types v : Service Impl.

(** X1.  [stop()] is a no-op with a warning when the service is STOPPED and
    raises a ServiceShutdownError when it is STOPPING.  In every other state
    -- STARTING and ERROR included -- it logs, moves to STOPPING first, and
    whether or not the rest succeeds the service holds no health timer
    afterwards. *)
Theorem stop_entry_guard : forall v,
  match state v with
  | STOPPED =>
      stop v = (v, [ELog LWarn "Service already stopped" (name v)], Val tt)
  | STOPPING =>
      stop v = (v, [], Exc (mkExn ServiceShutdownError
                              ("Service " +++ name v +++ " is already stopping")))
  | _ =>
      (exists rest,
         traceOf (stop v) =
           ELog LInfo "Stopping service" (name v)
             :: ESetState (name v) STOPPING :: rest) /\
      healthCheckHandle (stateOf (stop v)) = false
  end.
Proof.
  intros v.
  destruct (state v) eqn:E;
    try (apply stop_stopped; assumption);
    try (apply stop_stopping; assumption);
    (rewrite stop_proceeds by congruence; split;
     [ unfold stopBody; run_method; repeat (break_inner; simpl); eexists; reflexivity
     | apply (stopBody_summary v v); reflexivity ]).
Qed.

(** X2.  A [start()] that gets past its entry checks succeeds exactly when
    none of beforeStart, doStart, afterStart fails, a [doStart] still pending
    at the startup timeout counting as a failure.  Then it returns, the
    service is RUNNING and its metrics are as before, and of the events of
    the base class it emits "service:started", once.  Otherwise it raises a
    ServiceStartupError naming the service, the service is in ERROR, the
    error counter went up by one, the last error is the message of the first
    step that failed, and it emits "service:error", once.  Either way the
    private state is as the steps that ran left it. *)
Theorem start_outcome_recorded : forall v,
  state v <> RUNNING -> state v <> STARTING ->
  impl (stateOf (start v)) = stagesLeave (startStages v) (impl v) /\
  match stagesFailure (startStages v) (impl v) with
  | None =>
      resultOf (start v) = Val tt /\
      state (stateOf (start v)) = RUNNING /\
      metrics (stateOf (start v)) = metrics v /\
      serviceEvents (traceOf (start v)) = [("service:started", name v)]
  | Some cause =>
      resultOf (start v) =
        Exc (mkExn ServiceStartupError ("Failed to start service " +++ name v)) /\
      state (stateOf (start v)) = ERROR /\
      errorCount (metrics (stateOf (start v))) = (errorCount (metrics v) + 1)%Z /\
      restartCount (metrics (stateOf (start v))) = restartCount (metrics v) /\
      lastError (metrics (stateOf (start v))) = Some cause /\
      serviceEvents (traceOf (start v)) = [("service:error", name v)]
  end.
Proof.
  intros v H1 H2. rewrite start_proceeds by assumption.
  unfold stagesLeave, stagesFailure, startStages, optionalStage, racedStage.
  run_service.
  repeat (break_inner; simpl); simpl; repeat split; reflexivity.
Qed.

(** X3.  A [stop()] that gets past its entry checks succeeds exactly when
    none of beforeStop, doStop, afterStop fails, a [doStop] still pending at
    the shutdown timeout counting as a failure.  Then it returns, the
    service is STOPPED and its metrics are as before, and of the events of
    the base class it emits "service:stopped", once.  Otherwise it raises a
    ServiceShutdownError naming the service, the service is in ERROR, the
    error counter is one higher and the last error is the message of the
    first step that failed -- and then it emits no event of the base class
    at all, not even the "service:error" of a failed start. *)
Theorem stop_outcome_recorded : forall v,
  state v <> STOPPED -> state v <> STOPPING ->
  impl (stateOf (stop v)) = stagesLeave (stopStages v) (impl v) /\
  match stagesFailure (stopStages v) (impl v) with
  | None =>
      resultOf (stop v) = Val tt /\
      state (stateOf (stop v)) = STOPPED /\
      metrics (stateOf (stop v)) = metrics v /\
      serviceEvents (traceOf (stop v)) = [("service:stopped", name v)]
  | Some cause =>
      resultOf (stop v) =
        Exc (mkExn ServiceShutdownError ("Failed to stop service " +++ name v)) /\
      state (stateOf (stop v)) = ERROR /\
      errorCount (metrics (stateOf (stop v))) = (errorCount (metrics v) + 1)%Z /\
      restartCount (metrics (stateOf (stop v))) = restartCount (metrics v) /\
      lastError (metrics (stateOf (stop v))) = Some cause /\
      serviceEvents (traceOf (stop v)) = []
  end.
Proof.
  intros v H1 H2. rewrite stop_proceeds by assumption.
  unfold stagesLeave, stagesFailure, stopStages, optionalStage, racedStage.
  run_service.
  repeat (break_inner; simpl); simpl; repeat split; reflexivity.
Qed.

(** X4.  Past the entry checks, [start()] runs the subclass code in the
    order beforeStart, doStart, afterStart (the optional ones only if
    defined) and stops at the first that fails: the hooks it calls are those
    up to and including the first failing one, so that after a beforeStart
    that throws neither doStart nor afterStart is called; it returns only
    after all of them ran.  [stop()] does the same with beforeStop, doStop,
    afterStop. *)
Theorem hooks_run_in_order : forall v,
  (state v <> RUNNING -> state v <> STARTING ->
   hooksCalled (traceOf (start v)) = stagesRun (startStages v) (impl v) /\
   (resultOf (start v) = Val tt ->
    hooksCalled (traceOf (start v)) = startHooks (hooks v)) /\
   (forall g cause, beforeStart (hooks v) = Some g ->
      snd (g (impl v)) = Some cause ->
      hooksCalled (traceOf (start v)) = [HBeforeStart])) /\
  (state v <> STOPPED -> state v <> STOPPING ->
   hooksCalled (traceOf (stop v)) = stagesRun (stopStages v) (impl v) /\
   (resultOf (stop v) = Val tt ->
    hooksCalled (traceOf (stop v)) = stopHooks (hooks v)) /\
   (forall g cause, beforeStop (hooks v) = Some g ->
      snd (g (impl v)) = Some cause ->
      hooksCalled (traceOf (stop v)) = [HBeforeStop])).
Proof.
  intros v. split; intros H1 H2.
  - rewrite start_proceeds by assumption.
    unfold stagesRun, startStages, optionalStage, racedStage, startHooks, whenDefined.
    run_service.
    repeat (break_inner; simpl); simpl;
      (split; [reflexivity|]);
      (split; [intros R; first [reflexivity | discriminate R]|]);
      intros g0 cause G C; try discriminate G;
      injection G as <-;
      repeat match goal with E : _ = (_, _) |- _ => rewrite E in C end;
      simpl in C; first [reflexivity | discriminate C].
  - rewrite stop_proceeds by assumption.
    unfold stagesRun, stopStages, optionalStage, racedStage, stopHooks, whenDefined.
    run_service.
    repeat (break_inner; simpl); simpl;
      (split; [reflexivity|]);
      (split; [intros R; first [reflexivity | discriminate R]|]);
      intros g0 cause G C; try discriminate G;
      injection G as <-;
      repeat match goal with E : _ = (_, _) |- _ => rewrite E in C end;
      simpl in C; first [reflexivity | discriminate C].
Qed.

(** X5.  When [doStart] has not settled by the startup timeout (and
    beforeStart, if defined, did not throw), [start()] waits out the timeout
    and fails: the service is in ERROR, the last error is the timeout message
    naming the service, and afterStart is not run.  [stop()] treats a
    [doStop] that outlasts the shutdown timeout in the same way. *)
Theorem timeout_is_failure : forall v,
  (state v <> RUNNING -> state v <> STARTING ->
   (forall g, beforeStart (hooks v) = Some g -> snd (g (impl v)) = None) ->
   (forall i, snd (doStart (hooks v) i) = StillPending) ->
   resultOf (start v) =
     Exc (mkExn ServiceStartupError ("Failed to start service " +++ name v)) /\
   state (stateOf (start v)) = ERROR /\
   lastError (metrics (stateOf (start v))) =
     Some ("Service " +++ name v +++ " startup timeout") /\
   In (EDelay (startupTimeout (config v))) (traceOf (start v)) /\
   callsOf HAfterStart (traceOf (start v)) = []) /\
  (state v <> STOPPED -> state v <> STOPPING ->
   (forall g, beforeStop (hooks v) = Some g -> snd (g (impl v)) = None) ->
   (forall i, snd (doStop (hooks v) i) = StillPending) ->
   resultOf (stop v) =
     Exc (mkExn ServiceShutdownError ("Failed to stop service " +++ name v)) /\
   state (stateOf (stop v)) = ERROR /\
   lastError (metrics (stateOf (stop v))) =
     Some ("Service " +++ name v +++ " shutdown timeout") /\
   In (EDelay (shutdownTimeout (config v))) (traceOf (stop v)) /\
   callsOf HAfterStop (traceOf (stop v)) = []).
Proof.
  intros v. split; intros H1 H2 Hb Hd.
  - rewrite start_proceeds by assumption. run_service.
    destruct (beforeStart (hooks v)) as [g|] eqn:Eb; simpl.
    + specialize (Hb g eq_refl).
      destruct (g (impl v)) as [i [msg|]] eqn:Eg; simpl in Hb; [discriminate|].
      simpl. specialize (Hd i).
      destruct (doStart (hooks v) i) as [i' r] eqn:Ed. simpl in Hd. subst r.
      simpl. repeat split; auto 10.
    + specialize (Hd (impl v)).
      destruct (doStart (hooks v) (impl v)) as [i' r] eqn:Ed. simpl in Hd. subst r.
      simpl. repeat split; auto 10.
  - rewrite stop_proceeds by assumption. run_service. simpl.
    destruct (healthCheckHandle v); simpl;
    (destruct (beforeStop (hooks v)) as [g|] eqn:Eb; simpl;
     [ specialize (Hb g eq_refl);
       destruct (g (impl v)) as [i [msg|]] eqn:Eg; simpl in Hb; [discriminate|];
       simpl; specialize (Hd i);
       destruct (doStop (hooks v) i) as [i' r] eqn:Ed; simpl in Hd; subst r;
       simpl; repeat split; auto 10
     | specialize (Hd (impl v));
       destruct (doStop (hooks v) (impl v)) as [i' r] eqn:Ed; simpl in Hd; subst r;
       simpl; repeat split; auto 10 ]).
Qed.

End LifecycleMore.

(** ** Restart, health ticks and timers *)

Lemma eventsOf_app : forall t1 t2, eventsOf (t1 ++ t2) = eventsOf t1 ++ eventsOf t2.
Proof. intros. unfold eventsOf. apply flat_map_app. Qed.

Section RestartMore.
Context {Impl : Type}.
Implicit Types v : Service Impl.

(** How [start] and [stop] end, in any state. *)
Lemma start_result_state : forall v,
  (resultOf (start v) = Val tt /\ state (stateOf (start v)) = RUNNING) \/
  (raised (resultOf (start v)) = true /\ state (stateOf (start v)) <> RUNNING).
Proof.
  intros v.
  destruct (state v) eqn:E;
    try (rewrite start_running by assumption; left; split; [reflexivity|exact E]);
    try (rewrite start_starting by assumption; right; split;
         [reflexivity|outcome; rewrite E; discriminate]);
    (rewrite start_proceeds by congruence;
     destruct (startBody_summary v v eq_refl eq_refl eq_refl) as (_ & _ & _ & [O|B]);
     [ left; destruct O as (R & S & _); split; assumption
     | right; destruct B as (R & S & _); split;
       [rewrite R; reflexivity | rewrite S; discriminate] ]).
Qed.

Lemma stop_result_state : forall v,
  (resultOf (stop v) = Val tt /\ state (stateOf (stop v)) = STOPPED) \/
  (raised (resultOf (stop v)) = true /\ state (stateOf (stop v)) <> RUNNING).
Proof.
  intros v.
  destruct (state v) eqn:E;
    try (rewrite stop_stopped by assumption; left; split; [reflexivity|exact E]);
    try (rewrite stop_stopping by assumption; right; split;
         [reflexivity|outcome; rewrite E; discriminate]);
    (rewrite stop_proceeds by congruence;
     destruct (stopBody_summary v v eq_refl eq_refl eq_refl) as (_ & _ & _ & _ & _ & [O|B]);
     [ left; destruct O as (R & S & _); split; assumption
     | right; destruct B as (R & S & _); split;
       [rewrite R; reflexivity | rewrite S; discriminate] ]).
Qed.

(** X6.  [restart()] either returns, and then the service is RUNNING, its
    restart counter is one higher and "service:restarted" was emitted; or it
    raises a ServiceError naming the service, and then the service is not
    RUNNING and the counter is as before.  When the [stop()] inside it
    raises, nothing more is done: [start()] is not attempted. *)
Theorem restart_outcome : forall v,
  let failure := mkExn ServiceError ("Failed to restart service " +++ name v) in
  ((resultOf (restart v) = Val tt /\
    state (stateOf (restart v)) = RUNNING /\
    restartCount (metrics (stateOf (restart v))) = (restartCount (metrics v) + 1)%Z /\
    In ("service:restarted", name v) (eventsOf (traceOf (restart v))))
   \/
   (resultOf (restart v) = Exc failure /\
    state (stateOf (restart v)) <> RUNNING /\
    restartCount (metrics (stateOf (restart v))) = restartCount (metrics v))) /\
  (raised (resultOf (stop v)) = true ->
   restart v =
     (stateOf (stop v),
      ELog LInfo "Restarting service" (name v) :: traceOf (stop v),
      Exc failure)).
Proof.
  intros v failure.
  destruct (restart_any v) as ((Id & _) & _ & C).
  pose proof (stop_result_state v) as Hs.
  revert Id C. rewrite restart_eq. cbv zeta.
  destruct (stop v) as [[v1 t1] [u1|e1]] eqn:Es; outcome.
  - pose proof (start_result_state v1) as Ht.
    destruct (start v1) as [[v2 t2] [u2|e2]] eqn:Et; outcome; intros Id C.
    + split; [left|intros R; discriminate R].
      destruct Ht as [(_ & S2)|(R & _)]; [|discriminate R].
      destruct C as [(_ & C)|(R & _)]; [|discriminate R].
      destruct Id as (N & _). simpl in N.
      repeat split; try assumption.
      rewrite N. unfold eventsOf. apply in_flat_map.
      exists (EEmit "service:restarted" (name v)). split; [|left; reflexivity].
      right. apply in_or_app. right. right. apply in_or_app. right. left. reflexivity.
    + split; [right|intros R; discriminate R].
      destruct Ht as [(R & _)|(_ & S2)]; [discriminate R|].
      destruct C as [(R & _)|(_ & C)]; [discriminate R|].
      repeat split; assumption.
  - intros Id C. split; [right|intros _; reflexivity].
    destruct Hs as [(R & _)|(_ & S1)]; [discriminate R|].
    destruct C as [(R & _)|(_ & C)]; [discriminate R|].
    repeat split; assumption.
Qed.

(** X7.  A health tick does nothing beyond the check itself unless the
    check fails and auto-restart is enabled: the state and the metrics are as
    before, no restart is entered and no event is emitted. *)
Theorem healthTick_only_acts_on_failure : forall v h,
  resultOf (healthCheck v) = Val h ->
  h = true \/ enableAutoRestart (config v) = false ->
  healthTick v = (stateOf (healthCheck v), traceOf (healthCheck v), Val tt) /\
  state (stateOf (healthTick v)) = state v /\
  metrics (stateOf (healthTick v)) = metrics v /\
  restartsInvoked (traceOf (healthTick v)) = 0 /\
  eventsOf (traceOf (healthTick v)) = [].
Proof.
  intros v h Hh Hor.
  destruct (healthCheck_summary v) as (h' & R & _ & (_ & Cf & _) & St & Me & _ & _ & _ & Re & _).
  assert (Ev : eventsOf (traceOf (healthCheck v)) = []).
  { unfold healthCheck. run_method.
    destruct (state v); try reflexivity.
    destruct (doHealthCheck (hooks v) (impl v)) as [i [b|msg]]; reflexivity. }
  assert (E : healthTick v = (stateOf (healthCheck v), traceOf (healthCheck v), Val tt)).
  { rewrite healthTick_eq. revert Hh Cf.
    destruct (healthCheck v) as [[v1 t1] [b|e]]; outcome; intros Hh Cf; [|discriminate Hh].
    injection Hh as ->. rewrite Cf.
    destruct Hor as [-> | ->]; [reflexivity|].
    rewrite andb_false_r. reflexivity. }
  rewrite E. outcome. repeat split; try assumption.
  unfold restartsInvoked. rewrite Re. reflexivity.
Qed.

Lemma start_unmonitored : forall v, unmonitored v -> unmonitored (stateOf (start v)).
Proof.
  intros v (I & H & L). unfold unmonitored.
  destruct (state v) eqn:E;
    try (rewrite start_running by assumption; outcome; auto);
    try (rewrite start_starting by assumption; outcome; auto);
    (rewrite start_proceeds by congruence;
     destruct (startBody_summary v v eq_refl eq_refl eq_refl)
       as (((_ & Cf & _) & _) & _ & _ & [O|B]);
     rewrite Cf;
     [ destruct O as (_ & _ & _ & T); rewrite I in T; destruct T as (T1 & T2);
       rewrite T1, T2; auto
     | destruct B as (_ & _ & _ & T1 & T2); rewrite T1, T2; auto ]).
Qed.

Lemma stop_unmonitored : forall v, unmonitored v -> unmonitored (stateOf (stop v)).
Proof.
  intros v (I & H & L). unfold unmonitored.
  destruct (state v) eqn:E;
    try (rewrite stop_stopped by assumption; outcome; auto);
    try (rewrite stop_stopping by assumption; outcome; auto);
    (rewrite stop_proceeds by congruence;
     destruct (stopBody_summary v v eq_refl eq_refl eq_refl)
       as (((_ & Cf & _) & _) & _ & _ & T1 & T2 & _);
     rewrite Cf, T1, T2, H; auto).
Qed.

Lemma restart_unmonitored : forall v, unmonitored v -> unmonitored (stateOf (restart v)).
Proof.
  intros v U. rewrite restart_eq. cbv zeta.
  pose proof (stop_unmonitored v U) as U1.
  destruct (stop v) as [[v1 t1] [u1|e1]]; outcome; [|exact U1].
  pose proof (start_unmonitored v1 U1) as U2.
  destruct (start v1) as [[v2 t2] [u2|e2]]; outcome; exact U2.
Qed.

Lemma perform_unmonitored : forall op v,
  unmonitored v -> unmonitored (stateOf (perform op v)).
Proof.
  intros op v U. destruct op; cbn [perform].
  - rewrite tryCatch_swallow. apply start_unmonitored, U.
  - rewrite tryCatch_swallow. apply stop_unmonitored, U.
  - rewrite tryCatch_swallow. apply restart_unmonitored, U.
  - rewrite fire_eq. destruct U as (I & H & L). rewrite L. simpl.
    repeat split; assumption.
Qed.

(** X8.  With [healthCheckInterval <= 0] no health timer is ever created:
    a service that starts out without one never holds one, whatever is
    called on it, and a health tick has nothing to run. *)
Theorem monitoring_can_be_switched_off : forall ops v,
  unmonitored v ->
  unmonitored (stateOf (runOps ops v)) /\
  perform OpTick (stateOf (runOps ops v)) = (stateOf (runOps ops v), [], Val tt).
Proof.
  assert (A : forall ops (v : Service Impl),
            unmonitored v -> unmonitored (stateOf (runOps ops v))).
  { induction ops as [|op ops IH]; intros v U; [exact U|].
    rewrite runOps_cons. outcome. apply IH, perform_unmonitored, U. }
  intros ops v U. split; [apply A, U|].
  destruct (A ops v U) as (_ & _ & L).
  cbn [perform]. rewrite fire_eq, L. reflexivity.
Qed.

(** X9.  [start()] never clears a health timer the service already holds:
    with monitoring on, a successful start creates a timer on top of those
    alive.  If the service held one -- as after a health tick that forced it
    to ERROR -- the following [stop()] clears only the newer: the service is
    left with a live timer and no handle to clear it with, so health ticks
    keep firing on it. *)
Theorem start_leaks_held_timer : forall v,
  state v <> RUNNING -> state v <> STARTING ->
  (healthCheckInterval (config v) <=? 0)%Z = false ->
  resultOf (start v) = Val tt ->
  liveTimers (stateOf (start v)) = S (liveTimers v) /\
  let v2 := stateOf (stop (stateOf (start v))) in
  healthCheckHandle v2 = false /\
  liveTimers v2 = liveTimers v /\
  (0 < liveTimers v -> fire v2 = healthTick v2).
Proof.
  intros v H1 H2 I R. revert R. rewrite start_proceeds by assumption.
  destruct (startBody_summary v v eq_refl eq_refl eq_refl) as (_ & _ & _ & [O|B]);
    [|destruct B as (B & _); rewrite B; discriminate].
  destruct O as (_ & S1 & _ & T). rewrite I in T. destruct T as (T1 & T2).
  intros _. split; [exact T2|].
  set (v1 := stateOf (startBody v v)) in *.
  rewrite (stop_proceeds v1) by (rewrite S1; discriminate).
  destruct (stopBody_summary v1 v1 eq_refl eq_refl eq_refl)
    as (_ & _ & _ & U1 & U2 & _).
  rewrite T1, T2 in U2. simpl in U2.
  cbv zeta. repeat split; try assumption.
  intros L. rewrite fire_eq, U2.
  destruct (liveTimers v); [inversion L|reflexivity].
Qed.

End RestartMore.

Lemma start_outcome_recorded_witness :
  let v := scripted "svc" [] false DEFAULT_SERVICE_CONFIG (fun _ => false) true in
  state v <> RUNNING /\ state v <> STARTING /\
  stagesFailure (startStages v) (impl v) = Some "start failed" /\
  lastError (metrics (stateOf (start v))) = Some "start failed" /\
  serviceEvents (traceOf (start v)) = [("service:error", "svc")] /\
  impl (stateOf (start v)) = 1.
Proof.
  intros v. split; [discriminate|]. split; [discriminate|]. split; [reflexivity|].
  destruct (start_outcome_recorded v) as (I & R & S & E & C & L & Ev);
    try discriminate.
  split; [exact L|]. split; [exact Ev|exact I].
Defined.

Lemma stop_outcome_recorded_witness :
  let v := gated true RUNNING in
  state v <> STOPPED /\ state v <> STOPPING /\
  stagesFailure (stopStages v) (impl v) = Some "still busy" /\
  state (stateOf (stop v)) = ERROR /\
  lastError (metrics (stateOf (stop v))) = Some "still busy" /\
  serviceEvents (traceOf (stop v)) = [] /\
  impl (stateOf (stop v)) = 2.
Proof.
  intros v. split; [discriminate|]. split; [discriminate|]. split; [reflexivity|].
  destruct (stop_outcome_recorded v) as (I & R & S & E & C & L & Ev);
    try discriminate.
  split; [exact S|]. split; [exact L|]. split; [exact Ev|exact I].
Defined.

Lemma hooks_run_in_order_witness :
  let v := gated false STOPPED in
  let w := gated true RUNNING in
  startHooks (hooks v) = [HBeforeStart; HDoStart; HAfterStart] /\
  hooksCalled (traceOf (start v)) = [HBeforeStart] /\
  stopHooks (hooks w) = [HBeforeStop; HDoStop; HAfterStop] /\
  hooksCalled (traceOf (stop w)) = [HBeforeStop; HDoStop] /\
  hooksCalled (traceOf (start (gated true STOPPED))) =
    [HBeforeStart; HDoStart; HAfterStart].
Proof.
  intros v w. split; [reflexivity|]. split; [|split; [reflexivity|split]].
  - refine (proj2 (proj2 (proj1 (hooks_run_in_order v) _ _)) _ "not ready" eq_refl eq_refl);
      discriminate.
  - refine (proj1 (proj2 (hooks_run_in_order w) _ _)); discriminate.
  - refine (proj1 (proj2 (proj1 (hooks_run_in_order (gated true STOPPED)) _ _)) eq_refl);
      discriminate.
Defined.

Lemma timeout_is_failure_witness :
  lastError (metrics (stateOf (start (stalled STOPPED)))) =
    Some "Service svc startup timeout" /\
  In (EDelay 30000) (traceOf (start (stalled STOPPED))) /\
  lastError (metrics (stateOf (stop (stalled RUNNING)))) =
    Some "Service svc shutdown timeout" /\
  In (EDelay 15000) (traceOf (stop (stalled RUNNING))).
Proof.
  assert (B : forall g : nat -> nat * option string,
            Some (fun k : nat => (k, @None string)) = Some g -> snd (g 0) = None).
  { intros g E. injection E as <-. reflexivity. }
  destruct (proj1 (timeout_is_failure (stalled STOPPED)))
    as (_ & _ & L & D & _);
    [discriminate | discriminate | exact B | reflexivity |].
  destruct (proj2 (timeout_is_failure (stalled RUNNING)))
    as (_ & _ & L' & D' & _);
    [discriminate | discriminate | exact B | reflexivity |].
  repeat split; assumption.
Defined.

Lemma restart_outcome_witness :
  let v := withState STOPPING
             (scripted "svc" [] false DEFAULT_SERVICE_CONFIG (fun _ => true) true) in
  raised (resultOf (stop v)) = true /\
  restart v =
    (stateOf (stop v),
     ELog LInfo "Restarting service" (name v) :: traceOf (stop v),
     Exc (mkExn ServiceError ("Failed to restart service " +++ name v))).
Proof.
  intros v. split; [reflexivity|].
  apply (proj2 (restart_outcome v)). reflexivity.
Defined.

Lemma healthTick_only_acts_on_failure_witness :
  let v := stateOf (start (scripted "svc" [] false DEFAULT_SERVICE_CONFIG
                             (fun _ => true) true)) in
  resultOf (healthCheck v) = Val true /\
  healthTick v = (stateOf (healthCheck v), traceOf (healthCheck v), Val tt) /\
  state (stateOf (healthTick v)) = RUNNING.
Proof.
  intros v.
  destruct (healthTick_only_acts_on_failure v true) as (E & S & _);
    [reflexivity | left; reflexivity |].
  split; [reflexivity|]. split; [exact E|]. rewrite S. reflexivity.
Defined.

Lemma monitoring_can_be_switched_off_witness :
  let v := scripted "svc" [] false (mkServiceConfig 30000 15000 0 3 2000 true)
             (fun _ => true) false in
  let ops := [OpStart; OpTick; OpRestart; OpTick; OpStop] in
  unmonitored v /\
  unmonitored (stateOf (runOps ops v)) /\
  perform OpTick (stateOf (runOps ops v)) = (stateOf (runOps ops v), [], Val tt).
Proof.
  intros v ops.
  assert (U : unmonitored v) by (repeat split).
  split; [exact U|]. apply (monitoring_can_be_switched_off ops v U).
Defined.

Lemma start_leaks_held_timer_witness :
  let v := failedByMonitoring in
  state v = ERROR /\ healthCheckHandle v = true /\ liveTimers v = 1 /\
  liveTimers (stateOf (start v)) = 2 /\
  let v2 := stateOf (stop (stateOf (start v))) in
  healthCheckHandle v2 = false /\
  liveTimers v2 = 1 /\
  fire v2 = healthTick v2.
Proof.
  intros v.
  destruct (start_leaks_held_timer v) as (A & B & C & D);
    [discriminate | discriminate | reflexivity | reflexivity |].
  split; [reflexivity|]. split; [reflexivity|]. split; [reflexivity|].
  split; [exact A|]. cbv zeta. split; [exact B|]. split; [exact C|].
  apply D. apply Nat.lt_0_succ.
Defined.

(** ** Service manager: the registry *)

Lemma StrMap_set_get_id : forall {V} k (v : V) (m : StrMap.t V),
  StrMap.get k m = Some v -> StrMap.set k v m = m.
Proof.
  intros V k v m. induction m as [|[k0 v0] m IH]; simpl; [discriminate|].
  destruct (String.eqb k k0) eqn:E.
  - intros H. injection H as ->. reflexivity.
  - intros H. rewrite IH by exact H. reflexivity.
Qed.

Lemma StrMap_get_delete_same : forall {V} k (m : StrMap.t V),
  StrMap.get k (StrMap.delete k m) = None.
Proof.
  intros V k m. unfold StrMap.delete.
  induction m as [|[k0 v0] m IH]; simpl; [reflexivity|].
  destruct (String.eqb k k0) eqn:E; simpl; [exact IH|].
  rewrite E. exact IH.
Qed.

Lemma StrMap_get_delete_other : forall {V} k k' (m : StrMap.t V),
  k <> k' -> StrMap.get k' (StrMap.delete k m) = StrMap.get k' m.
Proof.
  intros V k k' m N. unfold StrMap.delete.
  induction m as [|[k0 v0] m IH]; simpl; [reflexivity|].
  destruct (String.eqb k k0) eqn:E; simpl.
  - apply String.eqb_eq in E. subst k0.
    destruct (String.eqb k' k) eqn:E'; [|exact IH].
    apply String.eqb_eq in E'. congruence.
  - rewrite IH. reflexivity.
Qed.

Lemma StrMap_delete_fresh : forall {V} k (m : StrMap.t V),
  StrMap.get k m = None -> StrMap.delete k m = m.
Proof.
  intros V k m. unfold StrMap.delete.
  induction m as [|[k0 v0] m IH]; simpl; [reflexivity|].
  destruct (String.eqb k k0) eqn:E; [discriminate|].
  intros H. simpl. rewrite IH by exact H. reflexivity.
Qed.

Lemma StrMap_delete_set_fresh : forall {V} k (v : V) (m : StrMap.t V),
  StrMap.get k m = None -> StrMap.delete k (StrMap.set k v m) = m.
Proof.
  intros V k v m. unfold StrMap.delete.
  induction m as [|[k0 v0] m IH]; simpl.
  - intros _. rewrite String.eqb_refl. reflexivity.
  - destruct (String.eqb k k0) eqn:E; [discriminate|].
    intros H. simpl. rewrite E. simpl. rewrite IH by exact H. reflexivity.
Qed.

Section RegistryFacts.
Context {Impl : Type}.
Implicit Types m : @Manager Impl.
Implicit Types v : Service Impl.

(** The order computed only depends on the services and the graph. *)
Lemma computeOrder_ext : forall m m',
  services m' = services m -> dependencyGraph m' = dependencyGraph m ->
  computeOrder m' = computeOrder m.
Proof.
  intros m m' Hs Hg. unfold computeOrder, mgrRegistered, mgrDepsOf.
  rewrite Hs, Hg. reflexivity.
Qed.

Lemma computeOrder_cases : forall m,
  match computeOrder m with
  | Done o =>
      Marking.orderOk (mgrRegistered m) (mgrDepsOf m) (StrMap.keys (services m)) o
  | Thrown e =>
      exists x, e = mgrCycleError x /\ onCycle (mgrRegistered m) (mgrDepsOf m) x
  | OutOfFuel => False
  end.
Proof.
  intros m. rewrite computeOrder_eq.
  pose proof (topoOrder_spec (mgrRegistered m) (mgrDepsOf m) mgrCycleError
                (fun _ _ => []) (StrMap.keys (services m))
                (fun n => StrMap_get_In n (services m))) as S.
  destruct (topoOrder _ _ _ _ _) as [st|e|]; simpl; [apply S|exact S|exact S].
Qed.

Lemma registerService_eq : forall svc m,
  registerService svc m =
  let m1 := mkManager (StrMap.set (name svc) svc (services m))
              (StrMap.set (name svc) (StrSet.ofArray (dependencies svc))
                 (dependencyGraph m))
              (startOrder m) (stopOrder m) in
  match computeOrder m1 with
  | Done o => (mkManager (services m1) (dependencyGraph m1) o (rev o),
               [ELog LInfo "Service registered" (name svc)], Val tt)
  | Thrown e => (m1, [], Exc e)
  | OutOfFuel => (m1, [ELog LInfo "Service registered" (name svc)], Val tt)
  end.
Proof.
  intros svc m. cbv zeta.
  unfold registerService, updateDependencyGraph. unfold bind at 1, modify at 1.
  unfold bind at 1, modify at 1.
  cbn [withServices services dependencyGraph startOrder stopOrder].
  unfold bind at 1. rewrite calculateOrder_eq.
  destruct (computeOrder _); reflexivity.
Qed.

Lemma unregisterService_eq : forall n m,
  unregisterService n m =
  match StrMap.get n (services m) with
  | None => (m, [], Exc (mkExn ServiceError ("Service not found: " +++ n)))
  | Some svc =>
      if ServiceState_eqb (state svc) RUNNING
      then (m, [], Exc (mkExn ServiceError
                          ("Cannot unregister running service: " +++ n)))
      else
        let m1 := mkManager (StrMap.delete n (services m))
                    (StrMap.delete n (dependencyGraph m))
                    (startOrder m) (stopOrder m) in
        match computeOrder m1 with
        | Done o =>
            (mkManager (services m1) (dependencyGraph m1) o (rev o),
             [ELog LInfo "Service unregistered" n], Val tt)
        | Thrown e => (m1, [], Exc e)
        | OutOfFuel => (m1, [ELog LInfo "Service unregistered" n], Val tt)
        end
  end.
Proof.
  intros n m. unfold unregisterService. unfold bind at 1, get at 1.
  destruct (StrMap.get n (services m)) as [svc|]; [|reflexivity].
  unfold getState. destruct (ServiceState_eqb (state svc) RUNNING); [reflexivity|].
  unfold bind at 1, modify at 1. unfold bind at 1. rewrite calculateOrder_eq.
  cbv zeta. destruct (computeOrder _); reflexivity.
Qed.

(** X10.  After [registerService(svc)] the service is found under its name
    and its dependencies are in the graph -- also when the call raises.  When
    it raises, the dependencies among the registered services hold a cycle:
    the ServiceError names a service on it, nothing is logged, and both
    orders stay as they were before the call; the registration is not
    undone.  When it returns, the start order is the one computed for
    the new registry and the stop order is its reverse. *)
Theorem registerService_outcome : forall svc m,
  let m' := stateOf (registerService svc m) in
  StrMap.get (name svc) (services m') = Some svc /\
  mgrDepsOf m' (name svc) = StrSet.ofArray (dependencies svc) /\
  match resultOf (registerService svc m) with
  | Val _ =>
      computeOrder m' = Done (startOrder m') /\
      stopOrder m' = rev (startOrder m') /\
      traceOf (registerService svc m) = [ELog LInfo "Service registered" (name svc)]
  | Exc e =>
      (exists x, e = mgrCycleError x /\ onCycle (mgrRegistered m') (mgrDepsOf m') x) /\
      startOrder m' = startOrder m /\
      stopOrder m' = stopOrder m /\
      traceOf (registerService svc m) = []
  end.
Proof.
  intros svc m. cbv zeta. rewrite registerService_eq. cbv zeta.
  set (m1 := mkManager (StrMap.set (name svc) svc (services m))
               (StrMap.set (name svc) (StrSet.ofArray (dependencies svc))
                  (dependencyGraph m))
               (startOrder m) (stopOrder m)).
  pose proof (computeOrder_cases m1) as C.
  destruct (computeOrder m1) as [o|e|] eqn:Ec; [| |contradiction]; outcome.
  - split; [apply StrMap_get_set_same|]. split.
    + unfold mgrDepsOf. cbn [dependencyGraph m1]. rewrite StrMap_get_set_same. reflexivity.
    + split; [|split; reflexivity].
      transitivity (computeOrder m1); [apply computeOrder_ext; reflexivity|exact Ec].
  - split; [apply StrMap_get_set_same|]. split.
    + unfold mgrDepsOf. cbn [dependencyGraph m1]. rewrite StrMap_get_set_same. reflexivity.
    + split; [exact C|]. repeat split.
Qed.

(** X11.  [unregisterService(n)] raises a ServiceError and changes nothing
    when no service is registered under [n], and when the one registered is
    RUNNING.  Otherwise -- in any other state, ERROR or STARTING included --
    the service and its entry in the graph are removed and every other
    service stays; when the call then returns, [n] is not in the start
    order. *)
Theorem unregisterService_outcome : forall n m,
  match StrMap.get n (services m) with
  | None =>
      unregisterService n m =
        (m, [], Exc (mkExn ServiceError ("Service not found: " +++ n)))
  | Some svc =>
      if ServiceState_eqb (state svc) RUNNING
      then unregisterService n m =
             (m, [], Exc (mkExn ServiceError
                            ("Cannot unregister running service: " +++ n)))
      else
        let m' := stateOf (unregisterService n m) in
        StrMap.get n (services m') = None /\
        StrMap.get n (dependencyGraph m') = None /\
        (forall k, k <> n -> StrMap.get k (services m') = StrMap.get k (services m)) /\
        (resultOf (unregisterService n m) = Val tt -> ~ In n (startOrder m'))
  end.
Proof.
  intros n m. pose proof (unregisterService_eq n m) as E. cbv zeta in E.
  destruct (StrMap.get n (services m)) as [svc|] eqn:G; [|exact E].
  destruct (ServiceState_eqb (state svc) RUNNING) eqn:R; [exact E|].
  rewrite E. cbv zeta.
  set (m1 := mkManager (StrMap.delete n (services m))
               (StrMap.delete n (dependencyGraph m)) (startOrder m) (stopOrder m)).
  pose proof (computeOrder_cases m1) as C.
  destruct (computeOrder m1) as [o|e|] eqn:Ec; [| |contradiction]; outcome.
  - cbn [services dependencyGraph startOrder m1].
    split; [apply StrMap_get_delete_same|]. split; [apply StrMap_get_delete_same|].
    split; [intros k Hk; apply StrMap_get_delete_other; congruence|].
    intros _ Hin. destruct C as (_ & Mem & _).
    apply Mem in Hin. cbn [services m1] in Hin.
    apply StrMap_get_In in Hin. unfold StrMap.has in Hin.
    rewrite StrMap_get_delete_same in Hin. discriminate.
  - cbn [services dependencyGraph m1].
    split; [apply StrMap_get_delete_same|]. split; [apply StrMap_get_delete_same|].
    split; [intros k Hk; apply StrMap_get_delete_other; congruence|].
    intros H. discriminate H.
Qed.

Lemma ServiceState_eqb_neq : forall a b, a <> b -> ServiceState_eqb a b = false.
Proof. intros [] [] H; try reflexivity; contradiction H; reflexivity. Qed.

(** X12.  Registering a service that is not RUNNING under a fresh name and
    unregistering it again gives back the services and the dependency graph
    as they were, whether or not the registration raised; if the orders were
    those computed for that registry, the whole manager is as before.  (A
    RUNNING service cannot be unregistered.) *)
Theorem register_then_unregister : forall svc m,
  StrMap.get (name svc) (services m) = None ->
  StrMap.get (name svc) (dependencyGraph m) = None ->
  state svc <> RUNNING ->
  let m2 := stateOf (unregisterService (name svc) (stateOf (registerService svc m))) in
  services m2 = services m /\
  dependencyGraph m2 = dependencyGraph m /\
  (computeOrder m = Done (startOrder m) -> stopOrder m = rev (startOrder m) -> m2 = m).
Proof.
  intros svc m Hs Hg Hr. cbv zeta.
  set (m1 := stateOf (registerService svc m)).
  assert (S1 : services m1 = StrMap.set (name svc) svc (services m)).
  { unfold m1. rewrite registerService_eq. cbv zeta.
    destruct (computeOrder _); reflexivity. }
  assert (G1 : dependencyGraph m1 =
               StrMap.set (name svc) (StrSet.ofArray (dependencies svc))
                 (dependencyGraph m)).
  { unfold m1. rewrite registerService_eq. cbv zeta.
    destruct (computeOrder _); reflexivity. }
  rewrite unregisterService_eq. rewrite S1, G1, StrMap_get_set_same.
  rewrite (ServiceState_eqb_neq _ _ Hr). cbv zeta.
  rewrite !StrMap_delete_set_fresh by assumption.
  set (m' := mkManager (services m) (dependencyGraph m) (startOrder m1) (stopOrder m1)).
  assert (Ec : computeOrder m' = computeOrder m)
    by (apply computeOrder_ext; reflexivity).
  destruct (computeOrder m') as [o|e|] eqn:E'; outcome;
    (split; [reflexivity|]; split; [reflexivity|]);
    intros Ho Hrev; rewrite Ho in Ec; try discriminate Ec.
  injection Ec as ->. cbn [services dependencyGraph m'].
  rewrite <- Hrev. destruct m; reflexivity.
Qed.

End RegistryFacts.

(** ** Service manager: registration order and start order *)

Lemma order_determined : forall keys o,
  NoDup o ->
  (forall x, In x o <-> In x keys) ->
  (forall l1 a l2 b, keys = l1 ++ a :: l2 -> In b l2 -> precedes a b o) ->
  NoDup keys ->
  o = keys.
Proof.
  induction keys as [|a ks IH]; intros o NDo Mem Tie NDk.
  - destruct o as [|b o]; [reflexivity|].
    exfalso. apply (proj1 (Mem b)). left. reflexivity.
  - inversion NDk as [|? ? Ha NDks]; subst.
    destruct o as [|b o].
    { exfalso. apply (proj2 (Mem a)). left. reflexivity. }
    assert (b = a) as ->.
    { destruct (String.eqb b a) eqn:E; [apply String.eqb_eq; exact E|].
      exfalso.
      assert (In b ks) as Hb.
      { destruct (proj1 (Mem b) (or_introl eq_refl)) as [H|H]; [|exact H].
        subst. rewrite String.eqb_refl in E. discriminate. }
      pose proof (precedes_pos a b (b :: o) NDo (Tie [] a ks b eq_refl Hb)) as P.
      simpl in P. rewrite String.eqb_refl in P. lia. }
    inversion NDo as [|? ? Ha' NDo']; subst.
    f_equal. apply IH; try assumption.
    + intros x. split; intros H.
      * destruct (proj1 (Mem x) (or_intror H)) as [E|H']; [|exact H'].
        subst. contradiction.
      * destruct (proj2 (Mem x) (or_intror H)) as [E|H']; [|exact H'].
        subst. contradiction.
    + intros l1 a' l2 b Hk Hb.
      destruct (Tie (a :: l1) a' l2 b) as (x1 & x2 & x3 & E);
        [simpl; rewrite Hk; reflexivity|exact Hb|].
      destruct x1 as [|y x1]; simpl in E; injection E as E1 E2.
      * exfalso. subst a'. apply Ha. rewrite Hk. apply in_or_app. right. left. reflexivity.
      * exists x1, x2, x3. exact E2.
Qed.

Section RegistrationOrder.
Variable isRegistered : string -> bool.
Variable depsOf : string -> list string.
Variable cycleError : string -> Exn.
Variable onMissing : string -> string -> list Effect.
Variable keys : list string.
Hypothesis reg_keys : forall n, isRegistered n = true <-> In n keys.
Hypothesis keys_nodup : NoDup keys.
Hypothesis deps_first : dependenciesFirst isRegistered depsOf keys = true.

Lemma edge_earlier : forall x d,
  dependsOn isRegistered depsOf x d -> pos d keys < pos x keys.
Proof.
  intros x d (Rx & Hd & Rd).
  apply precedes_pos; [exact keys_nodup|]. apply precedesb_sound.
  unfold dependenciesFirst in deps_first.
  rewrite forallb_forall in deps_first.
  specialize (deps_first x (proj1 (reg_keys x) Rx)).
  rewrite forallb_forall in deps_first.
  specialize (deps_first d Hd). rewrite Rd in deps_first. exact deps_first.
Qed.

Lemma path_earlier : forall x y,
  reaches isRegistered depsOf x y -> pos y keys < pos x keys.
Proof.
  intros x y H. induction H as [x y E|x y z _ IH1 _ IH2].
  - apply edge_earlier, E.
  - lia.
Qed.

Lemma no_cycle_when_dependencies_first : acyclic isRegistered depsOf.
Proof. intros x H. apply path_earlier in H. lia. Qed.

Lemma reachesRefl_cases : forall x y,
  reachesRefl isRegistered depsOf x y -> x = y \/ reaches isRegistered depsOf x y.
Proof.
  intros x y H. induction H as [x y E|x|x y z _ IH1 _ IH2].
  - right. apply t_step, E.
  - left. reflexivity.
  - destruct IH1 as [->|H1]; [exact IH2|].
    destruct IH2 as [<-|H2]; [right; exact H1|].
    right. eapply t_trans; eassumption.
Qed.

Lemma topoOrder_registration_order :
  orderOutcome (topoOrder isRegistered depsOf cycleError onMissing keys) = Done keys.
Proof.
  pose proof (topoOrder_spec isRegistered depsOf cycleError onMissing keys reg_keys) as S.
  destruct (topoOrder _ _ _ _ _) as [st|e|]; simpl; [| |contradiction].
  - destruct S as ((NDo & Mem & _ & Tie) & _).
    f_equal. apply order_determined; try assumption.
    intros l1 a l2 b Hk Hb. apply (Tie l1 a l2 b Hk Hb).
    intros r Hr Hp.
    assert (P : pos r keys < pos b keys).
    { apply precedes_pos; [exact keys_nodup|].
      rewrite Hk. replace (l1 ++ a :: l2) with ((l1 ++ [a]) ++ l2)
        by (rewrite <- app_assoc; reflexivity).
      apply precedes_across; assumption. }
    destruct (reachesRefl_cases r b Hp) as [->|H]; [lia|].
    apply path_earlier in H. lia.
  - exfalso. destruct S as (x & _ & C).
    exact (no_cycle_when_dependencies_first x C).
Qed.

End RegistrationOrder.

(** X13.  When every service was registered after the services it depends
    on (dependencies on names that are not registered do not count), the
    start order is the registration order; the same holds of the components
    of the initializer and their initialization order. *)
Theorem dependencies_first_keeps_registration_order :
  (forall Impl (m : @Manager Impl),
     NoDup (StrMap.keys (services m)) ->
     dependenciesFirst (mgrRegistered m) (mgrDepsOf m) (StrMap.keys (services m)) = true ->
     computeOrder m = Done (StrMap.keys (services m))) /\
  (forall Impl Breaker (s : @Initializer Impl Breaker),
     NoDup (StrMap.keys (components s)) ->
     dependenciesFirst (initRegistered s) (initDepsOf s) (StrMap.keys (components s)) = true ->
     orderOutcome (calculateInitializationOrder s) = Done (StrMap.keys (components s))).
Proof.
  split.
  - intros Impl m ND DF. rewrite computeOrder_eq.
    apply topoOrder_registration_order; try assumption.
    intros n. apply StrMap_get_In.
  - intros Impl Breaker s ND DF. unfold calculateInitializationOrder.
    apply topoOrder_registration_order; try assumption.
    intros n. apply StrMap_get_In.
Qed.

Lemma dependencies_first_keeps_registration_order_witness :
  computeOrder backendServices =
    Done ["terminalManager"; "coordinationManager"; "memoryManager"; "mcpServer"] /\
  orderOutcome (calculateInitializationOrder
                  (sampleInitializer [("logger", []); ("eventBus", ["logger"])])) =
    Done ["logger"; "eventBus"].
Proof.
  split.
  - apply (proj1 dependencies_first_keeps_registration_order nat backendServices).
    + vm_compute. repeat constructor; simpl; intuition discriminate.
    + vm_compute. reflexivity.
  - apply (proj2 dependencies_first_keeps_registration_order nat unit
             (sampleInitializer [("logger", []); ("eventBus", ["logger"])])).
    + vm_compute. repeat constructor; simpl; intuition discriminate.
    + vm_compute. reflexivity.
Defined.

(** ** Service manager: what the loops leave behind *)

Lemma ServiceState_eqb_eq : forall a b, ServiceState_eqb a b = true <-> a = b.
Proof. intros [] []; simpl; split; intros H; try reflexivity; discriminate H. Qed.

Section ManagerLoops.
Context {Impl : Type}.
Implicit Types m : @Manager Impl.
Implicit Types v : Service Impl.

Lemma withServices_id : forall m, withServices (services m) m = m.
Proof. intros []. reflexivity. Qed.

(** Where the stop loop leaves each service it names. *)
Lemma stopEach_states : forall msg names m,
  NoDup names ->
  forall n, In n names ->
  StrMap.get n (services (stateOf (stopEach msg names m))) =
  option_map (fun v => if ServiceState_eqb (state v) RUNNING then stateOf (stop v) else v)
    (StrMap.get n (services m)).
Proof.
  intros msg names. induction names as [|k names IH]; intros m ND n Hn; [destruct Hn|].
  inversion ND as [|? ? Hk ND']; subst.
  destruct (stopEach_spec msg names m ND') as (_ & _ & _ & _ & F0).
  rewrite stopEach_cons. unfold getState.
  destruct (String.eqb n k) eqn:E.
  - apply String.eqb_eq in E. subst n.
    destruct (StrMap.get k (services m)) as [v|] eqn:G.
    + destruct (ServiceState_eqb (state v) RUNNING) eqn:R.
      * cbv zeta. outcome.
        destruct (stopEach_spec msg names
                    (withServices (StrMap.set k (stateOf (stop v)) (services m)) m) ND')
          as (_ & _ & _ & _ & F).
        rewrite (F k Hk). cbn [withServices services].
        rewrite StrMap_get_set_same. simpl. rewrite R. reflexivity.
      * rewrite (F0 k Hk), G. simpl. rewrite R. reflexivity.
    + rewrite (F0 k Hk), G. reflexivity.
  - assert (n <> k) as Hne by (intros ->; rewrite String.eqb_refl in E; discriminate).
    destruct Hn as [->|Hn]; [contradiction Hne; reflexivity|].
    destruct (StrMap.get k (services m)) as [v|] eqn:G; [|apply IH; assumption].
    destruct (ServiceState_eqb (state v) RUNNING) eqn:R; [|apply IH; assumption].
    cbv zeta. outcome. rewrite IH by assumption.
    cbn [withServices services]. rewrite StrMap_get_set_other by congruence.
    reflexivity.
Qed.

Lemma stopEach_none_running : forall msg names m,
  NoDup names ->
  forall n v, In n names ->
  StrMap.get n (services (stateOf (stopEach msg names m))) = Some v ->
  state v <> RUNNING.
Proof.
  intros msg names m ND n v Hn. rewrite (stopEach_states msg names m ND n Hn).
  destruct (StrMap.get n (services m)) as [v0|]; simpl; [|discriminate].
  destruct (ServiceState_eqb (state v0) RUNNING) eqn:R; intros H; injection H as <-.
  - destruct (stop_result_state v0) as [(_ & S)|(_ & S)]; [rewrite S; discriminate|exact S].
  - intros S. apply ServiceState_eqb_eq in S. congruence.
Qed.

Lemma stopAll_state : forall m,
  stateOf (stopAll m) = stateOf (stopEach "Failed to stop service" (stopOrder m) m).
Proof.
  intros m. unfold stopAll. run_method.
  destruct (stopEach _ _ m) as [[m1 t1] [u|e]]; reflexivity.
Qed.

(** How [stop] leaves a service it found RUNNING. *)
Lemma stop_from_running : forall v,
  state v = RUNNING ->
  if raised (resultOf (stop v))
  then state (stateOf (stop v)) = ERROR
  else state (stateOf (stop v)) = STOPPED.
Proof.
  intros v H. rewrite stop_proceeds by (rewrite H; discriminate).
  destruct (stopBody_summary v v eq_refl eq_refl eq_refl)
    as (_ & _ & _ & _ & _ & [(R & S & _)|(R & S & _)]); rewrite R; exact S.
Qed.

(** X14.  In every state the manager reaches from its constructor,
    [stopAll()] returns without raising, and afterwards no service of the
    stop order is RUNNING: one that was RUNNING is as its [stop()] left it,
    STOPPED or, when the stop raised, in ERROR, and one that was not RUNNING
    is left as it is.  So is a service that is not in the stop order -- one
    whose registration raised. *)
Theorem stopAll_leaves_none_running : forall (ops : list (@MgrOp Impl)),
  let m := stateOf (mgrRun ops newManager) in
  resultOf (stopAll m) = Val tt /\
  (forall n v, In n (stopOrder m) -> StrMap.get n (services m) = Some v ->
     exists v',
       StrMap.get n (services (stateOf (stopAll m))) = Some v' /\
       state v' <> RUNNING /\
       (state v = RUNNING ->
          v' = stateOf (stop v) /\
          if raised (resultOf (stop v)) then state v' = ERROR else state v' = STOPPED) /\
       (state v <> RUNNING -> v' = v)) /\
  (forall n, In n (stopOrder m) -> StrMap.get n (services m) = None ->
     StrMap.get n (services (stateOf (stopAll m))) = None) /\
  (forall n, ~ In n (stopOrder m) ->
     StrMap.get n (services (stateOf (stopAll m))) = StrMap.get n (services m)).
Proof.
  intros ops m.
  assert (ND : NoDup (stopOrder m)).
  { destruct (mgrRun_agree ops (@newManager Impl)) as (R & N).
    - split; [reflexivity|constructor].
    - fold m in R, N. rewrite R. apply NoDup_rev. exact N. }
  split; [apply stopAll_eq, ND|].
  rewrite stopAll_state. split; [|split].
  - intros n v Hn G.
    rewrite (stopEach_states "Failed to stop service" (stopOrder m) m ND n Hn), G.
    cbn [option_map].
    destruct (ServiceState_eqb (state v) RUNNING) eqn:R.
    + apply ServiceState_eqb_eq in R. pose proof (stop_from_running v R) as S.
      exists (stateOf (stop v)). split; [reflexivity|]. split; [|split].
      * destruct (raised (resultOf (stop v))); rewrite S; discriminate.
      * intros _. split; [reflexivity|exact S].
      * intros H. contradiction.
    + exists v. split; [reflexivity|].
      assert (state v <> RUNNING) as N.
      { intros H. apply ServiceState_eqb_eq in H. congruence. }
      split; [exact N|]. split; [intros H; contradiction|reflexivity].
  - intros n Hn G.
    rewrite (stopEach_states "Failed to stop service" (stopOrder m) m ND n Hn), G.
    reflexivity.
  - intros n Hn.
    destruct (stopEach_spec "Failed to stop service" (stopOrder m) m ND)
      as (_ & _ & _ & _ & F).
    apply F, Hn.
Qed.

Lemma hooksCalled_app : forall t1 t2,
  hooksCalled (t1 ++ t2) = hooksCalled t1 ++ hooksCalled t2.
Proof. intros. unfold hooksCalled. apply flat_map_app. Qed.

Lemma startEach_running : forall names m,
  (forall n v, In n names -> StrMap.get n (services m) = Some v -> state v = RUNNING) ->
  stateOf (startEach names m) = m /\
  resultOf (startEach names m) = Val tt /\
  hooksCalled (traceOf (startEach names m)) = [] /\
  statesAssigned (traceOf (startEach names m)) = [].
Proof.
  induction names as [|k names IH]; intros m H; [repeat split|].
  assert (H' : forall n v, In n names -> StrMap.get n (services m) = Some v ->
                           state v = RUNNING)
    by (intros n v Hn; apply H; right; exact Hn).
  rewrite startEach_cons.
  destruct (StrMap.get k (services m)) as [v|] eqn:G; [|apply IH, H'].
  pose proof (H k v (or_introl eq_refl) G) as R.
  unfold startRaises. rewrite (start_running v R). cbv zeta. outcome. cbn [raised].
  rewrite (StrMap_set_get_id k v (services m) G), withServices_id.
  destruct (IH m H') as (S & Rs & Hk & St).
  rewrite S, Rs. repeat split; outcome.
  - rewrite hooksCalled_app, Hk. reflexivity.
  - rewrite statesAssigned_app, St. reflexivity.
Qed.

(** X15.  [startAll()] on a manager whose services are all RUNNING changes
    nothing: every [start()] is the no-op with a warning, no subclass code
    runs, no state is assigned, and the call returns. *)
Theorem startAll_on_running_services : forall m,
  (forall n v, In n (startOrder m) -> StrMap.get n (services m) = Some v ->
               state v = RUNNING) ->
  stateOf (startAll m) = m /\
  resultOf (startAll m) = Val tt /\
  hooksCalled (traceOf (startAll m)) = [] /\
  statesAssigned (traceOf (startAll m)) = [].
Proof.
  intros m H. rewrite startAll_eq.
  destruct (startEach_running (startOrder m) m H) as (S & R & Hk & St).
  destruct (startEach (startOrder m) m) as [[m1 t1] [u|e]]; outcome;
    [|discriminate R].
  subst m1. repeat split.
  - simpl. rewrite hooksCalled_app, Hk. reflexivity.
  - rewrite statesAssigned_cons_log, statesAssigned_app, St. reflexivity.
Qed.

(** How [start] leaves a service when it raises. *)
Lemma start_raised_state : forall v,
  raised (resultOf (start v)) = true ->
  state (stateOf (start v)) = ERROR \/ (state v = STARTING /\ stateOf (start v) = v).
Proof.
  intros v.
  destruct (state v) eqn:E;
    try (rewrite start_running by assumption; intros H; discriminate H);
    try (rewrite start_starting by assumption; intros _; right; split; reflexivity);
    (rewrite start_proceeds by congruence;
     destruct (startBody_summary v v eq_refl eq_refl eq_refl)
       as (_ & _ & _ & [(R & _)|(_ & S & _)]);
     [rewrite R; intros H; discriminate H|intros _; left; exact S]).
Qed.

Lemma rolledBack_state : forall v,
  state (rolledBack v) = STOPPED \/ state (rolledBack v) = ERROR \/
  (state v = STARTING /\ rolledBack v = v).
Proof.
  intros v. unfold rolledBack, getState. cbv zeta.
  destruct (ServiceState_eqb (state (stateOf (start v))) RUNNING) eqn:R.
  - apply ServiceState_eqb_eq in R. pose proof (stop_from_running _ R) as S.
    destruct (raised (resultOf (stop (stateOf (start v))))); auto.
  - destruct (start_result_state v) as [(_ & S)|(Rv & _)].
    + rewrite S in R. discriminate R.
    + destruct (start_raised_state v Rv) as [S|S]; auto.
Qed.

Lemma firstRequiredFailure_found : forall m names pre f,
  firstRequiredFailure m names = (pre, Some f) -> failsRequired m f = true.
Proof.
  intros m names. induction names as [|n names IH]; intros pre f; cbn.
  - discriminate.
  - destruct (failsRequired m n) eqn:E.
    + intros H. injection H as <- <-. exact E.
    + destruct (firstRequiredFailure m names) as [pre' f'].
      intros H. injection H as <- ->. apply (IH pre' f eq_refl).
Qed.

(** Where the start loop leaves the services: [m0] is the manager the loop
    began with, [done] what it has gone past. *)
Lemma startEach_final : forall m0 rest done m,
  NoDup (done ++ rest) ->
  startOrder m = done ++ rest ->
  (forall r, In r rest -> StrMap.get r (services m) = StrMap.get r (services m0)) ->
  (forall p, In p done ->
     StrMap.get p (services m) =
     option_map (fun v => stateOf (start v)) (StrMap.get p (services m0))) ->
  match firstRequiredFailure m0 rest with
  | (pre, Some f) =>
      (forall p, In p (done ++ pre) ->
         StrMap.get p (services (stateOf (startEach rest m))) =
         option_map rolledBack (StrMap.get p (services m0))) /\
      StrMap.get f (services (stateOf (startEach rest m))) =
        option_map (fun v => stateOf (start v)) (StrMap.get f (services m0))
  | (pre, None) =>
      forall p, In p (done ++ pre) ->
        StrMap.get p (services (stateOf (startEach rest m))) =
        option_map (fun v => stateOf (start v)) (StrMap.get p (services m0))
  end.
Proof.
  intros m0 rest. induction rest as [|n rest IH]; intros done m ND Ho Hrest Hdone.
  - cbn. intros p Hp. rewrite app_nil_r in Hp. apply Hdone, Hp.
  - assert (~ In n done) as Hnd.
    { intros H. apply NoDup_remove_2 in ND. apply ND. apply in_or_app. left. exact H. }
    assert (~ In n rest) as Hnr.
    { intros H. apply NoDup_remove_2 in ND. apply ND. apply in_or_app. right. exact H. }
    assert (NoDup ((done ++ [n]) ++ rest)) as ND' by (rewrite <- app_assoc; exact ND).
    assert (startOrder m = (done ++ [n]) ++ rest) as Ho1
      by (rewrite <- app_assoc; exact Ho).
    assert (Shift : forall pre p, In p (done ++ n :: pre) <-> In p ((done ++ [n]) ++ pre)).
    { intros pre p. rewrite <- app_assoc. reflexivity. }
    rewrite startEach_cons. cbn [firstRequiredFailure]. unfold failsRequired.
    rewrite (Hrest n (or_introl eq_refl)).
    destruct (StrMap.get n (services m0)) as [v|] eqn:Hget.
    + set (m1 := withServices (StrMap.set n (stateOf (start v)) (services m)) m).
      assert (forall r, In r rest ->
                StrMap.get r (services m1) = StrMap.get r (services m0)) as Hrest1.
      { intros r Hr. unfold m1. cbn [services withServices].
        rewrite StrMap_get_set_other; [apply Hrest; right; exact Hr|].
        intros ->. exact (Hnr Hr). }
      assert (forall p, In p (done ++ [n]) ->
                StrMap.get p (services m1) =
                option_map (fun v => stateOf (start v)) (StrMap.get p (services m0)))
        as Hdone1.
      { intros p Hp. unfold m1. cbn [services withServices].
        apply in_app_or in Hp. destruct Hp as [Hp|[<-|[]]].
        - rewrite StrMap_get_set_other; [apply Hdone; exact Hp|].
          intros ->. exact (Hnd Hp).
        - rewrite StrMap_get_set_same, Hget. reflexivity. }
      specialize (IH (done ++ [n]) m1 ND' Ho1 Hrest1 Hdone1).
      cbv zeta. fold m1.
      destruct (startRaises v) eqn:Hraise; cbn [andb].
      * destruct (isRequired v) eqn:Hreq.
        -- rewrite (stopStartedServices_eq n done rest m1 Ho Hnd). outcome.
           assert (NDr : NoDup (rev done))
             by (apply NoDup_rev; exact (NoDup_app_remove_r _ _ ND)).
           split.
           ++ intros p Hp. rewrite app_nil_r in Hp.
              rewrite (stopEach_states _ (rev done) m1 NDr p)
                by (apply in_rev; rewrite rev_involutive; exact Hp).
              rewrite (Hdone1 p (in_or_app _ _ _ (or_introl Hp))).
              destruct (StrMap.get p (services m0)); reflexivity.
           ++ destruct (stopEach_spec "Failed to stop service during cleanup"
                          (rev done) m1 NDr) as (_ & _ & _ & _ & F).
              rewrite F by (intros H; apply in_rev in H; exact (Hnd H)).
              apply Hdone1. apply in_or_app. right. left. reflexivity.
        -- destruct (firstRequiredFailure m0 rest) as [pre [f|]]; outcome.
           ++ destruct IH as (A & B). split; [|exact B].
              intros p Hp. apply A, Shift, Hp.
           ++ intros p Hp. apply IH, Shift, Hp.
      * destruct (firstRequiredFailure m0 rest) as [pre [f|]]; outcome.
        -- destruct IH as (A & B). split; [|exact B].
           intros p Hp. apply A, Shift, Hp.
        -- intros p Hp. apply IH, Shift, Hp.
    + assert (forall p, In p (done ++ [n]) ->
                StrMap.get p (services m) =
                option_map (fun v => stateOf (start v)) (StrMap.get p (services m0)))
        as Hdone1.
      { intros p Hp. apply in_app_or in Hp. destruct Hp as [Hp|[<-|[]]].
        - apply Hdone. exact Hp.
        - rewrite (Hrest n (or_introl eq_refl)), Hget. reflexivity. }
      specialize (IH (done ++ [n]) m ND' Ho1
                    (fun r Hr => Hrest r (or_intror Hr)) Hdone1).
      destruct (firstRequiredFailure m0 rest) as [pre [f|]].
      * destruct IH as (A & B). split; [|exact B].
        intros p Hp. apply A, Shift, Hp.
      * intros p Hp. apply IH, Shift, Hp.
Qed.

(** X16.  What [startAll()] leaves behind.  When no required service of the
    start order fails to start, it returns, every service of the order is
    as its [start()] left it, and the required ones are RUNNING.  Otherwise
    it raises, naming the first required service whose start raised; that
    service is as its failed start left it, in ERROR, and every service
    ahead of it in the start order is STOPPED (it had started and the
    rollback stopped it) or in ERROR (its start or its stop failed) -- except
    that a service registered in state STARTING, which [start()] refuses to
    start, stays as it was. *)
Theorem startAll_final_states : forall m,
  NoDup (startOrder m) ->
  match firstRequiredFailure m (startOrder m) with
  | (pre, Some f) =>
      resultOf (startAll m) =
        Exc (mkExn ServiceError ("Required service " +++ f +++ " failed to start")) /\
      (exists post, startOrder m = pre ++ f :: post) /\
      (exists v,
         StrMap.get f (services m) = Some v /\
         isRequired v = true /\
         raised (resultOf (start v)) = true /\
         StrMap.get f (services (stateOf (startAll m))) = Some (stateOf (start v)) /\
         (state (stateOf (start v)) = ERROR \/
          (state v = STARTING /\ stateOf (start v) = v))) /\
      (forall n v, In n pre -> StrMap.get n (services m) = Some v ->
         StrMap.get n (services (stateOf (startAll m))) = Some (rolledBack v) /\
         (state (rolledBack v) = STOPPED \/ state (rolledBack v) = ERROR \/
          (state v = STARTING /\ rolledBack v = v)))
  | (pre, None) =>
      resultOf (startAll m) = Val tt /\
      (forall n v, In n (startOrder m) -> StrMap.get n (services m) = Some v ->
         StrMap.get n (services (stateOf (startAll m))) = Some (stateOf (start v)) /\
         (isRequired v = true -> state (stateOf (start v)) = RUNNING))
  end.
Proof.
  intros m ND.
  pose proof (startEach_spec m (startOrder m) [] m ND eq_refl
                (fun r _ => eq_refl) (fun p (H : In p []) => match H with end)) as T.
  pose proof (startEach_final m (startOrder m) [] m ND eq_refl
                (fun r _ => eq_refl) (fun p (H : In p []) => match H with end)) as F.
  assert (St : stateOf (startAll m) = stateOf (startEach (startOrder m) m)).
  { rewrite startAll_eq.
    destruct (startEach (startOrder m) m) as [[m1 t1] [[]|e]]; reflexivity. }
  assert (Rs : resultOf (startAll m) = resultOf (startEach (startOrder m) m)).
  { rewrite startAll_eq.
    destruct (startEach (startOrder m) m) as [[m1 t1] [[]|e]]; reflexivity. }
  rewrite St, Rs.
  destruct (firstRequiredFailure m (startOrder m)) as [pre [f|]] eqn:Hsplit.
  - destruct T as (R & _). destruct F as (A & B). cbn [app] in A.
    split; [exact R|].
    split; [exact (firstRequiredFailure_split _ _ _ _ Hsplit)|]. split.
    + pose proof (firstRequiredFailure_found _ _ _ _ Hsplit) as Ff.
      unfold failsRequired in Ff.
      destruct (StrMap.get f (services m)) as [v|] eqn:G; [|discriminate Ff].
      apply andb_prop in Ff. destruct Ff as (Fr & Fq). unfold startRaises in Fr.
      exists v. split; [reflexivity|]. split; [exact Fq|]. split; [exact Fr|].
      split; [rewrite B; reflexivity|]. apply start_raised_state, Fr.
    + intros n v Hn G. rewrite (A n Hn), G. split; [reflexivity|].
      apply rolledBack_state.
  - destruct T as (R & _). cbn [app] in F.
    rewrite (firstRequiredFailure_none _ _ _ Hsplit) in F.
    split; [exact R|].
    intros n v Hn G. rewrite (F n Hn), G. split; [reflexivity|].
    intros Hq.
    assert (Nf : failsRequired m n = false).
    { clear - Hsplit Hn. revert pre Hsplit Hn.
      induction (startOrder m) as [|k l IH]; intros pre Hs Hn; [destruct Hn|].
      cbn in Hs. destruct (failsRequired m k) eqn:E; [discriminate Hs|].
      destruct (firstRequiredFailure m l) as [pre' f'] eqn:E'.
      injection Hs as <- ->. destruct Hn as [<-|Hn]; [exact E|].
      apply (IH pre' eq_refl Hn). }
    unfold failsRequired in Nf. rewrite G, Hq, andb_true_r in Nf.
    unfold startRaises in Nf.
    destruct (start_result_state v) as [(_ & S)|(Rv & _)]; [exact S|].
    rewrite Rv in Nf. discriminate Nf.
Qed.

Lemma restartService_eq : forall n m,
  restartService n m =
  match StrMap.get n (services m) with
  | None => (m, [], Exc (mkExn ServiceError ("Service not found: " +++ n)))
  | Some v => onService n v restart m
  end.
Proof.
  intros n m. unfold restartService. unfold bind at 1, get at 1.
  destruct (StrMap.get n (services m)) as [v|]; [|reflexivity].
  destruct (onService n v restart m) as [[m1 t1] r1]. reflexivity.
Qed.

(** One step of the loop of [getServiceHealth]. *)
Lemma healthEach_cons : forall n names acc m,
  healthEach (n :: names) acc m =
  match StrMap.get n (services m) with
  | None => healthEach names acc m
  | Some v =>
      let m1 := withServices (StrMap.set n (stateOf (healthCheck v)) (services m)) m in
      let h := match resultOf (healthCheck v) with Val b => b | Exc _ => false end in
      let o := healthEach names (StrMap.set n h acc) m1 in
      (stateOf o, traceOf (healthCheck v) ++ traceOf o, resultOf o)
  end.
Proof.
  intros n names acc m. cbn [healthEach]. unfold bind at 1, get at 1.
  destruct (StrMap.get n (services m)) as [v|].
  - unfold bind at 1, tryCatch. rewrite onService_eq. cbv zeta.
    destruct (resultOf (healthCheck v)) as [b|e]; cbn [ret].
    + destruct (healthEach names _ _) as [[m2 t2] r2]. outcome. reflexivity.
    + destruct (healthEach names _ _) as [[m2 t2] r2]. outcome.
      rewrite app_nil_r. reflexivity.
  - destruct (healthEach names acc m) as [[m2 t2] r2]. reflexivity.
Qed.

Lemma states_set_same : forall n v v' (l : StrMap.t (Service Impl)),
  StrMap.get n l = Some v -> state v' = state v ->
  map (fun kv => (fst kv, getState (snd kv))) (StrMap.set n v' l) =
  map (fun kv => (fst kv, getState (snd kv))) l.
Proof.
  intros n v v' l. induction l as [|[k0 v0] l IH]; simpl; [discriminate|].
  destruct (String.eqb n k0) eqn:E; intros G S.
  - injection G as ->. simpl. unfold getState. rewrite S. reflexivity.
  - simpl. rewrite IH by assumption. reflexivity.
Qed.

Lemma healthEach_spec : forall names acc m,
  exists h,
    resultOf (healthEach names acc m) = Val h /\
    getServiceStates (stateOf (healthEach names acc m)) = getServiceStates m /\
    (forall n v, In n names -> StrMap.get n (services m) = Some v ->
       exists b, StrMap.get n h = Some b /\ (state v <> RUNNING -> b = false)) /\
    (forall k, ~ In k names \/ StrMap.get k (services m) = None ->
       StrMap.get k h = StrMap.get k acc).
Proof.
  induction names as [|k names IH]; intros acc m.
  - exists acc. split; [reflexivity|]. split; [reflexivity|].
    split; [intros n v []|reflexivity].
  - rewrite healthEach_cons.
    destruct (StrMap.get k (services m)) as [v0|] eqn:G.
    + cbv zeta.
      destruct (healthCheck_summary v0) as (b0 & Rb & Hb & _ & St & _).
      set (m1 := withServices (StrMap.set k (stateOf (healthCheck v0)) (services m)) m).
      rewrite Rb.
      destruct (IH (StrMap.set k b0 acc) m1) as (h & R & S & A & F).
      exists h. outcome. split; [exact R|]. split; [|split].
      * rewrite S. unfold getServiceStates, m1. cbn [withServices services].
        apply (states_set_same k v0); assumption.
      * intros n v Hn Gn.
        destruct (in_dec string_dec n names) as [Hin|Hout].
        -- destruct (String.eqb k n) eqn:E.
           ++ apply String.eqb_eq in E. subst n.
              assert (v = v0) by congruence. subst v.
              destruct (A k (stateOf (healthCheck v0)) Hin) as (b & Gb & Fb).
              { unfold m1. cbn [withServices services]. apply StrMap_get_set_same. }
              exists b. split; [exact Gb|]. intros Hs. apply Fb. rewrite St. exact Hs.
           ++ apply (A n v Hin). unfold m1. cbn [withServices services].
              rewrite StrMap_get_set_other; [exact Gn|].
              intros ->. rewrite String.eqb_refl in E. discriminate.
        -- destruct Hn as [<-|Hn]; [|contradiction].
           assert (v = v0) by congruence. subst v.
           exists b0. split; [|exact Hb].
           rewrite F by (left; exact Hout). apply StrMap_get_set_same.
      * intros x Hx.
        assert (x <> k) as Hne.
        { intros ->. destruct Hx as [Hx|Hx]; [apply Hx; left; reflexivity|congruence]. }
        rewrite F.
        -- apply StrMap_get_set_other. congruence.
        -- destruct Hx as [Hx|Hx]; [left; intros H; apply Hx; right; exact H|].
           right. unfold m1. cbn [withServices services].
           rewrite StrMap_get_set_other by congruence. exact Hx.
    + destruct (IH acc m) as (h & R & S & A & F).
      exists h. split; [exact R|]. split; [exact S|]. split.
      * intros n v [<-|Hn] Gn; [congruence|]. apply (A n v Hn Gn).
      * intros x [Hx|Hx]; apply F; [left; intros H; apply Hx; right; exact H|right; exact Hx].
Qed.


End ManagerLoops.

Lemma register_then_unregister_witness :
  let svc := plainService "D" ["A"] in
  let m2 := stateOf (unregisterService "D" (stateOf (registerService svc managerABC))) in
  m2 = managerABC.
Proof.
  intros svc m2.
  apply (register_then_unregister svc managerABC); try reflexivity.
  discriminate.
Defined.

Lemma startAll_on_running_services_witness :
  let m := stateOf (startAll managerABC) in
  stateOf (startAll m) = m /\
  resultOf (startAll m) = Val tt /\
  hooksCalled (traceOf (startAll m)) = [] /\
  statesAssigned (traceOf (startAll m)) = [].
Proof.
  intros m. apply (startAll_on_running_services m).
  intros n v Hn G.
  assert (E : startOrder m = ["A"; "B"; "C"]) by reflexivity.
  rewrite E in Hn.
  destruct Hn as [<-|[<-|[<-|[]]]]; vm_compute in G; injection G as <-; reflexivity.
Defined.

Lemma startAll_final_states_witness :
  let m := managerScenarioA in
  NoDup (startOrder m) /\
  firstRequiredFailure m (startOrder m) = (["A"], Some "B") /\
  resultOf (startAll m) =
    Exc (mkExn ServiceError "Required service B failed to start") /\
  option_map state (StrMap.get "A" (services (stateOf (startAll m)))) = Some STOPPED /\
  option_map state (StrMap.get "B" (services (stateOf (startAll m)))) = Some ERROR /\
  option_map state (StrMap.get "C" (services (stateOf (startAll m)))) = Some STOPPED.
Proof.
  intros m.
  assert (ND : NoDup (startOrder m)).
  { vm_compute. repeat constructor; simpl; intuition discriminate. }
  split; [exact ND|]. split; [reflexivity|].
  pose proof (startAll_final_states m ND) as H.
  change (firstRequiredFailure m (startOrder m)) with (["A"], Some "B") in H.
  destruct H as (R & _ & (v & G & _ & _ & Gf & _) & A).
  split; [exact R|]. split; [|split].
  - destruct (A "A" (plainService "A" []) (or_introl eq_refl) eq_refl) as (Ga & _).
    rewrite Ga. reflexivity.
  - rewrite Gf. vm_compute in G. injection G as <-. reflexivity.
  - reflexivity.
Defined.

(** ** Component initializer: outcome of [initialize] *)

Lemma onlyLogs_app : forall t1 t2, onlyLogs t1 -> onlyLogs t2 -> onlyLogs (t1 ++ t2).
Proof.
  intros t1 t2 H1 H2 e He. apply in_app_or in He. destruct He; auto.
Qed.

Lemma onlyLogs_calls : forall h t, onlyLogs t -> callsOf h t = [].
Proof.
  intros h t. induction t as [|e t IH]; intros H; [reflexivity|].
  destruct (H e (or_introl eq_refl)) as (l & m & n & ->). simpl.
  apply IH. intros e He. apply H. right. exact He.
Qed.

Lemma onlyLogs_events : forall t, onlyLogs t -> eventsOf t = [].
Proof.
  induction t as [|e t IH]; intros H; [reflexivity|].
  destruct (H e (or_introl eq_refl)) as (l & m & n & ->). simpl.
  apply IH. intros e He. apply H. right. exact He.
Qed.

(** The warnings of the resolver are those its caller supplies. *)
Section ResolverWarnings.
Variable isRegistered : string -> bool.
Variable depsOf : string -> list string.
Variable cycleError : string -> Exn.
Variable onMissing : string -> string -> list Effect.
Hypothesis onMissing_logs : forall owner d, onlyLogs (onMissing owner d).

Lemma visitDeps_warnings : forall (rec : string -> Dfs -> Outcome Dfs),
  (forall d st st', onlyLogs (warnings st) -> rec d st = Done st' ->
                    onlyLogs (warnings st')) ->
  forall owner deps st st',
    onlyLogs (warnings st) ->
    visitDeps isRegistered onMissing rec owner deps st = Done st' ->
    onlyLogs (warnings st').
Proof.
  intros rec Hrec owner deps. induction deps as [|d deps IH]; intros st st' H E.
  - simpl in E. injection E as <-. exact H.
  - simpl in E. destruct (isRegistered d).
    + destruct (rec d st) as [st1| |] eqn:R; try discriminate E.
      apply (IH st1 st'); [|exact E]. apply (Hrec d st st1 H R).
    + refine (IH _ st' _ E). simpl.
      apply onlyLogs_app; [exact H|apply onMissing_logs].
Qed.

Lemma visit_warnings : forall fuel n st st',
  onlyLogs (warnings st) ->
  visit isRegistered depsOf cycleError onMissing fuel n st = Done st' ->
  onlyLogs (warnings st').
Proof.
  induction fuel as [|fuel IH]; intros n st st' H E; [discriminate E|].
  simpl in E.
  destruct (StrSet.has n (visiting st)); [discriminate E|].
  destruct (StrSet.has n (visited st)); [injection E as <-; exact H|].
  destruct (visitDeps _ _ _ _ _ _) as [st1| |] eqn:D; try discriminate E.
  injection E as <-. simpl.
  refine (visitDeps_warnings _ IH n (depsOf n) _ st1 _ D). exact H.
Qed.

Lemma visitAll_warnings : forall fuel ks st st',
  onlyLogs (warnings st) ->
  visitAll isRegistered depsOf cycleError onMissing fuel ks st = Done st' ->
  onlyLogs (warnings st').
Proof.
  intros fuel ks. induction ks as [|k ks IH]; intros st st' H E.
  - simpl in E. injection E as <-. exact H.
  - simpl in E. destruct (StrSet.has k (visited st)); [apply (IH st st' H E)|].
    destruct (visit _ _ _ _ fuel k st) as [st1| |] eqn:V; try discriminate E.
    apply (IH st1 st'); [|exact E]. apply (visit_warnings fuel k st st1 H V).
Qed.

Lemma topoOrder_warnings : forall keys d,
  topoOrder isRegistered depsOf cycleError onMissing keys = Done d ->
  onlyLogs (warnings d).
Proof.
  intros keys d E.
  refine (visitAll_warnings (S (List.length keys)) keys emptyDfs d _ E).
  intros e [].
Qed.

End ResolverWarnings.

Lemma inert_app : forall t1 t2, inert t1 -> inert t2 -> inert (t1 ++ t2).
Proof.
  intros t1 t2 (A1 & B1) (A2 & B2). split.
  - rewrite callsOf_app, A1, A2. reflexivity.
  - rewrite eventsOf_app, B1, B2. reflexivity.
Qed.

Lemma onlyLogs_inert : forall t, onlyLogs t -> inert t.
Proof. intros t H. split; [apply onlyLogs_calls, H|apply onlyLogs_events, H]. Qed.

Lemma StrMap_has_set_present : forall {V} k x (v v0 : V) (m : StrMap.t V),
  StrMap.get k m = Some v0 -> StrMap.has x (StrMap.set k v m) = StrMap.has x m.
Proof.
  intros V k x v v0 m G. unfold StrMap.has.
  destruct (String.eqb k x) eqn:E.
  - apply String.eqb_eq in E. subst x. rewrite StrMap_get_set_same, G. reflexivity.
  - rewrite StrMap_get_set_other; [reflexivity|].
    intros ->. rewrite String.eqb_refl in E. discriminate.
Qed.

Section InitializeOutcome.
Context {Impl Breaker : Type}.
Variable guarded : Breaker -> nat -> (Impl -> Impl * option string) -> Impl ->
                   Breaker * Impl * option string.
Variable eventBusDelivers : bool.
Implicit Types s : @Initializer Impl Breaker.

Lemma initializeComponent_eq : forall c s,
  initializeComponent guarded c s =
  match StrMap.get (cName c) (circuitBreakers s) with
  | None =>
      (s, [], Exc (mkExn SystemError ("Circuit breaker not found for " +++ cName c)))
  | Some b =>
      let g := guarded b (if cIsRequired c then 3 else 1) (cInitialize c) (cImpl c) in
      (withBreakers (StrMap.set (cName c) (fst (fst g)) (circuitBreakers s))
         (withComponents
            (StrMap.set (cName c) (withCImpl (snd (fst g)) c) (components s)) s),
       [ECall (cName c) HInitialize],
       match snd g with
       | None => Val tt
       | Some msg => Exc (mkExn PlainError msg)
       end)
  end.
Proof.
  intros c s. unfold initializeComponent. run_method.
  destruct (StrMap.get (cName c) (circuitBreakers s)) as [b|]; [|reflexivity].
  cbv zeta.
  destruct (guarded b (if cIsRequired c then 3 else 1) (cInitialize c) (cImpl c))
    as [[b' i] [msg|]]; reflexivity.
Qed.

Lemma attemptable_after_initialize : forall s n c x,
  wellKeyed s -> StrMap.get n (components s) = Some c ->
  attemptable (stateOf (initializeComponent guarded c s)) x = attemptable s x.
Proof.
  intros s n c x WK G. pose proof (WK n c G) as Hn.
  rewrite initializeComponent_eq.
  destruct (StrMap.get (cName c) (circuitBreakers s)) as [b|] eqn:Gb; [|reflexivity].
  cbv zeta. outcome. unfold attemptable.
  cbn [withBreakers withComponents components circuitBreakers].
  rewrite (StrMap_has_set_present (cName c) x _ b _ Gb).
  rewrite Hn. rewrite (StrMap_has_set_present n x _ c _ G). reflexivity.
Qed.

Lemma attemptable_initializedSet : forall s i x,
  attemptable (withInitializedSet i s) x = attemptable s x.
Proof. reflexivity. Qed.

(** The loop of [initialize]: which components it attempts, that it emits
    no event, and how it can end. *)
Lemma initializeEach_calls : forall names result s,
  wellKeyed s ->
  prefixOf (callsOf HInitialize (traceOf (initializeEach guarded names result s)))
    (filter (attemptable s) names) /\
  (raised (resultOf (initializeEach guarded names result s)) = false ->
   callsOf HInitialize (traceOf (initializeEach guarded names result s)) =
     filter (attemptable s) names) /\
  eventsOf (traceOf (initializeEach guarded names result s)) = [].
Proof.
  induction names as [|n names IH]; intros result s WK.
  - simpl. split; [exists []; reflexivity|]. split; reflexivity.
  - rewrite initializeEach_cons.
    destruct (StrMap.get n (components s)) as [c|] eqn:G.
    2:{ assert (At : attemptable s n = false)
          by (unfold attemptable, StrMap.has; rewrite G; reflexivity).
        cbn [filter]. rewrite At. apply IH, WK. }
    pose proof (WK n c G) as Hn.
    pose proof (attemptable_after_initialize s n c) as Att.
    destruct (initializeComponent_frame guarded s n c WK G) as ((WK1 & _) & _).
    specialize (WK1 WK).
    revert Att WK1. rewrite initializeComponent_eq.
    destruct (StrMap.get (cName c) (circuitBreakers s)) as [b|] eqn:Gb.
    + assert (At : attemptable s n = true)
        by (unfold attemptable, StrMap.has; rewrite G, <- Hn, Gb; reflexivity).
      cbn [filter]. rewrite At. cbv zeta. rewrite Hn.
      set (g := guarded b (if cIsRequired c then 3 else 1) (cInitialize c) (cImpl c)).
      set (s1 := withBreakers _ _). intros Att WK1. outcome.
      assert (Same : forall i, filter (attemptable (withInitializedSet i s1)) names =
                               filter (attemptable s) names).
      { intros i. apply filter_ext. intros x. rewrite attemptable_initializedSet.
        apply (Att x WK G). }
      assert (Same1 : filter (attemptable s1) names = filter (attemptable s) names).
      { apply filter_ext. intros x. apply (Att x WK G). }
      destruct (snd g) as [msg|].
      * destruct (cIsRequired c).
        -- outcome. cbn. split; [exists (filter (attemptable s) names); reflexivity|].
           split; [intros R; discriminate R|reflexivity].
        -- cbv zeta. outcome.
           destruct (IH (mkInitResult (success result) (resultInitialized result)
                           (failedComponents result ++
                              [mkFailed n (exnMessage (mkExn PlainError msg)) false])
                           (healthStatus result)) s1 WK1) as ((rest & P) & Q & Ev).
           rewrite Same1 in P, Q.
           rewrite !callsOf_app, !eventsOf_app, Ev.
           change (callsOf HInitialize [ECall n HInitialize]) with [n].
           change (callsOf HInitialize
                     [ELog LError "Component initialization failed" n])
             with (@nil string).
           cbn [app eventsOf flat_map].
           split; [exists rest; rewrite P; reflexivity|].
           split; [intros R; rewrite (Q R); reflexivity|reflexivity].
      * cbv zeta. outcome.
        destruct (IH (mkInitResult (success result) (resultInitialized result ++ [n])
                        (failedComponents result) (healthStatus result))
                    (withInitializedSet (StrSet.add n (initializedComponents s1)) s1))
          as ((rest & P) & Q & Ev); [exact WK1|].
        rewrite Same in P, Q.
        rewrite !callsOf_app, !eventsOf_app, Ev.
        change (callsOf HInitialize [ECall n HInitialize]) with [n].
        change (callsOf HInitialize
                  [ELog LInfo "Component initialized successfully" n])
          with (@nil string).
        cbn [app eventsOf flat_map].
        split; [exists rest; rewrite P; reflexivity|].
        split; [intros R; rewrite (Q R); reflexivity|reflexivity].
    + assert (At : attemptable s n = false)
        by (unfold attemptable, StrMap.has; rewrite G, <- Hn, Gb; reflexivity).
      cbn [filter]. rewrite At.
      intros Att WK1. destruct (cIsRequired c).
      * outcome. cbn. split; [exists (filter (attemptable s) names); reflexivity|].
        split; [intros R; discriminate R|reflexivity].
      * cbv zeta. outcome.
        destruct (IH (mkInitResult (success result) (resultInitialized result)
                        (failedComponents result ++
                           [mkFailed n
                              (exnMessage
                                 (mkExn SystemError
                                    ("Circuit breaker not found for " +++ cName c)))
                              false])
                        (healthStatus result)) s WK) as (P & Q & Ev).
        cbn [app]. split; [exact P|]. split; [exact Q|exact Ev].
Qed.

Lemma throughFirst_ext_in : forall {A} (p q : A -> bool) l,
  (forall x, In x l -> p x = q x) -> throughFirst p l = throughFirst q l.
Proof.
  intros A p q l. induction l as [|a l IH]; intros H; [reflexivity|].
  cbn [throughFirst]. rewrite (H a (or_introl eq_refl)).
  destruct (q a); [reflexivity|]. f_equal. apply IH. intros x Hx. apply H. right. exact Hx.
Qed.

Lemma existsb_ext_in : forall {A} (p q : A -> bool) l,
  (forall x, In x l -> p x = q x) -> existsb p l = existsb q l.
Proof.
  intros A p q l. induction l as [|a l IH]; intros H; [reflexivity|].
  cbn [existsb]. rewrite (H a (or_introl eq_refl)). f_equal.
  apply IH. intros x Hx. apply H. right. exact Hx.
Qed.

Lemma throughFirst_incl : forall {A} (p : A -> bool) l x,
  In x (throughFirst p l) -> In x l.
Proof.
  intros A p l. induction l as [|a l IH]; intros x; [intros []|].
  cbn [throughFirst]. destruct (p a).
  - intros [<-|[]]. left. reflexivity.
  - intros [<-|H]; [left; reflexivity|right; apply IH, H].
Qed.

Lemma throughFirst_NoDup : forall {A} (p : A -> bool) l,
  NoDup l -> NoDup (throughFirst p l).
Proof.
  intros A p l. induction l as [|a l IH]; intros ND; [constructor|].
  inversion ND as [|? ? Ha ND']; subst. cbn [throughFirst]. destruct (p a).
  - constructor; [intros []|constructor].
  - constructor; [|apply IH, ND'].
    intros H. apply Ha. apply (throughFirst_incl p l a H).
Qed.

Lemma throughFirst_none : forall {A} (p : A -> bool) l,
  existsb p l = false -> throughFirst p l = l.
Proof.
  intros A p l. induction l as [|a l IH]; [reflexivity|].
  cbn [existsb throughFirst]. destruct (p a); [discriminate|].
  intros H. rewrite (IH H). reflexivity.
Qed.

(** Going through one component leaves the verdict on every other. *)
Lemma abortsInitialization_after : forall s n c b' i k,
  wellKeyed s -> StrMap.get n (components s) = Some c -> k <> n ->
  abortsInitialization guarded
    (withBreakers (StrMap.set n b' (circuitBreakers s))
       (withComponents (StrMap.set n (withCImpl i c) (components s)) s)) k =
  abortsInitialization guarded s k.
Proof.
  intros s n c b' i k WK G Hk.
  unfold abortsInitialization, initializationFails.
  cbn [withBreakers withComponents components circuitBreakers].
  rewrite StrMap_get_set_other by congruence.
  destruct (StrMap.get k (components s)) as [ck|] eqn:Gk; [|reflexivity].
  rewrite StrMap_get_set_other; [reflexivity|].
  rewrite (WK k ck Gk). congruence.
Qed.

(** The loop of [initialize], exactly: the components handed to their
    circuit breakers are those of the order, up to and including the first
    required one for which [initializeComponent] raises, that are registered
    and have a breaker. *)
Lemma initializeEach_exact : forall names result s,
  NoDup names -> wellKeyed s ->
  callsOf HInitialize (traceOf (initializeEach guarded names result s)) =
    filter (attemptable s) (throughFirst (abortsInitialization guarded s) names) /\
  raised (resultOf (initializeEach guarded names result s)) =
    existsb (abortsInitialization guarded s) names.
Proof.
  induction names as [|n names IH]; intros result s ND WK; [split; reflexivity|].
  inversion ND as [|? ? Hn ND']; subst.
  rewrite initializeEach_cons. cbn [throughFirst existsb].
  destruct (StrMap.get n (components s)) as [c|] eqn:G.
  2:{ assert (Ab : abortsInitialization guarded s n = false)
        by (unfold abortsInitialization, initializationFails; rewrite G; reflexivity).
      assert (At : attemptable s n = false)
        by (unfold attemptable, StrMap.has; rewrite G; reflexivity).
      rewrite Ab. cbn [filter orb]. rewrite At. apply IH; assumption. }
  pose proof (WK n c G) as Hc.
  pose proof (attemptable_after_initialize s n c) as Att.
  destruct (initializeComponent_frame guarded s n c WK G) as ((WK1 & _) & _).
  specialize (WK1 WK).
  revert Att WK1. rewrite initializeComponent_eq.
  unfold abortsInitialization at 1 3, initializationFails. rewrite G.
  destruct (StrMap.get (cName c) (circuitBreakers s)) as [b|] eqn:Gb.
  - assert (At : attemptable s n = true)
      by (unfold attemptable, StrMap.has; rewrite G, <- Hc, Gb; reflexivity).
    cbv zeta. rewrite Hc.
    set (g := guarded b (if cIsRequired c then 3 else 1) (cInitialize c) (cImpl c)).
    set (s1 := withBreakers _ _). intros Att WK1. outcome.
    assert (Ab1 : forall i,
              throughFirst (abortsInitialization guarded (withInitializedSet i s1)) names =
              throughFirst (abortsInitialization guarded s) names).
    { intros i. apply throughFirst_ext_in. intros k Hk.
      change (abortsInitialization guarded (withInitializedSet i s1) k)
        with (abortsInitialization guarded s1 k).
      apply abortsInitialization_after; [exact WK|exact G|].
      intros ->. exact (Hn Hk). }
    assert (Ex1 : forall i,
              existsb (abortsInitialization guarded (withInitializedSet i s1)) names =
              existsb (abortsInitialization guarded s) names).
    { intros i. apply existsb_ext_in. intros k Hk.
      change (abortsInitialization guarded (withInitializedSet i s1) k)
        with (abortsInitialization guarded s1 k).
      apply abortsInitialization_after; [exact WK|exact G|].
      intros ->. exact (Hn Hk). }
    assert (At1 : forall i l,
              filter (attemptable (withInitializedSet i s1)) l =
              filter (attemptable s) l).
    { intros i l. apply filter_ext. intros x. rewrite attemptable_initializedSet.
      apply (Att x WK eq_refl). }
    destruct (snd g) as [msg|].
    + destruct (cIsRequired c).
      * outcome. cbn [andb orb filter]. rewrite At. split; reflexivity.
      * cbv zeta. outcome. cbn [andb orb filter]. rewrite At.
        destruct (IH (mkInitResult (success result) (resultInitialized result)
                        (failedComponents result ++
                           [mkFailed n (exnMessage (mkExn PlainError msg)) false])
                        (healthStatus result)) s1 ND' WK1) as (P & Q).
        assert (Ab0 : throughFirst (abortsInitialization guarded s1) names =
                      throughFirst (abortsInitialization guarded s) names)
          by exact (Ab1 (initializedComponents s1)).
        assert (Ex0 : existsb (abortsInitialization guarded s1) names =
                      existsb (abortsInitialization guarded s) names)
          by exact (Ex1 (initializedComponents s1)).
        assert (At0 : forall l, filter (attemptable s1) l = filter (attemptable s) l)
          by (intros l; exact (At1 (initializedComponents s1) l)).
        rewrite Ab0, At0 in P. rewrite Ex0 in Q.
        rewrite !callsOf_app, P, Q.
        change (callsOf HInitialize [ECall n HInitialize]) with [n].
        change (callsOf HInitialize
                  [ELog LError "Component initialization failed" n])
          with (@nil string).
        split; reflexivity.
    + cbv zeta. outcome. cbn [andb orb filter]. rewrite At.
      destruct (IH (mkInitResult (success result) (resultInitialized result ++ [n])
                      (failedComponents result) (healthStatus result))
                  (withInitializedSet (StrSet.add n (initializedComponents s1)) s1)
                  ND' WK1) as (P & Q).
      rewrite Ab1, At1 in P. rewrite Ex1 in Q.
      rewrite !callsOf_app, P, Q.
      change (callsOf HInitialize [ECall n HInitialize]) with [n].
      change (callsOf HInitialize
                [ELog LInfo "Component initialized successfully" n])
        with (@nil string).
      split; reflexivity.
  - assert (At : attemptable s n = false)
      by (unfold attemptable, StrMap.has; rewrite G, <- Hc, Gb; reflexivity).
    intros Att WK1. destruct (cIsRequired c).
    + outcome. cbn [andb orb filter]. rewrite At. split; reflexivity.
    + cbv zeta. outcome. cbn [andb orb filter]. rewrite At.
      destruct (IH (mkInitResult (success result) (resultInitialized result)
                      (failedComponents result ++
                         [mkFailed n
                            (exnMessage
                               (mkExn SystemError
                                  ("Circuit breaker not found for " +++ cName c)))
                            false])
                      (healthStatus result)) s ND' WK) as (P & Q).
      cbn [app]. split; [exact P|exact Q].
Qed.

Lemma initializeEach_result : forall names result s,
  (forall f, In f (failedComponents result) -> fatal f = false) ->
  match resultOf (initializeEach guarded names result s) with
  | Val r => forall f, In f (failedComponents r) -> fatal f = false
  | Exc e => exists n msg, e = requiredComponentFailed n msg
  end.
Proof.
  induction names as [|n names IH]; intros result s H; [exact H|].
  rewrite initializeEach_cons.
  destruct (StrMap.get n (components s)) as [c|]; [|apply IH, H].
  destruct (initializeComponent guarded c s) as [[s1 t1] [u|e]].
  - cbv zeta. outcome. apply IH. exact H.
  - destruct (cIsRequired c) eqn:Rq.
    + outcome. exists n, (exnMessage e). reflexivity.
    + cbv zeta. outcome. apply IH. cbn [failedComponents].
      intros f Hf. apply in_app_or in Hf. destruct Hf as [Hf|[<-|[]]]; [apply H, Hf|].
      reflexivity.
Qed.

Lemma checkHealthEach_step : forall n names hs s,
  exists hs' t,
    inert t /\
    checkHealthEach (n :: names) hs s =
    let o := checkHealthEach names hs'
               (touched s n (fun c => fst (cGetHealthStatus c (cImpl c)))) in
    (stateOf o, t ++ traceOf o, resultOf o).
Proof.
  intros n names hs s. cbn [checkHealthEach]. unfold touched, bind at 1, get at 1.
  destruct (StrMap.get n (components s)) as [c|].
  2:{ exists hs, []. split; [split; reflexivity|].
      destruct (checkHealthEach names hs s) as [[? ?] ?]. reflexivity. }
  unfold bind at 1, tell at 1.
  destruct (cGetHealthStatus c (cImpl c)) as [i [h|msg]]; cbn [fst].
  - exists (StrMap.set n h hs).
    exists (ECall n HGetHealthStatus ::
            (if healthy h then []
             else [ELog LWarn "Component unhealthy after initialization" n])).
    split; [destruct (healthy h); split; reflexivity|].
    unfold bind at 1, modify at 1. unfold bind at 1.
    destruct (healthy h); unfold ret, tell; cbv zeta;
      destruct (checkHealthEach names _ _) as [[? ?] ?]; outcome;
      rewrite ?app_nil_r; cbn [app]; reflexivity.
  - exists (StrMap.set n (mkHealth false (Some msg)) hs).
    exists [ECall n HGetHealthStatus; ELog LError "Health check failed for component" n].
    split; [split; reflexivity|].
    unfold bind at 1, modify at 1. unfold bind at 1, tell at 1. cbv zeta.
    destruct (checkHealthEach names _ _) as [[? ?] ?]; outcome.
    rewrite ?app_nil_r; cbn [app]; reflexivity.
Qed.

Lemma checkHealthEach_inert : forall names hs s,
  inert (traceOf (checkHealthEach names hs s)).
Proof.
  induction names as [|n names IH]; intros hs s; [split; reflexivity|].
  destruct (checkHealthEach_step n names hs s) as (hs' & t & It & ->).
  cbv zeta. outcome. apply inert_app; [exact It|apply IH].
Qed.

Lemma cleanupEach_step : forall n names s,
  exists t,
    inert t /\
    cleanupEach (n :: names) s =
    let o := cleanupEach names (touched s n (fun c => fst (cShutdown c (cImpl c)))) in
    (stateOf o, t ++ traceOf o, resultOf o).
Proof.
  intros n names s. cbn [cleanupEach]. unfold touched, bind at 1, get at 1.
  destruct (StrMap.get n (components s)) as [c|].
  2:{ exists []. split; [split; reflexivity|].
      destruct (cleanupEach names s) as [[? ?] ?]. reflexivity. }
  unfold bind at 1, tell at 1.
  destruct (cShutdown c (cImpl c)) as [i r]; cbn [fst].
  unfold bind at 1, modify at 1. unfold bind at 1.
  exists [ECall n HShutdown;
          match r with
          | Rejects _ => ELog LError "Cleanup failed for component" n
          | _ => ELog LDebug "Cleaned up component" n
          end].
  split; [destruct r; split; reflexivity|].
  destruct r; unfold tell at 1; cbv zeta;
    destruct (cleanupEach names _) as [[? ?] ?]; outcome;
    rewrite ?app_nil_r; cbn [app]; reflexivity.
Qed.

Lemma cleanupEach_inert : forall names s, inert (traceOf (cleanupEach names s)).
Proof.
  induction names as [|n names IH]; intros s; [split; reflexivity|].
  destruct (cleanupEach_step n names s) as (t & It & ->).
  cbv zeta. outcome. apply inert_app; [exact It|apply IH].
Qed.

Lemma cleanup_inert : forall s, inert (traceOf (cleanupPartialInitialization s)).
Proof.
  intros s. unfold cleanupPartialInitialization. run_method.
  pose proof (cleanupEach_inert (initializedComponents s) s) as I.
  destruct (cleanupEach (initializedComponents s) s) as [[s1 t1] [[]|e]]; outcome.
  - rewrite app_nil_r.
    apply (inert_app [ELog LInfo "Cleaning up partially initialized components..." ""]);
      [split; reflexivity|exact I].
  - apply (inert_app [ELog LInfo "Cleaning up partially initialized components..." ""]);
      [split; reflexivity|exact I].
Qed.

(** The checks after the loop add no call of [initialize], emit the test
    event of the event bus if they get that far, and hand on the lists of
    the result they are given. *)
Lemma performPost_more : forall result s,
  callsOf HInitialize
    (traceOf (performPostInitializationChecks eventBusDelivers result s)) = [] /\
  eventsOf (traceOf (performPostInitializationChecks eventBusDelivers result s)) =
    (if raised (resultOf (performPostInitializationChecks eventBusDelivers result s))
     then [] else [("backend:integration_test", "")]) /\
  forall r2,
    resultOf (performPostInitializationChecks eventBusDelivers result s) = Val r2 ->
    failedComponents r2 = failedComponents result /\
    resultInitialized r2 = resultInitialized result.
Proof.
  intros result s. unfold performPostInitializationChecks. run_method.
  pose proof (checkHealthEach_inert (initializedComponents s) (healthStatus result) s) as I.
  destruct (checkHealthEach _ _ s) as [[s1 t1] [hs|e]]; outcome;
    destruct I as (Ic & Ie).
  - rewrite verifySystemIntegration_eq.
    destruct (missingCritical s1); cbn [fst snd raised].
    + split; [|split].
      * destruct eventBusDelivers; cbn [app];
          change (callsOf HInitialize (ELog ?l ?m ?n :: ?t)) with (callsOf HInitialize t);
          rewrite !callsOf_app, Ic; reflexivity.
      * destruct eventBusDelivers; cbn [app];
          change (eventsOf (ELog ?l ?m ?n :: ?t)) with (eventsOf t);
          rewrite !eventsOf_app, Ie; reflexivity.
      * intros r2 E. injection E as <-. split; reflexivity.
    + split; [|split; [|intros r2 E; discriminate E]].
      * cbn [app].
        change (callsOf HInitialize (ELog ?l ?m ?n :: ?t)) with (callsOf HInitialize t).
        rewrite !callsOf_app, Ic. reflexivity.
      * cbn [app].
        change (eventsOf (ELog ?l ?m ?n :: ?t)) with (eventsOf t).
        rewrite !eventsOf_app, Ie. reflexivity.
  - split; [|split; [|intros r2 E; discriminate E]].
    + cbn [app].
      change (callsOf HInitialize (ELog ?l ?m ?n :: ?t)) with (callsOf HInitialize t).
      exact Ic.
    + cbn [app]. change (eventsOf (ELog ?l ?m ?n :: ?t)) with (eventsOf t). exact Ie.
Qed.

Lemma initOrder_cases : forall s,
  match calculateInitializationOrder s with
  | Done d => onlyLogs (warnings d)
  | Thrown e => exists x, e = initCycleError x
  | OutOfFuel => False
  end.
Proof.
  intros s. unfold calculateInitializationOrder.
  pose proof (topoOrder_spec (initRegistered s) (initDepsOf s) initCycleError
                (fun owner _ => [ELog LWarn "Dependency not found" owner])
                (StrMap.keys (components s))
                (fun n => StrMap_get_In n (components s))) as S.
  pose proof (topoOrder_warnings (initRegistered s) (initDepsOf s) initCycleError
                (fun owner _ => [ELog LWarn "Dependency not found" owner])) as W.
  destruct (topoOrder _ _ _ _ _) as [d|e|] eqn:T; [| |exact S].
  - apply (W (fun owner d0 e H =>
                match H with
                | or_introl E =>
                    ex_intro _ LWarn
                      (ex_intro _ "Dependency not found"
                         (ex_intro _ owner (eq_sym E)))
                | or_intror F => match F with end
                end) _ d T).
  - destruct S as (x & E & _). exists x. exact E.
Qed.

Lemma filter_fatal_none : forall l,
  (forall f, In f l -> fatal f = false) -> filter fatal l = [].
Proof.
  induction l as [|f l IH]; intros H; [reflexivity|]. simpl.
  rewrite (H f (or_introl eq_refl)). apply IH. intros g Hg. apply H. right. exact Hg.
Qed.

Lemma initializeComponents_summary : forall s,
  wellKeyed s ->
  eventsOf (traceOf (initializeComponents guarded s)) = [] /\
  match resultOf (initializeComponents guarded s) with
  | Val r => forall f, In f (failedComponents r) -> fatal f = false
  | Exc e =>
      (exists x, e = initCycleError x) \/
      (exists n msg, e = requiredComponentFailed n msg)
  end.
Proof.
  intros s WK. rewrite initializeComponents_eq.
  pose proof (initOrder_cases s) as C.
  destruct (calculateInitializationOrder s) as [d|e|]; [| |contradiction].
  - cbv zeta. outcome.
    destruct (initializeEach_calls (order d) (mkInitResult false [] [] StrMap.empty)
                (withOrder (order d) s) WK) as (_ & _ & Ev).
    pose proof (initializeEach_result (order d) (mkInitResult false [] [] StrMap.empty)
                  (withOrder (order d) s) (fun f (H : In f []) => match H with end)) as R.
    split.
    + rewrite eventsOf_app, (onlyLogs_events _ C). cbn [app eventsOf flat_map].
      exact Ev.
    + destruct (resultOf (initializeEach guarded (order d) _ _)); [exact R|right; exact R].
  - outcome. split; [reflexivity|left; exact C].
Qed.

Lemma initialize_cases : forall s,
  wellKeyed s -> initialized s = false ->
  match resultOf (initialize guarded eventBusDelivers s) with
  | Val r =>
      success r = true /\
      initialized (stateOf (initialize guarded eventBusDelivers s)) = true /\
      (forall f, In f (failedComponents r) -> fatal f = false) /\
      eventsOf (traceOf (initialize guarded eventBusDelivers s)) =
        [("backend:integration_test", ""); ("backend:initialized", "")]
  | Exc e =>
      ((exists x, e = initCycleError x) \/
       (exists n msg, e = requiredComponentFailed n msg) \/
       (exists missing, e = criticalMissing missing)) /\
      e <> mkExn InitializationError "Backend initialization failed" /\
      initialized (stateOf (initialize guarded eventBusDelivers s)) = false /\
      initializedComponents (stateOf (initialize guarded eventBusDelivers s)) = [] /\
      eventsOf (traceOf (initialize guarded eventBusDelivers s)) = []
  end.
Proof.
  intros s WK Hi.
  assert (Shape : forall e,
            (exists x, e = initCycleError x) \/
            (exists n msg, e = requiredComponentFailed n msg) \/
            (exists missing, e = criticalMissing missing) ->
            e <> mkExn InitializationError "Backend initialization failed").
  { intros e [(x & ->)|[(n & msg & ->)|(l & ->)]] H; discriminate H. }
  assert (Failed : forall s1 t1 e,
            initialized s1 = false -> eventsOf t1 = [] ->
            (exists x, e = initCycleError x) \/
            (exists n msg, e = requiredComponentFailed n msg) \/
            (exists missing, e = criticalMissing missing) ->
            ((exists x, e = initCycleError x) \/
             (exists n msg, e = requiredComponentFailed n msg) \/
             (exists missing, e = criticalMissing missing)) /\
            e <> mkExn InitializationError "Backend initialization failed" /\
            initialized (stateOf (cleanupPartialInitialization s1)) = false /\
            initializedComponents (stateOf (cleanupPartialInitialization s1)) = [] /\
            eventsOf
              (ELog LInfo "Starting backend initialization..." "" :: t1 ++
               ELog LError "Backend initialization failed" "" ::
               traceOf (cleanupPartialInitialization s1)) = []).
  { intros s1 t1 e H1 Ev Sh.
    destruct (cleanup_frame s1) as ((_ & _ & I) & Ci & _).
    destruct (cleanup_inert s1) as (_ & Ec).
    split; [exact Sh|]. split; [apply Shape, Sh|]. split; [congruence|].
    split; [exact Ci|].
    change (eventsOf (ELog LInfo "Starting backend initialization..." "" :: ?t))
      with (eventsOf t).
    rewrite eventsOf_app, Ev.
    change (eventsOf (ELog LError "Backend initialization failed" "" :: ?t))
      with (eventsOf t).
    exact Ec. }
  rewrite (initialize_eq guarded eventBusDelivers s Hi), initializeBody_eq.
  destruct (initializeComponents_frame guarded s WK) as ((_ & _ & I1) & _).
  destruct (initializeComponents_summary s WK) as (Ev1 & R1).
  destruct (initializeComponents guarded s) as [[s1 t1] [result|e]]; outcome.
  2:{ apply Failed; [congruence|exact Ev1|].
      destruct R1 as [H|H]; [left; exact H|right; left; exact H]. }
  destruct (performPost_spec eventBusDelivers result s1) as ((_ & _ & I2) & _ & M).
  destruct (performPost_more result s1) as (_ & Ev2 & Fc).
  destruct (performPostInitializationChecks eventBusDelivers result s1)
    as [[s2 t2] [result2|e]]; outcome; cbn [raised] in Ev2.
  2:{ apply Failed; [congruence|rewrite eventsOf_app, Ev1, Ev2; reflexivity|].
      right. right. destruct (missingCritical s1) as [|x l]; [discriminate M|].
      exists (x :: l). injection M as ->. reflexivity. }
  destruct (Fc result2 eq_refl) as (Fc1 & _).
  rewrite Fc1, (filter_fatal_none _ R1). cbn [List.length Nat.eqb]. outcome.
  split; [reflexivity|]. split; [reflexivity|]. split; [exact R1|].
  change (eventsOf (ELog LInfo "Starting backend initialization..." "" :: ?t))
    with (eventsOf t).
  rewrite !eventsOf_app, Ev1, Ev2. reflexivity.
Qed.

(** X19.  How [initialize()] ends, for an initializer that is not yet
    initialized.  When it returns, the result reports success, the
    initializer is marked initialized, every failure listed is of a component
    that is not required, and the events emitted are the test event
    "backend:integration_test" of the event bus check and then
    "backend:initialized".  When it raises, the error is that of a
    dependency cycle, of a required component that failed, or of a missing
    critical component -- never the "Backend initialization failed" of the
    final success check, which cannot fail; no component is left marked
    initialized, the initializer is not initialized, and no event is emitted
    ("backend:initialization_failed" never is). *)
Theorem initialize_outcome : forall s,
  wellKeyed s -> initialized s = false ->
  match resultOf (initialize guarded eventBusDelivers s) with
  | Val r =>
      success r = true /\
      initialized (stateOf (initialize guarded eventBusDelivers s)) = true /\
      (forall f, In f (failedComponents r) -> fatal f = false) /\
      eventsOf (traceOf (initialize guarded eventBusDelivers s)) =
        [("backend:integration_test", ""); ("backend:initialized", "")]
  | Exc e =>
      ((exists x, e = initCycleError x) \/
       (exists n msg, e = requiredComponentFailed n msg) \/
       (exists missing, e = criticalMissing missing)) /\
      e <> mkExn InitializationError "Backend initialization failed" /\
      initialized (stateOf (initialize guarded eventBusDelivers s)) = false /\
      initializedComponents (stateOf (initialize guarded eventBusDelivers s)) = [] /\
      eventsOf (traceOf (initialize guarded eventBusDelivers s)) = []
  end.
Proof. exact initialize_cases. Qed.

(** X20.  [initialize()] is not re-entrant: once it has returned, a second
    call raises "Backend already initialized" and does nothing -- no
    component is touched, nothing is logged. *)
Theorem initialize_is_not_reentrant : forall s r,
  wellKeyed s ->
  resultOf (initialize guarded eventBusDelivers s) = Val r ->
  initialize guarded eventBusDelivers (stateOf (initialize guarded eventBusDelivers s)) =
    (stateOf (initialize guarded eventBusDelivers s), [],
     Exc (mkExn InitializationError "Backend already initialized")).
Proof.
  intros s r WK R.
  assert (Again : forall s' : @Initializer Impl Breaker,
            initialized s' = true ->
            initialize guarded eventBusDelivers s' =
              (s', [], Exc (mkExn InitializationError "Backend already initialized"))).
  { intros s' H. unfold initialize. unfold bind at 1, get at 1. rewrite H. reflexivity. }
  destruct (initialized s) eqn:Hi.
  - rewrite (Again s Hi) in R. discriminate R.
  - pose proof (initialize_cases s WK Hi) as C. rewrite R in C.
    apply Again. apply C.
Qed.

(** Drops what is no call of [initialize] from a trace. *)
Ltac calls_norm :=
  repeat first
    [ rewrite callsOf_app
    | progress change (callsOf HInitialize (ELog ?l ?m ?n :: ?t))
        with (callsOf HInitialize t)
    | progress change (callsOf HInitialize (EEmit ?a ?b :: ?t))
        with (callsOf HInitialize t)
    | progress change (callsOf HInitialize []) with (@nil string) ].

Lemma initOrder_nodup : forall s d,
  calculateInitializationOrder s = Done d -> NoDup (order d).
Proof.
  intros s d H. unfold calculateInitializationOrder in H.
  pose proof (topoOrder_spec (initRegistered s) (initDepsOf s) initCycleError
                (fun owner _ => [ELog LWarn "Dependency not found" owner])
                (StrMap.keys (components s))
                (fun n => StrMap_get_In n (components s))) as S.
  rewrite H in S. apply S.
Qed.

(** What the rest of [initialize] adds to the loop: no call of a
    component's [initialize]; and it returns only if the loop did. *)
Lemma initialize_calls : forall s,
  initialized s = false ->
  callsOf HInitialize (traceOf (initialize guarded eventBusDelivers s)) =
    callsOf HInitialize (traceOf (initializeComponents guarded s)) /\
  (forall r, resultOf (initialize guarded eventBusDelivers s) = Val r ->
     raised (resultOf (initializeComponents guarded s)) = false).
Proof.
  intros s Hi.
  rewrite (initialize_eq guarded eventBusDelivers s Hi), initializeBody_eq.
  destruct (initializeComponents guarded s) as [[s1 t1] [result|e]]; outcome.
  2:{ destruct (cleanup_inert s1) as (Cc & _). calls_norm.
      rewrite Cc, !app_nil_r. split; [reflexivity|intros r E; discriminate E]. }
  destruct (performPost_more result s1) as (Cp & _ & _).
  destruct (performPostInitializationChecks eventBusDelivers result s1)
    as [[s2 t2] [result2|e]]; outcome.
  2:{ destruct (cleanup_inert s2) as (Cc & _). calls_norm.
      rewrite Cp, Cc, !app_nil_r. split; [reflexivity|intros r E; discriminate E]. }
  destruct (Nat.eqb _ 0); outcome.
  - calls_norm. rewrite Cp, !app_nil_r. split; reflexivity.
  - destruct (cleanup_inert s2) as (Cc & _). calls_norm.
    rewrite Cp, Cc, !app_nil_r. split; [reflexivity|]. intros r H. discriminate H.
Qed.

(** X21.  [initialize()] hands the components to their circuit breakers in
    the computed order, each at most once and only those that are registered
    and have a circuit breaker, and it stops at the first required component
    for which [initializeComponent] raises -- for want of a circuit breaker,
    or because the guarded [initialize] rejects; when [initialize()]
    returns, every such component of the order was handed over.  (How often
    the breaker and its retry then run the component's own [initialize], up
    to three times for a required component, is theirs to decide.) *)
Theorem initialization_follows_the_order : forall s d,
  wellKeyed s -> initialized s = false ->
  calculateInitializationOrder s = Done d ->
  callsOf HInitialize (traceOf (initialize guarded eventBusDelivers s)) =
    filter (attemptable s)
      (throughFirst (abortsInitialization guarded s) (order d)) /\
  NoDup (callsOf HInitialize (traceOf (initialize guarded eventBusDelivers s))) /\
  (forall r, resultOf (initialize guarded eventBusDelivers s) = Val r ->
     callsOf HInitialize (traceOf (initialize guarded eventBusDelivers s)) =
       filter (attemptable s) (order d)).
Proof.
  intros s d WK Hi Ho.
  pose proof (initOrder_cases s) as W. rewrite Ho in W.
  pose proof (initOrder_nodup s d Ho) as ND.
  destruct (initializeEach_exact (order d) (mkInitResult false [] [] StrMap.empty)
              (withOrder (order d) s) ND WK) as (E & X).
  change (attemptable (withOrder (order d) s)) with (attemptable s) in E.
  change (abortsInitialization guarded (withOrder (order d) s))
    with (abortsInitialization guarded s) in E, X.
  assert (C1 : callsOf HInitialize (traceOf (initializeComponents guarded s)) =
               callsOf HInitialize
                 (traceOf (initializeEach guarded (order d)
                             (mkInitResult false [] [] StrMap.empty)
                             (withOrder (order d) s)))).
  { rewrite initializeComponents_eq, Ho. cbv zeta. outcome.
    rewrite callsOf_app, (onlyLogs_calls _ _ W). reflexivity. }
  assert (R1 : resultOf (initializeComponents guarded s) =
               resultOf (initializeEach guarded (order d)
                           (mkInitResult false [] [] StrMap.empty)
                           (withOrder (order d) s))).
  { rewrite initializeComponents_eq, Ho. reflexivity. }
  destruct (initialize_calls s Hi) as (Ci & Ri).
  rewrite Ci, C1, E. split; [reflexivity|]. split.
  - apply NoDup_filter, throughFirst_NoDup, ND.
  - intros r Hr. specialize (Ri r Hr). rewrite R1, X in Ri.
    rewrite (throughFirst_none _ _ Ri). reflexivity.
Qed.

End InitializeOutcome.

(** ** Component initializer: circuit breakers, shutdown, one component *)

Section InitializerMore.
Context {Impl Breaker : Type}.
Variable newBreaker : string -> Breaker.
Variable guarded : Breaker -> nat -> (Impl -> Impl * option string) -> Impl ->
                   Breaker * Impl * option string.
Implicit Types s : @Initializer Impl Breaker.

Lemma no_breaker_for_unknown_type : forall n,
  ~ In n componentTypes ->
  StrMap.get n (circuitBreakers (newInitializer (Impl := Impl) newBreaker)) = None.
Proof.
  intros n H. unfold newInitializer. cbn [circuitBreakers componentTypes fold_left].
  assert (Hne : forall k, In k componentTypes -> k <> n)
    by (intros k Hk ->; exact (H Hk)).
  repeat (rewrite StrMap_get_set_other
            by (apply Hne; unfold componentTypes; simpl; tauto)).
  reflexivity.
Qed.

Lemma registering_keeps_breakers : forall (cs : list (Component Impl)) s,
  circuitBreakers (fold_left (fun s c => stateOf (registerComponent c s)) cs s) =
  circuitBreakers s.
Proof.
  induction cs as [|c cs IH]; intros s; [reflexivity|].
  simpl. rewrite IH. reflexivity.
Qed.

(** X22.  The constructor makes a circuit breaker for eleven component
    names only.  A component of any other name can be registered but not
    initialized: [initializeComponent] raises a SystemError before the
    component's own [initialize] is called, whatever else is registered. *)
Theorem unknown_component_type_cannot_be_initialized :
  forall (cs : list (Component Impl)) c,
  ~ In (cName c) componentTypes ->
  let s := fold_left (fun s c' => stateOf (registerComponent c' s)) cs
             (newInitializer newBreaker) in
  initializeComponent guarded c s =
    (s, [], Exc (mkExn SystemError ("Circuit breaker not found for " +++ cName c))).
Proof.
  intros cs c H s. rewrite initializeComponent_eq.
  unfold s. rewrite registering_keeps_breakers, no_breaker_for_unknown_type by exact H.
  reflexivity.
Qed.

(** The loop of [shutdown] never raises, assigns neither flag, emits no
    event and only removes names from the initialized set. *)
Lemma shutdownEach_flags : forall names s,
  resultOf (shutdownEach names s) = Val tt /\
  initialized (stateOf (shutdownEach names s)) = initialized s /\
  shutdownInProgress (stateOf (shutdownEach names s)) = shutdownInProgress s /\
  eventsOf (traceOf (shutdownEach names s)) = [] /\
  (forall x, In x (initializedComponents (stateOf (shutdownEach names s))) ->
             In x (initializedComponents s)).
Proof.
  induction names as [|n names IH]; intros s; [repeat split; auto|].
  rewrite shutdownEach_cons.
  destruct (negb (StrSet.has n (initializedComponents s))); [apply IH|].
  destruct (StrMap.get n (components s)) as [c|]; [|apply IH].
  cbv zeta. rewrite shutdownComponent_eq. outcome.
  set (s1 := withComponents _ s).
  destruct (snd (cShutdown c (cImpl c))) as [|msg|].
  - destruct (IH (withInitializedSet (StrSet.delete n (initializedComponents s1)) s1))
      as (R & I & P & Ev & Sub).
    split; [exact R|]. split; [exact I|]. split; [exact P|]. split.
    + rewrite !eventsOf_app, Ev. reflexivity.
    + intros x Hx. apply Sub in Hx. cbn [withInitializedSet initializedComponents] in Hx.
      apply StrSet_delete_In in Hx. apply Hx.
  - destruct (IH s1) as (R & I & P & Ev & Sub).
    split; [exact R|]. split; [exact I|]. split; [exact P|]. split.
    + rewrite !eventsOf_app, Ev. reflexivity.
    + exact Sub.
  - destruct (IH s1) as (R & I & P & Ev & Sub).
    split; [exact R|]. split; [exact I|]. split; [exact P|]. split.
    + rewrite !eventsOf_app, Ev. reflexivity.
    + exact Sub.
Qed.

(** Which names the loop of [shutdown] leaves in the initialized set:
    those that were in it, less the names of the loop whose component's
    shutdown resolved. *)
Lemma shutdownEach_remaining : forall names s,
  NoDup names -> wellKeyed s ->
  forall x,
    In x (initializedComponents (stateOf (shutdownEach names s))) <->
    In x (initializedComponents s) /\ ~ (In x names /\ shutsDown s x = true).
Proof.
  clear newBreaker guarded.
  induction names as [|n names IH]; intros s ND WK x.
  { cbn. tauto. }
  inversion ND as [|? ? Hn ND']; subst.
  rewrite shutdownEach_cons.
  destruct (StrSet.has n (initializedComponents s)) eqn:Hh; cbn [negb].
  2:{ rewrite (IH s ND' WK x). apply StrSet_has_not_In in Hh.
      split; intros [Hx Hno]; (split; [exact Hx|]).
      - intros [[->|Hin] Hs]; [exact (Hh Hx)|exact (Hno (conj Hin Hs))].
      - intros [Hin Hs]. exact (Hno (conj (or_intror Hin) Hs)). }
  destruct (StrMap.get n (components s)) as [c|] eqn:G.
  2:{ rewrite (IH s ND' WK x).
      split; intros [Hx Hno]; (split; [exact Hx|]).
      - intros [[->|Hin] Hs]; [|exact (Hno (conj Hin Hs))].
        unfold shutsDown in Hs. rewrite G in Hs. discriminate Hs.
      - intros [Hin Hs]. exact (Hno (conj (or_intror Hin) Hs)). }
  cbv zeta. rewrite shutdownComponent_eq. outcome.
  pose proof (WK n c G) as Hc. rewrite Hc.
  set (s1 := withComponents _ s).
  assert (WK1 : wellKeyed s1) by (exact (proj1 (touch_steady s n c _ G) WK)).
  assert (Same : forall y, y <> n -> shutsDown s1 y = shutsDown s y).
  { intros y Hy. unfold shutsDown, s1. cbn [components withComponents].
    rewrite StrMap_get_set_other by congruence. reflexivity. }
  assert (Own : shutsDown s n =
                match snd (cShutdown c (cImpl c)) with Resolves => true | _ => false end).
  { unfold shutsDown. rewrite G. reflexivity. }
  assert (Step : forall P : Prop,
            (In x names -> x <> n) ->
            ((In x names /\ shutsDown s1 x = true) <-> (In x names /\ shutsDown s x = true))).
  { intros _ Hne. split; intros [Hin Hs]; (split; [exact Hin|]).
    - rewrite <- (Same x (Hne Hin)). exact Hs.
    - rewrite (Same x (Hne Hin)). exact Hs. }
  assert (Hne : In x names -> x <> n) by (intros Hin ->; exact (Hn Hin)).
  specialize (Step True Hne).
  destruct (snd (cShutdown c (cImpl c))) as [|msg|].
  - set (s2 := withInitializedSet _ s1).
    assert (WK2 : wellKeyed s2) by exact WK1.
    rewrite (IH s2 ND' WK2 x).
    change (shutsDown s2 x) with (shutsDown s1 x). rewrite Step.
    unfold s2. cbn [withInitializedSet initializedComponents].
    rewrite StrSet_delete_In.
    change (initializedComponents s1) with (initializedComponents s).
    split.
    + intros [[Hx Hxn] Hno]. split; [exact Hx|].
      intros [[->|Hin] Hs]; [exact (Hxn eq_refl)|exact (Hno (conj Hin Hs))].
    + intros [Hx Hno]. split; [split; [exact Hx|]|].
      * intros ->. apply Hno. split; [left; reflexivity|exact Own].
      * intros [Hin Hs]. exact (Hno (conj (or_intror Hin) Hs)).
  - rewrite (IH s1 ND' WK1 x). rewrite Step.
    change (initializedComponents s1) with (initializedComponents s).
    split; intros [Hx Hno]; (split; [exact Hx|]).
    + intros [[->|Hin] Hs]; [rewrite Own in Hs; discriminate Hs|exact (Hno (conj Hin Hs))].
    + intros [Hin Hs]. exact (Hno (conj (or_intror Hin) Hs)).
  - rewrite (IH s1 ND' WK1 x). rewrite Step.
    change (initializedComponents s1) with (initializedComponents s).
    split; intros [Hx Hno]; (split; [exact Hx|]).
    + intros [[->|Hin] Hs]; [rewrite Own in Hs; discriminate Hs|exact (Hno (conj Hin Hs))].
    + intros [Hin Hs]. exact (Hno (conj (or_intror Hin) Hs)).
Qed.

(** X23.  [shutdown()] never raises.  It does nothing when the
    initializer is not initialized or a shutdown is in progress.  Otherwise
    it ends with both flags cleared and "backend:shutdown" as its one event,
    and it only ever removes components from the initialized set.  When the
    stored order has no duplicates and every component is stored under its
    own name, the set afterwards is exactly the set before less the
    components of the order whose shutdown resolved in time: a component
    whose shutdown rejected or timed out stays in the set, although the
    initializer is no longer marked initialized, and so does one that is
    not in the order. *)
Theorem shutdown_outcome : forall s,
  resultOf (shutdown s) = Val tt /\
  (initialized s = false \/ shutdownInProgress s = true ->
   shutdown s = (s, [], Val tt)) /\
  (initialized s = true -> shutdownInProgress s = false ->
   initialized (stateOf (shutdown s)) = false /\
   shutdownInProgress (stateOf (shutdown s)) = false /\
   eventsOf (traceOf (shutdown s)) = [("backend:shutdown", "")] /\
   (forall x, In x (initializedComponents (stateOf (shutdown s))) ->
              In x (initializedComponents s)) /\
   (NoDup (initializationOrder s) -> wellKeyed s ->
    forall x,
      In x (initializedComponents (stateOf (shutdown s))) <->
      In x (initializedComponents s) /\
      ~ (In x (initializationOrder s) /\ shutsDown s x = true))).
Proof.
  clear newBreaker guarded.
  intros s. unfold shutdown. run_method.
  destruct (shutdownEach_flags (shutdownOrder s) (withShutdownInProgress true s))
    as (R & I & P & Ev & Sub).
  pose proof (shutdownEach_remaining (shutdownOrder s) (withShutdownInProgress true s))
    as Rem.
  destruct (initialized s) eqn:Hi; cbn [negb orb].
  - destruct (shutdownInProgress s) eqn:Hp.
    + split; [reflexivity|]. split; [reflexivity|]. intros _ H. discriminate H.
    + destruct (shutdownEach _ _) as [[s1 t1] r1]. outcome. subst r1. cbn [fst snd].
      split; [reflexivity|]. split; [intros [H|H]; discriminate H|].
      intros _ _. split; [reflexivity|]. split; [reflexivity|]. split; [|split].
      * cbn [app].
        change (eventsOf (ELog LInfo "Starting backend shutdown..." "" :: ?t))
          with (eventsOf t).
        rewrite eventsOf_app, Ev. reflexivity.
      * exact Sub.
      * intros ND WK x.
        cbn [withShutdownInProgress withInitialized initializedComponents].
        assert (ND' : NoDup (shutdownOrder s)) by (apply NoDup_rev; exact ND).
        rewrite (Rem ND' WK x). unfold shutdownOrder. rewrite <- in_rev.
        reflexivity.
  - split; [reflexivity|]. split; [reflexivity|]. intros H. discriminate H.
Qed.


End InitializerMore.

(** One run of X23: of three initialized components the shutdown of
    "eventBus" rejects; it alone is still in the set of a backend that is
    no longer marked initialized. *)
Lemma shutdown_outcome_witness :
  resultOf (shutdown stubbornSample) = Val tt /\
  initialized (stateOf (shutdown stubbornSample)) = false /\
  shutsDown stubbornSample "eventBus" = false /\
  (forall x, In x (initializedComponents (stateOf (shutdown stubbornSample))) <->
             In x ["logger"; "eventBus"; "config"] /\
             ~ (In x ["logger"; "eventBus"; "config"] /\
                shutsDown stubbornSample x = true)) /\
  initializedComponents (stateOf (shutdown stubbornSample)) = ["eventBus"].
Proof.
  assert (ND : NoDup (initializationOrder stubbornSample)).
  { vm_compute. repeat constructor; simpl; intuition discriminate. }
  assert (WK : wellKeyed stubbornSample).
  { intros n c G.
    assert (components stubbornSample =
            [("eventBus", withCImpl 1 (stubbornComponent "eventBus" ["logger"]));
             ("config", withCImpl 1 (sampleComponent "config" ["logger"]));
             ("logger", withCImpl 1 (sampleComponent "logger" []))]) as E
      by (vm_compute; reflexivity).
    rewrite E in G. cbn [StrMap.get] in G.
    repeat match type of G with
           | (if String.eqb n ?k then _ else _) = _ =>
               destruct (String.eqb n k) eqn:?;
               [injection G as <-; symmetry; apply String.eqb_eq; assumption|]
           end.
    discriminate. }
  assert (Hi : initialized stubbornSample = true) by (vm_compute; reflexivity).
  assert (Hp : shutdownInProgress stubbornSample = false) by (vm_compute; reflexivity).
  assert (Eo : initializationOrder stubbornSample = ["logger"; "eventBus"; "config"])
    by (vm_compute; reflexivity).
  assert (Es : initializedComponents stubbornSample = ["logger"; "eventBus"; "config"])
    by (vm_compute; reflexivity).
  destruct (shutdown_outcome stubbornSample) as (R & _ & H).
  destruct (H Hi Hp) as (I & _ & _ & _ & Rem).
  specialize (Rem ND WK). rewrite Eo, Es in Rem.
  split; [exact R|]. split; [exact I|]. split; [vm_compute; reflexivity|].
  split; [exact Rem|vm_compute; reflexivity].
Defined.

(** ** The further properties on concrete initializers *)

Lemma registered_wellKeyed :
  forall {Impl Breaker} (cs : list (Component Impl)) (s : @Initializer Impl Breaker),
  wellKeyed s ->
  wellKeyed (fold_left (fun s c => stateOf (registerComponent c s)) cs s).
Proof.
  intros Impl Breaker cs. induction cs as [|c cs IH]; intros s WK; [exact WK|].
  simpl. apply IH. apply registerComponent_frame. exact WK.
Qed.

Lemma sampleInitializer_wellKeyed : forall names, wellKeyed (sampleInitializer names).
Proof.
  intros names. unfold sampleInitializer.
  assert (G : forall (s : @Initializer nat unit), wellKeyed s ->
            wellKeyed (fold_left
              (fun s nd => stateOf (registerComponent (sampleComponent (fst nd) (snd nd)) s))
              names s)).
  { induction names as [|nd names IH]; intros s WK; [exact WK|].
    simpl. apply IH. apply registerComponent_frame. exact WK. }
  apply G. intros n c H. discriminate H.
Qed.

Lemma initialize_outcome_witness :
  let s := sampleInitializer [("eventBus", ["logger"]); ("config", ["logger"]);
                              ("logger", [])] in
  wellKeyed s /\ initialized s = false /\
  (exists r, resultOf (initialize onceGuarded true s) = Val r /\ success r = true) /\
  initialized (stateOf (initialize onceGuarded true s)) = true /\
  eventsOf (traceOf (initialize onceGuarded true s)) =
    [("backend:integration_test", ""); ("backend:initialized", "")].
Proof.
  intros s. split; [apply sampleInitializer_wellKeyed|]. split; [reflexivity|].
  pose proof (initialize_outcome onceGuarded true s (sampleInitializer_wellKeyed _)
                eq_refl) as H.
  destruct (resultOf (initialize onceGuarded true s)) as [r|e] eqn:R.
  - destruct H as (Sr & Si & _ & Ev).
    split; [exists r; split; [reflexivity|exact Sr]|]. split; [exact Si|exact Ev].
  - vm_compute in R. discriminate R.
Defined.

Lemma initialize_is_not_reentrant_witness :
  let s := sampleInitializer [("eventBus", ["logger"]); ("config", ["logger"]);
                              ("logger", [])] in
  wellKeyed s /\
  (exists r, resultOf (initialize onceGuarded true s) = Val r) /\
  initialize onceGuarded true (stateOf (initialize onceGuarded true s)) =
    (stateOf (initialize onceGuarded true s), [],
     Exc (mkExn InitializationError "Backend already initialized")).
Proof.
  intros s. split; [apply sampleInitializer_wellKeyed|].
  destruct (resultOf (initialize onceGuarded true s)) as [r|e] eqn:R.
  - split; [exists r; reflexivity|].
    apply (initialize_is_not_reentrant onceGuarded true s r
             (sampleInitializer_wellKeyed _) R).
  - vm_compute in R. discriminate R.
Defined.

Lemma initialization_follows_the_order_witness :
  let s := sampleInitializer [("eventBus", ["logger"]); ("config", ["logger"]);
                              ("logger", []); ("scheduler", ["config"]);
                              ("cache", ["scheduler"])] in
  wellKeyed s /\ initialized s = false /\
  exists d,
    calculateInitializationOrder s = Done d /\
    order d = ["logger"; "eventBus"; "config"; "scheduler"; "cache"] /\
    throughFirst (abortsInitialization onceGuarded s) (order d) =
      ["logger"; "eventBus"; "config"; "scheduler"] /\
    callsOf HInitialize (traceOf (initialize onceGuarded true s)) =
      ["logger"; "eventBus"; "config"].
Proof.
  intros s. split; [apply sampleInitializer_wellKeyed|]. split; [reflexivity|].
  destruct (calculateInitializationOrder s) as [d|e|] eqn:Ho.
  - exists d. split; [reflexivity|].
    assert (Od : order d = ["logger"; "eventBus"; "config"; "scheduler"; "cache"]).
    { vm_compute in Ho. injection Ho as <-. reflexivity. }
    split; [exact Od|]. split; [rewrite Od; vm_compute; reflexivity|].
    rewrite (proj1 (initialization_follows_the_order onceGuarded true s d
                      (sampleInitializer_wellKeyed _) eq_refl Ho)).
    rewrite Od. vm_compute. reflexivity.
  - vm_compute in Ho. discriminate Ho.
  - vm_compute in Ho. discriminate Ho.
Defined.

Lemma unknown_component_type_cannot_be_initialized_witness :
  let c := sampleComponent "scheduler" ["logger"] in
  let s := fold_left (fun s c' => stateOf (registerComponent c' s))
             [sampleComponent "logger" []; c] (newInitializer (fun _ => tt)) in
  ~ In (cName c) componentTypes /\
  initializeComponent onceGuarded c s =
    (s, [], Exc (mkExn SystemError "Circuit breaker not found for scheduler")).
Proof.
  intros c s.
  assert (H : ~ In (cName c) componentTypes).
  { simpl. intros H.
    repeat (destruct H as [H|H]; [discriminate H|]). exact H. }
  split; [exact H|].
  apply (unknown_component_type_cannot_be_initialized (fun _ => tt) onceGuarded
           [sampleComponent "logger" []; c] c H).
Defined.

(** ** Orchestrator: queries and callers *)

Lemma StrMap_get_map : forall {A B} (f : A -> B) n (l : StrMap.t A),
  StrMap.get n (map (fun kv => (fst kv, f (snd kv))) l) = option_map f (StrMap.get n l).
Proof.
  intros A B f n l. induction l as [|[k v] l IH]; [reflexivity|].
  simpl. destruct (String.eqb n k); [reflexivity|exact IH].
Qed.

(** [getServiceHealth] of the manager never raises and leaves the states. *)
Lemma managerHealth_summary : forall {Impl} (m : @Manager Impl),
  exists h,
    resultOf (getServiceHealth m) = Val h /\
    getServiceStates (stateOf (getServiceHealth m)) = getServiceStates m /\
    (forall n v, StrMap.get n (services m) = Some v ->
       exists b, StrMap.get n h = Some b /\ (state v <> RUNNING -> b = false)) /\
    (forall n, StrMap.get n (services m) = None -> StrMap.get n h = None).
Proof.
  intros Impl m. unfold getServiceHealth. unfold bind, get.
  destruct (healthEach_spec (StrMap.keys (services m)) StrMap.empty m)
    as (h & R & S & A & F).
  destruct (healthEach _ _ m) as [[m1 t1] r1]. outcome.
  exists h. split; [exact R|]. split; [exact S|]. split.
  - intros n v G. apply (A n v); [|exact G]. apply (StrMap_get_some_In n v), G.
  - intros n G. rewrite F by (right; exact G). reflexivity.
Qed.

Section OrchestratorQueries.
Context {Impl Breaker : Type}.

Local Abbreviation Orch := (BackendOrchestrator.Orchestrator Impl Breaker).
Local Abbreviation managerOf := (BackendOrchestrator.serviceManager Impl Breaker).
Local Abbreviation initializerOf := (BackendOrchestrator.initializer Impl Breaker).
Local Abbreviation initializedOf := (BackendOrchestrator.orchInitialized Impl Breaker).
Local Abbreviation verifySystemHealth := (BackendOrchestrator.verifySystemHealth Impl Breaker).

(** X26.  [verifySystemHealth] changes the state of no service.  It returns
    only if each of the four critical services is registered, RUNNING and
    answered its health check with true; otherwise it raises a SystemError
    that lists, in the order terminalManager, coordinationManager,
    memoryManager, mcpServer, exactly the critical services of which this
    does not hold. *)
Theorem verifySystemHealth_outcome : forall o : Orch,
  getServiceStates (managerOf (stateOf (verifySystemHealth o))) =
    getServiceStates (managerOf o) /\
  exists h,
    resultOf (getServiceHealth (managerOf o)) = Val h /\
    let sound n :=
      answersHealthy h n &&
      match StrMap.get n (services (managerOf o)) with
      | Some v => ServiceState_eqb (state v) RUNNING
      | None => false
      end in
    match resultOf (verifySystemHealth o) with
    | Val res =>
        forall n, In n BackendOrchestrator.criticalServices ->
          answersHealthy h n = true /\
          exists v, StrMap.get n (services (managerOf o)) = Some v /\ state v = RUNNING
    | Exc e =>
        let failures :=
          filter (fun n => negb (sound n)) BackendOrchestrator.criticalServices in
        failures <> [] /\
        e = mkExn SystemError
              ("Critical services failed: " +++ String.concat ", " failures)
    end.
Proof.
  intros o.
  destruct (managerHealth_summary (managerOf o)) as (h & R & S & _).
  unfold BackendOrchestrator.verifySystemHealth, BackendOrchestrator.onManager.
  run_method.
  destruct (getServiceHealth (managerOf o)) as [[g t] r]. outcome. subst r.
  cbn [fst snd BackendOrchestrator.serviceManager].
  assert (F : forall n,
            negb (match StrMap.get n h with Some b => b | None => false end) ||
            negb (match StrMap.get n (getServiceStates g) with
                  | Some st => ServiceState_eqb st RUNNING
                  | None => false
                  end) =
            negb (answersHealthy h n &&
                  match StrMap.get n (services (managerOf o)) with
                  | Some v => ServiceState_eqb (state v) RUNNING
                  | None => false
                  end)).
  { intros n. rewrite S. unfold getServiceStates, answersHealthy.
    rewrite StrMap_get_map. rewrite negb_andb.
    destruct (StrMap.get n (services (managerOf o))); reflexivity. }
  rewrite (filter_ext _ _ F).
  set (failures := filter _ BackendOrchestrator.criticalServices).
  destruct failures as [|f fs] eqn:E; cbn [List.length Nat.ltb Nat.leb fst snd].
  - split; [exact S|]. exists h. split; [reflexivity|]. cbv zeta.
    intros n Hn.
    assert (Hs : negb (answersHealthy h n &&
                  match StrMap.get n (services (managerOf o)) with
                  | Some v => ServiceState_eqb (state v) RUNNING
                  | None => false
                  end) = false).
    { destruct (negb _) eqn:Hb; [|reflexivity].
      assert (In n failures) as Hin by (apply filter_In; split; assumption).
      rewrite E in Hin. destruct Hin. }
    apply negb_false_iff, andb_true_iff in Hs. destruct Hs as (Ha & Hv).
    split; [exact Ha|].
    destruct (StrMap.get n (services (managerOf o))) as [v|]; [|discriminate Hv].
    exists v. split; [reflexivity|]. apply ServiceState_eqb_eq. exact Hv.
  - split; [exact S|]. exists h. split; [reflexivity|]. cbv zeta.
    fold failures. rewrite E. split; [discriminate|reflexivity].
Qed.

End OrchestratorQueries.

Lemma StrMap_get_pair_In : forall {V} k (v : V) (m : StrMap.t V),
  StrMap.get k m = Some v -> In (k, v) m.
Proof.
  intros V k v m. induction m as [|[k' v'] m IH]; simpl; [discriminate|].
  destruct (String.eqb k k') eqn:E.
  - intros H. injection H as ->. apply String.eqb_eq in E. subst k'. left. reflexivity.
  - intros H. right. apply IH, H.
Qed.

Lemma filter_nil_forall : forall {A} (f : A -> bool) l,
  filter f l = [] <-> forall x, In x l -> f x = false.
Proof.
  intros A f l. induction l as [|a l IH]; simpl.
  - split; [intros _ x []|reflexivity].
  - destruct (f a) eqn:E.
    + split; [discriminate|]. intros H. rewrite (H a) in E by (left; reflexivity).
      discriminate E.
    + rewrite IH. split.
      * intros H x [<-|Hx]; [exact E|apply H, Hx].
      * intros H x Hx. apply H. right. exact Hx.
Qed.

Section OrchestratorCalls.
Context {Impl Breaker : Type}.
Variable newBreaker : string -> Breaker.
Variable guarded : Breaker -> nat -> (Impl -> Impl * option string) -> Impl ->
                   Breaker * Impl * option string.
Variable eventBusDelivers : bool.
Variable loggerConfigure : Impl -> Impl * option string.
Variable loggerClose : Impl -> Impl * Settle.
Variable freshImpl : Impl.
Variable terminalHooks memoryHooks mcpHooks : Hooks Impl.
Variable coordinationConfig : CoordinationConfig.
Variable coordDoStart coordDoStop : Impl -> Impl * Settle.
Variable coordAfterStart coordBeforeStop coordAfterStop : Impl -> Impl * option string.
Variable coordDoHealthCheck : Impl -> Impl * (bool + string).

Local Abbreviation Orch := (BackendOrchestrator.Orchestrator Impl Breaker).
Local Abbreviation managerOf := (BackendOrchestrator.serviceManager Impl Breaker).
Local Abbreviation initializerOf := (BackendOrchestrator.initializer Impl Breaker).
Local Abbreviation initializedOf := (BackendOrchestrator.orchInitialized Impl Breaker).
Local Abbreviation newOrchestrator :=
  (BackendOrchestrator.newOrchestrator Impl Breaker newBreaker).
Local Abbreviation orchInitialize :=
  (BackendOrchestrator.initialize Impl Breaker guarded eventBusDelivers
     loggerConfigure loggerClose freshImpl terminalHooks memoryHooks mcpHooks
     coordinationConfig coordDoStart coordDoStop coordAfterStart coordBeforeStop
     coordAfterStop coordDoHealthCheck).
Local Abbreviation orchRestart :=
  (BackendOrchestrator.restart Impl Breaker guarded eventBusDelivers
     loggerConfigure loggerClose freshImpl terminalHooks memoryHooks mcpHooks
     coordinationConfig coordDoStart coordDoStop coordAfterStart coordBeforeStop
     coordAfterStop coordDoHealthCheck).
Local Abbreviation corePhase :=
  (BackendOrchestrator.initializeCoreComponents Impl Breaker guarded eventBusDelivers
     loggerConfigure loggerClose freshImpl).
Local Abbreviation withCore :=
  (afterCoreRegistration loggerConfigure loggerClose freshImpl).
Local Abbreviation call :=
  (OrchestratorApi.call Impl Breaker guarded eventBusDelivers
     loggerConfigure loggerClose freshImpl terminalHooks memoryHooks mcpHooks
     coordinationConfig coordDoStart coordDoStop coordAfterStart coordBeforeStop
     coordAfterStop coordDoHealthCheck).
Local Abbreviation callAll :=
  (OrchestratorApi.callAll Impl Breaker guarded eventBusDelivers
     loggerConfigure loggerClose freshImpl terminalHooks memoryHooks mcpHooks
     coordinationConfig coordDoStart coordDoStop coordAfterStart coordBeforeStop
     coordAfterStop coordDoHealthCheck).
Local Abbreviation getStatus := (OrchestratorApi.getStatus Impl Breaker).
Local Abbreviation orchRestartService := (OrchestratorApi.restartService Impl Breaker).
Local Abbreviation orchGetServiceHealth := (OrchestratorApi.getServiceHealth Impl Breaker).
Local Abbreviation checkBackendHealth := (OrchestratorApi.checkBackendHealth Impl Breaker).

(** [checkBackendHealth] on any orchestrator: two rounds of health checks,
    no exception. *)
Lemma checkBackendHealth_eq : forall o : Orch,
  exists h h2 g2 t,
    resultOf (getServiceHealth (managerOf o)) = Val h /\
    getServiceStates g2 = getServiceStates (managerOf o) /\
    checkBackendHealth o =
      (BackendOrchestrator.mkOrchestrator Impl Breaker (initializerOf o) g2
         (initializedOf o), t,
       Val (mkBackendHealth
              (Nat.eqb (List.length
                          (map fst (filter (fun kv => negb (snd kv)) h))) 0 &&
               initializedOf o)
              h
              (map (fun service => "Service " +++ service +++ " is unhealthy")
                 (map fst (filter (fun kv : string * bool => negb (snd kv)) h))))) /\
    resultOf (getServiceHealth (stateOf (getServiceHealth (managerOf o)))) = Val h2.
Proof.
  intros o.
  destruct (managerHealth_summary (managerOf o)) as (h & R & S & _).
  destruct (managerHealth_summary (stateOf (getServiceHealth (managerOf o))))
    as (h2 & R2 & S2 & _).
  unfold OrchestratorApi.checkBackendHealth, OrchestratorApi.getServiceHealth,
    OrchestratorApi.getStatus, BackendOrchestrator.onManager.
  run_method.
  destruct (getServiceHealth (managerOf o)) as [[g t] r]. cbn [fst snd] in *. subst r.
  cbn [BackendOrchestrator.serviceManager BackendOrchestrator.initializer
       BackendOrchestrator.orchInitialized].
  destruct (getServiceHealth g) as [[g2 t2] r2]. cbn [fst snd] in *. subst r2.
  cbn [BackendOrchestrator.orchInitialized statusInitialized].
  exists h, h2, g2. eexists. split; [reflexivity|]. split; [congruence|].
  split; reflexivity.
Qed.

(** X27.  [checkBackendHealth] never raises and never reports "Health check
    failed": both queries it makes are safe.  Its [services] are the
    answers of the first of two rounds of health checks, its [issues] name
    exactly the services that answered false, and it reports healthy if and
    only if the orchestrator is initialized and no service answered false --
    in which case every registered service is RUNNING.  No service changes
    state. *)
Theorem checkBackendHealth_outcome : forall o : Orch,
  exists res,
    resultOf (checkBackendHealth o) = Val res /\
    resultOf (getServiceHealth (managerOf o)) = Val (bhServices res) /\
    bhIssues res =
      map (fun kv => "Service " +++ fst kv +++ " is unhealthy")
        (filter (fun kv : string * bool => negb (snd kv)) (bhServices res)) /\
    (bhHealthy res = true <->
       initializedOf o = true /\
       forall n b, In (n, b) (bhServices res) -> b = true) /\
    (bhHealthy res = true ->
       forall n v, StrMap.get n (services (managerOf o)) = Some v -> state v = RUNNING) /\
    getServiceStates (managerOf (stateOf (checkBackendHealth o))) =
      getServiceStates (managerOf o).
Proof.
  intros o.
  destruct (managerHealth_summary (managerOf o)) as (h' & R' & _ & A & _).
  destruct (checkBackendHealth_eq o) as (h & h2 & g2 & t & R & S & -> & _).
  assert (h' = h) by congruence. subst h'.
  eexists. outcome. split; [reflexivity|]. cbn [bhServices bhIssues bhHealthy].
  assert (Hh : Nat.eqb (List.length (map fst (filter (fun kv : string * bool =>
                  negb (snd kv)) h))) 0 = true <->
               forall n b, In (n, b) h -> b = true).
  { rewrite Nat.eqb_eq, length_map, length_zero_iff_nil, filter_nil_forall.
    split.
    - intros H n b Hin. specialize (H _ Hin). simpl in H.
      destruct b; [reflexivity|discriminate H].
    - intros H [n b] Hin. rewrite (H n b Hin). reflexivity. }
  split; [exact R|]. split; [rewrite map_map; reflexivity|]. split; [|split].
  - rewrite andb_true_iff, Hh. tauto.
  - rewrite andb_true_iff, Hh. intros (Hall & _) n v G.
    destruct (A n v G) as (b & Gb & Fb).
    apply StrMap_get_pair_In in Gb. apply Hall in Gb. subst b.
    destruct (state v) eqn:E; try reflexivity;
      (assert (true = false) as X by (apply Fb; discriminate); discriminate X).
  - cbn [BackendOrchestrator.serviceManager]. exact S.
Qed.

Lemma orchestrator_eta : forall o : Orch,
  BackendOrchestrator.mkOrchestrator Impl Breaker (initializerOf o) (managerOf o)
    (initializedOf o) = o.
Proof. intros []. reflexivity. Qed.

(** After the failed [initialize] the manager is as [stopAll] left it. *)
Lemma orchInitialize_manager : forall o : Orch,
  neverReady o ->
  managerOf (stateOf (orchInitialize o)) = stateOf (stopAll (managerOf o)).
Proof.
  intros o (Ho & Hi & WK & Hk & Hc).
  assert (W : wellKeyed (withCore (initializerOf o)) /\
              initialized (withCore (initializerOf o)) = false /\
              ~ In "config" (StrMap.keys (components (withCore (initializerOf o)))) /\
              ~ In "config" (initializedComponents (withCore (initializerOf o)))).
  { unfold afterCoreRegistration.
    destruct (registerComponent_frame
                (BackendOrchestrator.createLoggerComponent Impl loggerConfigure
                   loggerClose freshImpl) (initializerOf o) WK)
      as (W1 & I1 & C1 & _ & K1).
    destruct (registerComponent_frame
                (BackendOrchestrator.createEventBusComponent Impl freshImpl) _ W1)
      as (W2 & I2 & C2 & _ & K2).
    split; [exact W2|]. split; [congruence|]. split; [|congruence].
    intros H. destruct (K2 _ H) as [E|H1]; [discriminate|].
    destruct (K1 _ H1) as [E|H2]; [discriminate|contradiction]. }
  destruct W as (W1 & I1 & K1 & C1).
  destruct (initialize_without_config guarded eventBusDelivers _ W1 I1 K1 C1)
    as (R & _).
  unfold BackendOrchestrator.initialize. unfold bind at 1, get at 1. rewrite Ho.
  unfold bind at 1, tell at 1. unfold tryCatch. unfold bind at 1.
  destruct (corePhase_eq guarded eventBusDelivers loggerConfigure loggerClose
              freshImpl o) as [t ->]. cbv zeta.
  destruct (resultOf (initialize guarded eventBusDelivers (withCore (initializerOf o))))
    as [res|e]; [discriminate|].
  unfold bind at 1, tell at 1. unfold bind at 1.
  unfold BackendOrchestrator.cleanup, BackendOrchestrator.onManager. run_method.
  cbn [BackendOrchestrator.serviceManager].
  destruct (stopAll (managerOf o)) as [[g2 t2] [[]|e2]]; reflexivity.
Qed.

(** What every call keeps: the orchestrator is not initialized and its
    service manager is as the constructor made it. *)
Lemma call_keeps_idle : forall c (o : Orch),
  neverReady o -> managerOf o = newManager ->
  neverReady (stateOf (call c o)) /\ managerOf (stateOf (call c o)) = newManager.
Proof.
  intros c o H Hm.
  destruct (orchInitialize_fails guarded eventBusDelivers loggerConfigure loggerClose
              freshImpl terminalHooks memoryHooks mcpHooks coordinationConfig
              coordDoStart coordDoStop coordAfterStart coordBeforeStop coordAfterStop
              coordDoHealthCheck o H) as (R & N & _).
  pose proof (orchInitialize_manager o H) as G. rewrite Hm in G.
  change (stateOf (stopAll (@newManager Impl))) with (@newManager Impl) in G.
  destruct c; unfold OrchestratorApi.call.
  - unfold tryCatch, bind, ret.
    destruct (orchInitialize o) as [[o1 t1] r1]. outcome. subst r1.
    outcome. split; assumption.
  - unfold tryCatch. rewrite (orchShutdown_noop o H). outcome. split; assumption.
  - assert (E : stateOf (tryCatch (orchRestart ;; ret tt) (fun _ => ret tt) o) =
                stateOf (orchInitialize o)).
    { unfold tryCatch, BackendOrchestrator.restart. unfold bind, tell, ret.
      rewrite (orchShutdown_noop o H).
      destruct (orchInitialize o) as [[o1 t1] [r1|e1]]; reflexivity. }
    rewrite E. split; assumption.
  - assert (E : stateOf (tryCatch (getStatus ;; ret tt) (fun _ => ret tt) o) = o).
    { unfold OrchestratorApi.getStatus, tryCatch, BackendOrchestrator.onManager.
      run_method. rewrite Hm. cbn. rewrite <- Hm. apply orchestrator_eta. }
    rewrite E. split; assumption.
  - assert (E : stateOf (tryCatch (orchRestartService serviceName) (fun _ => ret tt) o) = o).
    { unfold OrchestratorApi.restartService, tryCatch, BackendOrchestrator.onManager.
      rewrite Hm, restartService_eq. cbn. rewrite <- Hm. apply orchestrator_eta. }
    rewrite E. split; assumption.
  - assert (E : stateOf (tryCatch (orchGetServiceHealth ;; ret tt) (fun _ => ret tt) o) = o).
    { unfold OrchestratorApi.getServiceHealth, tryCatch, BackendOrchestrator.onManager.
      run_method. rewrite Hm. cbn. rewrite <- Hm. apply orchestrator_eta. }
    rewrite E. split; assumption.
Qed.

Lemma callAll_keeps_idle : forall cs (o : Orch),
  neverReady o -> managerOf o = newManager ->
  neverReady (stateOf (callAll cs o)) /\ managerOf (stateOf (callAll cs o)) = newManager.
Proof.
  induction cs as [|c cs IH]; intros o H Hm.
  - split; assumption.
  - cbn [OrchestratorApi.callAll]. unfold bind.
    destruct (call_keeps_idle c o H Hm) as (N1 & M1).
    assert (exists o1 t1, call c o = (o1, t1, Val tt)) as (o1 & t1 & E).
    { unfold OrchestratorApi.call, tryCatch, ret.
      match goal with |- context [match ?X with _ => _ end] =>
        destruct X as [[o1 t1] [[]|e1]] end; eexists _, _; reflexivity. }
    rewrite E in *. outcome.
    specialize (IH o1 N1 M1).
    destruct (callAll cs o1) as [[o2 t2] r2]. exact IH.
Qed.

(** X28.  An orchestrator never holds a service.  Whatever calls of its six
    public methods it has served since it was constructed, it is not
    initialized and its service manager is empty, so that
    [getServiceHealth()] answers with no entry, [restartService(n)] raises
    "Service not found" for every [n], [getStatus()] reports an
    uninitialized orchestrator without services, and [checkBackendHealth]
    reports it unhealthy without naming an issue. *)
Theorem orchestrator_holds_no_service : forall cs,
  let o := stateOf (callAll cs newOrchestrator) in
  initializedOf o = false /\
  managerOf o = newManager /\
  orchGetServiceHealth o = (o, [], Val []) /\
  (forall n, orchRestartService n o =
     (o, [], Exc (mkExn ServiceError ("Service not found: " +++ n)))) /\
  getStatus o = (o, [], Val (mkOrchestratorStatus false [] [] [])) /\
  checkBackendHealth o = (o, [], Val (mkBackendHealth false [] [])).
Proof.
  intros cs o.
  destruct (callAll_keeps_idle cs newOrchestrator
              (newOrchestrator_neverReady newBreaker) eq_refl) as (N & Hm).
  fold o in N, Hm. destruct N as (Ho & _).
  split; [exact Ho|]. split; [exact Hm|].
  clearbody o. destruct o as [i g b]. simpl in Ho, Hm. subst b g.
  repeat split.
Qed.

End OrchestratorCalls.

(** ** backend-init.ts *)

Lemma resultOf_bind : forall {S A B} (m : M S A) (k : A -> M S B) s,
  resultOf (bind m k s) =
  match resultOf (m s) with
  | Val a => resultOf (k a (stateOf (m s)))
  | Exc e => Exc e
  end.
Proof.
  intros S A B m k s. unfold bind.
  destruct (m s) as [[s1 t1] [a|e]]; [|reflexivity].
  outcome. destruct (k a s1) as [[s2 t2] r2]. reflexivity.
Qed.

(** A handler that throws again passes the error of the body on. *)
Lemma tryCatch_rethrows : forall {S A} (m : M S A) (h : Exn -> M S A) s,
  (forall e s', resultOf (h e s') = Exc e) ->
  resultOf (tryCatch m h s) = resultOf (m s).
Proof.
  intros S A m h s H. unfold tryCatch.
  destruct (m s) as [[s1 t1] [a|e]]; [reflexivity|].
  specialize (H e s1). destruct (h e s1) as [[s2 t2] r2]. exact H.
Qed.

(** A handler that throws [e0] leaves no other error. *)
Lemma tryCatch_replaces : forall {S A} (m : M S A) (e0 : Exn) s,
  match resultOf (tryCatch m (fun _ => throw e0) s) with
  | Val _ => True
  | Exc e => e = e0
  end.
Proof.
  intros S A m e0 s. unfold tryCatch, throw.
  destruct (m s) as [[s1 t1] [a|e]]; outcome; [exact I|reflexivity].
Qed.

Section BackendInitFacts.
Context {Impl Breaker : Type}.
Variable newBreaker : string -> Breaker.
Variable guarded : Breaker -> nat -> (Impl -> Impl * option string) -> Impl ->
                   Breaker * Impl * option string.
Variable eventBusDelivers : bool.
Variable loggerConfigure : Impl -> Impl * option string.
Variable loggerClose : Impl -> Impl * Settle.
Variable freshImpl : Impl.
Variable terminalHooks memoryHooks mcpHooks : Hooks Impl.
Variable coordinationConfig : CoordinationConfig.
Variable coordDoStart coordDoStop : Impl -> Impl * Settle.
Variable coordAfterStart coordBeforeStop coordAfterStop : Impl -> Impl * option string.
Variable coordDoHealthCheck : Impl -> Impl * (bool + string).
Variable Env : Type.
Variable configInit : Env -> Env * option Exn.
Variable configLoad : string -> Env -> Env * option Exn.
Variable configLoadDefault : Env -> Env * option Exn.
Variable configSet : string -> JsValue -> Env -> Env * option Exn.
Variable configGet : Env -> Env * option Exn.
Variable loggerGetInstance : Env -> Env * option Exn.
Variable configureLogger : Env -> Env * option Exn.
Variable newEventBus : Env -> Env * option Exn.

Local Abbreviation Orch := (BackendOrchestrator.Orchestrator Impl Breaker).
Local Abbreviation orchInitialize :=
  (BackendOrchestrator.initialize Impl Breaker guarded eventBusDelivers
     loggerConfigure loggerClose freshImpl terminalHooks memoryHooks mcpHooks
     coordinationConfig coordDoStart coordDoStop coordAfterStart coordBeforeStop
     coordAfterStop coordDoHealthCheck).
Local Abbreviation initializeBackend :=
  (BackendInit.initializeBackend Impl Breaker newBreaker guarded eventBusDelivers
     loggerConfigure loggerClose freshImpl terminalHooks memoryHooks mcpHooks
     coordinationConfig coordDoStart coordDoStop coordAfterStart coordBeforeStop
     coordAfterStop coordDoHealthCheck Env configInit configLoad configLoadDefault
     configSet configGet loggerGetInstance configureLogger newEventBus).
Local Abbreviation quickInit :=
  (BackendInit.quickInit Impl Breaker newBreaker guarded eventBusDelivers
     loggerConfigure loggerClose freshImpl terminalHooks memoryHooks mcpHooks
     coordinationConfig coordDoStart coordDoStop coordAfterStart coordBeforeStop
     coordAfterStop coordDoHealthCheck Env configInit configLoad configLoadDefault
     configSet configGet loggerGetInstance configureLogger newEventBus).
Local Abbreviation productionInit :=
  (BackendInit.productionInit Impl Breaker newBreaker guarded eventBusDelivers
     loggerConfigure loggerClose freshImpl terminalHooks memoryHooks mcpHooks
     coordinationConfig coordDoStart coordDoStop coordAfterStart coordBeforeStop
     coordAfterStop coordDoHealthCheck Env configInit configLoad configLoadDefault
     configSet configGet loggerGetInstance configureLogger newEventBus).
Local Abbreviation Run := (BackendInit.Run Impl Breaker Env).
Local Abbreviation external := (BackendInit.external Impl Breaker Env).
Local Abbreviation onOrchestrator := (BackendInit.onOrchestrator Impl Breaker Env).

Lemma external_result : forall f (s : Run),
  match resultOf (external f s) with
  | Val _ => True
  | Exc e => snd (f (fst s)) = Some e
  end.
Proof.
  intros f s. unfold BackendInit.external.
  destruct (f (fst s)) as [env [e|]]; outcome; [reflexivity|exact I].
Qed.

Lemma onOrchestrator_result : forall {A} (m : M Orch A) env o,
  resultOf (onOrchestrator m (env, Some o)) = resultOf (m o).
Proof.
  intros A m env o. unfold BackendInit.onOrchestrator. outcome.
  destruct (m o) as [[o1 t1] r1]. reflexivity.
Qed.

(** The cleanup in the handler of [initializeBackend] never hides the
    error. *)
Lemma initializeBackend_handler : forall {A} error (s : Run),
  resultOf
    ((s <- get ;;
      match snd s with
      | Some _ =>
          tryCatch (onOrchestrator (BackendOrchestrator.shutdown Impl Breaker))
            (fun _ => ret tt)
      | None => ret tt
      end ;;
      @throw Run A error) s) = Exc error.
Proof.
  intros A error s. unfold bind at 1, get at 1.
  destruct (snd s) as [o|].
  - unfold bind, tryCatch, ret, throw.
    destruct (onOrchestrator _ s) as [[s1 t1] [[]|e1]]; reflexivity.
  - reflexivity.
Qed.

(** X29.  [initializeBackend] never returns a result: whatever the options
    and whatever the configuration manager, the logger and the event bus do,
    it raises.  The error is one of the three InitializationErrors of its
    own set-up steps, an error thrown by [configManager.get()], or -- when
    the set-up went through -- the "Backend orchestration failed" of the
    orchestrator, whose [initialize] cannot succeed.  [quickInit] and
    [productionInit] raise likewise. *)
Theorem initializeBackend_never_returns : forall options env,
  (exists e,
     resultOf (initializeBackend options env) = Exc e /\
     (In e backendInitErrors \/ exists env', snd (configGet env') = Some e)) /\
  (forall environment,
     raised (resultOf (quickInit environment env)) = true) /\
  (forall path, raised (resultOf (productionInit path env)) = true).
Proof.
  assert (Main : forall options env, exists e,
            resultOf (initializeBackend options env) = Exc e /\
            (In e backendInitErrors \/ exists env', snd (configGet env') = Some e)).
  { intros options env. unfold BackendInit.initializeBackend.
    match goal with |- context [tryCatch ?m ?h ?s] =>
      assert (E : resultOf (tryCatch m h s) = resultOf (m s))
        by (apply tryCatch_rethrows; intros e s'; apply initializeBackend_handler);
      revert E; destruct (tryCatch m h s) as [[s1 t1] r1]; intros E;
      assert (E' : r1 = resultOf (m s)) by exact E;
      change (exists e, r1 = Exc e /\
                (In e backendInitErrors \/ exists env', snd (configGet env') = Some e));
      rewrite E'; clear E E' s1 t1 r1
    end.
    rewrite resultOf_bind.
    match goal with |- context [BackendInit.loadConfiguration ?a ?b ?c ?d ?e ?f ?g ?o ?s] =>
      pose proof (tryCatch_replaces
        (S := Run) (A := unit)) as L;
      unfold BackendInit.loadConfiguration at 1 2;
      match goal with |- context [tryCatch ?m (fun _ => throw ?e0) s] =>
        specialize (L m e0 s);
        destruct (resultOf (tryCatch m (fun _ => throw e0) s)) as [[]|e1];
          [|subst e1; eexists; split; [reflexivity|left; simpl; tauto]];
        clear L; generalize (stateOf (tryCatch m (fun _ => throw e0) s)); intros s1
      end
    end.
    rewrite resultOf_bind.
    pose proof (external_result configGet s1) as L.
    destruct (resultOf (external configGet s1)) as [[]|e1];
      [|eexists; split; [reflexivity|right; eexists; exact L]].
    clear L. generalize (stateOf (external configGet s1)). clear s1. intros s1.
    rewrite resultOf_bind. unfold BackendInit.initializeLogging at 1 2.
    match goal with |- context [tryCatch ?m (fun _ => throw ?e0) s1] =>
      pose proof (tryCatch_replaces m e0 s1) as L;
      destruct (resultOf (tryCatch m (fun _ => throw e0) s1)) as [[]|e1];
        [|subst e1; eexists; split; [reflexivity|left; simpl; tauto]];
      clear L; generalize (stateOf (tryCatch m (fun _ => throw e0) s1));
      clear s1; intros s1
    end.
    rewrite resultOf_bind. unfold BackendInit.initializeEventBus at 1 2.
    match goal with |- context [tryCatch ?m (fun _ => throw ?e0) s1] =>
      pose proof (tryCatch_replaces m e0 s1) as L;
      destruct (resultOf (tryCatch m (fun _ => throw e0) s1)) as [[]|e1];
        [|subst e1; eexists; split; [reflexivity|left; simpl; tauto]];
      clear L; generalize (stateOf (tryCatch m (fun _ => throw e0) s1));
      clear s1; intros s1
    end.
    rewrite resultOf_bind. unfold modify at 1 2. outcome.
    rewrite resultOf_bind, onOrchestrator_result.
    destruct (orchInitialize_fails guarded eventBusDelivers loggerConfigure loggerClose
                freshImpl terminalHooks memoryHooks mcpHooks coordinationConfig
                coordDoStart coordDoStop coordAfterStart coordBeforeStop coordAfterStop
                coordDoHealthCheck _ (newOrchestrator_neverReady newBreaker))
      as (R & _).
    rewrite R. eexists. split; [reflexivity|]. left. simpl. tauto. }
  intros options env. split; [apply Main|]. split.
  - intros environment. unfold BackendInit.quickInit.
    destruct (Main (mkBackendInitOptions None
       (Some (match environment with Development => LDebug | _ => LWarn end))
       (match environment with TestRun => true | _ => false end)
       (Some environment)) env) as (e & -> & _). reflexivity.
  - intros path. unfold BackendInit.productionInit.
    destruct (Main (mkBackendInitOptions path (Some LInfo) false (Some Production)) env)
      as (e & -> & _). reflexivity.
Qed.

End BackendInitFacts.

(** ** services/orchestrator-service.ts *)

Lemma verifyDependencies_thrown : forall deps,
  snd (verifyDependencies deps) =
  option_map (fun d => "Dependency not available: " +++ fst d)
    (find (fun d => isMissing (snd d)) deps).
Proof.
  induction deps as [|[n p] deps IH]; [reflexivity|].
  destruct p as [| |h|msg]; cbn [verifyDependencies find isMissing snd fst option_map].
  - reflexivity.
  - exact IH.
  - destruct (negb (healthy h)); exact IH.
  - exact IH.
Qed.

Section OrchestratorServiceFacts.
Context {Impl : Type}.
Variable orchDoStart orchDoStop : Impl -> Impl * Settle.
Variable orchAfterStart orchBeforeStop orchAfterStop : Impl -> Impl * option string.
Variable orchDoHealthCheck : Impl -> Impl * (bool + string).

Local Abbreviation service :=
  (OrchestratorService Impl orchDoStart orchDoStop orchAfterStart orchBeforeStop
     orchAfterStop orchDoHealthCheck).

(** X30.  The health of its dependencies never keeps the OrchestratorService
    from starting.  [beforeStart] raises only for a dependency that is
    missing, and names the first such in the order terminalManager,
    memoryManager, coordinationManager, mcpServer; the error it throws for
    a dependency that answers unhealthy is caught on the spot and logged as
    a warning, like an error of the check itself.  So [start()] of a new
    service whose four dependencies are present reaches [doStart], also
    when every one of them reports trouble. *)
Theorem unhealthy_dependency_does_not_stop_start :
  forall terminalManager memoryManager coordinationManager mcpServer,
  let dependencies :=
    [("terminalManager", terminalManager); ("memoryManager", memoryManager);
     ("coordinationManager", coordinationManager); ("mcpServer", mcpServer)] in
  snd (orchestratorBeforeStart terminalManager memoryManager coordinationManager
         mcpServer) =
    option_map (fun d => "Dependency not available: " +++ fst d)
      (find (fun d => isMissing (snd d)) dependencies) /\
  (forall cfg i,
     existsb (fun d => isMissing (snd d)) dependencies = false ->
     In HDoStart
       (hooksCalled
          (traceOf (start (service terminalManager memoryManager coordinationManager
                             mcpServer cfg i))))) /\
  (forall cfg i,
     existsb (fun d => isMissing (snd d)) dependencies = true ->
     hooksCalled
       (traceOf (start (service terminalManager memoryManager coordinationManager
                          mcpServer cfg i))) = [HBeforeStart] /\
     state (stateOf (start (service terminalManager memoryManager coordinationManager
                              mcpServer cfg i))) = ERROR).
Proof.
  intros tm mm cm mcp dependencies.
  assert (T : snd (orchestratorBeforeStart tm mm cm mcp) =
              option_map (fun d => "Dependency not available: " +++ fst d)
                (find (fun d => isMissing (snd d)) dependencies))
    by apply verifyDependencies_thrown.
  split; [exact T|]. split.
  - intros cfg i H.
    assert (N : snd (orchestratorBeforeStart tm mm cm mcp) = None).
    { rewrite T. unfold dependencies in *. cbn [existsb find snd] in *.
      destruct (isMissing tm); [discriminate H|].
      destruct (isMissing mm); [discriminate H|].
      destruct (isMissing cm); [discriminate H|].
      destruct (isMissing mcp); [discriminate H|]. reflexivity. }
    rewrite start_proceeds by (simpl; discriminate).
    unfold OrchestratorService, orchestratorHooks, newService. run_service.
    cbn [hooks beforeStart doStart afterStart impl name withState config state
         fst snd]. rewrite N.
    repeat (break_inner; simpl); simpl; auto 10.
  - intros cfg i H.
    assert (N : exists msg, snd (orchestratorBeforeStart tm mm cm mcp) = Some msg).
    { rewrite T. unfold dependencies in *. cbn [existsb find snd] in *.
      destruct (isMissing tm); [eexists; reflexivity|].
      destruct (isMissing mm); [eexists; reflexivity|].
      destruct (isMissing cm); [eexists; reflexivity|].
      destruct (isMissing mcp); [eexists; reflexivity|discriminate H]. }
    destruct N as (msg & N).
    rewrite start_proceeds by (simpl; discriminate).
    unfold OrchestratorService, orchestratorHooks, newService. run_service.
    cbn [hooks beforeStart doStart afterStart impl name withState config state
         fst snd]. rewrite N.
    split; reflexivity.
Qed.

End OrchestratorServiceFacts.
